(** * Call specialisation of native calls (js/src/jit/MCallOptimize.cpp)

    A shallow embedding of the per-callee specialisers of [IonBuilder]:
    every specialiser inspects a [CallInfo], reads type information of the
    call site, and either declines ([InliningStatus_NotInlined]) or appends
    instructions to the current basic block and pushes one result value.

    The instruction graph is modelled by the instructions of the current
    block (in the order they were added), its value stack, and the trace of
    [add]/[push] events.  Instructions are terms: an operand of an
    instruction is the term of the definition it refers to. *)

From Stdlib Require Import ZArith List Bool String Ascii PrimFloat Lia.
From Stdlib Require Uint63.
Import ListNotations.

Open Scope Z_scope.

(** ** Types of the intermediate representation *)

(** Modelled from the spec: the enumeration [MIRType] and the tests
    [IsNumberType], [IsFloatingPointType] are declared in IonTypes.h, outside
    MCallOptimize.cpp.  A value "carries a statically-known primitive type
    tag (integer, floating-point, string, boolean, object, undefined, null,
    or unknown/boxed)"; the tags are named as the specialisers name them. *)
Inductive MIRType : Set :=
  | MIRType_Undefined
  | MIRType_Null
  | MIRType_Boolean
  | MIRType_Int32
  | MIRType_Double
  | MIRType_Float32
  | MIRType_String
  | MIRType_Symbol
  | MIRType_Object
  | MIRType_Value.

Scheme Equality for MIRType.

Definition IsFloatingPointType (t : MIRType) : bool :=
  match t with
  | MIRType_Double | MIRType_Float32 => true
  | _ => false
  end.

Definition IsNumberType (t : MIRType) : bool :=
  match t with
  | MIRType_Int32 | MIRType_Double | MIRType_Float32 => true
  | _ => false
  end.

(** Modelled from the spec: [InliningStatus] is declared in IonBuilder.h.
    "Three outcomes only": NotInlined, Inlined, Error. *)
Inductive InliningStatus : Set :=
  | InliningStatus_Error
  | InliningStatus_NotInlined
  | InliningStatus_Inlined.

Scheme Equality for InliningStatus.

(** ** Element types of typed arrays *)

(** Modelled from the spec: [Scalar::Type] is declared outside
    MCallOptimize.cpp.  The element types are the "8/16/32-bit integers
    signed or unsigned" of the allow-list, and those
    [atomicsMeetsPreconditions] excludes by name (floating types and
    Uint8Clamped); [TypeMax] stands for no known element type. *)

Module Scalar.
Inductive Type_ : Set :=
  | Int8 | Uint8 | Int16 | Uint16 | Int32 | Uint32
  | Float32 | Float64 | Uint8Clamped | TypeMax.
End Scalar.

(** ** Classes *)

(** Modelled from the spec: the classes are objects declared with their
    types, outside MCallOptimize.cpp; a class is matched by "exact
    identity".  The classes listed are the ones the specialisers name. *)

Inductive Class : Set :=
  | ArrayObject_class
  | RegExpObject_class
  | OutlineTransparentTypedObject_class
  | OutlineOpaqueTypedObject_class
  | InlineTransparentTypedObject_class
  | InlineOpaqueTypedObject_class
  | ScalarTypeDescr_class
  | ReferenceTypeDescr_class
  | SizedArrayTypeDescr_class
  | UnsizedArrayTypeDescr_class
  | PlainObject_class.

Scheme Equality for Class.

(** [knownClass == clasp] on [const Class *], where either side may be null. *)
Definition clasp_eqb (a b : option Class) : bool :=
  match a, b with
  | Some x, Some y => Class_beq x y
  | None, None => true
  | _, _ => false
  end.

(** ** Values *)

(** Modelled from the spec: [js::Value] and [JSString] are declared in the
    public headers of the engine.  A constant is a value of a "primitive
    type tag"; of a string the specialisers read whether it is linear, its
    length and its characters. *)

(** A string: its UTF-16 code units, and whether it is linear (not a rope). *)
Record JSString : Set := mkJSString {
  isLinear : bool;
  chars : list Z
}.

Definition length_ (s : JSString) : Z := Z.of_nat (List.length (chars s)).

(** [latin1OrTwoByteChar(idx)]; the source only calls it in bounds. *)
Definition latin1OrTwoByteChar (s : JSString) (idx : Z) : Z :=
  nth (Z.to_nat idx) (chars s) 0.

Definition linearString (s : string) : JSString :=
  {| isLinear := true;
     chars := map (fun c => Z.of_N (N_of_ascii c)) (list_ascii_of_string s) |}.

Inductive Value : Set :=
  | UndefinedValue
  | NullValue
  | BooleanValue (b : bool)
  | Int32Value (i : Z)
  | DoubleValue (d : float)
  | StringValue (s : JSString)
  | ObjectValue (o : nat).

Definition isNumber (v : Value) : bool :=
  match v with
  | Int32Value _ | DoubleValue _ => true
  | _ => false
  end.

Definition INT32_MAX : Z := 2147483647.
Definition INT32_MIN : Z := -2147483648.

(** The payload of an int32 value, read as an [int32_t] ([Value::toInt32]). *)
Definition int32 (i : Z) : Z := (i + 2147483648) mod 4294967296 - 2147483648.

Definition float_of_Z (z : Z) : float :=
  if z <? 0 then PrimFloat.opp (PrimFloat.of_uint63 (Uint63.of_Z (- z)))
  else PrimFloat.of_uint63 (Uint63.of_Z z).

(** [Value::toNumber]: an int32 is converted to the double of the same value. *)
Definition toNumber (v : Value) : float :=
  match v with
  | Int32Value i => float_of_Z (int32 i)
  | DoubleValue d => d
  | _ => PrimFloat.nan
  end.

(** ** Type sets: the query interface of type inference *)

(** Modelled from the spec: [types::TemporaryTypeSet], [types::TypeObjectKey]
    and [types::HeapTypeSetKey] are declared in jsinfer.h and defined in
    jsinfer.cpp, outside MCallOptimize.cpp.  A type set is "an immutable,
    queryable abstraction of the set of runtime types/classes a value may
    have", "consumed as a query interface": the records below hold what each
    query the specialisers make answers ("classOf(value) -> knownClass|None,
    hasFlags(value, flagSet) -> bool"). *)

Inductive TypeObjectFlag : Set :=
  | OBJECT_FLAG_SPARSE_INDEXES
  | OBJECT_FLAG_NON_PACKED
  | OBJECT_FLAG_LENGTH_OVERFLOW
  | OBJECT_FLAG_ITERATED.

Scheme Equality for TypeObjectFlag.

Module types.

(** [types::Type]: a primitive type or the type of the objects of a key. *)
Inductive Type_ : Set :=
  | UndefinedType
  | NullType
  | BooleanType
  | Int32Type
  | DoubleType
  | StringType
  | ObjectType (key : nat).

Definition Type_eqb (a b : Type_) : bool :=
  match a, b with
  | UndefinedType, UndefinedType
  | NullType, NullType
  | BooleanType, BooleanType
  | Int32Type, Int32Type
  | DoubleType, DoubleType
  | StringType, StringType => true
  | ObjectType j, ObjectType k => Nat.eqb j k
  | _, _ => false
  end.

(** [HeapTypeSetKey]: the types a property of a type object may hold;
    [property(JSID_VOID)] is the key of the element types. *)
Record HeapTypeSetKey : Set := mkHeapTypeSetKey {
  maybeTypes : list Type_
}.

(** [TypeObjectKey]: [key_typeObject] tells whether the key is a type
    object ([getTypeObject] answers it) or a singleton object. *)
Record TypeObjectKey : Set := mkTypeObjectKey {
  key_id : nat;
  key_typeObject : bool;
  unknownProperties : bool;
  property_JSID_VOID : HeapTypeSetKey
}.

Inductive DoubleConversion : Set :=
  | DontConvertToDoubles
  | MaybeConvertToDoubles
  | AlwaysConvertToDoubles
  | AmbiguousDoubleConversion.

(** [TemporaryTypeSet]: what the queries of the source answer for one set. *)
Record TemporaryTypeSet : Set := mkTemporaryTypeSet {
  getKnownMIRType : MIRType;
  getKnownClass : option Class;
  objectFlags : list TypeObjectFlag;
  objects : list (option TypeObjectKey);
  getSharedTypedArrayType : Scalar.Type_;
  convertDoubleElements : DoubleConversion
}.

Definition getObjectCount (ts : TemporaryTypeSet) : nat :=
  List.length (objects ts).

Definition getObject (ts : TemporaryTypeSet) (i : nat) : option TypeObjectKey :=
  nth i (objects ts) None.

(** [getTypeObject(i)] is null for a singleton object. *)
Definition getTypeObject (ts : TemporaryTypeSet) (i : nat) : option TypeObjectKey :=
  match getObject ts i with
  | Some k => if key_typeObject k then Some k else None
  | None => None
  end.

(** [hasObjectFlags(constraints, flags)]: some flag of [flags] may be set. *)
Definition hasObjectFlags (ts : TemporaryTypeSet) (flags : list TypeObjectFlag) : bool :=
  existsb (fun f => existsb (TypeObjectFlag_beq f) (objectFlags ts)) flags.

(** [hasType(Type::ObjectType(key))]. *)
Definition hasObjectType (ts : TemporaryTypeSet) (key : TypeObjectKey) : bool :=
  existsb (fun o => match o with
                    | Some k => Nat.eqb (key_id k) (key_id key)
                    | None => false
                    end) (objects ts).

(** Modelled from the spec: [HeapTypeSetKey::knownSubset] is defined in
    jsinfer.cpp, which this development does not embed.  The spec:
    "concat additionally requires the receiver's element type-set to
    already be a superset of the argument's element type-set". *)
Definition knownSubset (a b : HeapTypeSetKey) : bool :=
  forallb (fun t => existsb (Type_eqb t) (maybeTypes b)) (maybeTypes a).

End types.

(** Modelled from the spec: [NativeObject] is declared in vm/NativeObject.h.
    A template object is "a concrete prototype object (shape/class + initial
    layout) sampled from prior executions": here the identity of its type
    object and the heap it is allocated in. *)
Inductive InitialHeap : Set := DefaultHeap | TenuredHeap.

Record NativeObject : Set := mkNativeObject {
  type_ : nat;
  initialHeap : InitialHeap
}.

(** ** Definitions and instructions *)

(** Modelled from the spec: the instruction classes are declared in MIR.h.
    "Each node has zero or more input ValueHandles and produces at most one
    output ValueHandle": one constructor per instruction the specialisers
    create, with the operands and flags given to its [New], and [MValue] for
    a value that exists before the call. *)

Inductive TruncateKind : Set := NoTruncate | IndirectTruncate.

Inductive MemoryBarrierRequirement : Set :=
  | DoesNotRequireMemoryBarrier
  | DoesRequireMemoryBarrier.

Inductive AtomicOp : Set :=
  | AtomicFetchAddOp | AtomicFetchSubOp | AtomicFetchAndOp
  | AtomicFetchOrOp | AtomicFetchXorOp.

Inductive MDefinition : Set :=
  (* a value defined before the call: an operand of the call site *)
  | MValue (id : nat) (ty : MIRType) (resultTypes : option types.TemporaryTypeSet)
  | MConstant (v : Value)
  (* arrays *)
  | MArraySplice (object start deleteCount : MDefinition)
  | MArrayJoin (array sep : MDefinition)
  | MArrayConcat (lhs rhs : MDefinition) (templateObj : NativeObject) (heap : InitialHeap)
  (* arithmetic *)
  | MPowHalf (input : MDefinition)
  | MPow (input power : MDefinition) (powerType : MIRType)
  | MDiv (lhs rhs : MDefinition) (ty : MIRType)
  | MMul (lhs rhs : MDefinition) (ty : MIRType)
  | MToInt32 (input : MDefinition)
  | MToDouble (input : MDefinition)
  | MTruncateToInt32 (input : MDefinition)
  | MMinMax (lhs rhs : MDefinition) (ty : MIRType) (isMax : bool)
  | MLimitedTruncate (input : MDefinition) (limit : TruncateKind)
  (* strings *)
  | MStringLength (str : MDefinition)
  | MBoundsCheck (index len : MDefinition)
  | MCharCodeAt (str index : MDefinition)
  (* classes *)
  | MHasClass (object : MDefinition) (clasp : option Class)
  | MBitOr (lhs rhs : MDefinition)
  | MNot (input : MDefinition)
  (* element accesses *)
  | MTypedArrayLength (object : MDefinition)
  | MTypedArrayElements (object : MDefinition)
  | MStoreElement (elements index value : MDefinition)
  | MLoadTypedArrayElement (elements index : MDefinition) (arrayType : Scalar.Type_)
      (barrier : MemoryBarrierRequirement) (resultType : MIRType)
  | MStoreTypedArrayElement (elements index value : MDefinition) (arrayType : Scalar.Type_)
      (barrier : MemoryBarrierRequirement)
  | MCompareExchangeTypedArrayElement (elements index : MDefinition)
      (arrayType : Scalar.Type_) (oldval newval : MDefinition) (resultType : MIRType)
  | MAtomicTypedArrayElementBinop (op : AtomicOp) (elements index : MDefinition)
      (arrayType : Scalar.Type_) (value : MDefinition) (resultType : MIRType).

Definition isConstant (d : MDefinition) : bool :=
  match d with
  | MConstant _ => true
  | _ => false
  end.

(** [toConstant()->value()]; only used under [isConstant]. *)
Definition constantValue (d : MDefinition) : Value :=
  match d with
  | MConstant v => v
  | _ => UndefinedValue
  end.

Definition valueType (v : Value) : MIRType :=
  match v with
  | UndefinedValue => MIRType_Undefined
  | NullValue => MIRType_Null
  | BooleanValue _ => MIRType_Boolean
  | Int32Value _ => MIRType_Int32
  | DoubleValue _ => MIRType_Double
  | StringValue _ => MIRType_String
  | ObjectValue _ => MIRType_Object
  end.

(** Modelled from the spec: [MDefinition::type()] and the result types the
    constructors set are in MIR.h.  A value "carries a statically-known
    primitive type tag": an instruction that is given its type where it is
    created carries it (multiply, divide, min/max, the atomic accesses); a
    conversion has the type it converts to; PowHalf and the generic power
    are doubles. *)
Definition type (d : MDefinition) : MIRType :=
  match d with
  | MValue _ ty _ => ty
  | MConstant v => valueType v
  | MArraySplice _ _ _ => MIRType_Value
  | MArrayJoin _ _ => MIRType_String
  | MArrayConcat _ _ _ _ => MIRType_Object
  | MPowHalf _ => MIRType_Double
  | MPow _ _ _ => MIRType_Double
  | MDiv _ _ ty => ty
  | MMul _ _ ty => ty
  | MToInt32 _ => MIRType_Int32
  | MToDouble _ => MIRType_Double
  | MTruncateToInt32 _ => MIRType_Int32
  | MMinMax _ _ ty _ => ty
  | MLimitedTruncate _ _ => MIRType_Int32
  | MStringLength _ => MIRType_Int32
  | MBoundsCheck _ _ => MIRType_Int32
  | MCharCodeAt _ _ => MIRType_Int32
  | MHasClass _ _ => MIRType_Boolean
  | MBitOr _ _ => MIRType_Int32
  | MNot _ => MIRType_Boolean
  | MTypedArrayLength _ => MIRType_Int32
  | MTypedArrayElements _ => MIRType_Value
  | MStoreElement _ _ _ => MIRType_Value
  | MLoadTypedArrayElement _ _ _ _ ty => ty
  | MStoreTypedArrayElement _ _ _ _ _ => MIRType_Value
  | MCompareExchangeTypedArrayElement _ _ _ _ _ ty => ty
  | MAtomicTypedArrayElementBinop _ _ _ _ _ ty => ty
  end.

Definition resultTypeSet (d : MDefinition) : option types.TemporaryTypeSet :=
  match d with
  | MValue _ _ ts => ts
  | _ => None
  end.

(** ** The call being specialised *)

(** Modelled from the spec: [CallInfo] is declared in IonBuilder.h.  A call
    site has an "ordered sequence of argument value-handles, receiver
    value-handle, callee identity, isConstructing flag". *)

Record CallInfo : Set := mkCallInfo {
  fun_ : MDefinition;
  thisArg : MDefinition;
  argv : list MDefinition;
  constructing : bool
}.

Definition argc (callInfo : CallInfo) : Z := Z.of_nat (List.length (argv callInfo)).

(** [getArg(i)].  The source asserts [i < argc()]; every specialiser checks
    [argc()] before it reads an argument. *)
Definition getArg (callInfo : CallInfo) (i : nat) : MDefinition :=
  nth i (argv callInfo) (MConstant UndefinedValue).

(** ** The builder *)

(** Modelled from the spec: [MBasicBlock] (MIRGraph.h) and the members of
    [IonBuilder] (IonBuilder.h) are declared outside MCallOptimize.cpp.
    Emission "appends nodes to the current block", "always pushing exactly
    one logical result value"; the block keeps its instructions in the order
    of their addition, its value stack, and the trace of both. *)

Inductive BlockEvent : Set :=
  | Added (ins : MDefinition)
  | Pushed (def : MDefinition).

Record MBasicBlock : Set := mkMBasicBlock {
  instructions : list MDefinition;
  stack : list MDefinition;
  trace : list BlockEvent
}.

(** What the builder reads at the bytecode of the call ([pc]) and from its
    collaborators; none of it is changed by a specialiser.  The last two
    fields are the answers of the allocator of the compilation: whether a
    resume point can be attached, and whether a vector that holds [n]
    elements can grow by one ([append] answers false when it cannot). *)
Record CallSite : Set := mkCallSite {
  bytecodeTypes : types.TemporaryTypeSet;
  BytecodeIsPopped : bool;
  ArrayPrototypeHasIndexedProperty : bool;
  getTemplateObjectForNative : option NativeObject;
  resumePointAvailable : bool;
  appendAvailable : nat -> bool
}.

Record IonBuilder : Set := mkIonBuilder {
  pc : CallSite;
  current : MBasicBlock;
  implicitlyUsed : list MDefinition;
  resumePoints : list MDefinition
}.

Definition getInlineReturnTypeSet (b : IonBuilder) : types.TemporaryTypeSet :=
  bytecodeTypes (pc b).

Definition getInlineReturnType (b : IonBuilder) : MIRType :=
  types.getKnownMIRType (getInlineReturnTypeSet b).

(** A computation of the builder: a result and the builder after it. *)
Definition Build (A : Type) : Type := IonBuilder -> A * IonBuilder.

Definition ret {A : Type} (a : A) : Build A := fun b => (a, b).

Definition bind {A B : Type} (m : Build A) (k : A -> Build B) : Build B :=
  fun b => let (a, b') := m b in k a b'.

Definition ask {A : Type} (f : IonBuilder -> A) : Build A := fun b => (f b, b).

Declare Scope build_scope.
Delimit Scope build_scope with build.
Notation "x <- m ;; k" := (bind m (fun x => k))
  (at level 61, m at next level, right associativity) : build_scope.
Notation "m ;; k" := (bind m (fun _ => k))
  (at level 61, right associativity) : build_scope.
Open Scope build_scope.

Definition withCurrent (f : MBasicBlock -> MBasicBlock) : Build unit :=
  fun b => (tt, {| pc := pc b; current := f (current b);
                   implicitlyUsed := implicitlyUsed b;
                   resumePoints := resumePoints b |}).

(** [current->add(ins)] *)
Definition add (ins : MDefinition) : Build unit :=
  withCurrent (fun blk =>
    {| instructions := instructions blk ++ [ins];
       stack := stack blk;
       trace := trace blk ++ [Added ins] |}).

(** [current->push(def)] *)
Definition push (def : MDefinition) : Build unit :=
  withCurrent (fun blk =>
    {| instructions := instructions blk;
       stack := def :: stack blk;
       trace := trace blk ++ [Pushed def] |}).

(** [callInfo.setImplicitlyUsedUnchecked()]: flags the callee, [this] and the
    arguments; no instruction is added and nothing is pushed. *)
Definition setImplicitlyUsedUnchecked (callInfo : CallInfo) : Build unit :=
  fun b => (tt, {| pc := pc b; current := current b;
                   implicitlyUsed := implicitlyUsed b ++
                     fun_ callInfo :: thisArg callInfo :: argv callInfo;
                   resumePoints := resumePoints b |}).

(** Modelled from the spec: [IonBuilder::resumeAfter] is defined in
    IonBuilder.cpp.  "attachResumePoint(instruction), guaranteed to succeed
    unless the graph is in an invalid state": it attaches a resume point to
    [ins], and answers false when none can be made. *)
Definition resumeAfter (ins : MDefinition) : Build bool :=
  fun b =>
    if resumePointAvailable (pc b)
    then (true, {| pc := pc b; current := current b;
                   implicitlyUsed := implicitlyUsed b;
                   resumePoints := resumePoints b ++ [ins] |})
    else (false, b).

(** Modelled from the spec: [IonBuilder::pushConstant] is defined in
    IonBuilder.cpp, which this development does not embed.  It creates the
    constant, adds it to the current block and pushes it ("always pushing
    exactly one logical result value (which may be a placeholder constant
    for void-returning specializations)"). *)
Definition pushConstant (v : Value) : Build bool :=
  add (MConstant v) ;; push (MConstant v) ;; ret true.

(** Modelled from the spec: [IonBuilder::addBoundsCheck] is defined in
    IonBuilder.cpp, which this development does not embed.  "emit an
    explicit bounds-check instruction ahead of the character-access
    instruction": it adds the check of [index] against [length] and returns
    it as the checked index. *)
Definition addBoundsCheck (index length : MDefinition) : Build MDefinition :=
  add (MBoundsCheck index length) ;; ret (MBoundsCheck index length).

(** ** Array natives *)

Definition inlineArraySplice (callInfo : CallInfo) : Build InliningStatus :=
  if negb (argc callInfo =? 2) || constructing callInfo
  then ret InliningStatus_NotInlined else
  (* Ensure |this|, argument and result are objects. *)
  returnType <- ask getInlineReturnType ;;
  if negb (MIRType_beq returnType MIRType_Object)
  then ret InliningStatus_NotInlined else
  if negb (MIRType_beq (type (thisArg callInfo)) MIRType_Object)
  then ret InliningStatus_NotInlined else
  if negb (MIRType_beq (type (getArg callInfo 0)) MIRType_Int32)
  then ret InliningStatus_NotInlined else
  if negb (MIRType_beq (type (getArg callInfo 1)) MIRType_Int32)
  then ret InliningStatus_NotInlined else
  setImplicitlyUsedUnchecked callInfo ;;
  (* Specialize arr.splice(start, deleteCount) with unused return value. *)
  popped <- ask (fun b => BytecodeIsPopped (pc b)) ;;
  if negb popped then ret InliningStatus_NotInlined else
  let ins := MArraySplice (thisArg callInfo) (getArg callInfo 0) (getArg callInfo 1) in
  add ins ;;
  pushConstant UndefinedValue ;;
  resumed <- resumeAfter ins ;;
  if negb resumed then ret InliningStatus_Error else
  ret InliningStatus_Inlined.

Definition inlineArrayJoin (callInfo : CallInfo) : Build InliningStatus :=
  if negb (argc callInfo =? 1) || constructing callInfo
  then ret InliningStatus_Error else
  returnType <- ask getInlineReturnType ;;
  if negb (MIRType_beq returnType MIRType_String)
  then ret InliningStatus_Error else
  if negb (MIRType_beq (type (thisArg callInfo)) MIRType_Object)
  then ret InliningStatus_Error else
  if negb (MIRType_beq (type (getArg callInfo 0)) MIRType_String)
  then ret InliningStatus_Error else
  setImplicitlyUsedUnchecked callInfo ;;
  let ins := MArrayJoin (thisArg callInfo) (getArg callInfo 0) in
  add ins ;;
  push ins ;;
  ret InliningStatus_Inlined.

Definition inlineArrayConcat_argTypes
    (thisElemTypes : types.HeapTypeSetKey) : list (option types.TypeObjectKey) -> bool :=
  fix loop (objs : list (option types.TypeObjectKey)) : bool :=
    match objs with
    | [] => true
    | None :: rest => loop rest
    | Some argType :: rest =>
        if types.unknownProperties argType then false else
        let elemTypes := types.property_JSID_VOID argType in
        if negb (types.knownSubset elemTypes thisElemTypes) then false else
        loop rest
    end.

Definition inlineArrayConcat (callInfo : CallInfo) : Build InliningStatus :=
  if negb (argc callInfo =? 1) || constructing callInfo
  then ret InliningStatus_NotInlined else
  (* Ensure |this|, argument and result are objects. *)
  returnType <- ask getInlineReturnType ;;
  if negb (MIRType_beq returnType MIRType_Object)
  then ret InliningStatus_NotInlined else
  if negb (MIRType_beq (type (thisArg callInfo)) MIRType_Object)
  then ret InliningStatus_NotInlined else
  if negb (MIRType_beq (type (getArg callInfo 0)) MIRType_Object)
  then ret InliningStatus_NotInlined else
  (* |this| and the argument must be dense arrays. *)
  match resultTypeSet (thisArg callInfo), resultTypeSet (getArg callInfo 0) with
  | Some thisTypes, Some argTypes =>
    if negb (clasp_eqb (types.getKnownClass thisTypes) (Some ArrayObject_class))
    then ret InliningStatus_NotInlined else
    if types.hasObjectFlags thisTypes
         [OBJECT_FLAG_SPARSE_INDEXES; OBJECT_FLAG_LENGTH_OVERFLOW]
    then ret InliningStatus_NotInlined else
    if negb (clasp_eqb (types.getKnownClass argTypes) (Some ArrayObject_class))
    then ret InliningStatus_NotInlined else
    if types.hasObjectFlags argTypes
         [OBJECT_FLAG_SPARSE_INDEXES; OBJECT_FLAG_LENGTH_OVERFLOW]
    then ret InliningStatus_NotInlined else
    (* Watch out for indexed properties on the prototype. *)
    indexed <- ask (fun b => ArrayPrototypeHasIndexedProperty (pc b)) ;;
    if indexed then ret InliningStatus_NotInlined else
    (* Require the 'this' types to have a specific type. *)
    if negb (Nat.eqb (types.getObjectCount thisTypes) 1)
    then ret InliningStatus_NotInlined else
    match types.getTypeObject thisTypes 0 with
    | None => ret InliningStatus_NotInlined
    | Some thisType =>
      if types.unknownProperties thisType then ret InliningStatus_NotInlined else
      (* Don't inline if 'this' is packed and the argument may not be packed. *)
      if negb (types.hasObjectFlags thisTypes [OBJECT_FLAG_NON_PACKED]) &&
         types.hasObjectFlags argTypes [OBJECT_FLAG_NON_PACKED]
      then ret InliningStatus_NotInlined else
      (* Check that type information already reflects possible side effects
         of this call. *)
      let thisElemTypes := types.property_JSID_VOID thisType in
      resTypes <- ask getInlineReturnTypeSet ;;
      if negb (types.hasObjectType resTypes thisType)
      then ret InliningStatus_NotInlined else
      if negb (inlineArrayConcat_argTypes thisElemTypes (types.objects argTypes))
      then ret InliningStatus_NotInlined else
      (* Inline the call. *)
      template <- ask (fun b => getTemplateObjectForNative (pc b)) ;;
      match template with
      | None => ret InliningStatus_NotInlined
      | Some templateObj =>
        if negb (Nat.eqb (type_ templateObj) (types.key_id thisType))
        then ret InliningStatus_NotInlined else
        setImplicitlyUsedUnchecked callInfo ;;
        let ins := MArrayConcat (thisArg callInfo) (getArg callInfo 0)
                                templateObj (initialHeap templateObj) in
        add ins ;;
        push ins ;;
        resumed <- resumeAfter ins ;;
        if negb resumed then ret InliningStatus_Error else
        ret InliningStatus_Inlined
      end
    end
  | _, _ => ret InliningStatus_NotInlined
  end.

(** ** Math natives *)

(** The constant powers of [inlineMathPow]: the source tests the exponent
    against each constant in turn, a later match replacing [output]. *)
Definition inlineMathPow_constant (base : MDefinition) (outputType : MIRType)
    (pow : float) : Build (option MDefinition) :=
  (* Math.pow(x, 0.5) is a sqrt with edge-case detection. *)
  output <- (if PrimFloat.eqb pow 0.5%float
             then let half := MPowHalf base in
                  add half ;; ret (Some half)
             else ret None) ;;
  (* Math.pow(x, -0.5) == 1 / Math.pow(x, 0.5), even for edge cases. *)
  output <- (if PrimFloat.eqb pow (-0.5)%float
             then let half := MPowHalf base in
                  add half ;;
                  let one := MConstant (DoubleValue 1%float) in
                  add one ;;
                  let div := MDiv one half MIRType_Double in
                  add div ;; ret (Some div)
             else ret output) ;;
  (* Math.pow(x, 1) == x. *)
  output <- (if PrimFloat.eqb pow 1%float then ret (Some base) else ret output) ;;
  (* Math.pow(x, 2) == x*x. *)
  output <- (if PrimFloat.eqb pow 2%float
             then let mul := MMul base base outputType in
                  add mul ;; ret (Some mul)
             else ret output) ;;
  (* Math.pow(x, 3) == x*x*x. *)
  output <- (if PrimFloat.eqb pow 3%float
             then let mul1 := MMul base base outputType in
                  add mul1 ;;
                  let mul2 := MMul base mul1 outputType in
                  add mul2 ;; ret (Some mul2)
             else ret output) ;;
  (* Math.pow(x, 4) == y*y, where y = x*x. *)
  output <- (if PrimFloat.eqb pow 4%float
             then let y := MMul base base outputType in
                  add y ;;
                  let mul := MMul y y outputType in
                  add mul ;; ret (Some mul)
             else ret output) ;;
  ret output.

Definition inlineMathPow (callInfo : CallInfo) : Build InliningStatus :=
  if constructing callInfo then ret InliningStatus_NotInlined else
  if negb (argc callInfo =? 2) then ret InliningStatus_NotInlined else
  (* Typechecking. *)
  let baseType := type (getArg callInfo 0) in
  let powerType := type (getArg callInfo 1) in
  outputType <- ask getInlineReturnType ;;
  if negb (MIRType_beq outputType MIRType_Int32) &&
     negb (MIRType_beq outputType MIRType_Double)
  then ret InliningStatus_NotInlined else
  if negb (IsNumberType baseType) then ret InliningStatus_NotInlined else
  if negb (IsNumberType powerType) then ret InliningStatus_NotInlined else
  setImplicitlyUsedUnchecked callInfo ;;
  let base := getArg callInfo 0 in
  let power := getArg callInfo 1 in
  (* Optimize some constant powers. *)
  output <- (if isConstant (getArg callInfo 1) &&
                isNumber (constantValue (getArg callInfo 1))
             then inlineMathPow_constant base outputType
                    (toNumber (constantValue (getArg callInfo 1)))
             else ret None) ;;
  (* Use MPow for other powers *)
  output <- match output with
            | Some o => ret o
            | None =>
                let powerType :=
                  if MIRType_beq powerType MIRType_Float32
                  then MIRType_Double else powerType in
                let pow := MPow base power powerType in
                add pow ;; ret pow
            end ;;
  (* Cast to the right type *)
  output <- (if MIRType_beq outputType MIRType_Int32 &&
                negb (MIRType_beq (type output) MIRType_Int32)
             then let toInt := MToInt32 output in
                  add toInt ;; ret toInt
             else ret output) ;;
  output <- (if MIRType_beq outputType MIRType_Double &&
                negb (MIRType_beq (type output) MIRType_Double)
             then let toDouble := MToDouble output in
                  add toDouble ;; ret toDouble
             else ret output) ;;
  push output ;;
  ret InliningStatus_Inlined.

(** [Value::toDouble]; the source calls it on constants of type double. *)
Definition toDouble (v : Value) : float :=
  match v with
  | DoubleValue d => d
  | _ => PrimFloat.nan
  end.

(** The first loop of [inlineMathMinMax]: the int32 arguments collected so
    far and the return type, or the status the loop returns with: Error when
    [int32_cases.append(arg)] fails ([append] tells whether a vector of the
    given length can grow), NotInlined at an argument that is no number. *)
Fixpoint inlineMathMinMax_partition (append : nat -> bool) (max : bool)
    (args : list MDefinition) (int32_cases : list MDefinition) (returnType : MIRType)
    : InliningStatus + (list MDefinition * MIRType) :=
  match args with
  | [] => inr (int32_cases, returnType)
  | arg :: rest =>
      match type arg with
      | MIRType_Int32 =>
          if negb (append (List.length int32_cases))
          then inl InliningStatus_Error else
          inlineMathMinMax_partition append max rest (int32_cases ++ [arg]) returnType
      | MIRType_Double | MIRType_Float32 =>
          (* Don't force a double MMinMax for arguments that would be a NOP
             when doing an integer MMinMax. *)
          if isConstant arg &&
             (let cte := toDouble (constantValue arg) in
              (* min(int32, cte >= INT32_MAX) = int32 *)
              (PrimFloat.leb (float_of_Z INT32_MAX) cte && negb max) ||
              (* max(int32, cte <= INT32_MIN) = int32 *)
              (PrimFloat.leb cte (float_of_Z INT32_MIN) && max))
          then inlineMathMinMax_partition append max rest int32_cases returnType
          else
            (* Force double MMinMax if argument is a "effectfull" double. *)
            inlineMathMinMax_partition append max rest int32_cases MIRType_Double
      | _ => inl InliningStatus_NotInlined
      end
  end.

(** [cases[i]]; the source indexes the vector in bounds. *)
Definition case_at (cases : list MDefinition) (i : nat) : MDefinition :=
  nth i cases (MConstant UndefinedValue).

(** The second loop of [inlineMathMinMax], over [i = 2 .. cases.length()-1]:
    every round combines [last] with [cases[2]]. *)
Fixpoint inlineMathMinMax_chain (cases : list MDefinition) (returnType : MIRType)
    (max : bool) (indices : list nat) (last : MDefinition) : Build MDefinition :=
  match indices with
  | [] => ret last
  | i :: rest =>
      let ins := MMinMax last (case_at cases 2) returnType max in
      add ins ;;
      inlineMathMinMax_chain cases returnType max rest ins
  end.

Definition inlineMathMinMax (callInfo : CallInfo) (max : bool) : Build InliningStatus :=
  if (argc callInfo <? 1) || constructing callInfo
  then ret InliningStatus_NotInlined else
  returnType <- ask getInlineReturnType ;;
  if negb (IsNumberType returnType) then ret InliningStatus_NotInlined else
  append <- ask (fun b => appendAvailable (pc b)) ;;
  match inlineMathMinMax_partition append max (argv callInfo) [] returnType with
  | inl status => ret status
  | inr (int32_cases, returnType) =>
    let returnType :=
      if Nat.eqb (List.length int32_cases) 0 then MIRType_Double else returnType in
    setImplicitlyUsedUnchecked callInfo ;;
    let cases :=
      if MIRType_beq returnType MIRType_Int32 then int32_cases else argv callInfo in
    if Nat.eqb (List.length cases) 1 then
      let limit := MLimitedTruncate (case_at cases 0) NoTruncate in
      add limit ;;
      push limit ;;
      ret InliningStatus_Inlined
    else
    (* Chain N-1 MMinMax instructions to compute the MinMax. *)
    let last := MMinMax (case_at cases 0) (case_at cases 1) returnType max in
    add last ;;
    last <- inlineMathMinMax_chain cases returnType max
              (seq 2 (List.length cases - 2)) last ;;
    push last ;;
    ret InliningStatus_Inlined
  end.

(** ** String natives *)

(** [uint32_t(idx)] for an int32 [idx]. *)
Definition to_uint32 (i : Z) : Z := i mod 4294967296.

Definition inlineConstantCharCodeAt (callInfo : CallInfo) : Build InliningStatus :=
  if negb (isConstant (thisArg callInfo)) then ret InliningStatus_NotInlined else
  if negb (isConstant (getArg callInfo 0)) then ret InliningStatus_NotInlined else
  let strval := constantValue (thisArg callInfo) in
  let idxval := constantValue (getArg callInfo 0) in
  match strval, idxval with
  | StringValue str, Int32Value i =>
    if negb (isLinear str) then ret InliningStatus_NotInlined else
    let idx := int32 i in
    if (idx <? 0) || (length_ str <=? to_uint32 idx)
    then ret InliningStatus_NotInlined else
    setImplicitlyUsedUnchecked callInfo ;;
    let ch := latin1OrTwoByteChar str idx in
    let result := MConstant (Int32Value ch) in
    add result ;;
    push result ;;
    ret InliningStatus_Inlined
  | _, _ => ret InliningStatus_NotInlined
  end.

Definition inlineStrCharCodeAt (callInfo : CallInfo) : Build InliningStatus :=
  if negb (argc callInfo =? 1) || constructing callInfo
  then ret InliningStatus_NotInlined else
  returnType <- ask getInlineReturnType ;;
  if negb (MIRType_beq returnType MIRType_Int32)
  then ret InliningStatus_NotInlined else
  if negb (MIRType_beq (type (thisArg callInfo)) MIRType_String) &&
     negb (MIRType_beq (type (thisArg callInfo)) MIRType_Value)
  then ret InliningStatus_NotInlined else
  let argType := type (getArg callInfo 0) in
  if negb (MIRType_beq argType MIRType_Int32) &&
     negb (MIRType_beq argType MIRType_Double)
  then ret InliningStatus_NotInlined else
  (* Check for STR.charCodeAt(IDX) where STR is a constant string and IDX is
     a constant integer. *)
  constInlineStatus <- inlineConstantCharCodeAt callInfo ;;
  if negb (InliningStatus_beq constInlineStatus InliningStatus_NotInlined)
  then ret constInlineStatus else
  setImplicitlyUsedUnchecked callInfo ;;
  let index := MToInt32 (getArg callInfo 0) in
  add index ;;
  let length := MStringLength (thisArg callInfo) in
  add length ;;
  index <- addBoundsCheck index length ;;
  let charCode := MCharCodeAt (thisArg callInfo) index in
  add charCode ;;
  push charCode ;;
  ret InliningStatus_Inlined.

(** ** Class predicates *)

Definition isNull (c : option Class) : bool :=
  match c with None => true | Some _ => false end.

(** The loop of [inlineHasClass] over [remaining]: one class check per entry,
    or-ed into [last]. *)
Fixpoint inlineHasClass_remaining (object : MDefinition)
    (remaining : list (option Class)) (last : MDefinition) : Build MDefinition :=
  match remaining with
  | [] => ret last
  | clasp :: rest =>
      let hasClass := MHasClass object clasp in
      add hasClass ;;
      let either := MBitOr last hasClass in
      add either ;;
      inlineHasClass_remaining object rest either
  end.

Definition inlineHasClass (callInfo : CallInfo)
    (clasp1 clasp2 clasp3 clasp4 : option Class) : Build InliningStatus :=
  if constructing callInfo || negb (argc callInfo =? 1)
  then ret InliningStatus_NotInlined else
  if negb (MIRType_beq (type (getArg callInfo 0)) MIRType_Object)
  then ret InliningStatus_NotInlined else
  returnType <- ask getInlineReturnType ;;
  if negb (MIRType_beq returnType MIRType_Boolean)
  then ret InliningStatus_NotInlined else
  let types := resultTypeSet (getArg callInfo 0) in
  let knownClass := match types with
                    | Some ts => types.getKnownClass ts
                    | None => None
                    end in
  (if negb (isNull knownClass) then
     pushConstant (BooleanValue (clasp_eqb knownClass clasp1 ||
                                 clasp_eqb knownClass clasp2 ||
                                 clasp_eqb knownClass clasp3 ||
                                 clasp_eqb knownClass clasp4)) ;;
     ret tt
   else
     let hasClass1 := MHasClass (getArg callInfo 0) clasp1 in
     add hasClass1 ;;
     if isNull clasp2 && isNull clasp3 && isNull clasp4 then
       push hasClass1
     else
       last <- inlineHasClass_remaining (getArg callInfo 0)
                 [clasp2; clasp3; clasp4] hasClass1 ;;
       (* Convert to bool with the '!!' idiom *)
       let resultInverted := MNot last in
       add resultInverted ;;
       let result := MNot resultInverted in
       add result ;;
       push result) ;;
  setImplicitlyUsedUnchecked callInfo ;;
  ret InliningStatus_Inlined.

(** ** Atomics natives *)

(** Modelled from the spec: [IonBuilder::addTypedArrayLengthAndData] is
    defined in IonBuilder.cpp, which this development does not embed.  With
    [DoBoundsCheck] it "emits an explicit bounds check and element-pointer
    computation shared by all atomic forms": the length of the array, the
    check of the index against it, and the elements of the array.  It
    answers the elements and the checked index. *)
Definition addTypedArrayLengthAndData (obj index : MDefinition)
    : Build (MDefinition * MDefinition) :=
  let length := MTypedArrayLength obj in
  add length ;;
  index <- addBoundsCheck index length ;;
  let elements := MTypedArrayElements obj in
  add elements ;;
  ret (elements, index).

(** [atomicsMeetsPreconditions]: the element type written to [*arrayType]
    when the answer is true, [None] when it is false. *)
Definition atomicsMeetsPreconditions (callInfo : CallInfo) (b : IonBuilder)
    : option Scalar.Type_ :=
  if negb (MIRType_beq (type (getArg callInfo 0)) MIRType_Object) then None else
  if negb (MIRType_beq (type (getArg callInfo 1)) MIRType_Int32) then None else
  (* Ensure that the first argument is a valid SharedTypedArray. *)
  match resultTypeSet (getArg callInfo 0) with
  | None => None
  | Some arg0Types =>
      let arrayType := types.getSharedTypedArrayType arg0Types in
      match arrayType with
      | Scalar.Int8 | Scalar.Uint8 | Scalar.Int16 | Scalar.Uint16 | Scalar.Int32 =>
          if MIRType_beq (getInlineReturnType b) MIRType_Int32
          then Some arrayType else None
      | Scalar.Uint32 =>
          if MIRType_beq (getInlineReturnType b) MIRType_Double
          then Some arrayType else None
      | _ =>
          (* Excludes floating types and Uint8Clamped *)
          None
      end
  end.

Definition atomicsCheckBounds (callInfo : CallInfo) : Build (MDefinition * MDefinition) :=
  (* Perform bounds checking and extract the elements vector. *)
  let obj := getArg callInfo 0 in
  let index := getArg callInfo 1 in
  addTypedArrayLengthAndData obj index.

Definition isInt32OrDouble (d : MDefinition) : bool :=
  MIRType_beq (type d) MIRType_Int32 || MIRType_beq (type d) MIRType_Double.

(** A value to write: a double is truncated to int32 first. *)
Definition truncatedToWrite (value : MDefinition) : Build MDefinition :=
  if MIRType_beq (type value) MIRType_Double
  then let toWrite := MTruncateToInt32 value in
       add toWrite ;; ret toWrite
  else ret value.

Definition inlineAtomicsCompareExchange (callInfo : CallInfo) : Build InliningStatus :=
  if negb (argc callInfo =? 4) || constructing callInfo
  then ret InliningStatus_NotInlined else
  meets <- ask (atomicsMeetsPreconditions callInfo) ;;
  match meets with
  | None => ret InliningStatus_NotInlined
  | Some arrayType =>
    let oldval := getArg callInfo 2 in
    if negb (isInt32OrDouble oldval) then ret InliningStatus_NotInlined else
    let newval := getArg callInfo 3 in
    if negb (isInt32OrDouble newval) then ret InliningStatus_NotInlined else
    setImplicitlyUsedUnchecked callInfo ;;
    bounds <- atomicsCheckBounds callInfo ;;
    let (elements, index) := bounds in
    oldvalToWrite <- truncatedToWrite oldval ;;
    newvalToWrite <- truncatedToWrite newval ;;
    returnType <- ask getInlineReturnType ;;
    let cas := MCompareExchangeTypedArrayElement elements index arrayType
                 oldvalToWrite newvalToWrite returnType in
    add cas ;;
    push cas ;;
    ret InliningStatus_Inlined
  end.

Definition inlineAtomicsLoad (callInfo : CallInfo) : Build InliningStatus :=
  if negb (argc callInfo =? 2) || constructing callInfo
  then ret InliningStatus_NotInlined else
  meets <- ask (atomicsMeetsPreconditions callInfo) ;;
  match meets with
  | None => ret InliningStatus_NotInlined
  | Some arrayType =>
    setImplicitlyUsedUnchecked callInfo ;;
    bounds <- atomicsCheckBounds callInfo ;;
    let (elements, index) := bounds in
    returnType <- ask getInlineReturnType ;;
    let load := MLoadTypedArrayElement elements index arrayType
                  DoesRequireMemoryBarrier returnType in
    add load ;;
    push load ;;
    ret InliningStatus_Inlined
  end.

Definition inlineAtomicsStore (callInfo : CallInfo) : Build InliningStatus :=
  if negb (argc callInfo =? 3) || constructing callInfo
  then ret InliningStatus_NotInlined else
  meets <- ask (atomicsMeetsPreconditions callInfo) ;;
  match meets with
  | None => ret InliningStatus_NotInlined
  | Some arrayType =>
    let value := getArg callInfo 2 in
    if negb (isInt32OrDouble value) then ret InliningStatus_NotInlined else
    setImplicitlyUsedUnchecked callInfo ;;
    bounds <- atomicsCheckBounds callInfo ;;
    let (elements, index) := bounds in
    toWrite <- truncatedToWrite value ;;
    let store := MStoreTypedArrayElement elements index toWrite arrayType
                   DoesRequireMemoryBarrier in
    add store ;;
    push value ;;
    ret InliningStatus_Inlined
  end.

(** The natives [inlineNativeCall] hands to [inlineAtomicsBinop]; the source
    crashes on any other. *)
Inductive AtomicsBinopNative : Set :=
  | atomics_add | atomics_sub | atomics_and | atomics_or | atomics_xor.

Definition inlineAtomicsBinop (callInfo : CallInfo) (native : AtomicsBinopNative)
    : Build InliningStatus :=
  if negb (argc callInfo =? 3) || constructing callInfo
  then ret InliningStatus_NotInlined else
  meets <- ask (atomicsMeetsPreconditions callInfo) ;;
  match meets with
  | None => ret InliningStatus_NotInlined
  | Some arrayType =>
    let value := getArg callInfo 2 in
    if negb (isInt32OrDouble value) then ret InliningStatus_NotInlined else
    setImplicitlyUsedUnchecked callInfo ;;
    bounds <- atomicsCheckBounds callInfo ;;
    let (elements, index) := bounds in
    let k := match native with
             | atomics_add => AtomicFetchAddOp
             | atomics_sub => AtomicFetchSubOp
             | atomics_and => AtomicFetchAndOp
             | atomics_or => AtomicFetchOrOp
             | atomics_xor => AtomicFetchXorOp
             end in
    toWrite <- truncatedToWrite value ;;
    returnType <- ask getInlineReturnType ;;
    let binop := MAtomicTypedArrayElementBinop k elements index arrayType
                   toWrite returnType in
    add binop ;;
    push binop ;;
    ret InliningStatus_Inlined
  end.

(** ** Array intrinsics: UnsafePutElements *)

(** Modelled from the spec: [TypedObjectPrediction] is declared in
    TypedObjectPrediction.h.  The records hold what
    [elementAccessIsTypedObjectArrayOfScalarType] asks of a prediction
    (a "typed-aggregate write"): whether it is useless, of array kind, and
    the kind and scalar type of the elements. *)
Inductive TypeKind : Set :=
  | Scalar_kind | Reference_kind | Struct_kind | SizedArray_kind | UnsizedArray_kind.

Record ElementPrediction : Set := mkElementPrediction {
  elem_isUseless : bool;
  elem_kind : TypeKind;
  elem_scalarType : Scalar.Type_
}.

Record TypedObjectPrediction : Set := mkTypedObjectPrediction {
  isUseless : bool;
  ofArrayKind : bool;
  arrayElementType : ElementPrediction
}.

Definition TypeKind_is_Scalar (k : TypeKind) : bool :=
  match k with Scalar_kind => true | _ => false end.

Definition isNone {A : Type} (o : option A) : bool :=
  match o with None => true | Some _ => false end.

Section UnsafePutElements.

(** The collaborators of IonBuilder.cpp and MIR.cpp that classify an element
    access and emit one store.  Each emitter answers false when it fails. *)
Variable ElementAccessIsDenseNative : MDefinition -> MDefinition -> bool.
Variable PropertyWriteNeedsTypeBarrier : MDefinition -> MDefinition -> bool.
Variable ElementAccessIsAnyTypedArray :
  MDefinition -> MDefinition -> option Scalar.Type_.
Variable typedObjectPrediction : MDefinition -> TypedObjectPrediction.
Variable jsop_setelem_dense :
  types.DoubleConversion -> MDefinition -> MDefinition -> MDefinition -> Build bool.
Variable jsop_setelem_typed :
  Scalar.Type_ -> MDefinition -> MDefinition -> MDefinition -> Build bool.
Variable jsop_setelem_typed_object :
  Scalar.Type_ -> MDefinition -> MDefinition -> MDefinition -> Build bool.

Definition elementAccessIsTypedObjectArrayOfScalarType (obj id : MDefinition)
    : option Scalar.Type_ :=
  if negb (MIRType_beq (type obj) MIRType_Object) then None else
  if negb (MIRType_beq (type id) MIRType_Int32) &&
     negb (MIRType_beq (type id) MIRType_Double) then None else
  let prediction := typedObjectPrediction obj in
  if isUseless prediction || negb (ofArrayKind prediction) then None else
  let elemPrediction := arrayElementType prediction in
  if elem_isUseless elemPrediction || negb (TypeKind_is_Scalar (elem_kind elemPrediction))
  then None else
  Some (elem_scalarType elemPrediction).

(** [obj->resultTypeSet()] is dereferenced without a null check: at an
    object that has no type set the call has no defined behaviour and the
    compilation stops there, which the answer [None] stands for. *)
Definition inlineUnsafeSetDenseArrayElement (callInfo : CallInfo) (base : nat)
    : Build (option bool) :=
  let obj := getArg callInfo (base + 0) in
  let id := getArg callInfo (base + 1) in
  let elem := getArg callInfo (base + 2) in
  match resultTypeSet obj with
  | None => ret None
  | Some objTypes =>
    let conversion := types.convertDoubleElements objTypes in
    ok <- jsop_setelem_dense conversion obj id elem ;;
    if negb ok then ret (Some false) else ret (Some true)
  end.

Definition inlineUnsafeSetTypedArrayElement (callInfo : CallInfo) (base : nat)
    (arrayType : Scalar.Type_) : Build bool :=
  let obj := getArg callInfo (base + 0) in
  let id := getArg callInfo (base + 1) in
  let elem := getArg callInfo (base + 2) in
  ok <- jsop_setelem_typed arrayType obj id elem ;;
  if negb ok then ret false else ret true.

Definition inlineUnsafeSetTypedObjectArrayElement (callInfo : CallInfo) (base : nat)
    (arrayType : Scalar.Type_) : Build bool :=
  let obj := getArg callInfo (base + 0) in
  let id := getArg callInfo (base + 1) in
  let elem := getArg callInfo (base + 2) in
  ok <- jsop_setelem_typed_object arrayType obj id elem ;;
  if negb ok then ret false else ret true.

(** The values of [base] of [for (base = 0; base < argc; base += 3)] when
    [argc] is a multiple of 3. *)
Definition inlineUnsafePutElements_bases (callInfo : CallInfo) : list nat :=
  map (fun k => 3 * k)%nat (seq 0 (List.length (argv callInfo) / 3)).

(** One round of the first loop: false where the source returns NotInlined. *)
Definition inlineUnsafePutElements_check (callInfo : CallInfo) (base : nat) : bool :=
  let obj := getArg callInfo (base + 0) in
  let id := getArg callInfo (base + 1) in
  let elem := getArg callInfo (base + 2) in
  let isDenseNative := ElementAccessIsDenseNative obj id in
  let writeNeedsBarrier :=
    if isDenseNative then PropertyWriteNeedsTypeBarrier obj elem else false in
  (* We can only inline setelem on dense arrays that do not need type
     barriers and on typed arrays and on typed object arrays. *)
  if (negb isDenseNative || writeNeedsBarrier) &&
     isNone (ElementAccessIsAnyTypedArray obj id) &&
     isNone (elementAccessIsTypedObjectArrayOfScalarType obj id)
  then false else true.

(** The second loop: one store per group.  The answer is the status the
    source returns, or [None] where the compilation stops without one. *)
Fixpoint inlineUnsafePutElements_stores (callInfo : CallInfo) (bases : list nat)
    : Build (option InliningStatus) :=
  match bases with
  | [] => ret (Some InliningStatus_Inlined)
  | base :: rest =>
      let obj := getArg callInfo (base + 0) in
      let id := getArg callInfo (base + 1) in
      if ElementAccessIsDenseNative obj id then
        stored <- inlineUnsafeSetDenseArrayElement callInfo base ;;
        match stored with
        | None => ret None
        | Some ok =>
          if negb ok then ret (Some InliningStatus_Error) else
          inlineUnsafePutElements_stores callInfo rest
        end
      else
      match ElementAccessIsAnyTypedArray obj id with
      | Some arrayType =>
        ok <- inlineUnsafeSetTypedArrayElement callInfo base arrayType ;;
        if negb ok then ret (Some InliningStatus_Error) else
        inlineUnsafePutElements_stores callInfo rest
      | None =>
      match elementAccessIsTypedObjectArrayOfScalarType obj id with
      | Some arrayType =>
        ok <- inlineUnsafeSetTypedObjectArrayElement callInfo base arrayType ;;
        if negb ok then ret (Some InliningStatus_Error) else
        inlineUnsafePutElements_stores callInfo rest
      | None =>
        (* MOZ_CRASH("Element access not dense array nor typed array") *)
        ret None
      end
      end
  end.

Definition inlineUnsafePutElements (callInfo : CallInfo)
    : Build (option InliningStatus) :=
  let argc := argc callInfo in
  if (argc <? 3) || negb (argc mod 3 =? 0) || constructing callInfo
  then ret (Some InliningStatus_NotInlined) else
  if negb (forallb (inlineUnsafePutElements_check callInfo)
             (inlineUnsafePutElements_bases callInfo))
  then ret (Some InliningStatus_NotInlined) else
  setImplicitlyUsedUnchecked callInfo ;;
  (* Push the result first so that the stack depth matches up for
     the potential bailouts that will occur in the stores below. *)
  let udef := MConstant UndefinedValue in
  add udef ;;
  push udef ;;
  inlineUnsafePutElements_stores callInfo (inlineUnsafePutElements_bases callInfo).

(** The group of three arguments at [base] is a write the specialiser can
    inline: to a dense array that needs no type barrier, to a typed array, or
    to a typed-object array of scalars. *)
Definition validWrite (callInfo : CallInfo) (base : nat) : Prop :=
  let obj := getArg callInfo (base + 0) in
  let id := getArg callInfo (base + 1) in
  let elem := getArg callInfo (base + 2) in
  (ElementAccessIsDenseNative obj id = true /\
   PropertyWriteNeedsTypeBarrier obj elem = false) \/
  ElementAccessIsAnyTypedArray obj id <> None \/
  elementAccessIsTypedObjectArrayOfScalarType obj id <> None.

End UnsafePutElements.

(** ** Call sites used in the examples *)

Definition typeSetOf (ty : MIRType) : types.TemporaryTypeSet :=
  {| types.getKnownMIRType := ty;
     types.getKnownClass := None;
     types.objectFlags := [];
     types.objects := [];
     types.getSharedTypedArrayType := Scalar.TypeMax;
     types.convertDoubleElements := types.DontConvertToDoubles |}.

(** A call site whose result has the known type [ty]. *)
Definition siteReturning (ty : MIRType) (popped : bool) : CallSite :=
  {| bytecodeTypes := typeSetOf ty;
     BytecodeIsPopped := popped;
     ArrayPrototypeHasIndexedProperty := false;
     getTemplateObjectForNative := None;
     resumePointAvailable := true;
     appendAvailable := fun _ => true |}.

Definition emptyBlock : MBasicBlock :=
  {| instructions := []; stack := []; trace := [] |}.

Definition builderAt (site : CallSite) : IonBuilder :=
  {| pc := site; current := emptyBlock; implicitlyUsed := []; resumePoints := [] |}.

(** An operand of type [ty] with no type set. *)
Definition operand (id : nat) (ty : MIRType) : MDefinition := MValue id ty None.

(** The type set of an object whose class is known to be [k]. *)
Definition typeSetOfClass (k : Class) : types.TemporaryTypeSet :=
  {| types.getKnownMIRType := MIRType_Object;
     types.getKnownClass := Some k;
     types.objectFlags := [];
     types.objects := [];
     types.getSharedTypedArrayType := Scalar.TypeMax;
     types.convertDoubleElements := types.DontConvertToDoubles |}.

Definition objectOfClass (id : nat) (k : Class) : MDefinition :=
  MValue id MIRType_Object (Some (typeSetOfClass k)).

(** A shared typed array whose elements have type [elementType]. *)
Definition sharedArray (id : nat) (elementType : Scalar.Type_) : MDefinition :=
  MValue id MIRType_Object
    (Some {| types.getKnownMIRType := MIRType_Object;
             types.getKnownClass := None;
             types.objectFlags := [];
             types.objects := [];
             types.getSharedTypedArrayType := elementType;
             types.convertDoubleElements := types.DontConvertToDoubles |}).

(** An array whose only type object is [key]. *)
Definition arrayOfType (id : nat) (key : types.TypeObjectKey) : MDefinition :=
  MValue id MIRType_Object
    (Some {| types.getKnownMIRType := MIRType_Object;
             types.getKnownClass := Some ArrayObject_class;
             types.objectFlags := [];
             types.objects := [Some key];
             types.getSharedTypedArrayType := Scalar.TypeMax;
             types.convertDoubleElements := types.DontConvertToDoubles |}).

(** The type object [id] of arrays whose elements have the types [elems]. *)
Definition arrayType (id : nat) (elems : list types.Type_) : types.TypeObjectKey :=
  {| types.key_id := id;
     types.key_typeObject := true;
     types.unknownProperties := false;
     types.property_JSID_VOID := {| types.maybeTypes := elems |} |}.

(** A call site of concat whose result is known to be an array of type
    [key], with a template object of that type. *)
Definition concatSite (key : types.TypeObjectKey) : CallSite :=
  {| bytecodeTypes :=
       {| types.getKnownMIRType := MIRType_Object;
          types.getKnownClass := Some ArrayObject_class;
          types.objectFlags := [];
          types.objects := [Some key];
          types.getSharedTypedArrayType := Scalar.TypeMax;
          types.convertDoubleElements := types.DontConvertToDoubles |};
     BytecodeIsPopped := false;
     ArrayPrototypeHasIndexedProperty := false;
     getTemplateObjectForNative :=
       Some {| type_ := types.key_id key; initialHeap := DefaultHeap |};
     resumePointAvailable := true;
     appendAvailable := fun _ => true |}.

(** Emitters for the examples of UnsafePutElements: every access is to a
    dense array, and the dense store adds one [MStoreElement]. *)
Definition exampleUselessPrediction (obj : MDefinition) : TypedObjectPrediction :=
  {| isUseless := true; ofArrayKind := false;
     arrayElementType := {| elem_isUseless := true; elem_kind := Struct_kind;
                            elem_scalarType := Scalar.TypeMax |} |}.

Definition exampleStoreDense (conversion : types.DoubleConversion)
    (obj id elem : MDefinition) : Build bool :=
  add (MStoreElement obj id elem) ;; ret true.

Definition exampleStoreTyped (arrayType : Scalar.Type_)
    (obj id elem : MDefinition) : Build bool :=
  ret false.

Definition exampleUnsafePutElements : CallInfo -> Build (option InliningStatus) :=
  inlineUnsafePutElements (fun _ _ => true) (fun _ _ => false) (fun _ _ => None)
    exampleUselessPrediction exampleStoreDense exampleStoreTyped exampleStoreTyped.

Definition callOf (this : MDefinition) (args : list MDefinition) : CallInfo :=
  {| fun_ := operand 0 MIRType_Object; thisArg := this; argv := args;
     constructing := false |}.

(** ** Statements of the specification *)

(** The chain the specification asks of Math.min/Math.max over the operands
    [cases]: "a left-associative chain of binary min/max nodes", the first
    node over operands 0 and 1, every later node over the previous node and
    the next operand. *)
Fixpoint leftAssociativeChain (returnType : MIRType) (max : bool)
    (previous : MDefinition) (operands : list MDefinition) : list MDefinition :=
  match operands with
  | [] => []
  | next :: rest =>
      let node := MMinMax previous next returnType max in
      node :: leftAssociativeChain returnType max node rest
  end.

Definition minMaxChain_spec (cases : list MDefinition) (returnType : MIRType)
    (max : bool) : list MDefinition :=
  match cases with
  | c0 :: c1 :: rest =>
      let first := MMinMax c0 c1 returnType max in
      first :: leftAssociativeChain returnType max first rest
  | _ => []
  end.

(** A floating-point argument that Math.min/Math.max may drop: a constant
    that the int32 bound dominates ([>= INT32_MAX] for min, [<= INT32_MIN]
    for max). *)
Definition dominatedConstant (max : bool) (arg : MDefinition) : bool :=
  isConstant arg &&
  (let cte := toDouble (constantValue arg) in
   (PrimFloat.leb (float_of_Z INT32_MAX) cte && negb max) ||
   (PrimFloat.leb cte (float_of_Z INT32_MIN) && max)).

Definition isMinMaxOfType (returnType : MIRType) (max : bool) (ins : MDefinition) : Prop :=
  exists lhs rhs, ins = MMinMax lhs rhs returnType max.

(** The cast [inlineMathPow] adds after [output]: none when [output] has the
    declared output type already. *)
Definition castToOutputType (outputType : MIRType) (output : MDefinition)
    : list MDefinition :=
  if MIRType_beq (type output) outputType then []
  else match outputType with
       | MIRType_Int32 => [MToInt32 output]
       | MIRType_Double => [MToDouble output]
       | _ => []
       end.

Definition isGenericPow (ins : MDefinition) : bool :=
  match ins with
  | MPow _ _ _ => true
  | _ => false
  end.

(** The character code a charCodeAt call has at compile time: the receiver
    is a constant (linear) string and the index a constant int32 within its
    bounds. *)
Definition constantCharCodeAt (callInfo : CallInfo) : option Z :=
  match thisArg callInfo, getArg callInfo 0 with
  | MConstant (StringValue str), MConstant (Int32Value i) =>
      let idx := int32 i in
      if isLinear str && (0 <=? idx) && (idx <? length_ str)
      then Some (latin1OrTwoByteChar str idx)
      else None
  | _, _ => None
  end.

(** The allow-list of the Atomics natives: the element type of the shared
    typed array against the type the call site expects. *)
Definition atomicsAllowList (arrayType : Scalar.Type_) (returnType : MIRType) : bool :=
  match arrayType with
  | Scalar.Int8 | Scalar.Uint8 | Scalar.Int16 | Scalar.Uint16 | Scalar.Int32 =>
      MIRType_beq returnType MIRType_Int32
  | Scalar.Uint32 => MIRType_beq returnType MIRType_Double
  | Scalar.Float32 | Scalar.Float64 | Scalar.Uint8Clamped | Scalar.TypeMax => false
  end.

(** The element type of the shared typed array a definition is known to be;
    [Scalar.TypeMax] when nothing is known. *)
Definition sharedElementType (d : MDefinition) : Scalar.Type_ :=
  match resultTypeSet d with
  | Some ts => types.getSharedTypedArrayType ts
  | None => Scalar.TypeMax
  end.

(** One Atomics specialiser [inline] respects the allow-list at a call: it
    answers Inlined only for an allowed pair, and declines, leaving the
    builder as it was, for any other. *)
Definition respectsAllowList (inline : CallInfo -> Build InliningStatus)
    (callInfo : CallInfo) (b : IonBuilder) : Prop :=
  let allowed := atomicsAllowList (sharedElementType (getArg callInfo 0))
                   (getInlineReturnType b) in
  (fst (inline callInfo b) = InliningStatus_Inlined -> allowed = true) /\
  (allowed = false -> inline callInfo b = (InliningStatus_NotInlined, b)).

(** The preconditions of [inlineArrayConcat] on the shape of the call: all
    its checks but the one on the element types of the argument. *)
Record concatPreconditions (callInfo : CallInfo) (b : IonBuilder)
    (thisTypes argTypes : types.TemporaryTypeSet) (thisType : types.TypeObjectKey)
    (templateObj : NativeObject) : Prop := {
  concat_argc : argc callInfo = 1;
  concat_not_constructing : constructing callInfo = false;
  concat_returns_object : getInlineReturnType b = MIRType_Object;
  concat_this_object : type (thisArg callInfo) = MIRType_Object;
  concat_arg_object : type (getArg callInfo 0) = MIRType_Object;
  concat_this_types : resultTypeSet (thisArg callInfo) = Some thisTypes;
  concat_arg_types : resultTypeSet (getArg callInfo 0) = Some argTypes;
  concat_this_array : types.getKnownClass thisTypes = Some ArrayObject_class;
  concat_this_dense :
    types.hasObjectFlags thisTypes
      [OBJECT_FLAG_SPARSE_INDEXES; OBJECT_FLAG_LENGTH_OVERFLOW] = false;
  concat_arg_array : types.getKnownClass argTypes = Some ArrayObject_class;
  concat_arg_dense :
    types.hasObjectFlags argTypes
      [OBJECT_FLAG_SPARSE_INDEXES; OBJECT_FLAG_LENGTH_OVERFLOW] = false;
  concat_plain_prototype : ArrayPrototypeHasIndexedProperty (pc b) = false;
  concat_single_type : types.getObjectCount thisTypes = 1%nat;
  concat_this_type : types.getTypeObject thisTypes 0 = Some thisType;
  concat_this_properties : types.unknownProperties thisType = false;
  concat_packed :
    negb (types.hasObjectFlags thisTypes [OBJECT_FLAG_NON_PACKED]) &&
    types.hasObjectFlags argTypes [OBJECT_FLAG_NON_PACKED] = false;
  concat_result_type : types.hasObjectType (getInlineReturnTypeSet b) thisType = true;
  concat_arg_properties :
    forall k, In (Some k) (types.objects argTypes) -> types.unknownProperties k = false;
  concat_template : getTemplateObjectForNative (pc b) = Some templateObj;
  concat_template_type : type_ templateObj = types.key_id thisType;
  concat_resume_point : resumePointAvailable (pc b) = true
}.

(** Every element type of the argument is an element type of the receiver. *)
Definition argElementTypesContained (argTypes : types.TemporaryTypeSet)
    (thisType : types.TypeObjectKey) : Prop :=
  forall k t,
    In (Some k) (types.objects argTypes) ->
    In t (types.maybeTypes (types.property_JSID_VOID k)) ->
    In t (types.maybeTypes (types.property_JSID_VOID thisType)).


(** A specialiser keeps the contract of the three answers at a builder:
    NotInlined leaves the current block as it was, and Error is only
    answered once an instruction has been added. *)
Definition declinesBeforeEmitting (inline : Build InliningStatus) (b : IonBuilder)
    : Prop :=
  (fst (inline b) = InliningStatus_NotInlined -> current (snd (inline b)) = current b) /\
  (fst (inline b) = InliningStatus_Error ->
     instructions (current (snd (inline b))) <> instructions (current b)).

(** ** Auxiliary descriptions of what a loop adds *)

(** The builder after the instructions [nodes] were added in turn. *)
Definition added (nodes : list MDefinition) (b : IonBuilder) : IonBuilder :=
  {| pc := pc b;
     current := {| instructions := instructions (current b) ++ nodes;
                   stack := stack (current b);
                   trace := trace (current b) ++ map Added nodes |};
     implicitlyUsed := implicitlyUsed b;
     resumePoints := resumePoints b |}.

(** A computation extends the trace when all it does to the block is add
    events at the end. *)
Definition extendsTrace {A : Type} (m : Build A) : Prop :=
  forall b, exists events,
    trace (current (snd (m b))) = trace (current b) ++ events.

(** The nodes the second loop of [inlineMathMinMax] adds. *)
Fixpoint inlineMathMinMax_chain_nodes (cases : list MDefinition) (returnType : MIRType)
    (max : bool) (indices : list nat) (last : MDefinition) : list MDefinition :=
  match indices with
  | [] => []
  | i :: rest =>
      let ins := MMinMax last (case_at cases 2) returnType max in
      ins :: inlineMathMinMax_chain_nodes cases returnType max rest ins
  end.

(** * The other natives

    The rest of MCallOptimize.cpp: the dispatcher [inlineNativeCall] and the
    specialisers that create instructions beyond those above.  The module
    keeps the source's names for its own graph, whose nodes are a definition
    of the first part or one of the instructions declared here. *)

Module Natives.

(** The builder of the first part, under names this module does not reuse. *)
Definition CoreBuild (A : Type) : Type := Build A.

Definition coreInstructions (b : IonBuilder) : list MDefinition :=
  instructions (current b).

Definition coreStack (b : IonBuilder) : list MDefinition := stack (current b).

Definition coreImplicitlyUsed (b : IonBuilder) : list MDefinition := implicitlyUsed b.

Definition coreResumePoints (b : IonBuilder) : list MDefinition := resumePoints b.

(** ** Enumerations of MIR.h, CompileInfo.h and jsinfer.h *)

(** Modelled from the spec: the enumerations are declared in headers outside
    MCallOptimize.cpp; "the set of node kinds is closed and known at build
    time".  Each lists the values the source names. *)

Module MMathFunction.
Inductive Function : Set :=
  | Log | Sin | Cos | Exp | Tan | ACos | ASin | ATan | Log10 | Log2 | Log1P
  | ExpM1 | CosH | SinH | TanH | ACosH | ASinH | ATanH | Sign | Trunc | Cbrt
  | Floor | Ceil | Round.
End MMathFunction.

Module MMul.
Inductive Mode : Set := Normal | Integer.
End MMul.

Module MArrayPopShift.
Inductive Mode : Set := Pop | Shift.
End MArrayPopShift.

Inductive AllocatingBehaviour : Set :=
  | NewArray_FullyAllocating
  | NewArray_Unallocating.

Inductive BarrierKind : Set := NoBarrier | TypeTagOnly | TypeSet.

Inductive ExecutionMode : Set :=
  | SequentialExecution
  | ParallelExecution
  | DefinitePropertiesAnalysis
  | ArgumentsUsageAnalysis.

Inductive ForAllResult : Set := EMPTY | ALL_TRUE | ALL_FALSE | MIXED.

(** The natives [inlineNativeCall] compares its target with; [otherNative]
    is any native it does not name.  The five fetch-and-modify natives of
    Atomics are those of the first part. *)
Inductive JSNative : Set :=
  | atomics_compareExchange | atomics_load | atomics_store | atomics_fence
  | atomics_binop (op : AtomicsBinopNative)
  | js_Array | array_pop | array_shift | array_push | array_concat | array_join
  | array_splice
  | math_abs | math_floor | math_ceil | math_clz32 | math_round | math_sqrt
  | math_atan2 | math_hypot | math_max | math_min | math_pow | math_random
  | math_imul | math_fround
  | math_sin | math_cos | math_exp | math_tan | math_log | math_atan | math_asin
  | math_acos | math_log10 | math_log2 | math_log1p | math_expm1 | math_cosh
  | math_sinh | math_tanh | math_acosh | math_asinh | math_atanh | math_sign
  | math_trunc | math_cbrt
  | js_String | str_split | js_str_charCodeAt | str_fromCharCode | js_str_charAt
  | str_replace
  | regexp_exec | regexp_test
  | intrinsic_UnsafePutElements | intrinsic_NewDenseArray
  | intrinsic_UnsafeSetReservedSlot | intrinsic_UnsafeGetReservedSlot
  | intrinsic_ShouldForceSequential | intrinsic_InParallelSection
  | intrinsic_ForkJoinGetSlice
  | intrinsic_IsCallable | intrinsic_HaveSameClass | intrinsic_ToObject
  | intrinsic_IsObject | intrinsic_ToInteger | intrinsic_ToString
  | intrinsic_IsConstructing
  | intrinsic_ObjectIsTypedObject | intrinsic_ObjectIsTransparentTypedObject
  | intrinsic_ObjectIsOpaqueTypedObject | intrinsic_ObjectIsTypeDescr
  | intrinsic_TypeDescrIsSimpleType | intrinsic_TypeDescrIsArrayType
  | intrinsic_TypeDescrIsSizedArrayType | intrinsic_TypeDescrIsUnsizedArrayType
  | intrinsic_SetTypedObjectOffset
  | testingFunc_inParallelSection | testingFunc_bailout | testingFunc_assertFloat32
  | CallOrConstructBoundFunction
  | otherNative (id : nat).

(** ** Objects the specialisers are given *)

(** Modelled from the spec: [JSObject], [JSFunction] and [SizedTypeDescr]
    are declared under vm/ and builtin/.  "Bound-function record: target
    function, bound receiver, bound leading arguments, each possibly residing
    in a short-lived (young-generation) memory region": the records hold what
    [inlineBoundFunction], [inlineNonFunctionCall] and
    [inlineConstructTypedObject] read. *)

Record SizedTypeDescr : Set := mkSizedTypeDescr {
  descr_id : nat;
  size : Z;  (* an int32_t *)
  getClass : Class
}.

(** [size_t(i)] for an int32 [i], with a [size_t] of 64 bits: a negative
    [i] wraps around to a size near the top of the range. *)
Definition to_size_t (i : Z) : Z := int32 i mod 18446744073709551616.

Record JSObject : Set := mkJSObject {
  object_id : nat;
  is_JSFunction : bool;
  isInterpretedConstructor : bool;
  isNativeConstructor : bool;
  constructHook_is_constructSized : bool;
  as_SizedTypeDescr : SizedTypeDescr
}.

Record JSFunction : Set := mkJSFunction {
  native : JSNative;
  getBoundFunctionTarget : JSObject;
  getBoundFunctionThis : Value;
  boundFunctionArguments : list Value
}.

Definition getBoundFunctionArgumentCount (target : JSFunction) : Z :=
  Z.of_nat (List.length (boundFunctionArguments target)).

(** The template object of a class hook: an inline typed object, or not. *)
Record TypedObjectTemplate : Set := mkTypedObjectTemplate {
  is_InlineTypedObject : bool;
  typeDescr : nat;
  template_initialHeap : InitialHeap
}.

(** ** Nodes *)

(** Modelled from the spec: the instruction classes are declared in MIR.h;
    one constructor per instruction the specialisers of this module create,
    with the operands and flags given to its [New].  A pointer that the
    source may leave null is an option. *)
#[warnings="-register-all"]
Inductive MNode : Set :=
  | MDef (def : MDefinition)
  (* arrays *)
  | MObjectConstant (object : NativeObject) (constraintless : bool)
  | MNewArray (count : Z) (templateConst : MNode) (heap : InitialHeap)
      (allocating : AllocatingBehaviour)
  | MElements (object : MNode)
  | MPostWriteBarrier (object value : MNode)
  | MStoreElement (elements index value : MNode) (needsHoleCheck : bool)
  | MSetInitializedLength (elements : MNode) (index : option MNode)
  | MArrayPopShift (object : MNode) (mode : MArrayPopShift.Mode)
      (needsHoleCheck maybeUndefined : bool) (resultType : MIRType)
  | MArrayPush (object value : MNode)
  | MNewDenseArrayPar (cx length : MNode) (templateObject : NativeObject)
  (* arithmetic *)
  | MMathFunction (input : MNode) (function : MMathFunction.Function)
      (cache : option nat)
  | MAbs (input : MNode) (ty : MIRType)
  | MFloor (input : MNode)
  | MCeil (input : MNode)
  | MRound (input : MNode)
  | MClz (input : MNode)
  | MSqrt (input : MNode)
  | MAtan2 (y x : MNode)
  | MHypot (x y : MNode)
  | MRandom
  | MMul (lhs rhs : MNode) (ty : MIRType) (mode : MMul.Mode)
  | MToFloat32 (input : MNode)
  (* strings and regular expressions *)
  | MNewStringObject (input : MNode) (templateObj : NativeObject)
  | MStringSplit (string sep templateObject : MNode)
  | MFromCharCode (code : MNode)
  | MRegExpExec (regexp string : MNode)
  | MRegExpTest (regexp string : MNode)
  | MStringReplace (string pattern replacement : MNode)
  | MRegExpReplace (string pattern replacement : MNode)
  (* parallel execution *)
  | MForkJoinContext
  | MForkJoinGetSlice (cx : MNode)
  (* objects *)
  | MSetTypedObjectOffset (object offset : MNode)
  | MStoreFixedSlot (object : MNode) (slot : Z) (value : MNode)
  | MLoadFixedSlot (object : MNode) (slot : Z)
  | MHaveSameClass (lhs rhs : MNode)
  | MIsCallable (object : MNode)
  | MIsObject (object : MNode)
  | MToString (input : MNode)
  | MIsConstructing
  | MNewTypedObject (templateObject : TypedObjectTemplate) (heap : InitialHeap)
  (* testing and fences *)
  | MBail
  | MAssertFloat32 (input : MNode) (mustBeFloat32 : bool)
  | MMemoryBarrier.

Coercion MDef : MDefinition >-> MNode.

(** ** The builder *)

(** Modelled from the spec: as in the first part, the block keeps its
    instructions in the order of their addition and its value stack.  The
    builder also keeps what the specialisers of this module change besides
    the block: the type sets they freeze ("a property that, once read,
    installs a dependency"), the types they add to the observed return type
    set, and the double-conversion flag they set on the template object. *)

Record MBasicBlock : Set := mkMBasicBlock {
  instructions : list MNode;
  stack : list MNode
}.

Record IonBuilder : Set := mkIonBuilder {
  pc : CallSite;
  current : MBasicBlock;
  implicitlyUsed : list MDefinition;
  resumePoints : list MNode;
  constraints : list types.HeapTypeSetKey;
  returnedTypes : list types.Type_;
  shouldConvertDoubleElements : option bool
}.

Definition getInlineReturnTypeSet (b : IonBuilder) : types.TemporaryTypeSet :=
  bytecodeTypes (pc b).

Definition getInlineReturnType (b : IonBuilder) : MIRType :=
  types.getKnownMIRType (getInlineReturnTypeSet b).

Definition Build (A : Type) : Type := IonBuilder -> A * IonBuilder.

Definition ret {A : Type} (a : A) : Build A := fun b => (a, b).

Definition bind {A B : Type} (m : Build A) (k : A -> Build B) : Build B :=
  fun b => let (a, b') := m b in k a b'.

Definition ask {A : Type} (f : IonBuilder -> A) : Build A := fun b => (f b, b).

Declare Scope natives_scope.
Delimit Scope natives_scope with natives.
Notation "x <- m ;; k" := (bind m (fun x => k))
  (at level 61, m at next level, right associativity) : natives_scope.
Notation "m ;; k" := (bind m (fun _ => k))
  (at level 61, right associativity) : natives_scope.
Local Open Scope natives_scope.

Definition withCurrent (f : MBasicBlock -> MBasicBlock) : Build unit :=
  fun b => (tt, {| pc := pc b; current := f (current b);
                   implicitlyUsed := implicitlyUsed b;
                   resumePoints := resumePoints b;
                   constraints := constraints b;
                   returnedTypes := returnedTypes b;
                   shouldConvertDoubleElements := shouldConvertDoubleElements b |}).

(** [current->add(ins)] *)
Definition add (ins : MNode) : Build unit :=
  withCurrent (fun blk =>
    {| instructions := instructions blk ++ [ins]; stack := stack blk |}).

(** [current->push(def)] *)
Definition push (def : MNode) : Build unit :=
  withCurrent (fun blk =>
    {| instructions := instructions blk; stack := def :: stack blk |}).

(** [def->setImplicitlyUsedUnchecked()] on each of [defs]. *)
Definition flagImplicitlyUsed (defs : list MDefinition) : Build unit :=
  fun b => (tt, {| pc := pc b; current := current b;
                   implicitlyUsed := implicitlyUsed b ++ defs;
                   resumePoints := resumePoints b;
                   constraints := constraints b;
                   returnedTypes := returnedTypes b;
                   shouldConvertDoubleElements := shouldConvertDoubleElements b |}).

(** [callInfo.setImplicitlyUsedUnchecked()]: flags the callee, [this] and the
    arguments. *)
Definition setImplicitlyUsedUnchecked (callInfo : CallInfo) : Build unit :=
  flagImplicitlyUsed (fun_ callInfo :: thisArg callInfo :: argv callInfo).

(** Modelled from the spec: [IonBuilder::resumeAfter], as in the first part. *)
Definition resumeAfter (ins : MNode) : Build bool :=
  fun b =>
    if resumePointAvailable (pc b)
    then (true, {| pc := pc b; current := current b;
                   implicitlyUsed := implicitlyUsed b;
                   resumePoints := resumePoints b ++ [ins];
                   constraints := constraints b;
                   returnedTypes := returnedTypes b;
                   shouldConvertDoubleElements := shouldConvertDoubleElements b |})
    else (false, b).

(** Modelled from the spec: [IonBuilder::pushConstant], as in the first
    part: the constant is added and pushed. *)
Definition pushConstant (v : Value) : Build bool :=
  add (MConstant v) ;; push (MConstant v) ;; ret true.

(** Modelled from the spec: [IonBuilder::constant] is defined in
    IonBuilder.cpp: it creates the constant, adds it to the current block
    and returns it. *)
Definition constant (v : Value) : Build MDefinition :=
  add (MConstant v) ;; ret (MConstant v).

(** Modelled from the spec: [IonBuilder::addBoundsCheck], as in the first
    part. *)
Definition addBoundsCheck (index length : MDefinition) : Build MDefinition :=
  add (MBoundsCheck index length) ;; ret (MBoundsCheck index length).

(** [key.freeze(constraints())] *)
Definition freeze (key : types.HeapTypeSetKey) : Build unit :=
  fun b => (tt, {| pc := pc b; current := current b;
                   implicitlyUsed := implicitlyUsed b;
                   resumePoints := resumePoints b;
                   constraints := constraints b ++ [key];
                   returnedTypes := returnedTypes b;
                   shouldConvertDoubleElements := shouldConvertDoubleElements b |}).

(** [returned->addType(type, alloc)] on the observed return type set. *)
Definition addType (t : types.Type_) : Build unit :=
  fun b => (tt, {| pc := pc b; current := current b;
                   implicitlyUsed := implicitlyUsed b;
                   resumePoints := resumePoints b;
                   constraints := constraints b;
                   returnedTypes := returnedTypes b ++ [t];
                   shouldConvertDoubleElements := shouldConvertDoubleElements b |}).

(** [templateObject->setShouldConvertDoubleElements()] for true,
    [clearShouldConvertDoubleElements()] for false. *)
Definition setShouldConvertDoubleElements (flag : bool) : Build unit :=
  fun b => (tt, {| pc := pc b; current := current b;
                   implicitlyUsed := implicitlyUsed b;
                   resumePoints := resumePoints b;
                   constraints := constraints b;
                   returnedTypes := returnedTypes b;
                   shouldConvertDoubleElements := Some flag |}).

(** A specialiser of the first part, run by the builder of this module: what
    it adds to an empty block is added to the current block, what it pushes
    is pushed.  The specialisers of the first part read the call site only. *)
Definition liftCore {A : Type} (m : CoreBuild A) : Build A :=
  fun b =>
    let (a, c) := m (builderAt (pc b)) in
    (a, {| pc := pc b;
           current :=
             {| instructions := instructions (current b) ++ map MDef (coreInstructions c);
                stack := map MDef (coreStack c) ++ stack (current b) |};
           implicitlyUsed := implicitlyUsed b ++ coreImplicitlyUsed c;
           resumePoints := resumePoints b ++ map MDef (coreResumePoints c);
           constraints := constraints b;
           returnedTypes := returnedTypes b;
           shouldConvertDoubleElements := shouldConvertDoubleElements b |}).

(** The answer of a specialiser that returns to the dispatcher.  The
    dispatcher answers [None] where the compilation stops without a status:
    only [inlineUnsafePutElements] can do so. *)
Definition returned (inline : Build InliningStatus) : Build (option InliningStatus) :=
  status <- inline ;; ret (Some status).

(** ** What the specialisers ask of the rest of the compiler *)

(** Modelled from the spec: the functions below are defined outside
    MCallOptimize.cpp (IonBuilder.cpp, MIR.cpp, jsinfer.cpp, Lowering.cpp,
    the garbage collector and the runtime).  "Type inference is consumed as a
    query interface"; "attachTypeBarrier(value, expectedTypes, kind)
    constrains the statically-assumed type of value".  The record holds one
    answer per query; an emitter is a computation of the builder that
    answers false when it fails. *)
Record Collaborators : Type := mkCollaborators {
  (* optimizationInfo(), info(), LIRGenerator and the runtime *)
  inlineNative : bool;
  executionMode : ExecutionMode;
  allowInlineForkJoinGetSlice : bool;
  maybeGetMathCache : option nat;
  inliningDepth_ : nat;
  inlineCallInfo_ : CallInfo;
  CallResultEscapes : bool;
  ensureRegExpExecStubExists : bool;
  ensureRegExpTestStubExists : bool;
  reserve : Z -> bool;
  (* limits *)
  NELEMENTS_LIMIT : Z;
  EagerAllocationMaxLength : Z;
  ARGS_LENGTH_MAX : Z;
  InlineTypedObject_MaximumSize : Z;
  (* objects *)
  TypeObjectKey_get : NativeObject -> types.TypeObjectKey;
  ArrayObject_length : NativeObject -> Z;
  getTemplateObjectForClassHook : Class -> option TypedObjectTemplate;
  IsInsideNursery : nat -> bool;
  isProxy : Class -> bool;
  nonProxyCallable : Class -> bool;
  IsTypeDescrClass : Class -> bool;
  IsTypedObjectClass : Class -> bool;
  TypedArrayObject_isOriginalLengthGetter : JSNative -> bool;
  SharedTypedArrayObject_isOriginalLengthGetter : Scalar.Type_ -> JSNative -> bool;
  (* type sets and definitions *)
  empty : types.TemporaryTypeSet -> bool;
  hasType : types.TemporaryTypeSet -> types.Type_ -> bool;
  unknownObject : types.TemporaryTypeSet -> bool;
  getTypedArrayType : types.TemporaryTypeSet -> Scalar.Type_;
  forAllClasses : types.TemporaryTypeSet -> (Class -> bool) -> ForAllResult;
  maybeTypes_isNull : types.HeapTypeSetKey -> bool;
  TypeSetIncludes :
    types.HeapTypeSetKey -> MIRType -> option types.TemporaryTypeSet -> bool;
  mightBeType : MDefinition -> MIRType -> bool;
  mightBeMagicType : MDefinition -> bool;
  isEffectful : MNode -> bool;
  NeedsPostBarrier : MNode -> bool;
  PropertyReadNeedsTypeBarrier : MNode -> types.TemporaryTypeSet -> BarrierKind;
  PropertyWriteNeedsTypeBarrier : MDefinition -> MDefinition -> bool;
  (* element accesses of UnsafePutElements *)
  ElementAccessIsDenseNative : MDefinition -> MDefinition -> bool;
  ElementAccessIsAnyTypedArray : MDefinition -> MDefinition -> option Scalar.Type_;
  typedObjectPrediction : MDefinition -> TypedObjectPrediction;
  jsop_setelem_dense :
    types.DoubleConversion -> MDefinition -> MDefinition -> MDefinition -> CoreBuild bool;
  jsop_setelem_typed :
    Scalar.Type_ -> MDefinition -> MDefinition -> MDefinition -> CoreBuild bool;
  jsop_setelem_typed_object :
    Scalar.Type_ -> MDefinition -> MDefinition -> MDefinition -> CoreBuild bool;
  (* emitters *)
  addTypedArrayLength : MDefinition -> Build MNode;
  addMaybeCopyElementsForWrite : MDefinition -> Build MNode;
  pushTypeBarrier : MNode -> types.TemporaryTypeSet -> BarrierKind -> Build bool;
  makeCall : JSObject -> CallInfo -> bool -> Build bool
}.

(** ** Readers of values and enumerations *)

(** [toInt32()], [toBoolean()] and [toPrivateUint32()] of js::Value; the
    source reads each under a test or an assertion of the value's type. *)
Definition toInt32 (v : Value) : Z :=
  match v with Int32Value i => int32 i | _ => 0 end.

Definition toBoolean (v : Value) : bool :=
  match v with BooleanValue t => t | _ => false end.

Definition toPrivateUint32 (v : Value) : Z := to_uint32 (toInt32 v).

Definition isTypeMax (t : Scalar.Type_) : bool :=
  match t with Scalar.TypeMax => true | _ => false end.

Definition isAlwaysConvertToDoubles (c : types.DoubleConversion) : bool :=
  match c with types.AlwaysConvertToDoubles => true | _ => false end.

Definition isMaybeConvertToDoubles (c : types.DoubleConversion) : bool :=
  match c with types.MaybeConvertToDoubles => true | _ => false end.

Definition isAmbiguousDoubleConversion (c : types.DoubleConversion) : bool :=
  match c with types.AmbiguousDoubleConversion => true | _ => false end.

Definition isTenuredHeap (h : InitialHeap) : bool :=
  match h with TenuredHeap => true | DefaultHeap => false end.

Definition isNoBarrier (k : BarrierKind) : bool :=
  match k with NoBarrier => true | _ => false end.

Definition isParallelExecution (m : ExecutionMode) : bool :=
  match m with ParallelExecution => true | _ => false end.

(** [ins->initialHeap()] of an [MNewArray]. *)
Definition MNewArray_initialHeap (ins : MNode) : InitialHeap :=
  match ins with
  | MNewArray _ _ heap _ => heap
  | _ => DefaultHeap
  end.

(** [maybeTypes()->hasType(t)] over the types the key holds. *)
Definition maybeTypes_hasType (key : types.HeapTypeSetKey) (t : types.Type_) : bool :=
  existsb (types.Type_eqb t) (types.maybeTypes key).

Section Specialisers.

Variable jit : Collaborators.

(** ** Getters and call hooks *)

Definition inlineConstructTypedObject (callInfo : CallInfo) (descr : SizedTypeDescr)
    : Build InliningStatus :=
  (* Only inline default constructors for now. *)
  if negb (argc callInfo =? 0) then ret InliningStatus_NotInlined else
  if InlineTypedObject_MaximumSize jit <? to_size_t (size descr)
  then ret InliningStatus_NotInlined else
  match getTemplateObjectForClassHook jit (getClass descr) with
  | None => ret InliningStatus_NotInlined
  | Some obj =>
    if negb (is_InlineTypedObject obj) then ret InliningStatus_NotInlined else
    let templateObject := obj in
    if negb (Nat.eqb (typeDescr templateObject) (descr_id descr))
    then ret InliningStatus_NotInlined else
    setImplicitlyUsedUnchecked callInfo ;;
    let ins := MNewTypedObject templateObject (template_initialHeap templateObject) in
    add ins ;;
    push ins ;;
    ret InliningStatus_Inlined
  end.

Definition inlineNativeGetter (callInfo : CallInfo) (target : JSFunction)
    : Build InliningStatus :=
  let native := native target in
  if negb (inlineNative jit) then ret InliningStatus_NotInlined else
  (* Try to optimize typed array lengths. *)
  match resultTypeSet (thisArg callInfo) with
  | Some thisTypes =>
    let arrayType := getTypedArrayType jit thisTypes in
    if negb (isTypeMax arrayType) && TypedArrayObject_isOriginalLengthGetter jit native
    then
      length <- addTypedArrayLength jit (thisArg callInfo) ;;
      push length ;;
      ret InliningStatus_Inlined
    else
    let arrayType := types.getSharedTypedArrayType thisTypes in
    if negb (isTypeMax arrayType) &&
       SharedTypedArrayObject_isOriginalLengthGetter jit arrayType native
    then
      length <- addTypedArrayLength jit (thisArg callInfo) ;;
      push length ;;
      ret InliningStatus_Inlined
    else ret InliningStatus_NotInlined
  | None => ret InliningStatus_NotInlined
  end.

Definition inlineNonFunctionCall (callInfo : CallInfo) (target : JSObject)
    : Build InliningStatus :=
  (* Inline a call to a non-function object, invoking the object's call or
     construct hook. *)
  if constructing callInfo && constructHook_is_constructSized target
  then inlineConstructTypedObject callInfo (as_SizedTypeDescr target)
  else ret InliningStatus_NotInlined.

(** ** Array natives *)

(** The tests [inlineArray] makes on its arguments: the initial length and
    the allocating behaviour it settles on, or [None] where the source
    returns NotInlined. *)
Definition inlineArray_initLength (callInfo : CallInfo) (templateObject : NativeObject)
    : Build (option (Z * AllocatingBehaviour)) :=
  let initLength := 0 in
  let allocating := NewArray_Unallocating in
  (* Multiple arguments imply array initialization, not just construction. *)
  if 2 <=? argc callInfo then
    let initLength := argc callInfo in
    let allocating := NewArray_FullyAllocating in
    let type_ := TypeObjectKey_get jit templateObject in
    if negb (types.unknownProperties type_) then
      let elemTypes := types.property_JSID_VOID type_ in
      if forallb (fun value =>
                    TypeSetIncludes jit elemTypes (type value) (resultTypeSet value))
                 (argv callInfo)
      then ret (Some (initLength, allocating))
      else freeze elemTypes ;; ret None
    else ret (Some (initLength, allocating))
  else
  (* A single integer argument denotes initial length. *)
  if argc callInfo =? 1 then
    if negb (MIRType_beq (type (getArg callInfo 0)) MIRType_Int32) then ret None else
    let arg := getArg callInfo 0 in
    if negb (isConstant arg) then ret None else
    (* Negative lengths generate a RangeError, unhandled by the inline path. *)
    let initLength := to_uint32 (toInt32 (constantValue arg)) in
    if NELEMENTS_LIMIT jit <=? initLength then ret None else
    (* Make sure initLength matches the template object's length. *)
    if negb (initLength =? ArrayObject_length jit templateObject) then ret None else
    (* Don't inline large allocations. *)
    if EagerAllocationMaxLength jit <? initLength then ret None else
    ret (Some (initLength, NewArray_FullyAllocating))
  else ret (Some (initLength, allocating)).

(** The loop of [inlineArray] that stores the arguments, [i] the index of
    the first of [values]; it answers the last [id]. *)
Fixpoint inlineArray_stores (ins elements : MNode) (conversion : types.DoubleConversion)
    (values : list MDefinition) (i : Z) (id : option MNode) : Build (option MNode) :=
  match values with
  | [] => ret id
  | value :: rest =>
      let id := MDef (MConstant (Int32Value i)) in
      add id ;;
      value <- (if isAlwaysConvertToDoubles conversion
                then let valueDouble := MDef (MToDouble value) in
                     add valueDouble ;; ret valueDouble
                else ret (MDef value)) ;;
      (* There is normally no need for a post barrier on these writes
         because the new array will be in the nursery. *)
      (if isTenuredHeap (MNewArray_initialHeap ins)
       then add (MPostWriteBarrier ins value)
       else ret tt) ;;
      let store := MStoreElement elements id value false in
      add store ;;
      inlineArray_stores ins elements conversion rest (i + 1) (Some id)
  end.

Definition inlineArray (callInfo : CallInfo) : Build InliningStatus :=
  template <- ask (fun b => getTemplateObjectForNative (pc b)) ;;
  match template with
  | None => ret InliningStatus_NotInlined
  | Some templateObject =>
    lengths <- inlineArray_initLength callInfo templateObject ;;
    match lengths with
    | None => ret InliningStatus_NotInlined
    | Some (initLength, allocating) =>
      setImplicitlyUsedUnchecked callInfo ;;
      returnTypes <- ask getInlineReturnTypeSet ;;
      let conversion := types.convertDoubleElements returnTypes in
      setShouldConvertDoubleElements (isAlwaysConvertToDoubles conversion) ;;
      let templateConst := MObjectConstant templateObject true in
      add templateConst ;;
      let ins := MNewArray initLength templateConst (initialHeap templateObject)
                   allocating in
      add ins ;;
      push ins ;;
      if 2 <=? argc callInfo then
        (* Get the elements vector. *)
        let elements := MElements ins in
        add elements ;;
        (* Store all values. *)
        id <- inlineArray_stores ins elements conversion (argv callInfo) 0 None ;;
        (* Update the length. *)
        let length := MSetInitializedLength elements id in
        add length ;;
        resumed <- resumeAfter length ;;
        if negb resumed then ret InliningStatus_Error else
        ret InliningStatus_Inlined
      else ret InliningStatus_Inlined
    end
  end.

Definition inlineArrayPopShift (callInfo : CallInfo) (mode : MArrayPopShift.Mode)
    : Build InliningStatus :=
  if constructing callInfo then ret InliningStatus_NotInlined else
  returnType <- ask getInlineReturnType ;;
  if MIRType_beq returnType MIRType_Undefined || MIRType_beq returnType MIRType_Null
  then ret InliningStatus_NotInlined else
  if negb (MIRType_beq (type (thisArg callInfo)) MIRType_Object)
  then ret InliningStatus_NotInlined else
  (* Pop and shift are only handled for dense arrays that have never been
     used in an iterator. *)
  let unhandledFlags :=
    [OBJECT_FLAG_SPARSE_INDEXES; OBJECT_FLAG_LENGTH_OVERFLOW; OBJECT_FLAG_ITERATED] in
  let obj := thisArg callInfo in
  match resultTypeSet obj with
  | None => ret InliningStatus_NotInlined
  | Some thisTypes =>
    if negb (clasp_eqb (types.getKnownClass thisTypes) (Some ArrayObject_class))
    then ret InliningStatus_NotInlined else
    if types.hasObjectFlags thisTypes unhandledFlags
    then ret InliningStatus_NotInlined else
    indexed <- ask (fun b => ArrayPrototypeHasIndexedProperty (pc b)) ;;
    if indexed then ret InliningStatus_NotInlined else
    setImplicitlyUsedUnchecked callInfo ;;
    obj <- addMaybeCopyElementsForWrite jit obj ;;
    returnTypes <- ask getInlineReturnTypeSet ;;
    let needsHoleCheck := types.hasObjectFlags thisTypes [OBJECT_FLAG_NON_PACKED] in
    let maybeUndefined := hasType jit returnTypes types.UndefinedType in
    let barrier := PropertyReadNeedsTypeBarrier jit obj returnTypes in
    let returnType := if negb (isNoBarrier barrier) then MIRType_Value else returnType in
    let ins := MArrayPopShift obj mode needsHoleCheck maybeUndefined returnType in
    add ins ;;
    push ins ;;
    resumed <- resumeAfter ins ;;
    if negb resumed then ret InliningStatus_Error else
    barriered <- pushTypeBarrier jit ins returnTypes barrier ;;
    if negb barriered then ret InliningStatus_Error else
    ret InliningStatus_Inlined
  end.

Definition inlineArrayPush (callInfo : CallInfo) : Build InliningStatus :=
  if negb (argc callInfo =? 1) || constructing callInfo
  then ret InliningStatus_NotInlined else
  let obj := thisArg callInfo in
  let value := getArg callInfo 0 in
  if PropertyWriteNeedsTypeBarrier jit obj value
  then ret InliningStatus_NotInlined else
  returnType <- ask getInlineReturnType ;;
  if negb (MIRType_beq returnType MIRType_Int32)
  then ret InliningStatus_NotInlined else
  if negb (MIRType_beq (type (thisArg callInfo)) MIRType_Object)
  then ret InliningStatus_NotInlined else
  match resultTypeSet (thisArg callInfo) with
  | None => ret InliningStatus_NotInlined
  | Some thisTypes =>
    if negb (clasp_eqb (types.getKnownClass thisTypes) (Some ArrayObject_class))
    then ret InliningStatus_NotInlined else
    if types.hasObjectFlags thisTypes
         [OBJECT_FLAG_SPARSE_INDEXES; OBJECT_FLAG_LENGTH_OVERFLOW]
    then ret InliningStatus_NotInlined else
    indexed <- ask (fun b => ArrayPrototypeHasIndexedProperty (pc b)) ;;
    if indexed then ret InliningStatus_NotInlined else
    let conversion := types.convertDoubleElements thisTypes in
    if isAmbiguousDoubleConversion conversion
    then ret InliningStatus_NotInlined else
    setImplicitlyUsedUnchecked callInfo ;;
    let value := getArg callInfo 0 in
    value <- (if isAlwaysConvertToDoubles conversion ||
                 isMaybeConvertToDoubles conversion
              then let valueDouble := MDef (MToDouble value) in
                   add valueDouble ;; ret valueDouble
              else ret (MDef value)) ;;
    obj <- addMaybeCopyElementsForWrite jit obj ;;
    (if NeedsPostBarrier jit value
     then add (MPostWriteBarrier obj value)
     else ret tt) ;;
    let ins := MArrayPush obj value in
    add ins ;;
    push ins ;;
    resumed <- resumeAfter ins ;;
    if negb resumed then ret InliningStatus_Error else
    ret InliningStatus_Inlined
  end.

(** ** Math natives *)

Definition inlineMathFunction (callInfo : CallInfo) (function : MMathFunction.Function)
    : Build InliningStatus :=
  if constructing callInfo then ret InliningStatus_NotInlined else
  if negb (argc callInfo =? 1) then ret InliningStatus_NotInlined else
  returnType <- ask getInlineReturnType ;;
  if negb (MIRType_beq returnType MIRType_Double)
  then ret InliningStatus_NotInlined else
  if negb (IsNumberType (type (getArg callInfo 0)))
  then ret InliningStatus_NotInlined else
  let cache := maybeGetMathCache jit in
  flagImplicitlyUsed [fun_ callInfo] ;;
  flagImplicitlyUsed [thisArg callInfo] ;;
  let ins := MMathFunction (getArg callInfo 0) function cache in
  add ins ;;
  push ins ;;
  ret InliningStatus_Inlined.

Definition inlineMathAbs (callInfo : CallInfo) : Build InliningStatus :=
  if constructing callInfo then ret InliningStatus_NotInlined else
  if negb (argc callInfo =? 1) then ret InliningStatus_NotInlined else
  returnType <- ask getInlineReturnType ;;
  let argType := type (getArg callInfo 0) in
  if negb (IsNumberType argType) then ret InliningStatus_NotInlined else
  (* Either argType == returnType, or
            argType == Double or Float32, returnType == Int, or
            argType == Float32, returnType == Double *)
  if negb (MIRType_beq argType returnType) &&
     negb (IsFloatingPointType argType && MIRType_beq returnType MIRType_Int32) &&
     negb (MIRType_beq argType MIRType_Float32 && MIRType_beq returnType MIRType_Double)
  then ret InliningStatus_NotInlined else
  setImplicitlyUsedUnchecked callInfo ;;
  (* If the arg is a Float32, we specialize the op as double, it will be
     specialized as float32 if necessary later. *)
  let absType := if MIRType_beq argType MIRType_Float32 then MIRType_Double else argType in
  let ins := MAbs (getArg callInfo 0) absType in
  add ins ;;
  push ins ;;
  ret InliningStatus_Inlined.

Definition inlineMathFloor (callInfo : CallInfo) : Build InliningStatus :=
  if constructing callInfo then ret InliningStatus_NotInlined else
  if negb (argc callInfo =? 1) then ret InliningStatus_NotInlined else
  let argType := type (getArg callInfo 0) in
  returnType <- ask getInlineReturnType ;;
  (* Math.floor(int(x)) == int(x) *)
  if MIRType_beq argType MIRType_Int32 && MIRType_beq returnType MIRType_Int32 then
    setImplicitlyUsedUnchecked callInfo ;;
    let ins := MDef (MLimitedTruncate (getArg callInfo 0) IndirectTruncate) in
    add ins ;;
    push ins ;;
    ret InliningStatus_Inlined
  else
  if IsFloatingPointType argType && MIRType_beq returnType MIRType_Int32 then
    setImplicitlyUsedUnchecked callInfo ;;
    let ins := MFloor (getArg callInfo 0) in
    add ins ;;
    push ins ;;
    ret InliningStatus_Inlined
  else
  if IsFloatingPointType argType && MIRType_beq returnType MIRType_Double then
    setImplicitlyUsedUnchecked callInfo ;;
    let ins := MMathFunction (getArg callInfo 0) MMathFunction.Floor None in
    add ins ;;
    push ins ;;
    ret InliningStatus_Inlined
  else ret InliningStatus_NotInlined.

Definition inlineMathCeil (callInfo : CallInfo) : Build InliningStatus :=
  if constructing callInfo then ret InliningStatus_NotInlined else
  if negb (argc callInfo =? 1) then ret InliningStatus_NotInlined else
  let argType := type (getArg callInfo 0) in
  returnType <- ask getInlineReturnType ;;
  (* Math.ceil(int(x)) == int(x) *)
  if MIRType_beq argType MIRType_Int32 && MIRType_beq returnType MIRType_Int32 then
    setImplicitlyUsedUnchecked callInfo ;;
    let ins := MDef (MLimitedTruncate (getArg callInfo 0) IndirectTruncate) in
    add ins ;;
    push ins ;;
    ret InliningStatus_Inlined
  else
  if IsFloatingPointType argType && MIRType_beq returnType MIRType_Int32 then
    setImplicitlyUsedUnchecked callInfo ;;
    let ins := MCeil (getArg callInfo 0) in
    add ins ;;
    push ins ;;
    ret InliningStatus_Inlined
  else
  if IsFloatingPointType argType && MIRType_beq returnType MIRType_Double then
    setImplicitlyUsedUnchecked callInfo ;;
    let ins := MMathFunction (getArg callInfo 0) MMathFunction.Ceil None in
    add ins ;;
    push ins ;;
    ret InliningStatus_Inlined
  else ret InliningStatus_NotInlined.

Definition inlineMathClz32 (callInfo : CallInfo) : Build InliningStatus :=
  if constructing callInfo then ret InliningStatus_NotInlined else
  if negb (argc callInfo =? 1) then ret InliningStatus_NotInlined else
  returnType <- ask getInlineReturnType ;;
  if negb (MIRType_beq returnType MIRType_Int32)
  then ret InliningStatus_NotInlined else
  if negb (IsNumberType (type (getArg callInfo 0)))
  then ret InliningStatus_NotInlined else
  setImplicitlyUsedUnchecked callInfo ;;
  let ins := MClz (getArg callInfo 0) in
  add ins ;;
  push ins ;;
  ret InliningStatus_Inlined.

Definition inlineMathRound (callInfo : CallInfo) : Build InliningStatus :=
  if constructing callInfo then ret InliningStatus_NotInlined else
  if negb (argc callInfo =? 1) then ret InliningStatus_NotInlined else
  returnType <- ask getInlineReturnType ;;
  let argType := type (getArg callInfo 0) in
  (* Math.round(int(x)) == int(x) *)
  if MIRType_beq argType MIRType_Int32 && MIRType_beq returnType MIRType_Int32 then
    setImplicitlyUsedUnchecked callInfo ;;
    let ins := MDef (MLimitedTruncate (getArg callInfo 0) IndirectTruncate) in
    add ins ;;
    push ins ;;
    ret InliningStatus_Inlined
  else
  if IsFloatingPointType argType && MIRType_beq returnType MIRType_Int32 then
    setImplicitlyUsedUnchecked callInfo ;;
    let ins := MRound (getArg callInfo 0) in
    add ins ;;
    push ins ;;
    ret InliningStatus_Inlined
  else
  if IsFloatingPointType argType && MIRType_beq returnType MIRType_Double then
    setImplicitlyUsedUnchecked callInfo ;;
    let ins := MMathFunction (getArg callInfo 0) MMathFunction.Round None in
    add ins ;;
    push ins ;;
    ret InliningStatus_Inlined
  else ret InliningStatus_NotInlined.

Definition inlineMathSqrt (callInfo : CallInfo) : Build InliningStatus :=
  if constructing callInfo then ret InliningStatus_NotInlined else
  if negb (argc callInfo =? 1) then ret InliningStatus_NotInlined else
  let argType := type (getArg callInfo 0) in
  returnType <- ask getInlineReturnType ;;
  if negb (MIRType_beq returnType MIRType_Double)
  then ret InliningStatus_NotInlined else
  if negb (IsNumberType argType) then ret InliningStatus_NotInlined else
  setImplicitlyUsedUnchecked callInfo ;;
  let sqrt := MSqrt (getArg callInfo 0) in
  add sqrt ;;
  push sqrt ;;
  ret InliningStatus_Inlined.

Definition inlineMathAtan2 (callInfo : CallInfo) : Build InliningStatus :=
  if constructing callInfo then ret InliningStatus_NotInlined else
  if negb (argc callInfo =? 2) then ret InliningStatus_NotInlined else
  returnType <- ask getInlineReturnType ;;
  if negb (MIRType_beq returnType MIRType_Double)
  then ret InliningStatus_NotInlined else
  let argType0 := type (getArg callInfo 0) in
  let argType1 := type (getArg callInfo 1) in
  if negb (IsNumberType argType0) || negb (IsNumberType argType1)
  then ret InliningStatus_NotInlined else
  setImplicitlyUsedUnchecked callInfo ;;
  let atan2 := MAtan2 (getArg callInfo 0) (getArg callInfo 1) in
  add atan2 ;;
  push atan2 ;;
  ret InliningStatus_Inlined.

Definition inlineMathHypot (callInfo : CallInfo) : Build InliningStatus :=
  if constructing callInfo then ret InliningStatus_NotInlined else
  if negb (argc callInfo =? 2) then ret InliningStatus_NotInlined else
  returnType <- ask getInlineReturnType ;;
  if negb (MIRType_beq returnType MIRType_Double)
  then ret InliningStatus_NotInlined else
  let argType0 := type (getArg callInfo 0) in
  let argType1 := type (getArg callInfo 1) in
  if negb (IsNumberType argType0) || negb (IsNumberType argType1)
  then ret InliningStatus_NotInlined else
  setImplicitlyUsedUnchecked callInfo ;;
  let hypot := MHypot (getArg callInfo 0) (getArg callInfo 1) in
  add hypot ;;
  push hypot ;;
  ret InliningStatus_Inlined.

Definition inlineMathRandom (callInfo : CallInfo) : Build InliningStatus :=
  if constructing callInfo then ret InliningStatus_NotInlined else
  returnType <- ask getInlineReturnType ;;
  if negb (MIRType_beq returnType MIRType_Double)
  then ret InliningStatus_NotInlined else
  setImplicitlyUsedUnchecked callInfo ;;
  let rand := MRandom in
  add rand ;;
  push rand ;;
  ret InliningStatus_Inlined.

Definition inlineMathImul (callInfo : CallInfo) : Build InliningStatus :=
  if negb (argc callInfo =? 2) || constructing callInfo
  then ret InliningStatus_NotInlined else
  returnType <- ask getInlineReturnType ;;
  if negb (MIRType_beq returnType MIRType_Int32)
  then ret InliningStatus_NotInlined else
  if negb (IsNumberType (type (getArg callInfo 0)))
  then ret InliningStatus_NotInlined else
  if negb (IsNumberType (type (getArg callInfo 1)))
  then ret InliningStatus_NotInlined else
  setImplicitlyUsedUnchecked callInfo ;;
  let first := MDef (MTruncateToInt32 (getArg callInfo 0)) in
  add first ;;
  let second := MDef (MTruncateToInt32 (getArg callInfo 1)) in
  add second ;;
  let ins := MMul first second MIRType_Int32 MMul.Integer in
  add ins ;;
  push ins ;;
  ret InliningStatus_Inlined.

Definition inlineMathFRound (callInfo : CallInfo) : Build InliningStatus :=
  if negb (argc callInfo =? 1) || constructing callInfo
  then ret InliningStatus_NotInlined else
  (* MIRType can't be Float32, as this point, as getInlineReturnType uses
     JSVal types to infer the returned MIR type. *)
  returned <- ask getInlineReturnTypeSet ;;
  numeric <- (if empty jit returned then
                (* As there's only one possible returned type, just add it to
                   the observed returned typeset *)
                addType types.DoubleType ;; ret true
              else
                returnType <- ask getInlineReturnType ;;
                if negb (IsNumberType returnType) then ret false else ret true) ;;
  if negb numeric then ret InliningStatus_NotInlined else
  let arg := type (getArg callInfo 0) in
  if negb (IsNumberType arg) then ret InliningStatus_NotInlined else
  setImplicitlyUsedUnchecked callInfo ;;
  let ins := MToFloat32 (getArg callInfo 0) in
  add ins ;;
  push ins ;;
  ret InliningStatus_Inlined.

(** ** String and RegExp natives *)

Definition inlineStringObject (callInfo : CallInfo) : Build InliningStatus :=
  if negb (argc callInfo =? 1) || negb (constructing callInfo)
  then ret InliningStatus_NotInlined else
  (* ConvertToString doesn't support objects. *)
  if mightBeType jit (getArg callInfo 0) MIRType_Object
  then ret InliningStatus_NotInlined else
  template <- ask (fun b => getTemplateObjectForNative (pc b)) ;;
  match template with
  | None => ret InliningStatus_NotInlined
  | Some templateObj =>
    setImplicitlyUsedUnchecked callInfo ;;
    let ins := MNewStringObject (getArg callInfo 0) templateObj in
    add ins ;;
    push ins ;;
    resumed <- resumeAfter ins ;;
    if negb resumed then ret InliningStatus_Error else
    ret InliningStatus_Inlined
  end.

Definition inlineStringSplit (callInfo : CallInfo) : Build InliningStatus :=
  if negb (argc callInfo =? 1) || constructing callInfo
  then ret InliningStatus_NotInlined else
  if negb (MIRType_beq (type (thisArg callInfo)) MIRType_String)
  then ret InliningStatus_NotInlined else
  if negb (MIRType_beq (type (getArg callInfo 0)) MIRType_String)
  then ret InliningStatus_NotInlined else
  template <- ask (fun b => getTemplateObjectForNative (pc b)) ;;
  match template with
  | None => ret InliningStatus_NotInlined
  | Some templateObject =>
    let retType := TypeObjectKey_get jit templateObject in
    if types.unknownProperties retType then ret InliningStatus_NotInlined else
    let key := types.property_JSID_VOID retType in
    if maybeTypes_isNull jit key then ret InliningStatus_NotInlined else
    if negb (maybeTypes_hasType key types.StringType) then
      freeze key ;;
      ret InliningStatus_NotInlined
    else
    setImplicitlyUsedUnchecked callInfo ;;
    let templateObjectDef := MObjectConstant templateObject false in
    add templateObjectDef ;;
    let ins := MStringSplit (thisArg callInfo) (getArg callInfo 0) templateObjectDef in
    add ins ;;
    push ins ;;
    ret InliningStatus_Inlined
  end.

Definition inlineStrFromCharCode (callInfo : CallInfo) : Build InliningStatus :=
  if negb (argc callInfo =? 1) || constructing callInfo
  then ret InliningStatus_NotInlined else
  returnType <- ask getInlineReturnType ;;
  if negb (MIRType_beq returnType MIRType_String)
  then ret InliningStatus_NotInlined else
  if negb (MIRType_beq (type (getArg callInfo 0)) MIRType_Int32)
  then ret InliningStatus_NotInlined else
  setImplicitlyUsedUnchecked callInfo ;;
  let charCode := MToInt32 (getArg callInfo 0) in
  add charCode ;;
  let string := MFromCharCode charCode in
  add string ;;
  push string ;;
  ret InliningStatus_Inlined.

Definition inlineStrCharAt (callInfo : CallInfo) : Build InliningStatus :=
  if negb (argc callInfo =? 1) || constructing callInfo
  then ret InliningStatus_NotInlined else
  returnType <- ask getInlineReturnType ;;
  if negb (MIRType_beq returnType MIRType_String)
  then ret InliningStatus_NotInlined else
  if negb (MIRType_beq (type (thisArg callInfo)) MIRType_String)
  then ret InliningStatus_NotInlined else
  let argType := type (getArg callInfo 0) in
  if negb (MIRType_beq argType MIRType_Int32) &&
     negb (MIRType_beq argType MIRType_Double)
  then ret InliningStatus_NotInlined else
  setImplicitlyUsedUnchecked callInfo ;;
  let index := MToInt32 (getArg callInfo 0) in
  add index ;;
  let length := MStringLength (thisArg callInfo) in
  add length ;;
  index <- addBoundsCheck index length ;;
  (* String.charAt(x) = String.fromCharCode(String.charCodeAt(x)) *)
  let charCode := MCharCodeAt (thisArg callInfo) index in
  add charCode ;;
  let string := MFromCharCode charCode in
  add string ;;
  push string ;;
  ret InliningStatus_Inlined.

Definition inlineRegExpExec (callInfo : CallInfo) : Build InliningStatus :=
  if negb (argc callInfo =? 1) || constructing callInfo
  then ret InliningStatus_NotInlined else
  if negb (MIRType_beq (type (thisArg callInfo)) MIRType_Object)
  then ret InliningStatus_NotInlined else
  let thisTypes := resultTypeSet (thisArg callInfo) in
  let clasp := match thisTypes with
               | Some ts => types.getKnownClass ts
               | None => None
               end in
  if negb (clasp_eqb clasp (Some RegExpObject_class))
  then ret InliningStatus_NotInlined else
  if mightBeType jit (getArg callInfo 0) MIRType_Object
  then ret InliningStatus_NotInlined else
  if negb (ensureRegExpExecStubExists jit) then ret InliningStatus_Error else
  setImplicitlyUsedUnchecked callInfo ;;
  let exec := MRegExpExec (thisArg callInfo) (getArg callInfo 0) in
  add exec ;;
  push exec ;;
  resumed <- resumeAfter exec ;;
  if negb resumed then ret InliningStatus_Error else
  returnTypes <- ask getInlineReturnTypeSet ;;
  barriered <- pushTypeBarrier jit exec returnTypes TypeSet ;;
  if negb barriered then ret InliningStatus_Error else
  ret InliningStatus_Inlined.

Definition inlineRegExpTest (callInfo : CallInfo) : Build InliningStatus :=
  if negb (argc callInfo =? 1) || constructing callInfo
  then ret InliningStatus_NotInlined else
  (* TI can infer a nullptr return type of regexp_test with eager
     compilation. *)
  returnType <- ask getInlineReturnType ;;
  if CallResultEscapes jit && negb (MIRType_beq returnType MIRType_Boolean)
  then ret InliningStatus_NotInlined else
  if negb (MIRType_beq (type (thisArg callInfo)) MIRType_Object)
  then ret InliningStatus_NotInlined else
  let thisTypes := resultTypeSet (thisArg callInfo) in
  let clasp := match thisTypes with
               | Some ts => types.getKnownClass ts
               | None => None
               end in
  if negb (clasp_eqb clasp (Some RegExpObject_class))
  then ret InliningStatus_NotInlined else
  if mightBeType jit (getArg callInfo 0) MIRType_Object
  then ret InliningStatus_NotInlined else
  if negb (ensureRegExpTestStubExists jit) then ret InliningStatus_Error else
  setImplicitlyUsedUnchecked callInfo ;;
  let match_ := MRegExpTest (thisArg callInfo) (getArg callInfo 0) in
  add match_ ;;
  push match_ ;;
  resumed <- resumeAfter match_ ;;
  if negb resumed then ret InliningStatus_Error else
  ret InliningStatus_Inlined.

Definition inlineStrReplace (callInfo : CallInfo) : Build InliningStatus :=
  if negb (argc callInfo =? 2) || constructing callInfo
  then ret InliningStatus_NotInlined else
  (* Return: String. *)
  returnType <- ask getInlineReturnType ;;
  if negb (MIRType_beq returnType MIRType_String)
  then ret InliningStatus_NotInlined else
  (* This: String. *)
  if negb (MIRType_beq (type (thisArg callInfo)) MIRType_String)
  then ret InliningStatus_NotInlined else
  (* Arg 0: RegExp. *)
  let arg0Type := resultTypeSet (getArg callInfo 0) in
  let clasp := match arg0Type with
               | Some ts => types.getKnownClass ts
               | None => None
               end in
  if negb (clasp_eqb clasp (Some RegExpObject_class)) &&
     negb (MIRType_beq (type (getArg callInfo 0)) MIRType_String)
  then ret InliningStatus_NotInlined else
  (* Arg 1: String. *)
  if negb (MIRType_beq (type (getArg callInfo 1)) MIRType_String)
  then ret InliningStatus_NotInlined else
  setImplicitlyUsedUnchecked callInfo ;;
  let cte := if MIRType_beq (type (getArg callInfo 0)) MIRType_String
             then MStringReplace (thisArg callInfo) (getArg callInfo 0)
                    (getArg callInfo 1)
             else MRegExpReplace (thisArg callInfo) (getArg callInfo 0)
                    (getArg callInfo 1) in
  add cte ;;
  push cte ;;
  if isEffectful jit cte then
    resumed <- resumeAfter cte ;;
    if negb resumed then ret InliningStatus_Error else
    ret InliningStatus_Inlined
  else ret InliningStatus_Inlined.

(** ** Parallel intrinsics *)

Definition inlineForceSequentialOrInParallelSection (callInfo : CallInfo)
    : Build InliningStatus :=
  if constructing callInfo then ret InliningStatus_NotInlined else
  match executionMode jit with
  | ParallelExecution =>
      (* During Parallel Exec, we always force sequential, so replace with
         true. *)
      setImplicitlyUsedUnchecked callInfo ;;
      let ins := MConstant (BooleanValue true) in
      add ins ;;
      push ins ;;
      ret InliningStatus_Inlined
  | _ =>
      (* In sequential mode, leave as is, because we'd have to access the
         "in warmup" flag of the runtime. *)
      ret InliningStatus_NotInlined
  end.

Definition inlineForkJoinGetSlice (callInfo : CallInfo) : Build InliningStatus :=
  if negb (isParallelExecution (executionMode jit))
  then ret InliningStatus_NotInlined else
  (* Test this, as we might have not executed the native despite knowing the
     target here. *)
  returnType <- ask getInlineReturnType ;;
  if negb (MIRType_beq returnType MIRType_Int32)
  then ret InliningStatus_NotInlined else
  setImplicitlyUsedUnchecked callInfo ;;
  match executionMode jit with
  | ParallelExecution =>
      if allowInlineForkJoinGetSlice jit then
        let getSlice := MForkJoinGetSlice MForkJoinContext in
        add getSlice ;;
        push getSlice ;;
        ret InliningStatus_Inlined
      else ret InliningStatus_NotInlined
  | _ =>
      (* ForkJoinGetSlice acts as identity for sequential execution. *)
      push (getArg callInfo 0) ;;
      ret InliningStatus_Inlined
  end.

Definition inlineNewDenseArrayForSequentialExecution (callInfo : CallInfo)
    : Build InliningStatus :=
  (* not yet implemented; in seq. mode the C function is not so bad *)
  ret InliningStatus_NotInlined.

Definition inlineNewDenseArrayForParallelExecution (callInfo : CallInfo)
    : Build InliningStatus :=
  (* Create the new parallel array object.  Parallel arrays have specially
     constructed type objects, so we can only perform the inlining if we
     already have one of these type objects. *)
  returnTypes <- ask getInlineReturnTypeSet ;;
  if negb (MIRType_beq (types.getKnownMIRType returnTypes) MIRType_Object)
  then ret InliningStatus_NotInlined else
  if unknownObject jit returnTypes || negb (Nat.eqb (types.getObjectCount returnTypes) 1)
  then ret InliningStatus_NotInlined else
  if negb (MIRType_beq (type (getArg callInfo 0)) MIRType_Int32)
  then ret InliningStatus_NotInlined else
  let typeObject := types.getTypeObject returnTypes 0 in
  template <- ask (fun b => getTemplateObjectForNative (pc b)) ;;
  match template, typeObject with
  | Some templateObject, Some typeObject =>
    if negb (Nat.eqb (type_ templateObject) (types.key_id typeObject))
    then ret InliningStatus_NotInlined else
    setImplicitlyUsedUnchecked callInfo ;;
    let newObject := MNewDenseArrayPar MForkJoinContext (getArg callInfo 0)
                       templateObject in
    add newObject ;;
    push newObject ;;
    ret InliningStatus_Inlined
  | _, _ => ret InliningStatus_NotInlined
  end.

Definition inlineNewDenseArray (callInfo : CallInfo) : Build InliningStatus :=
  if constructing callInfo || negb (argc callInfo =? 1)
  then ret InliningStatus_NotInlined else
  (* For now, in seq. mode we just call the C function.  In par. mode we use
     inlined MIR. *)
  match executionMode jit with
  | ParallelExecution => inlineNewDenseArrayForParallelExecution callInfo
  | _ => inlineNewDenseArrayForSequentialExecution callInfo
  end.

(** ** Typed objects and reserved slots *)

Definition inlineObjectIsTypeDescr (callInfo : CallInfo) : Build InliningStatus :=
  if constructing callInfo || negb (argc callInfo =? 1)
  then ret InliningStatus_NotInlined else
  if negb (MIRType_beq (type (getArg callInfo 0)) MIRType_Object)
  then ret InliningStatus_NotInlined else
  returnType <- ask getInlineReturnType ;;
  if negb (MIRType_beq returnType MIRType_Boolean)
  then ret InliningStatus_NotInlined else
  (* The test is elaborate: in-line only if there is exact information. *)
  match resultTypeSet (getArg callInfo 0) with
  | None => ret InliningStatus_NotInlined
  | Some types =>
    let result :=
      match forAllClasses jit types (IsTypeDescrClass jit) with
      | ALL_FALSE | EMPTY => Some false
      | ALL_TRUE => Some true
      | MIXED => None
      end in
    match result with
    | None => ret InliningStatus_NotInlined
    | Some result =>
      pushConstant (BooleanValue result) ;;
      setImplicitlyUsedUnchecked callInfo ;;
      ret InliningStatus_Inlined
    end
  end.

Definition inlineSetTypedObjectOffset (callInfo : CallInfo) : Build InliningStatus :=
  if negb (argc callInfo =? 2) || constructing callInfo
  then ret InliningStatus_NotInlined else
  let typedObj := getArg callInfo 0 in
  let offset := getArg callInfo 1 in
  (* Return type should be undefined or something wacky is going on. *)
  returnType <- ask getInlineReturnType ;;
  if negb (MIRType_beq returnType MIRType_Undefined)
  then ret InliningStatus_NotInlined else
  (* Check typedObj is a, well, typed object. *)
  match resultTypeSet typedObj with
  | None => ret InliningStatus_NotInlined
  | Some types =>
    if negb (MIRType_beq (type typedObj) MIRType_Object)
    then ret InliningStatus_NotInlined else
    match forAllClasses jit types (IsTypedObjectClass jit) with
    | ALL_FALSE | EMPTY | MIXED => ret InliningStatus_NotInlined
    | ALL_TRUE =>
      (* Check type of offset argument is an integer. *)
      if negb (MIRType_beq (type offset) MIRType_Int32)
      then ret InliningStatus_NotInlined else
      setImplicitlyUsedUnchecked callInfo ;;
      let ins := MSetTypedObjectOffset typedObj offset in
      add ins ;;
      push ins ;;
      ret InliningStatus_Inlined
    end
  end.

Definition inlineUnsafeSetReservedSlot (callInfo : CallInfo) : Build InliningStatus :=
  if negb (argc callInfo =? 3) || constructing callInfo
  then ret InliningStatus_NotInlined else
  returnType <- ask getInlineReturnType ;;
  if negb (MIRType_beq returnType MIRType_Undefined)
  then ret InliningStatus_NotInlined else
  if negb (MIRType_beq (type (getArg callInfo 0)) MIRType_Object)
  then ret InliningStatus_NotInlined else
  if negb (MIRType_beq (type (getArg callInfo 1)) MIRType_Int32)
  then ret InliningStatus_NotInlined else
  (* Don't inline if we don't have a constant slot. *)
  let arg := getArg callInfo 1 in
  if negb (isConstant arg) then ret InliningStatus_NotInlined else
  let slot := toPrivateUint32 (constantValue arg) in
  setImplicitlyUsedUnchecked callInfo ;;
  let store := MStoreFixedSlot (getArg callInfo 0) slot (getArg callInfo 2) in
  add store ;;
  push store ;;
  (if NeedsPostBarrier jit (getArg callInfo 2)
   then add (MPostWriteBarrier (getArg callInfo 0) (getArg callInfo 2))
   else ret tt) ;;
  ret InliningStatus_Inlined.

Definition inlineUnsafeGetReservedSlot (callInfo : CallInfo) : Build InliningStatus :=
  if negb (argc callInfo =? 2) || constructing callInfo
  then ret InliningStatus_NotInlined else
  if negb (MIRType_beq (type (getArg callInfo 0)) MIRType_Object)
  then ret InliningStatus_NotInlined else
  if negb (MIRType_beq (type (getArg callInfo 1)) MIRType_Int32)
  then ret InliningStatus_NotInlined else
  (* Don't inline if we don't have a constant slot. *)
  let arg := getArg callInfo 1 in
  if negb (isConstant arg) then ret InliningStatus_NotInlined else
  let slot := toPrivateUint32 (constantValue arg) in
  setImplicitlyUsedUnchecked callInfo ;;
  let load := MLoadFixedSlot (getArg callInfo 0) slot in
  add load ;;
  push load ;;
  (* We don't track reserved slot types, so always emit a barrier. *)
  returnTypes <- ask getInlineReturnTypeSet ;;
  barriered <- pushTypeBarrier jit load returnTypes TypeSet ;;
  if negb barriered then ret InliningStatus_Error else
  ret InliningStatus_Inlined.

(** ** Utility intrinsics *)

Definition inlineHaveSameClass (callInfo : CallInfo) : Build InliningStatus :=
  if negb (argc callInfo =? 2) || constructing callInfo
  then ret InliningStatus_NotInlined else
  if negb (MIRType_beq (type (getArg callInfo 0)) MIRType_Object)
  then ret InliningStatus_NotInlined else
  if negb (MIRType_beq (type (getArg callInfo 1)) MIRType_Object)
  then ret InliningStatus_NotInlined else
  let arg1Types := resultTypeSet (getArg callInfo 0) in
  let arg2Types := resultTypeSet (getArg callInfo 1) in
  let arg1Clasp := match arg1Types with
                   | Some ts => types.getKnownClass ts
                   | None => None
                   end in
  let arg2Clasp := match arg2Types with
                   | Some ts => types.getKnownClass ts
                   | None => None
                   end in
  if negb (isNull arg1Clasp) && negb (isNull arg2Clasp) then
    let constant := MConstant (BooleanValue (clasp_eqb arg1Clasp arg2Clasp)) in
    add constant ;;
    push constant ;;
    ret InliningStatus_Inlined
  else
  setImplicitlyUsedUnchecked callInfo ;;
  let sameClass := MHaveSameClass (getArg callInfo 0) (getArg callInfo 1) in
  add sameClass ;;
  push sameClass ;;
  ret InliningStatus_Inlined.

Definition inlineIsCallable (callInfo : CallInfo) : Build InliningStatus :=
  if negb (argc callInfo =? 1) || constructing callInfo
  then ret InliningStatus_NotInlined else
  returnType <- ask getInlineReturnType ;;
  if negb (MIRType_beq returnType MIRType_Boolean)
  then ret InliningStatus_NotInlined else
  if negb (MIRType_beq (type (getArg callInfo 0)) MIRType_Object)
  then ret InliningStatus_NotInlined else
  (* Try inlining with constant true/false: only objects may be callable at
     all, and if we know the class check if it is callable.  [None] is
     isCallableKnown = false. *)
  let isCallableConstant :=
    if negb (MIRType_beq (type (getArg callInfo 0)) MIRType_Object) then Some false
    else
      let types := resultTypeSet (getArg callInfo 0) in
      let clasp := match types with
                   | Some ts => types.getKnownClass ts
                   | None => None
                   end in
      match clasp with
      | Some clasp => if negb (isProxy jit clasp)
                      then Some (nonProxyCallable jit clasp)
                      else None
      | None => None
      end in
  setImplicitlyUsedUnchecked callInfo ;;
  match isCallableConstant with
  | Some isCallableConstant =>
    let constant := MConstant (BooleanValue isCallableConstant) in
    add constant ;;
    push constant ;;
    ret InliningStatus_Inlined
  | None =>
    let isCallable := MIsCallable (getArg callInfo 0) in
    add isCallable ;;
    push isCallable ;;
    ret InliningStatus_Inlined
  end.

Definition inlineIsObject (callInfo : CallInfo) : Build InliningStatus :=
  if negb (argc callInfo =? 1) || constructing callInfo
  then ret InliningStatus_NotInlined else
  returnType <- ask getInlineReturnType ;;
  if negb (MIRType_beq returnType MIRType_Boolean)
  then ret InliningStatus_NotInlined else
  setImplicitlyUsedUnchecked callInfo ;;
  let isObject := MIsObject (getArg callInfo 0) in
  add isObject ;;
  push isObject ;;
  ret InliningStatus_Inlined.

Definition inlineToObject (callInfo : CallInfo) : Build InliningStatus :=
  if negb (argc callInfo =? 1) || constructing callInfo
  then ret InliningStatus_NotInlined else
  (* If we know the input type is an object, nop ToObject. *)
  returnType <- ask getInlineReturnType ;;
  if negb (MIRType_beq returnType MIRType_Object)
  then ret InliningStatus_NotInlined else
  if negb (MIRType_beq (type (getArg callInfo 0)) MIRType_Object)
  then ret InliningStatus_NotInlined else
  setImplicitlyUsedUnchecked callInfo ;;
  let object := getArg callInfo 0 in
  push object ;;
  ret InliningStatus_Inlined.

Definition inlineToInteger (callInfo : CallInfo) : Build InliningStatus :=
  if negb (argc callInfo =? 1) || constructing callInfo
  then ret InliningStatus_NotInlined else
  let input := getArg callInfo 0 in
  (* Only optimize cases where input contains only number, null or boolean *)
  if mightBeType jit input MIRType_Object ||
     mightBeType jit input MIRType_String ||
     mightBeType jit input MIRType_Symbol ||
     mightBeType jit input MIRType_Undefined ||
     mightBeMagicType jit input
  then ret InliningStatus_NotInlined else
  (* Only optimize cases where output is int32 *)
  returnType <- ask getInlineReturnType ;;
  if negb (MIRType_beq returnType MIRType_Int32)
  then ret InliningStatus_NotInlined else
  setImplicitlyUsedUnchecked callInfo ;;
  let toInt32 := MToInt32 (getArg callInfo 0) in
  add toInt32 ;;
  push toInt32 ;;
  ret InliningStatus_Inlined.

Definition inlineToString (callInfo : CallInfo) : Build InliningStatus :=
  if negb (argc callInfo =? 1) || constructing callInfo
  then ret InliningStatus_NotInlined else
  returnType <- ask getInlineReturnType ;;
  if negb (MIRType_beq returnType MIRType_String)
  then ret InliningStatus_NotInlined else
  setImplicitlyUsedUnchecked callInfo ;;
  let toString := MToString (getArg callInfo 0) in
  add toString ;;
  push toString ;;
  ret InliningStatus_Inlined.

Definition inlineIsConstructing (callInfo : CallInfo) : Build InliningStatus :=
  returnType <- ask getInlineReturnType ;;
  if negb (MIRType_beq returnType MIRType_Boolean)
  then ret InliningStatus_NotInlined else
  setImplicitlyUsedUnchecked callInfo ;;
  if Nat.eqb (inliningDepth_ jit) 0 then
    let ins := MIsConstructing in
    add ins ;;
    push ins ;;
    ret InliningStatus_Inlined
  else
  let constructing := constructing (inlineCallInfo_ jit) in
  pushConstant (BooleanValue constructing) ;;
  ret InliningStatus_Inlined.

(** ** Testing functions and fences *)

Definition inlineBailout (callInfo : CallInfo) : Build InliningStatus :=
  setImplicitlyUsedUnchecked callInfo ;;
  add MBail ;;
  let undefined := MConstant UndefinedValue in
  add undefined ;;
  push undefined ;;
  ret InliningStatus_Inlined.

Definition inlineAssertFloat32 (callInfo : CallInfo) : Build InliningStatus :=
  setImplicitlyUsedUnchecked callInfo ;;
  let secondArg := getArg callInfo 1 in
  let mustBeFloat32 := toBoolean (constantValue secondArg) in
  add (MAssertFloat32 (getArg callInfo 0) mustBeFloat32) ;;
  let undefined := MConstant UndefinedValue in
  add undefined ;;
  push undefined ;;
  ret InliningStatus_Inlined.

Definition inlineAtomicsFence (callInfo : CallInfo) : Build InliningStatus :=
  if negb (argc callInfo =? 0) || constructing callInfo
  then ret InliningStatus_NotInlined else
  setImplicitlyUsedUnchecked callInfo ;;
  let fence := MMemoryBarrier in
  add fence ;;
  pushConstant UndefinedValue ;;
  ret InliningStatus_Inlined.

(** ** Bound functions *)

(** [val.isObject() && gc::IsInsideNursery(&val.toObject())] *)
Definition isNurseryObject (val : Value) : bool :=
  match val with
  | ObjectValue object => IsInsideNursery jit object
  | _ => false
  end.

(** The loop that appends the constant of each bound argument. *)
Fixpoint inlineBoundFunction_boundArguments (vals : list Value)
    : Build (list MDefinition) :=
  match vals with
  | [] => ret []
  | val :: rest =>
      arg <- constant val ;;
      args <- inlineBoundFunction_boundArguments rest ;;
      ret (arg :: args)
  end.

Definition inlineBoundFunction (nativeCallInfo : CallInfo) (target : JSFunction)
    : Build InliningStatus :=
  if negb (is_JSFunction (getBoundFunctionTarget target))
  then ret InliningStatus_NotInlined else
  let scriptedTarget := getBoundFunctionTarget target in
  (* Don't optimize if we're constructing and the callee is not a
     constructor, so that CallKnown does not have to handle this case (it
     should always throw). *)
  if constructing nativeCallInfo && negb (isInterpretedConstructor scriptedTarget) &&
     negb (isNativeConstructor scriptedTarget)
  then ret InliningStatus_NotInlined else
  if IsInsideNursery jit (object_id scriptedTarget)
  then ret InliningStatus_NotInlined else
  if existsb isNurseryObject (boundFunctionArguments target)
  then ret InliningStatus_NotInlined else
  let thisVal := getBoundFunctionThis target in
  if isNurseryObject thisVal then ret InliningStatus_NotInlined else
  let argc_ := getBoundFunctionArgumentCount target + argc nativeCallInfo in
  if ARGS_LENGTH_MAX jit <? argc_ then ret InliningStatus_NotInlined else
  flagImplicitlyUsed [thisArg nativeCallInfo] ;;
  callee <- constant (ObjectValue (object_id scriptedTarget)) ;;
  this <- constant (getBoundFunctionThis target) ;;
  if negb (reserve jit argc_) then ret InliningStatus_Error else
  boundArgs <- inlineBoundFunction_boundArguments (boundFunctionArguments target) ;;
  let callInfo := {| fun_ := callee; thisArg := this;
                     argv := boundArgs ++ argv nativeCallInfo;
                     constructing := constructing nativeCallInfo |} in
  called <- makeCall jit scriptedTarget callInfo false ;;
  if negb called then ret InliningStatus_Error else
  ret InliningStatus_Inlined.

(** ** The dispatcher *)

Definition inlineNativeCall (callInfo : CallInfo) (target : JSFunction)
    : Build (option InliningStatus) :=
  let native := native target in
  if negb (inlineNative jit) then returned (ret InliningStatus_NotInlined) else
  match native with
  (* Atomic natives. *)
  | atomics_compareExchange => returned (liftCore (inlineAtomicsCompareExchange callInfo))
  | atomics_load => returned (liftCore (inlineAtomicsLoad callInfo))
  | atomics_store => returned (liftCore (inlineAtomicsStore callInfo))
  | atomics_fence => returned (inlineAtomicsFence callInfo)
  | atomics_binop op => returned (liftCore (inlineAtomicsBinop callInfo op))
  (* Array natives. *)
  | js_Array => returned (inlineArray callInfo)
  | array_pop => returned (inlineArrayPopShift callInfo MArrayPopShift.Pop)
  | array_shift => returned (inlineArrayPopShift callInfo MArrayPopShift.Shift)
  | array_push => returned (inlineArrayPush callInfo)
  | array_concat => returned (liftCore (inlineArrayConcat callInfo))
  | array_join => returned (liftCore (inlineArrayJoin callInfo))
  | array_splice => returned (liftCore (inlineArraySplice callInfo))
  (* Math natives. *)
  | math_abs => returned (inlineMathAbs callInfo)
  | math_floor => returned (inlineMathFloor callInfo)
  | math_ceil => returned (inlineMathCeil callInfo)
  | math_clz32 => returned (inlineMathClz32 callInfo)
  | math_round => returned (inlineMathRound callInfo)
  | math_sqrt => returned (inlineMathSqrt callInfo)
  | math_atan2 => returned (inlineMathAtan2 callInfo)
  | math_hypot => returned (inlineMathHypot callInfo)
  | math_max => returned (liftCore (inlineMathMinMax callInfo true))
  | math_min => returned (liftCore (inlineMathMinMax callInfo false))
  | math_pow => returned (liftCore (inlineMathPow callInfo))
  | math_random => returned (inlineMathRandom callInfo)
  | math_imul => returned (inlineMathImul callInfo)
  | math_fround => returned (inlineMathFRound callInfo)
  | math_sin => returned (inlineMathFunction callInfo MMathFunction.Sin)
  | math_cos => returned (inlineMathFunction callInfo MMathFunction.Cos)
  | math_exp => returned (inlineMathFunction callInfo MMathFunction.Exp)
  | math_tan => returned (inlineMathFunction callInfo MMathFunction.Tan)
  | math_log => returned (inlineMathFunction callInfo MMathFunction.Log)
  | math_atan => returned (inlineMathFunction callInfo MMathFunction.ATan)
  | math_asin => returned (inlineMathFunction callInfo MMathFunction.ASin)
  | math_acos => returned (inlineMathFunction callInfo MMathFunction.ACos)
  | math_log10 => returned (inlineMathFunction callInfo MMathFunction.Log10)
  | math_log2 => returned (inlineMathFunction callInfo MMathFunction.Log2)
  | math_log1p => returned (inlineMathFunction callInfo MMathFunction.Log1P)
  | math_expm1 => returned (inlineMathFunction callInfo MMathFunction.ExpM1)
  | math_cosh => returned (inlineMathFunction callInfo MMathFunction.CosH)
  | math_sinh => returned (inlineMathFunction callInfo MMathFunction.SinH)
  | math_tanh => returned (inlineMathFunction callInfo MMathFunction.TanH)
  | math_acosh => returned (inlineMathFunction callInfo MMathFunction.ACosH)
  | math_asinh => returned (inlineMathFunction callInfo MMathFunction.ASinH)
  | math_atanh => returned (inlineMathFunction callInfo MMathFunction.ATanH)
  | math_sign => returned (inlineMathFunction callInfo MMathFunction.Sign)
  | math_trunc => returned (inlineMathFunction callInfo MMathFunction.Trunc)
  | math_cbrt => returned (inlineMathFunction callInfo MMathFunction.Cbrt)
  (* String natives. *)
  | js_String => returned (inlineStringObject callInfo)
  | str_split => returned (inlineStringSplit callInfo)
  | js_str_charCodeAt => returned (liftCore (inlineStrCharCodeAt callInfo))
  | str_fromCharCode => returned (inlineStrFromCharCode callInfo)
  | js_str_charAt => returned (inlineStrCharAt callInfo)
  | str_replace => returned (inlineStrReplace callInfo)
  (* RegExp natives. *)
  | regexp_exec =>
      if CallResultEscapes jit then returned (inlineRegExpExec callInfo)
      else returned (inlineRegExpTest callInfo)
  | regexp_test => returned (inlineRegExpTest callInfo)
  (* Array intrinsics. *)
  | intrinsic_UnsafePutElements =>
      liftCore (inlineUnsafePutElements (ElementAccessIsDenseNative jit)
                  (PropertyWriteNeedsTypeBarrier jit) (ElementAccessIsAnyTypedArray jit)
                  (typedObjectPrediction jit) (jsop_setelem_dense jit)
                  (jsop_setelem_typed jit) (jsop_setelem_typed_object jit) callInfo)
  | intrinsic_NewDenseArray => returned (inlineNewDenseArray callInfo)
  (* Slot intrinsics. *)
  | intrinsic_UnsafeSetReservedSlot => returned (inlineUnsafeSetReservedSlot callInfo)
  | intrinsic_UnsafeGetReservedSlot => returned (inlineUnsafeGetReservedSlot callInfo)
  (* Parallel intrinsics. *)
  | intrinsic_ShouldForceSequential | intrinsic_InParallelSection =>
      returned (inlineForceSequentialOrInParallelSection callInfo)
  | intrinsic_ForkJoinGetSlice => returned (inlineForkJoinGetSlice callInfo)
  (* Utility intrinsics. *)
  | intrinsic_IsCallable => returned (inlineIsCallable callInfo)
  | intrinsic_HaveSameClass => returned (inlineHaveSameClass callInfo)
  | intrinsic_ToObject => returned (inlineToObject callInfo)
  | intrinsic_IsObject => returned (inlineIsObject callInfo)
  | intrinsic_ToInteger => returned (inlineToInteger callInfo)
  | intrinsic_ToString => returned (inlineToString callInfo)
  | intrinsic_IsConstructing => returned (inlineIsConstructing callInfo)
  (* TypedObject intrinsics. *)
  | intrinsic_ObjectIsTypedObject =>
      returned (liftCore (inlineHasClass callInfo
                  (Some OutlineTransparentTypedObject_class)
                  (Some OutlineOpaqueTypedObject_class)
                  (Some InlineTransparentTypedObject_class)
                  (Some InlineOpaqueTypedObject_class)))
  | intrinsic_ObjectIsTransparentTypedObject =>
      returned (liftCore (inlineHasClass callInfo
                  (Some OutlineTransparentTypedObject_class)
                  (Some InlineTransparentTypedObject_class) None None))
  | intrinsic_ObjectIsOpaqueTypedObject =>
      returned (liftCore (inlineHasClass callInfo
                  (Some OutlineOpaqueTypedObject_class)
                  (Some InlineOpaqueTypedObject_class) None None))
  | intrinsic_ObjectIsTypeDescr => returned (inlineObjectIsTypeDescr callInfo)
  | intrinsic_TypeDescrIsSimpleType =>
      returned (liftCore (inlineHasClass callInfo
                  (Some ScalarTypeDescr_class) (Some ReferenceTypeDescr_class) None None))
  | intrinsic_TypeDescrIsArrayType =>
      returned (liftCore (inlineHasClass callInfo
                  (Some SizedArrayTypeDescr_class) (Some UnsizedArrayTypeDescr_class)
                  None None))
  | intrinsic_TypeDescrIsSizedArrayType =>
      returned (liftCore (inlineHasClass callInfo
                  (Some SizedArrayTypeDescr_class) None None None))
  | intrinsic_TypeDescrIsUnsizedArrayType =>
      returned (liftCore (inlineHasClass callInfo
                  (Some UnsizedArrayTypeDescr_class) None None None))
  | intrinsic_SetTypedObjectOffset => returned (inlineSetTypedObjectOffset callInfo)
  (* Testing Functions *)
  | testingFunc_inParallelSection =>
      returned (inlineForceSequentialOrInParallelSection callInfo)
  | testingFunc_bailout => returned (inlineBailout callInfo)
  | testingFunc_assertFloat32 => returned (inlineAssertFloat32 callInfo)
  (* Bound function *)
  | CallOrConstructBoundFunction => returned (inlineBoundFunction callInfo target)
  | otherNative _ => returned (ret InliningStatus_NotInlined)
  end.

End Specialisers.

End Natives.

(** ** Statements about the other natives *)

(** A specialiser keeps the block when it declines: the answer NotInlined
    comes with the current block (instructions, value stack) as it was. *)
Definition keepsBlockOnDecline (inline : Natives.Build InliningStatus) : Prop :=
  forall b, fst (inline b) = InliningStatus_NotInlined ->
            Natives.current (snd (inline b)) = Natives.current b.

(** A specialiser pushes one result: the answer Inlined comes with exactly
    one more value on the stack of the block. *)
Definition pushesOneResult (inline : Natives.Build InliningStatus) : Prop :=
  forall b, fst (inline b) = InliningStatus_Inlined ->
            exists result,
              Natives.stack (Natives.current (snd (inline b)))
              = result :: Natives.stack (Natives.current b).

(** The builder [b] once the instructions [nodes] were added to the current
    block and [result] was pushed, nothing else being changed. *)
Definition addedAndPushed (nodes : list Natives.MNode) (result : Natives.MNode)
    (b : Natives.IonBuilder) : Natives.IonBuilder :=
  {| Natives.pc := Natives.pc b;
     Natives.current :=
       {| Natives.instructions := Natives.instructions (Natives.current b) ++ nodes;
          Natives.stack := result :: Natives.stack (Natives.current b) |};
     Natives.implicitlyUsed := Natives.implicitlyUsed b;
     Natives.resumePoints := Natives.resumePoints b;
     Natives.constraints := Natives.constraints b;
     Natives.returnedTypes := Natives.returnedTypes b;
     Natives.shouldConvertDoubleElements := Natives.shouldConvertDoubleElements b |}.

(** The builder [b] once the instructions [nodes] were added to the current
    block, nothing else being changed. *)
Definition addedNodes (nodes : list Natives.MNode) (b : Natives.IonBuilder)
    : Natives.IonBuilder :=
  {| Natives.pc := Natives.pc b;
     Natives.current :=
       {| Natives.instructions := Natives.instructions (Natives.current b) ++ nodes;
          Natives.stack := Natives.stack (Natives.current b) |};
     Natives.implicitlyUsed := Natives.implicitlyUsed b;
     Natives.resumePoints := Natives.resumePoints b;
     Natives.constraints := Natives.constraints b;
     Natives.returnedTypes := Natives.returnedTypes b;
     Natives.shouldConvertDoubleElements := Natives.shouldConvertDoubleElements b |}.

(** The element stores among [nodes], in their order: the elements vector,
    the index and the value of each [MStoreElement]. *)
Definition storesOf (nodes : list Natives.MNode)
    : list (Natives.MNode * Natives.MNode * Natives.MNode) :=
  flat_map (fun node => match node with
                        | Natives.MStoreElement elements index value _ =>
                            [(elements, index, value)]
                        | _ => []
                        end) nodes.

(** The builder [b] once the callee, [this] and the arguments of [callInfo]
    were flagged as implicitly used. *)
Definition flagged (callInfo : CallInfo) (b : Natives.IonBuilder) : Natives.IonBuilder :=
  snd (Natives.setImplicitlyUsedUnchecked callInfo b).

(** ** Collaborators used in the examples *)

(** A compiler in the execution mode [mode] that inlines natives, has every
    stub, finds the objects of [nursery] in the nursery and no class that is
    a proxy, needs no barrier, and whose emitters succeed without adding an
    instruction; [emptyTypes] tells whether its type sets are empty.  The
    limits are chosen for the examples. *)
Definition exampleCollaborators (mode : Natives.ExecutionMode) (emptyTypes : bool)
    (nursery : nat -> bool) : Natives.Collaborators :=
  {| Natives.inlineNative := true;
     Natives.executionMode := mode;
     Natives.allowInlineForkJoinGetSlice := true;
     Natives.maybeGetMathCache := None;
     Natives.inliningDepth_ := 0;
     Natives.inlineCallInfo_ := callOf (operand 0 MIRType_Object) [];
     Natives.CallResultEscapes := true;
     Natives.ensureRegExpExecStubExists := true;
     Natives.ensureRegExpTestStubExists := true;
     Natives.reserve := fun _ => true;
     Natives.NELEMENTS_LIMIT := 268435456;
     Natives.EagerAllocationMaxLength := 2048;
     Natives.ARGS_LENGTH_MAX := 500000;
     Natives.InlineTypedObject_MaximumSize := 128;
     Natives.TypeObjectKey_get := fun obj => arrayType (type_ obj) [types.Int32Type];
     Natives.ArrayObject_length := fun _ => 3;
     Natives.getTemplateObjectForClassHook := fun _ => None;
     Natives.IsInsideNursery := nursery;
     Natives.isProxy := fun _ => false;
     Natives.nonProxyCallable := fun _ => false;
     Natives.IsTypeDescrClass := fun _ => false;
     Natives.IsTypedObjectClass := fun _ => false;
     Natives.TypedArrayObject_isOriginalLengthGetter := fun _ => false;
     Natives.SharedTypedArrayObject_isOriginalLengthGetter := fun _ _ => false;
     Natives.empty := fun _ => emptyTypes;
     Natives.hasType := fun _ _ => false;
     Natives.unknownObject := fun _ => false;
     Natives.getTypedArrayType := fun _ => Scalar.TypeMax;
     Natives.forAllClasses := fun _ _ => Natives.MIXED;
     Natives.maybeTypes_isNull := fun _ => false;
     Natives.TypeSetIncludes := fun _ ty _ => MIRType_beq ty MIRType_Int32;
     Natives.mightBeType := fun d ty => MIRType_beq (type d) ty;
     Natives.mightBeMagicType := fun _ => false;
     Natives.isEffectful := fun _ => true;
     Natives.NeedsPostBarrier := fun _ => false;
     Natives.PropertyReadNeedsTypeBarrier := fun _ _ => Natives.NoBarrier;
     Natives.PropertyWriteNeedsTypeBarrier := fun _ _ => false;
     Natives.ElementAccessIsDenseNative := fun _ _ => true;
     Natives.ElementAccessIsAnyTypedArray := fun _ _ => None;
     Natives.typedObjectPrediction := exampleUselessPrediction;
     Natives.jsop_setelem_dense := exampleStoreDense;
     Natives.jsop_setelem_typed := exampleStoreTyped;
     Natives.jsop_setelem_typed_object := exampleStoreTyped;
     Natives.addTypedArrayLength :=
       fun obj => Natives.bind (Natives.add (Natives.MDef (MTypedArrayLength obj)))
                    (fun _ => Natives.ret (Natives.MDef (MTypedArrayLength obj)));
     Natives.addMaybeCopyElementsForWrite := fun obj => Natives.ret (Natives.MDef obj);
     Natives.pushTypeBarrier := fun _ _ _ => Natives.ret true;
     Natives.makeCall := fun _ _ _ => Natives.ret true |}.

(** The builder of [Natives] at [site], with an empty block. *)
Definition nativesBuilderAt (site : CallSite) : Natives.IonBuilder :=
  {| Natives.pc := site;
     Natives.current := {| Natives.instructions := []; Natives.stack := [] |};
     Natives.implicitlyUsed := [];
     Natives.resumePoints := [];
     Natives.constraints := [];
     Natives.returnedTypes := [];
     Natives.shouldConvertDoubleElements := None |}.

(** ** The value stack *)

(** A computation keeps the stack when the value stack of the block is the
    same after it, whatever it adds; in the first part and in [Natives]. *)
Definition keepsStack {A : Type} (m : Build A) : Prop :=
  forall b, stack (current (snd (m b))) = stack (current b).

Definition keepsStackOfNatives {A : Type} (m : Natives.Build A) : Prop :=
  forall b, Natives.stack (Natives.current (snd (m b)))
            = Natives.stack (Natives.current b).

(** A specialiser of the first part pushes one result. *)
Definition pushesOneCoreResult (inline : Build InliningStatus) : Prop :=
  forall b, fst (inline b) = InliningStatus_Inlined ->
            exists result, stack (current (snd (inline b))) = result :: stack (current b).

(** The natives whose specialiser hands part of the emission to code outside
    MCallOptimize.cpp: [pushTypeBarrier], [addMaybeCopyElementsForWrite],
    [makeCall] and the emitters of element stores. *)
Definition emitsThroughCollaborators (native : Natives.JSNative) : bool :=
  match native with
  | Natives.array_pop | Natives.array_shift | Natives.array_push
  | Natives.regexp_exec
  | Natives.intrinsic_UnsafePutElements | Natives.intrinsic_UnsafeGetReservedSlot
  | Natives.CallOrConstructBoundFunction => true
  | _ => false
  end.

(** The value a specialiser leaves on top of the stack. *)
Definition resultOf {A : Type} (r : A * Natives.IonBuilder) : option Natives.MNode :=
  hd_error (Natives.stack (Natives.current (snd r))).

(** The function [target] with [native] as its native. *)
Definition withNative (target : Natives.JSFunction) (native : Natives.JSNative)
    : Natives.JSFunction :=
  {| Natives.native := native;
     Natives.getBoundFunctionTarget := Natives.getBoundFunctionTarget target;
     Natives.getBoundFunctionThis := Natives.getBoundFunctionThis target;
     Natives.boundFunctionArguments := Natives.boundFunctionArguments target |}.

(** ** The instructions of the block *)

(** A computation keeps the instructions when it adds none, and extends
    them when all it does to them is add some at the end. *)
Definition keepsInstructions {A : Type} (m : Natives.Build A) : Prop :=
  forall b, Natives.instructions (Natives.current (snd (m b)))
            = Natives.instructions (Natives.current b).

Definition extendsInstructions {A : Type} (m : Natives.Build A) : Prop :=
  forall b, exists nodes,
    Natives.instructions (Natives.current (snd (m b)))
    = Natives.instructions (Natives.current b) ++ nodes.

(** A specialiser fails only after emitting: the answer Error comes with
    instructions added to the current block. *)
Definition failsOnlyAfterEmitting (inline : Natives.Build InliningStatus) : Prop :=
  forall b, fst (inline b) = InliningStatus_Error ->
            Natives.instructions (Natives.current (snd (inline b)))
            <> Natives.instructions (Natives.current b).

(** The natives whose specialiser can answer Error before it has added an
    instruction: Array.prototype.join on any failed check, Math.max and
    Math.min when the vector of their int32 arguments cannot grow, and the
    RegExp natives when their stub cannot be created. *)
Definition mayFailBeforeEmitting (native : Natives.JSNative) : bool :=
  match native with
  | Natives.array_join | Natives.math_max | Natives.math_min
  | Natives.regexp_exec | Natives.regexp_test => true
  | _ => false
  end.

(** ** Resume points *)

(** A computation keeps the call site when the builder is at the same
    bytecode after it. *)
Definition keepsCallSite {A : Type} (m : Natives.Build A) : Prop :=
  forall b, Natives.pc (snd (m b)) = Natives.pc b.

(** A specialiser fails only without a resume point: at a call site where a
    resume point can be attached it does not answer Error. *)
Definition failsOnlyWithoutResumePoint (inline : Natives.Build InliningStatus) : Prop :=
  forall b, resumePointAvailable (Natives.pc b) = true ->
            fst (inline b) <> InliningStatus_Error.

(** ** The answers of the dispatcher *)

(** The same properties read of the dispatcher, which answers [Some] status
    or stops without one. *)
Definition dispatchKeepsBlockOnDecline
    (dispatch : Natives.Build (option InliningStatus)) : Prop :=
  forall b, fst (dispatch b) = Some InliningStatus_NotInlined ->
            Natives.current (snd (dispatch b)) = Natives.current b.

Definition dispatchPushesOneResult
    (dispatch : Natives.Build (option InliningStatus)) : Prop :=
  forall b, fst (dispatch b) = Some InliningStatus_Inlined ->
            exists result,
              Natives.stack (Natives.current (snd (dispatch b)))
              = result :: Natives.stack (Natives.current b).

Definition dispatchFailsOnlyAfterEmitting
    (dispatch : Natives.Build (option InliningStatus)) : Prop :=
  forall b, fst (dispatch b) = Some InliningStatus_Error ->
            Natives.instructions (Natives.current (snd (dispatch b)))
            <> Natives.instructions (Natives.current b).
(** * Properties *)

Lemma MIRType_beq_eq (a b : MIRType) : MIRType_beq a b = true <-> a = b.
Proof.
  split.
  - apply internal_MIRType_dec_bl.
  - apply internal_MIRType_dec_lb.
Qed.

Lemma MIRType_beq_refl (a : MIRType) : MIRType_beq a a = true.
Proof. now apply MIRType_beq_eq. Qed.

Lemma negb_MIRType_beq_false (a b : MIRType) :
  negb (MIRType_beq a b) = false -> a = b.
Proof.
  intro H. apply MIRType_beq_eq. now destruct (MIRType_beq a b).
Qed.

(** Unfolds the operations of the builder. *)
Ltac unfold_build :=
  unfold bind, ret, ask, pushConstant, addBoundsCheck, add, push, withCurrent,
    setImplicitlyUsedUnchecked, resumeAfter in *.

(** Splits on the first test of a specialiser that is still undecided. *)
Ltac split_test :=
  match goal with
  | |- context [if ?c then _ else _] =>
      lazymatch c with
      | context [if _ then _ else _] => fail
      | _ => let E := fresh "E" in destruct c eqn:E
      end
  end.

(** ** Array.prototype.splice *)

(** C10.  [inlineArraySplice] answers Inlined only for a call with exactly
    two int32 arguments that is not constructing and whose result the
    bytecode pops; then it has added the splice instruction followed by the
    constant undefined, and pushed that constant as the result of the call.
    When the result is used it answers NotInlined and leaves the block as it
    was. *)
Theorem inlineArraySplice_popped_only (callInfo : CallInfo) (b : IonBuilder) :
  let r := inlineArraySplice callInfo b in
  (fst r = InliningStatus_Inlined ->
     argc callInfo = 2 /\
     type (getArg callInfo 0) = MIRType_Int32 /\
     type (getArg callInfo 1) = MIRType_Int32 /\
     constructing callInfo = false /\
     BytecodeIsPopped (pc b) = true /\
     instructions (current (snd r)) =
       instructions (current b) ++
       [MArraySplice (thisArg callInfo) (getArg callInfo 0) (getArg callInfo 1);
        MConstant UndefinedValue] /\
     stack (current (snd r)) = MConstant UndefinedValue :: stack (current b)) /\
  (BytecodeIsPopped (pc b) = false ->
     fst r = InliningStatus_NotInlined /\ current (snd r) = current b).
Proof.
  unfold inlineArraySplice. unfold_build. cbv zeta.
  destruct (negb (argc callInfo =? 2) || constructing callInfo) eqn:E1;
    [ simpl; split; [discriminate | auto] | ].
  destruct (negb (MIRType_beq (getInlineReturnType b) MIRType_Object)) eqn:E2;
    [ simpl; split; [discriminate | auto] | ].
  destruct (negb (MIRType_beq (type (thisArg callInfo)) MIRType_Object)) eqn:E3;
    [ simpl; split; [discriminate | auto] | ].
  destruct (negb (MIRType_beq (type (getArg callInfo 0)) MIRType_Int32)) eqn:E4;
    [ simpl; split; [discriminate | auto] | ].
  destruct (negb (MIRType_beq (type (getArg callInfo 1)) MIRType_Int32)) eqn:E5;
    [ simpl; split; [discriminate | auto] | ].
  apply orb_false_elim in E1 as [E1 E1'].
  apply negb_false_iff, Z.eqb_eq in E1.
  apply negb_MIRType_beq_false in E4, E5.
  simpl.
  destruct (BytecodeIsPopped (pc b)) eqn:E6; simpl.
  - destruct (resumePointAvailable (pc b)); simpl.
    + split; [ intros _ | discriminate ].
      rewrite <- app_assoc. simpl. repeat split; auto.
    + split; discriminate.
  - split; [discriminate | auto].
Qed.

Lemma inlineArraySplice_popped_only_witness :
  let callInfo := callOf (operand 1 MIRType_Object)
                    [operand 2 MIRType_Int32; operand 3 MIRType_Int32] in
  let r := inlineArraySplice callInfo (builderAt (siteReturning MIRType_Object true)) in
  fst r = InliningStatus_Inlined /\
  instructions (current (snd r)) =
    [MArraySplice (operand 1 MIRType_Object) (operand 2 MIRType_Int32)
       (operand 3 MIRType_Int32);
     MConstant UndefinedValue] /\
  stack (current (snd r)) = [MConstant UndefinedValue].
Proof.
  cbv zeta. split; [reflexivity | ].
  apply (inlineArraySplice_popped_only
           (callOf (operand 1 MIRType_Object)
              [operand 2 MIRType_Int32; operand 3 MIRType_Int32])
           (builderAt (siteReturning MIRType_Object true))).
  reflexivity.
Defined.

(** ** Array.prototype.join *)

(** Whatever precondition of [inlineArrayJoin] fails, the answer is Error;
    the block is left as it was. *)
Lemma inlineArrayJoin_precondition_failure (callInfo : CallInfo) (b : IonBuilder) :
  argc callInfo <> 1 \/ constructing callInfo = true \/
  getInlineReturnType b <> MIRType_String \/
  type (thisArg callInfo) <> MIRType_Object \/
  type (getArg callInfo 0) <> MIRType_String ->
  inlineArrayJoin callInfo b = (InliningStatus_Error, b).
Proof.
  intros H. unfold inlineArrayJoin. unfold_build.
  destruct (negb (argc callInfo =? 1) || constructing callInfo) eqn:E1; [reflexivity | ].
  destruct (negb (MIRType_beq (getInlineReturnType b) MIRType_String)) eqn:E2;
    [reflexivity | ].
  destruct (negb (MIRType_beq (type (thisArg callInfo)) MIRType_Object)) eqn:E3;
    [reflexivity | ].
  destruct (negb (MIRType_beq (type (getArg callInfo 0)) MIRType_String)) eqn:E4;
    [reflexivity | ].
  exfalso.
  apply orb_false_elim in E1 as [E1 E1'].
  apply negb_false_iff, Z.eqb_eq in E1.
  apply negb_MIRType_beq_false in E2, E3, E4.
  destruct H as [H | [H | [H | [H | H]]]]; congruence.
Qed.

(** [inlineArrayJoin] never answers NotInlined. *)
Lemma inlineArrayJoin_never_NotInlined (callInfo : CallInfo) (b : IonBuilder) :
  fst (inlineArrayJoin callInfo b) <> InliningStatus_NotInlined.
Proof.
  unfold inlineArrayJoin. unfold_build.
  repeat split_test; simpl; discriminate.
Qed.

(** C1.  A call of Array.prototype.join without an argument fails the arity
    check of [inlineArrayJoin] before anything is emitted.  The answer is
    Error, where the claim (and every sibling specialiser) has NotInlined;
    the block is unchanged. *)
Theorem inlineArrayJoin_wrong_argc_is_Error :
  let callInfo := callOf (operand 1 MIRType_Object) [] in
  let b := builderAt (siteReturning MIRType_String false) in
  inlineArrayJoin callInfo b = (InliningStatus_Error, b) /\
  ~ declinesBeforeEmitting (inlineArrayJoin callInfo) b /\
  inlineArraySplice callInfo b = (InliningStatus_NotInlined, b) /\
  inlineArrayConcat callInfo b = (InliningStatus_NotInlined, b).
Proof.
  cbv zeta. repeat split; try reflexivity.
  intros [_ H]. now apply H.
Qed.

(** ** Math.min and Math.max *)

Lemma added_nil (b : IonBuilder) : added [] b = b.
Proof.
  destruct b as [p [i s t] u r]. unfold added. simpl.
  now rewrite !app_nil_r.
Qed.

Lemma added_app (xs ys : list MDefinition) (b : IonBuilder) :
  added ys (added xs b) = added (xs ++ ys) b.
Proof.
  unfold added. simpl. now rewrite map_app, !app_assoc.
Qed.

Lemma add_added (ins : MDefinition) (b : IonBuilder) :
  add ins b = (tt, added [ins] b).
Proof. reflexivity. Qed.

Lemma last_cons_default {A : Type} (l : list A) :
  forall x d : A, List.last (x :: l) d = List.last l x.
Proof.
  induction l as [ | y l IH]; intros x d; [reflexivity | ].
  change (List.last (x :: y :: l) d) with (List.last (y :: l) d).
  rewrite (IH y d), (IH y x). reflexivity.
Qed.

(** The second loop adds the nodes of [inlineMathMinMax_chain_nodes] and
    answers the last of them. *)
Lemma inlineMathMinMax_chain_eq (cases : list MDefinition) (returnType : MIRType)
    (max : bool) (indices : list nat) :
  forall (last : MDefinition) (b : IonBuilder),
    inlineMathMinMax_chain cases returnType max indices last b =
    (List.last (inlineMathMinMax_chain_nodes cases returnType max indices last) last,
     added (inlineMathMinMax_chain_nodes cases returnType max indices last) b).
Proof.
  induction indices as [ | i rest IH]; intros last b.
  - simpl. now rewrite added_nil.
  - cbn [inlineMathMinMax_chain inlineMathMinMax_chain_nodes].
    unfold bind. rewrite add_added. rewrite IH. rewrite added_app. f_equal.
    symmetry. apply last_cons_default.
Qed.

Lemma inlineMathMinMax_chain_nodes_type (cases : list MDefinition) (returnType : MIRType)
    (max : bool) (indices : list nat) :
  forall last : MDefinition,
    Forall (isMinMaxOfType returnType max)
      (inlineMathMinMax_chain_nodes cases returnType max indices last).
Proof.
  induction indices as [ | i rest IH]; intros last; simpl; constructor.
  - now exists last, (case_at cases 2).
  - apply IH.
Qed.

Lemma inlineMathMinMax_chain_nodes_length (cases : list MDefinition)
    (returnType : MIRType) (max : bool) (indices : list nat) :
  forall last : MDefinition,
    List.length (inlineMathMinMax_chain_nodes cases returnType max indices last)
    = List.length indices.
Proof.
  induction indices as [ | i rest IH]; intros last; simpl; [ | rewrite IH ]; reflexivity.
Qed.

(** C2.  Math.max over four int32 operands: the third node of the chain
    combines the second node with operand 2 once more, where the
    left-associative chain of the specification has operand 3. *)
Theorem inlineMathMinMax_four_operands_reuses_operand_2 :
  let a := operand 1 MIRType_Int32 in
  let b := operand 2 MIRType_Int32 in
  let c := operand 3 MIRType_Int32 in
  let d := operand 4 MIRType_Int32 in
  let n1 := MMinMax a b MIRType_Int32 true in
  let n2 := MMinMax n1 c MIRType_Int32 true in
  let r := inlineMathMinMax (callOf (operand 0 MIRType_Object) [a; b; c; d]) true
             (builderAt (siteReturning MIRType_Int32 false)) in
  fst r = InliningStatus_Inlined /\
  instructions (current (snd r)) = [n1; n2; MMinMax n2 c MIRType_Int32 true] /\
  minMaxChain_spec [a; b; c; d] MIRType_Int32 true
    = [n1; n2; MMinMax n2 d MIRType_Int32 true] /\
  instructions (current (snd r)) <> minMaxChain_spec [a; b; c; d] MIRType_Int32 true.
Proof.
  cbv zeta. repeat split; try reflexivity.
  vm_compute. intro H. discriminate H.
Qed.

(** With two or three operands the chain is the one of the specification. *)
Lemma inlineMathMinMax_chain_up_to_three (cases : list MDefinition)
    (returnType : MIRType) (max : bool) :
  (List.length cases = 2 \/ List.length cases = 3)%nat ->
  MMinMax (case_at cases 0) (case_at cases 1) returnType max ::
    inlineMathMinMax_chain_nodes cases returnType max
      (seq 2 (List.length cases - 2))
      (MMinMax (case_at cases 0) (case_at cases 1) returnType max)
  = minMaxChain_spec cases returnType max.
Proof.
  destruct cases as [ | c0 [ | c1 [ | c2 [ | c3 rest]]]]; simpl; intros [H | H];
    try discriminate; reflexivity.
Qed.

(** Once the return type is double it stays double. *)
Lemma inlineMathMinMax_partition_double (append : nat -> bool) (max : bool)
    (args : list MDefinition) :
  forall int32_cases cases returnType,
    inlineMathMinMax_partition append max args int32_cases MIRType_Double
      = inr (cases, returnType) ->
    returnType = MIRType_Double.
Proof.
  induction args as [ | arg rest IH]; simpl; intros acc cases returnType H.
  - now inversion H.
  - destruct (type arg); try discriminate;
      try (destruct (negb (append (List.length acc))); [discriminate | ];
           eapply IH; exact H);
      destruct (isConstant arg && _); eapply IH; exact H.
Qed.

(** A floating-point argument that is not a dominated constant forces the
    double domain. *)
Lemma inlineMathMinMax_partition_forced (append : nat -> bool) (max : bool)
    (args : list MDefinition) :
  forall int32_cases returnType0 cases returnType,
    inlineMathMinMax_partition append max args int32_cases returnType0
      = inr (cases, returnType) ->
    (exists arg, In arg args /\ IsFloatingPointType (type arg) = true /\
                 dominatedConstant max arg = false) ->
    returnType = MIRType_Double.
Proof.
  induction args as [ | arg rest IH]; simpl;
    intros acc returnType0 cases returnType H [x [Hin [Hfl Hdom]]].
  - contradiction.
  - destruct Hin as [-> | Hin].
    + unfold dominatedConstant in Hdom.
      destruct (type x); try discriminate; rewrite Hdom in H;
        eapply inlineMathMinMax_partition_double; exact H.
    + assert (Hex : exists arg0, In arg0 rest /\ IsFloatingPointType (type arg0) = true /\
                                 dominatedConstant max arg0 = false)
        by (exists x; auto).
      destruct (type arg); try discriminate;
        try (destruct (negb (append (List.length acc))); [discriminate | ];
             eapply IH; [exact H | exact Hex]);
        destruct (isConstant arg && _); eapply IH; try exact H; exact Hex.
Qed.

(** The first loop returns early with NotInlined, or with Error when the
    vector could not grow; never with Inlined. *)
Lemma inlineMathMinMax_partition_returns (append : nat -> bool) (max : bool)
    (args : list MDefinition) :
  forall int32_cases returnType status,
    inlineMathMinMax_partition append max args int32_cases returnType = inl status ->
    status = InliningStatus_NotInlined \/
    (status = InliningStatus_Error /\ exists n, append n = false).
Proof.
  induction args as [ | arg rest IH]; simpl; intros acc returnType status H.
  - discriminate H.
  - destruct (type arg); try (left; congruence);
      try (destruct (append (List.length acc)) eqn:E; cbn [negb] in H;
           [eapply IH; exact H | right; split; [congruence | now exists (List.length acc)]]);
      destruct (isConstant arg && _); eapply IH; exact H.
Qed.

(** When every append succeeds the first loop does not answer Error. *)
Lemma inlineMathMinMax_partition_appends (append : nat -> bool) (max : bool)
    (args : list MDefinition) :
  (forall n, append n = true) ->
  forall int32_cases returnType,
    inlineMathMinMax_partition append max args int32_cases returnType
    <> inl InliningStatus_Error.
Proof.
  intros Happend acc returnType H.
  destruct (inlineMathMinMax_partition_returns append max args acc returnType _ H)
    as [E | [_ [n Hn]]]; [discriminate E | ].
  rewrite Happend in Hn. discriminate Hn.
Qed.

(** The builder after [inlineMathMinMax] has chosen the cases in its first
    loop. *)
Lemma inlineMathMinMax_commit_eq (callInfo : CallInfo) (max : bool) (b : IonBuilder)
    (int32_cases : list MDefinition) (returnType1 : MIRType) :
  (argc callInfo <? 1) || constructing callInfo = false ->
  IsNumberType (getInlineReturnType b) = true ->
  inlineMathMinMax_partition (appendAvailable (pc b)) max (argv callInfo) []
    (getInlineReturnType b)
    = inr (int32_cases, returnType1) ->
  let returnType :=
    if Nat.eqb (List.length int32_cases) 0 then MIRType_Double else returnType1 in
  let cases :=
    if MIRType_beq returnType MIRType_Int32 then int32_cases else argv callInfo in
  let first := MMinMax (case_at cases 0) (case_at cases 1) returnType max in
  let nodes :=
    if Nat.eqb (List.length cases) 1
    then [MLimitedTruncate (case_at cases 0) NoTruncate]
    else first :: inlineMathMinMax_chain_nodes cases returnType max
                    (seq 2 (List.length cases - 2)) first in
  inlineMathMinMax callInfo max b =
  (InliningStatus_Inlined,
   snd (push (List.last nodes first)
          (added nodes (snd (setImplicitlyUsedUnchecked callInfo b))))).
Proof.
  intros H1 H2 H3. cbv zeta.
  unfold inlineMathMinMax. rewrite H1.
  unfold bind at 1. unfold ask at 1. rewrite H2. cbn [negb].
  unfold bind at 1. unfold ask at 1. rewrite H3.
  set (returnType :=
         if Nat.eqb (List.length int32_cases) 0 then MIRType_Double else returnType1).
  set (cases := if MIRType_beq returnType MIRType_Int32 then int32_cases
                else argv callInfo).
  unfold bind at 1.
  destruct (setImplicitlyUsedUnchecked callInfo b) as [u b1] eqn:Eu.
  cbn [snd].
  destruct (Nat.eqb (List.length cases) 1) eqn:E.
  - reflexivity.
  - unfold bind. rewrite add_added. rewrite inlineMathMinMax_chain_eq.
    rewrite added_app. cbn [app].
    rewrite <- last_cons_default with (d := MMinMax (case_at cases 0) (case_at cases 1) returnType max).
    reflexivity.
Qed.

(** What [inlineMathMinMax] adds and pushes once its first loop has chosen
    the cases. *)
Lemma inlineMathMinMax_commit (callInfo : CallInfo) (max : bool) (b : IonBuilder)
    (int32_cases : list MDefinition) (returnType1 : MIRType) :
  (argc callInfo <? 1) || constructing callInfo = false ->
  IsNumberType (getInlineReturnType b) = true ->
  inlineMathMinMax_partition (appendAvailable (pc b)) max (argv callInfo) []
    (getInlineReturnType b)
    = inr (int32_cases, returnType1) ->
  let returnType :=
    if Nat.eqb (List.length int32_cases) 0 then MIRType_Double else returnType1 in
  let cases :=
    if MIRType_beq returnType MIRType_Int32 then int32_cases else argv callInfo in
  let first := MMinMax (case_at cases 0) (case_at cases 1) returnType max in
  let nodes :=
    if Nat.eqb (List.length cases) 1
    then [MLimitedTruncate (case_at cases 0) NoTruncate]
    else first :: inlineMathMinMax_chain_nodes cases returnType max
                    (seq 2 (List.length cases - 2)) first in
  let r := inlineMathMinMax callInfo max b in
  fst r = InliningStatus_Inlined /\
  instructions (current (snd r)) = instructions (current b) ++ nodes /\
  stack (current (snd r)) = List.last nodes first :: stack (current b).
Proof.
  intros H1 H2 H3. cbv zeta.
  rewrite (inlineMathMinMax_commit_eq callInfo max b int32_cases returnType1 H1 H2 H3).
  cbv zeta. repeat split.
Qed.

(** An answer Inlined of [inlineMathMinMax] passed the checks before the
    commit. *)
Lemma inlineMathMinMax_Inlined (callInfo : CallInfo) (max : bool) (b : IonBuilder) :
  fst (inlineMathMinMax callInfo max b) = InliningStatus_Inlined ->
  (argc callInfo <? 1) || constructing callInfo = false /\
  IsNumberType (getInlineReturnType b) = true /\
  exists int32_cases returnType1,
    inlineMathMinMax_partition (appendAvailable (pc b)) max (argv callInfo) []
      (getInlineReturnType b)
      = inr (int32_cases, returnType1).
Proof.
  unfold inlineMathMinMax.
  destruct ((argc callInfo <? 1) || constructing callInfo); [discriminate | ].
  unfold bind at 1. unfold ask at 1.
  destruct (IsNumberType (getInlineReturnType b)); [ | discriminate ].
  cbn [negb]. unfold bind at 1. unfold ask at 1.
  destruct (inlineMathMinMax_partition (appendAvailable (pc b)) max (argv callInfo) []
              (getInlineReturnType b))
    as [status | [ic rt]] eqn:E.
  - apply inlineMathMinMax_partition_returns in E as [-> | [-> _]]; discriminate.
  - intros _. repeat split. now exists ic, rt.
Qed.

(** C7, as stated, fails at its own example: 100000000.0 is below INT32_MAX,
    so for min over [3 (int32), constant 100000000.0] the constant is kept
    and one binary node of the double domain is added, no identity node. *)
Lemma inlineMathMinMax_min_3_100000000_keeps_the_constant :
  let a0 := MConstant (Int32Value 3) in
  let a1 := MConstant (DoubleValue 100000000%float) in
  let r := inlineMathMinMax (callOf (operand 0 MIRType_Object) [a0; a1]) false
             (builderAt (siteReturning MIRType_Int32 false)) in
  PrimFloat.leb (float_of_Z INT32_MAX) 100000000%float = false /\
  fst r = InliningStatus_Inlined /\
  instructions (current (snd r)) = [MMinMax a0 a1 MIRType_Double false] /\
  instructions (current (snd r)) <> [MLimitedTruncate a0 NoTruncate].
Proof.
  cbv zeta. repeat split; try reflexivity.
  vm_compute. intro H. discriminate H.
Qed.

(** C7, as amended.  (1) A floating-point argument that is not a constant
    dominated by the int32 bound forces the double domain: the call is
    specialised over all its arguments, with nodes of type double only.
    (2) Over an int32 operand and a floating-point operand that is no
    constant, one binary node of type double is added.  (3) For min over an
    int32 operand and a constant [c >= INT32_MAX], at a call site that
    expects an int32, the constant is dropped and the remaining operand is
    wrapped in the identity node (MLimitedTruncate, NoTruncate); no binary
    node is added.  (In (2) and (3) the int32 operand has to enter the
    vector of the int32 arguments: the append is taken to succeed, as a
    failed append answers Error.) *)
Theorem inlineMathMinMax_domain_of_the_chain :
  (forall (callInfo : CallInfo) (max : bool) (b : IonBuilder),
     fst (inlineMathMinMax callInfo max b) = InliningStatus_Inlined ->
     (exists arg, In arg (argv callInfo) /\ IsFloatingPointType (type arg) = true /\
                  dominatedConstant max arg = false) ->
     exists nodes,
       instructions (current (snd (inlineMathMinMax callInfo max b)))
         = instructions (current b) ++ nodes /\
       ((List.length (argv callInfo) = 1%nat /\
         nodes = [MLimitedTruncate (case_at (argv callInfo) 0) NoTruncate]) \/
        (List.length nodes = (List.length (argv callInfo) - 1)%nat /\
         Forall (isMinMaxOfType MIRType_Double max) nodes))) /\
  (forall (callInfo : CallInfo) (max : bool) (b : IonBuilder) (a0 a1 : MDefinition),
     argv callInfo = [a0; a1] -> constructing callInfo = false ->
     IsNumberType (getInlineReturnType b) = true ->
     appendAvailable (pc b) 0 = true ->
     type a0 = MIRType_Int32 ->
     IsFloatingPointType (type a1) = true -> isConstant a1 = false ->
     fst (inlineMathMinMax callInfo max b) = InliningStatus_Inlined /\
     instructions (current (snd (inlineMathMinMax callInfo max b)))
       = instructions (current b) ++ [MMinMax a0 a1 MIRType_Double max] /\
     stack (current (snd (inlineMathMinMax callInfo max b)))
       = MMinMax a0 a1 MIRType_Double max :: stack (current b)) /\
  (forall (callInfo : CallInfo) (b : IonBuilder) (a0 : MDefinition) (c : float),
     argv callInfo = [a0; MConstant (DoubleValue c)] -> constructing callInfo = false ->
     getInlineReturnType b = MIRType_Int32 ->
     appendAvailable (pc b) 0 = true ->
     type a0 = MIRType_Int32 ->
     PrimFloat.leb (float_of_Z INT32_MAX) c = true ->
     fst (inlineMathMinMax callInfo false b) = InliningStatus_Inlined /\
     instructions (current (snd (inlineMathMinMax callInfo false b)))
       = instructions (current b) ++ [MLimitedTruncate a0 NoTruncate] /\
     stack (current (snd (inlineMathMinMax callInfo false b)))
       = MLimitedTruncate a0 NoTruncate :: stack (current b)).
Proof.
  split; [ | split ].
  - intros callInfo max b HI Hex.
    destruct (inlineMathMinMax_Inlined callInfo max b HI) as [H1 [H2 [ic [rt1 H3]]]].
    assert (rt1 = MIRType_Double)
      by (eapply inlineMathMinMax_partition_forced; eauto).
    subst rt1.
    destruct (inlineMathMinMax_commit callInfo max b ic MIRType_Double H1 H2 H3)
      as [_ [Hins _]].
    cbv zeta in Hins.
    replace (if Nat.eqb (List.length ic) 0 then MIRType_Double else MIRType_Double)
      with MIRType_Double in Hins by (now destruct (Nat.eqb (List.length ic) 0)).
    cbn [MIRType_beq] in Hins.
    eexists. split; [exact Hins | ].
    destruct (Nat.eqb (List.length (argv callInfo)) 1) eqn:E.
    + left. apply Nat.eqb_eq in E. auto.
    + right. split.
      * cbn [List.length]. rewrite inlineMathMinMax_chain_nodes_length, length_seq.
        apply Nat.eqb_neq in E.
        assert (List.length (argv callInfo) <> 0%nat).
        { intro H0. unfold argc in H1. rewrite H0 in H1. discriminate H1. }
        lia.
      * constructor.
        -- now exists (case_at (argv callInfo) 0), (case_at (argv callInfo) 1).
        -- apply inlineMathMinMax_chain_nodes_type.
  - intros callInfo max b a0 a1 Hargs Hc Hrt Happend Ht0 Ht1 Hk.
    assert (H1 : (argc callInfo <? 1) || constructing callInfo = false)
      by (unfold argc; rewrite Hargs, Hc; reflexivity).
    assert (H3 : inlineMathMinMax_partition (appendAvailable (pc b)) max
                   (argv callInfo) [] (getInlineReturnType b)
                 = inr ([a0], MIRType_Double)).
    { rewrite Hargs. simpl. rewrite Ht0, Happend, Hk. simpl.
      destruct (type a1); try discriminate; reflexivity. }
    destruct (inlineMathMinMax_commit callInfo max b [a0] MIRType_Double H1 Hrt H3)
      as [Hs [Hins Hst]].
    cbv zeta in Hins, Hst. rewrite Hargs in Hins, Hst. simpl in Hins, Hst.
    auto.
  - intros callInfo b a0 c Hargs Hc Hrt Happend Ht0 Hle.
    assert (H1 : (argc callInfo <? 1) || constructing callInfo = false)
      by (unfold argc; rewrite Hargs, Hc; reflexivity).
    assert (H2 : IsNumberType (getInlineReturnType b) = true)
      by (rewrite Hrt; reflexivity).
    assert (H3 : inlineMathMinMax_partition (appendAvailable (pc b)) false
                   (argv callInfo) [] (getInlineReturnType b)
                 = inr ([a0], MIRType_Int32)).
    { rewrite Hargs, Hrt. simpl. rewrite Ht0, Happend. simpl. rewrite Hle.
      reflexivity. }
    destruct (inlineMathMinMax_commit callInfo false b [a0] MIRType_Int32 H1 H2 H3)
      as [Hs [Hins Hst]].
    cbv zeta in Hins, Hst. simpl in Hins, Hst.
    auto.
Qed.

Lemma inlineMathMinMax_domain_of_the_chain_witness :
  let a0 := MConstant (Int32Value 3) in
  let site := siteReturning MIRType_Int32 false in
  (let r := inlineMathMinMax
              (callOf (operand 0 MIRType_Object) [a0; MConstant (DoubleValue 1e10%float)])
              false (builderAt site) in
   fst r = InliningStatus_Inlined /\
   instructions (current (snd r)) = [MLimitedTruncate a0 NoTruncate] /\
   stack (current (snd r)) = [MLimitedTruncate a0 NoTruncate]) /\
  (let r := inlineMathMinMax
              (callOf (operand 0 MIRType_Object) [a0; operand 1 MIRType_Double])
              false (builderAt site) in
   fst r = InliningStatus_Inlined /\
   instructions (current (snd r))
     = [MMinMax a0 (operand 1 MIRType_Double) MIRType_Double false] /\
   stack (current (snd r))
     = [MMinMax a0 (operand 1 MIRType_Double) MIRType_Double false]).
Proof.
  cbv zeta. split.
  - apply (proj2 (proj2 inlineMathMinMax_domain_of_the_chain)
             (callOf (operand 0 MIRType_Object)
                [MConstant (Int32Value 3); MConstant (DoubleValue 1e10%float)])
             (builderAt (siteReturning MIRType_Int32 false))
             (MConstant (Int32Value 3)) 1e10%float);
      reflexivity.
  - apply (proj1 (proj2 inlineMathMinMax_domain_of_the_chain)
             (callOf (operand 0 MIRType_Object)
                [MConstant (Int32Value 3); operand 1 MIRType_Double])
             false
             (builderAt (siteReturning MIRType_Int32 false))
             (MConstant (Int32Value 3)) (operand 1 MIRType_Double));
      reflexivity.
Defined.

(** ** Math.pow *)

(** An answer Inlined of [inlineMathPow] passed its type checks. *)
Lemma inlineMathPow_Inlined (callInfo : CallInfo) (b : IonBuilder) :
  fst (inlineMathPow callInfo b) = InliningStatus_Inlined ->
  constructing callInfo = false /\ argc callInfo = 2 /\
  (getInlineReturnType b = MIRType_Int32 \/ getInlineReturnType b = MIRType_Double) /\
  IsNumberType (type (getArg callInfo 0)) = true /\
  IsNumberType (type (getArg callInfo 1)) = true.
Proof.
  unfold inlineMathPow.
  destruct (constructing callInfo); [discriminate | ].
  destruct (argc callInfo =? 2) eqn:E2; [ | discriminate ].
  cbn [negb]. unfold bind at 1. unfold ask at 1.
  destruct (negb (MIRType_beq (getInlineReturnType b) MIRType_Int32) &&
            negb (MIRType_beq (getInlineReturnType b) MIRType_Double)) eqn:E3;
    [discriminate | ].
  destruct (IsNumberType (type (getArg callInfo 0))); [ | discriminate ].
  destruct (IsNumberType (type (getArg callInfo 1))); [ | discriminate ].
  intros _. apply Z.eqb_eq in E2. repeat split; auto.
  apply andb_false_iff in E3 as [E3 | E3]; apply negb_MIRType_beq_false in E3; auto.
Qed.

(** Runs the tail of [inlineMathPow] (the generic power and the casts) once
    the output type and the type [Et] of the output are known. *)
Ltac run_casts Et :=
  unfold bind, ret; cbv beta iota;
  repeat (first
    [ rewrite add_added
    | rewrite added_app
    | progress (rewrite ?Et; cbn [MIRType_beq negb andb type])
    | progress cbv beta iota ]);
  rewrite <- ?app_assoc; cbn [List.last app]; rewrite ?app_nil_r; reflexivity.

(** [inlineMathPow] after its type checks, in terms of the output the
    constant powers chose and the nodes they added. *)
Lemma inlineMathPow_commit_eq (callInfo : CallInfo) (b : IonBuilder)
    (output : option MDefinition) (nodes : list MDefinition) :
  fst (inlineMathPow callInfo b) = InliningStatus_Inlined ->
  (forall b1,
     (if isConstant (getArg callInfo 1) && isNumber (constantValue (getArg callInfo 1))
      then inlineMathPow_constant (getArg callInfo 0) (getInlineReturnType b)
             (toNumber (constantValue (getArg callInfo 1)))
      else ret None) b1 = (output, added nodes b1)) ->
  let outputType := getInlineReturnType b in
  let powerType := type (getArg callInfo 1) in
  let pow := MPow (getArg callInfo 0) (getArg callInfo 1)
               (if MIRType_beq powerType MIRType_Float32
                then MIRType_Double else powerType) in
  let out := match output with Some o => o | None => pow end in
  let new := nodes ++ match output with Some _ => [] | None => [pow] end
                   ++ castToOutputType outputType out in
  inlineMathPow callInfo b =
  (InliningStatus_Inlined,
   snd (push (List.last (castToOutputType outputType out) out)
          (added new (snd (setImplicitlyUsedUnchecked callInfo b))))).
Proof.
  intros HI Hconst.
  destruct (inlineMathPow_Inlined callInfo b HI) as [Hc [Hargc [Hot [Hb Hp]]]].
  clear HI. cbv zeta. unfold inlineMathPow.
  rewrite Hc, Hargc. cbn [Z.eqb Pos.eqb negb].
  unfold bind at 1. unfold ask at 1.
  rewrite Hb, Hp. cbn [negb].
  assert (Hchk : negb (MIRType_beq (getInlineReturnType b) MIRType_Int32) &&
                 negb (MIRType_beq (getInlineReturnType b) MIRType_Double) = false)
    by (destruct Hot as [-> | ->]; reflexivity).
  rewrite Hchk.
  unfold bind at 1.
  destruct (setImplicitlyUsedUnchecked callInfo b) as [u b1] eqn:Eu.
  cbn [snd].
  unfold bind at 1. rewrite Hconst.
  unfold castToOutputType.
  destruct output as [o | ].
  - destruct Hot as [-> | ->]; destruct (type o) eqn:Et; run_casts Et.
  - assert (Et : type (getArg callInfo 1) = type (getArg callInfo 1)) by reflexivity.
    destruct Hot as [-> | ->]; run_casts Et.
Qed.

Lemma inlineMathPow_commit (callInfo : CallInfo) (b : IonBuilder)
    (output : option MDefinition) (nodes : list MDefinition) :
  fst (inlineMathPow callInfo b) = InliningStatus_Inlined ->
  (forall b1,
     (if isConstant (getArg callInfo 1) && isNumber (constantValue (getArg callInfo 1))
      then inlineMathPow_constant (getArg callInfo 0) (getInlineReturnType b)
             (toNumber (constantValue (getArg callInfo 1)))
      else ret None) b1 = (output, added nodes b1)) ->
  let outputType := getInlineReturnType b in
  let powerType := type (getArg callInfo 1) in
  let pow := MPow (getArg callInfo 0) (getArg callInfo 1)
               (if MIRType_beq powerType MIRType_Float32
                then MIRType_Double else powerType) in
  let out := match output with Some o => o | None => pow end in
  let new := nodes ++ match output with Some _ => [] | None => [pow] end
                   ++ castToOutputType outputType out in
  instructions (current (snd (inlineMathPow callInfo b)))
    = instructions (current b) ++ new /\
  stack (current (snd (inlineMathPow callInfo b)))
    = List.last (castToOutputType outputType out) out :: stack (current b).
Proof.
  intros HI Hconst. cbv zeta.
  rewrite (inlineMathPow_commit_eq callInfo b output nodes HI Hconst).
  cbv zeta. split; reflexivity.
Qed.

(** Decides the comparisons of floating-point literals in the goal. *)
Ltac eval_float_tests :=
  repeat match goal with
         | |- context [PrimFloat.eqb ?x ?y] =>
             let v := eval vm_compute in (PrimFloat.eqb x y) in
             change (PrimFloat.eqb x y) with v
         end.

Ltac run_constant_power :=
  unfold inlineMathPow_constant; eval_float_tests;
  unfold bind, ret; cbv beta iota;
  repeat (first [ rewrite add_added | rewrite added_app | progress cbv beta iota ]);
  rewrite ?added_nil; reflexivity.

Lemma inlineMathPow_constant_2 (base : MDefinition) (outputType : MIRType)
    (b : IonBuilder) :
  inlineMathPow_constant base outputType 2%float b
  = (Some (MMul base base outputType), added [MMul base base outputType] b).
Proof. run_constant_power. Qed.

Lemma inlineMathPow_constant_3 (base : MDefinition) (outputType : MIRType)
    (b : IonBuilder) :
  inlineMathPow_constant base outputType 3%float b
  = (Some (MMul base (MMul base base outputType) outputType),
     added [MMul base base outputType;
            MMul base (MMul base base outputType) outputType] b).
Proof. run_constant_power. Qed.

Lemma inlineMathPow_constant_half (base : MDefinition) (outputType : MIRType)
    (b : IonBuilder) :
  inlineMathPow_constant base outputType 0.5%float b
  = (Some (MPowHalf base), added [MPowHalf base] b).
Proof. run_constant_power. Qed.

Lemma inlineMathPow_constant_other (base : MDefinition) (outputType : MIRType)
    (pow : float) (b : IonBuilder) :
  PrimFloat.eqb pow 0.5%float = false -> PrimFloat.eqb pow (-0.5)%float = false ->
  PrimFloat.eqb pow 1%float = false -> PrimFloat.eqb pow 2%float = false ->
  PrimFloat.eqb pow 3%float = false -> PrimFloat.eqb pow 4%float = false ->
  inlineMathPow_constant base outputType pow b = (None, added [] b).
Proof.
  intros H1 H2 H3 H4 H5 H6. unfold inlineMathPow_constant.
  rewrite H1, H2, H3, H4, H5, H6. now rewrite added_nil.
Qed.

Lemma castToOutputType_same (outputType : MIRType) (output : MDefinition) :
  type output = outputType -> castToOutputType outputType output = [].
Proof.
  intros <-. unfold castToOutputType. now rewrite MIRType_beq_refl.
Qed.

(** C5.  A specialised Math.pow call whose exponent is a numeric constant:
    for the exponent 2.0 exactly one multiply [x*x] is added; for 3.0 two
    chained multiplies, the second of [x] with the first product; for 0.5
    the PowHalf node (followed by the cast to the output type if that is
    int32) and no generic power; for an exponent that equals none of 0.5,
    -0.5, 1, 2, 3, 4 the generic power, followed by a cast exactly when its
    type is not the declared output type.  The last node is pushed. *)
Theorem inlineMathPow_constant_exponent (callInfo : CallInfo) (b : IonBuilder) :
  fst (inlineMathPow callInfo b) = InliningStatus_Inlined ->
  isConstant (getArg callInfo 1) = true ->
  isNumber (constantValue (getArg callInfo 1)) = true ->
  let base := getArg callInfo 0 in
  let power := getArg callInfo 1 in
  let pow := toNumber (constantValue power) in
  let outputType := getInlineReturnType b in
  let before := instructions (current b) in
  let after := instructions (current (snd (inlineMathPow callInfo b))) in
  let pushed := stack (current (snd (inlineMathPow callInfo b))) in
  (pow = 2%float ->
     after = before ++ [MMul base base outputType] /\
     pushed = MMul base base outputType :: stack (current b)) /\
  (pow = 3%float ->
     after = before ++ [MMul base base outputType;
                        MMul base (MMul base base outputType) outputType] /\
     pushed = MMul base (MMul base base outputType) outputType :: stack (current b)) /\
  (pow = 0.5%float ->
     after = before ++ MPowHalf base :: castToOutputType outputType (MPowHalf base) /\
     existsb isGenericPow (MPowHalf base :: castToOutputType outputType (MPowHalf base))
       = false /\
     pushed = List.last (castToOutputType outputType (MPowHalf base)) (MPowHalf base)
              :: stack (current b)) /\
  (PrimFloat.eqb pow 0.5%float = false -> PrimFloat.eqb pow (-0.5)%float = false ->
   PrimFloat.eqb pow 1%float = false -> PrimFloat.eqb pow 2%float = false ->
   PrimFloat.eqb pow 3%float = false -> PrimFloat.eqb pow 4%float = false ->
     let generic := MPow base power
                      (if MIRType_beq (type power) MIRType_Float32
                       then MIRType_Double else type power) in
     after = before ++ generic :: castToOutputType outputType generic /\
     (castToOutputType outputType generic = [] <-> type generic = outputType) /\
     (type generic <> outputType ->
        castToOutputType outputType generic = [MToInt32 generic]) /\
     pushed = List.last (castToOutputType outputType generic) generic
              :: stack (current b)).
Proof.
  intros HI Hk Hn. cbv zeta.
  destruct (inlineMathPow_Inlined callInfo b HI) as [_ [_ [Hot _]]].
  repeat split.
  - rename H into Hpow.
    destruct (inlineMathPow_commit callInfo b (Some (MMul (getArg callInfo 0) (getArg callInfo 0) (getInlineReturnType b)))
                [MMul (getArg callInfo 0) (getArg callInfo 0) (getInlineReturnType b)] HI) as [Hi _].
    { intros b1. rewrite Hk, Hn, Hpow. cbn [andb]. apply inlineMathPow_constant_2. }
    cbv zeta in Hi. rewrite castToOutputType_same in Hi by reflexivity. exact Hi.
  - rename H into Hpow.
    destruct (inlineMathPow_commit callInfo b (Some (MMul (getArg callInfo 0) (getArg callInfo 0) (getInlineReturnType b)))
                [MMul (getArg callInfo 0) (getArg callInfo 0) (getInlineReturnType b)] HI) as [_ Hs].
    { intros b1. rewrite Hk, Hn, Hpow. cbn [andb]. apply inlineMathPow_constant_2. }
    cbv zeta in Hs. rewrite castToOutputType_same in Hs by reflexivity. exact Hs.
  - rename H into Hpow.
    destruct (inlineMathPow_commit callInfo b
                (Some (MMul (getArg callInfo 0)
                         (MMul (getArg callInfo 0) (getArg callInfo 0) (getInlineReturnType b))
                         (getInlineReturnType b)))
                [MMul (getArg callInfo 0) (getArg callInfo 0) (getInlineReturnType b);
                 MMul (getArg callInfo 0)
                   (MMul (getArg callInfo 0) (getArg callInfo 0) (getInlineReturnType b))
                   (getInlineReturnType b)] HI) as [Hi _].
    { intros b1. rewrite Hk, Hn, Hpow. cbn [andb]. apply inlineMathPow_constant_3. }
    cbv zeta in Hi. rewrite castToOutputType_same in Hi by reflexivity. exact Hi.
  - rename H into Hpow.
    destruct (inlineMathPow_commit callInfo b
                (Some (MMul (getArg callInfo 0)
                         (MMul (getArg callInfo 0) (getArg callInfo 0) (getInlineReturnType b))
                         (getInlineReturnType b)))
                [MMul (getArg callInfo 0) (getArg callInfo 0) (getInlineReturnType b);
                 MMul (getArg callInfo 0)
                   (MMul (getArg callInfo 0) (getArg callInfo 0) (getInlineReturnType b))
                   (getInlineReturnType b)] HI) as [_ Hs].
    { intros b1. rewrite Hk, Hn, Hpow. cbn [andb]. apply inlineMathPow_constant_3. }
    cbv zeta in Hs. rewrite castToOutputType_same in Hs by reflexivity. exact Hs.
  - rename H into Hpow.
    destruct (inlineMathPow_commit callInfo b (Some (MPowHalf (getArg callInfo 0)))
                [MPowHalf (getArg callInfo 0)] HI) as [Hi _].
    { intros b1. rewrite Hk, Hn, Hpow. cbn [andb]. apply inlineMathPow_constant_half. }
    exact Hi.
  - destruct Hot as [-> | ->]; reflexivity.
  - rename H into Hpow.
    destruct (inlineMathPow_commit callInfo b (Some (MPowHalf (getArg callInfo 0)))
                [MPowHalf (getArg callInfo 0)] HI) as [_ Hs].
    { intros b1. rewrite Hk, Hn, Hpow. cbn [andb]. apply inlineMathPow_constant_half. }
    exact Hs.
  - destruct (inlineMathPow_commit callInfo b None [] HI) as [Hi _].
    { intros b1. rewrite Hk, Hn. cbn [andb]. now apply inlineMathPow_constant_other. }
    exact Hi.
  - destruct Hot as [-> | ->]; cbn; [discriminate | reflexivity].
  - intros Hty. unfold castToOutputType. cbn [type] in *. rewrite <- Hty. reflexivity.
  - intros Hne. destruct Hot as [E | E]; rewrite E in *; [reflexivity | ].
    exfalso. apply Hne. reflexivity.
  - destruct (inlineMathPow_commit callInfo b None [] HI) as [_ Hs].
    { intros b1. rewrite Hk, Hn. cbn [andb]. now apply inlineMathPow_constant_other. }
    exact Hs.
Qed.

Lemma inlineMathPow_constant_exponent_witness :
  let x := operand 1 MIRType_Double in
  let r := inlineMathPow
             (callOf (operand 0 MIRType_Object) [x; MConstant (DoubleValue 2%float)])
             (builderAt (siteReturning MIRType_Double false)) in
  instructions (current (snd r)) = [MMul x x MIRType_Double] /\
  stack (current (snd r)) = [MMul x x MIRType_Double].
Proof.
  cbv zeta.
  apply (proj1 (inlineMathPow_constant_exponent
                  (callOf (operand 0 MIRType_Object)
                     [operand 1 MIRType_Double; MConstant (DoubleValue 2%float)])
                  (builderAt (siteReturning MIRType_Double false))
                  eq_refl eq_refl eq_refl)).
  reflexivity.
Defined.

(** ** String.prototype.charCodeAt *)

Lemma int32_range (i : Z) : INT32_MIN <= int32 i <= INT32_MAX.
Proof.
  unfold int32, INT32_MIN, INT32_MAX.
  pose proof (Z.mod_pos_bound (i + 2147483648) 4294967296 ltac:(lia)). lia.
Qed.

(** [inlineConstantCharCodeAt] folds exactly the calls [constantCharCodeAt]
    describes. *)
Lemma inlineConstantCharCodeAt_eq (callInfo : CallInfo) (b : IonBuilder) :
  inlineConstantCharCodeAt callInfo b =
  match constantCharCodeAt callInfo with
  | Some ch =>
      (InliningStatus_Inlined,
       snd (push (MConstant (Int32Value ch))
              (added [MConstant (Int32Value ch)]
                 (snd (setImplicitlyUsedUnchecked callInfo b)))))
  | None => (InliningStatus_NotInlined, b)
  end.
Proof.
  unfold inlineConstantCharCodeAt, constantCharCodeAt.
  destruct (thisArg callInfo) as [ | v | | | | | | | | | | | | | | | | | | | | | | | | | ];
    try reflexivity.
  cbn [isConstant negb constantValue].
  destruct (getArg callInfo 0) as [ | w | | | | | | | | | | | | | | | | | | | | | | | | | ];
    cbn [isConstant negb constantValue];
    try (destruct v; reflexivity).
  destruct v as [ | | | | | str | ]; try reflexivity.
  destruct w as [ | | | i | | | ]; try reflexivity.
  cbv zeta.
  pose proof (int32_range i) as Hrange. unfold INT32_MIN, INT32_MAX in Hrange.
  set (idx := int32 i) in *.
  destruct (isLinear str); cbn [negb andb]; [ | reflexivity ].
  destruct (idx <? 0) eqn:Eneg.
  - apply Z.ltb_lt in Eneg.
    replace (0 <=? idx) with false by (symmetry; apply Z.leb_gt; lia).
    reflexivity.
  - apply Z.ltb_ge in Eneg.
    replace (0 <=? idx) with true by (symmetry; apply Z.leb_le; lia).
    assert (Hu : to_uint32 idx = idx)
      by (unfold to_uint32; apply Z.mod_small; lia).
    rewrite Hu. cbn [orb andb].
    destruct (length_ str <=? idx) eqn:Ele.
    + apply Z.leb_le in Ele.
      replace (idx <? length_ str) with false by (symmetry; apply Z.ltb_ge; lia).
      reflexivity.
    + apply Z.leb_gt in Ele.
      replace (idx <? length_ str) with true by (symmetry; apply Z.ltb_lt; lia).
      reflexivity.
Qed.

(** C6, as stated, fails at a constant string that is not linear: for the
    rope "AB" and the constant index 1 nothing is folded; the specialiser
    adds the index conversion, the string length, the bounds check and the
    character access, and no constant 66. *)
Lemma inlineStrCharCodeAt_constant_rope_is_not_folded :
  let rope := {| isLinear := false; chars := [65; 66] |} in
  let str := MConstant (StringValue rope) in
  let idx := MConstant (Int32Value 1) in
  let r := inlineStrCharCodeAt (callOf str [idx])
             (builderAt (siteReturning MIRType_Int32 false)) in
  let check := MBoundsCheck (MToInt32 idx) (MStringLength str) in
  chars rope = chars (linearString "AB") /\
  fst r = InliningStatus_Inlined /\
  instructions (current (snd r))
  = [MToInt32 idx; MStringLength str; check; MCharCodeAt str check] /\
  instructions (current (snd r)) <> [MConstant (Int32Value 66)].
Proof.
  cbv zeta. repeat split; try reflexivity.
  vm_compute. intro H. discriminate H.
Qed.

(** C6, as amended.  A specialised charCodeAt call.  When the receiver is a
    constant linear string (no rope) and the index a constant int32 within
    its bounds, exactly one instruction is added, the int32 constant of the
    character code, and it is pushed: no bounds check.  Otherwise the index
    conversion, the string length, the bounds check and then the character
    access that reads at the checked index are added, in this order. *)
Theorem inlineStrCharCodeAt_folds_constants (callInfo : CallInfo) (b : IonBuilder) :
  fst (inlineStrCharCodeAt callInfo b) = InliningStatus_Inlined ->
  let before := instructions (current b) in
  let after := instructions (current (snd (inlineStrCharCodeAt callInfo b))) in
  let pushed := stack (current (snd (inlineStrCharCodeAt callInfo b))) in
  match constantCharCodeAt callInfo with
  | Some ch =>
      after = before ++ [MConstant (Int32Value ch)] /\
      pushed = MConstant (Int32Value ch) :: stack (current b)
  | None =>
      let index := MToInt32 (getArg callInfo 0) in
      let length := MStringLength (thisArg callInfo) in
      let check := MBoundsCheck index length in
      let charCode := MCharCodeAt (thisArg callInfo) check in
      after = before ++ [index; length; check; charCode] /\
      pushed = charCode :: stack (current b)
  end.
Proof.
  intros HI. cbv zeta.
  remember (inlineStrCharCodeAt callInfo b) as r eqn:Er.
  unfold inlineStrCharCodeAt in Er.
  destruct (negb (argc callInfo =? 1) || constructing callInfo);
    [subst r; discriminate | ].
  unfold bind at 1 in Er. unfold ask in Er.
  destruct (negb (MIRType_beq (getInlineReturnType b) MIRType_Int32));
    [subst r; discriminate | ].
  destruct (negb (MIRType_beq (type (thisArg callInfo)) MIRType_String) &&
            negb (MIRType_beq (type (thisArg callInfo)) MIRType_Value));
    [subst r; discriminate | ].
  destruct (negb (MIRType_beq (type (getArg callInfo 0)) MIRType_Int32) &&
            negb (MIRType_beq (type (getArg callInfo 0)) MIRType_Double));
    [subst r; discriminate | ].
  unfold bind at 1 in Er.
  rewrite (inlineConstantCharCodeAt_eq callInfo b) in Er.
  destruct (constantCharCodeAt callInfo) as [ch | ]; subst r.
  - split; reflexivity.
  - cbn [InliningStatus_beq negb]. unfold_build. cbn.
    rewrite <- !app_assoc. split; reflexivity.
Qed.

(** "AB".charCodeAt(1) is folded to the constant 66; no bounds check. *)
Lemma inlineStrCharCodeAt_folds_constants_witness :
  let r := inlineStrCharCodeAt
             (callOf (MConstant (StringValue (linearString "AB")))
                [MConstant (Int32Value 1)])
             (builderAt (siteReturning MIRType_Int32 false)) in
  instructions (current (snd r)) = [MConstant (Int32Value 66)] /\
  stack (current (snd r)) = [MConstant (Int32Value 66)].
Proof.
  cbv zeta.
  exact (inlineStrCharCodeAt_folds_constants
           (callOf (MConstant (StringValue (linearString "AB")))
              [MConstant (Int32Value 1)])
           (builderAt (siteReturning MIRType_Int32 false)) eq_refl).
Defined.

(** A receiver that is no constant: the bounds check comes before the
    character access. *)
Example inlineStrCharCodeAt_checks_bounds :
  let str := operand 1 MIRType_String in
  let idx := operand 2 MIRType_Int32 in
  let r := inlineStrCharCodeAt (callOf str [idx])
             (builderAt (siteReturning MIRType_Int32 false)) in
  fst r = InliningStatus_Inlined /\
  instructions (current (snd r))
    = [MToInt32 idx; MStringLength str;
       MBoundsCheck (MToInt32 idx) (MStringLength str);
       MCharCodeAt str (MBoundsCheck (MToInt32 idx) (MStringLength str))].
Proof. cbv zeta. split; reflexivity. Qed.

(** ** Class predicates *)

Lemma clasp_eqb_eq (a b : option Class) : clasp_eqb a b = true <-> a = b.
Proof.
  destruct a as [x | ], b as [y | ]; simpl; split; intro H;
    try discriminate; try reflexivity.
  - f_equal. now apply internal_Class_dec_bl.
  - injection H as ->. now apply internal_Class_dec_lb.
Qed.

(** C9.  A class predicate over one object argument whose class [k] is known,
    at a call site that is not constructing and expects a boolean: the
    specialiser answers Inlined, adds exactly one instruction, the boolean
    constant telling whether [k] is one of the candidate classes, and pushes
    it.  No class check ([MHasClass]) is added. *)
Theorem inlineHasClass_known_class (callInfo : CallInfo)
    (clasp1 clasp2 clasp3 clasp4 : option Class) (b : IonBuilder)
    (arg : MDefinition) (ts : types.TemporaryTypeSet) (k : Class) :
  constructing callInfo = false ->
  argv callInfo = [arg] ->
  type arg = MIRType_Object ->
  getInlineReturnType b = MIRType_Boolean ->
  resultTypeSet arg = Some ts ->
  types.getKnownClass ts = Some k ->
  let r := inlineHasClass callInfo clasp1 clasp2 clasp3 clasp4 b in
  let member := existsb (clasp_eqb (Some k)) [clasp1; clasp2; clasp3; clasp4] in
  fst r = InliningStatus_Inlined /\
  instructions (current (snd r))
    = instructions (current b) ++ [MConstant (BooleanValue member)] /\
  stack (current (snd r)) = MConstant (BooleanValue member) :: stack (current b) /\
  (member = true <-> In (Some k) [clasp1; clasp2; clasp3; clasp4]).
Proof.
  intros Hc Hargs Hty Hrt Hts Hk. cbv zeta.
  split; [ | split; [ | split ] ].
  1-3: unfold inlineHasClass, getArg, argc; rewrite Hc, Hargs;
    cbn [List.length Z.of_nat Pos.of_succ_nat Z.eqb Pos.eqb negb orb nth];
    rewrite Hty; cbn [MIRType_beq negb];
    unfold bind at 1; unfold ask at 1; rewrite Hrt; cbn [MIRType_beq negb];
    rewrite Hts, Hk; cbn [isNull negb existsb];
    rewrite ?orb_false_r, ?orb_assoc; reflexivity.
  rewrite existsb_exists. split.
  - intros [c [Hin Heq]]. apply clasp_eqb_eq in Heq. now subst c.
  - intros Hin. exists (Some k). split; [exact Hin | now apply clasp_eqb_eq].
Qed.

(** ObjectIsTypedObject over an object known to be an inline opaque typed
    object is the constant true; over a known array it is the constant
    false. *)
Lemma inlineHasClass_known_class_witness :
  let ObjectIsTypedObject callInfo :=
    inlineHasClass callInfo
      (Some OutlineTransparentTypedObject_class) (Some OutlineOpaqueTypedObject_class)
      (Some InlineTransparentTypedObject_class) (Some InlineOpaqueTypedObject_class) in
  let site := builderAt (siteReturning MIRType_Boolean false) in
  instructions (current (snd (ObjectIsTypedObject
      (callOf (operand 0 MIRType_Object)
         [objectOfClass 1 InlineOpaqueTypedObject_class]) site)))
    = [MConstant (BooleanValue true)] /\
  instructions (current (snd (ObjectIsTypedObject
      (callOf (operand 0 MIRType_Object) [objectOfClass 1 ArrayObject_class]) site)))
    = [MConstant (BooleanValue false)].
Proof.
  cbv zeta. split.
  - exact (proj1 (proj2 (inlineHasClass_known_class
                           (callOf (operand 0 MIRType_Object)
                              [objectOfClass 1 InlineOpaqueTypedObject_class])
                           _ _ _ _
                           (builderAt (siteReturning MIRType_Boolean false))
                           (objectOfClass 1 InlineOpaqueTypedObject_class)
                           (typeSetOfClass InlineOpaqueTypedObject_class)
                           InlineOpaqueTypedObject_class
                           eq_refl eq_refl eq_refl eq_refl eq_refl eq_refl))).
  - exact (proj1 (proj2 (inlineHasClass_known_class
                           (callOf (operand 0 MIRType_Object)
                              [objectOfClass 1 ArrayObject_class])
                           _ _ _ _
                           (builderAt (siteReturning MIRType_Boolean false))
                           (objectOfClass 1 ArrayObject_class)
                           (typeSetOfClass ArrayObject_class)
                           ArrayObject_class
                           eq_refl eq_refl eq_refl eq_refl eq_refl eq_refl))).
Defined.

(** ** Atomics *)

Lemma atomicsMeetsPreconditions_Some (callInfo : CallInfo) (b : IonBuilder)
    (arrayType : Scalar.Type_) :
  atomicsMeetsPreconditions callInfo b = Some arrayType ->
  arrayType = sharedElementType (getArg callInfo 0) /\
  atomicsAllowList arrayType (getInlineReturnType b) = true.
Proof.
  unfold atomicsMeetsPreconditions, sharedElementType, atomicsAllowList.
  destruct (negb (MIRType_beq (type (getArg callInfo 0)) MIRType_Object));
    [discriminate | ].
  destruct (negb (MIRType_beq (type (getArg callInfo 1)) MIRType_Int32));
    [discriminate | ].
  destruct (resultTypeSet (getArg callInfo 0)) as [ts | ]; [ | discriminate ].
  destruct (types.getSharedTypedArrayType ts); try discriminate;
    match goal with
    | |- context [MIRType_beq ?x ?y] => destruct (MIRType_beq x y) eqn:E
    end; try discriminate; intros H; injection H as <-; auto.
Qed.

Lemma atomicsMeetsPreconditions_None (callInfo : CallInfo) (b : IonBuilder) :
  atomicsAllowList (sharedElementType (getArg callInfo 0)) (getInlineReturnType b)
    = false ->
  atomicsMeetsPreconditions callInfo b = None.
Proof.
  intros H.
  destruct (atomicsMeetsPreconditions callInfo b) as [t | ] eqn:E; [ | reflexivity ].
  apply atomicsMeetsPreconditions_Some in E as [-> E]. congruence.
Qed.

(** C4.  Atomics.load, store, compareExchange and the fetch-and-operate
    natives are specialised only when the element type of the shared typed
    array and the type expected at the call site are on the allow-list: Int8,
    Uint8, Int16, Uint16 or Int32 with int32, or Uint32 with double.  With any
    other pair the answer is NotInlined and the builder is unchanged. *)
Theorem inlineAtomics_allow_list (callInfo : CallInfo) (b : IonBuilder)
    (native : AtomicsBinopNative) :
  respectsAllowList inlineAtomicsLoad callInfo b /\
  respectsAllowList inlineAtomicsStore callInfo b /\
  respectsAllowList inlineAtomicsCompareExchange callInfo b /\
  respectsAllowList (fun c => inlineAtomicsBinop c native) callInfo b /\
  (forall (arrayType : Scalar.Type_) (returnType : MIRType),
     atomicsAllowList arrayType returnType = true <->
     (In arrayType [Scalar.Int8; Scalar.Uint8; Scalar.Int16; Scalar.Uint16; Scalar.Int32]
      /\ returnType = MIRType_Int32) \/
     (arrayType = Scalar.Uint32 /\ returnType = MIRType_Double)).
Proof.
  unfold respectsAllowList. cbv zeta.
  repeat match goal with |- _ /\ _ => split end.
  - unfold inlineAtomicsLoad.
    destruct (negb (argc callInfo =? 2) || constructing callInfo); [discriminate | ].
    unfold bind at 1. unfold ask at 1.
    destruct (atomicsMeetsPreconditions callInfo b) as [t | ] eqn:E; [ | discriminate ].
    intros _. apply atomicsMeetsPreconditions_Some in E as [-> E]. exact E.
  - intros H. unfold inlineAtomicsLoad.
    destruct (negb (argc callInfo =? 2) || constructing callInfo); [reflexivity | ].
    unfold bind at 1. unfold ask at 1.
    now rewrite (atomicsMeetsPreconditions_None callInfo b H).
  - unfold inlineAtomicsStore.
    destruct (negb (argc callInfo =? 3) || constructing callInfo); [discriminate | ].
    unfold bind at 1. unfold ask at 1.
    destruct (atomicsMeetsPreconditions callInfo b) as [t | ] eqn:E; [ | discriminate ].
    intros _. apply atomicsMeetsPreconditions_Some in E as [-> E]. exact E.
  - intros H. unfold inlineAtomicsStore.
    destruct (negb (argc callInfo =? 3) || constructing callInfo); [reflexivity | ].
    unfold bind at 1. unfold ask at 1.
    now rewrite (atomicsMeetsPreconditions_None callInfo b H).
  - unfold inlineAtomicsCompareExchange.
    destruct (negb (argc callInfo =? 4) || constructing callInfo); [discriminate | ].
    unfold bind at 1. unfold ask at 1.
    destruct (atomicsMeetsPreconditions callInfo b) as [t | ] eqn:E; [ | discriminate ].
    intros _. apply atomicsMeetsPreconditions_Some in E as [-> E]. exact E.
  - intros H. unfold inlineAtomicsCompareExchange.
    destruct (negb (argc callInfo =? 4) || constructing callInfo); [reflexivity | ].
    unfold bind at 1. unfold ask at 1.
    now rewrite (atomicsMeetsPreconditions_None callInfo b H).
  - unfold inlineAtomicsBinop.
    destruct (negb (argc callInfo =? 3) || constructing callInfo); [discriminate | ].
    unfold bind at 1. unfold ask at 1.
    destruct (atomicsMeetsPreconditions callInfo b) as [t | ] eqn:E; [ | discriminate ].
    intros _. apply atomicsMeetsPreconditions_Some in E as [-> E]. exact E.
  - intros H. unfold inlineAtomicsBinop.
    destruct (negb (argc callInfo =? 3) || constructing callInfo); [reflexivity | ].
    unfold bind at 1. unfold ask at 1.
    now rewrite (atomicsMeetsPreconditions_None callInfo b H).
  - intros arrayType returnType. split.
    + destruct arrayType; simpl; intros H; try discriminate;
        apply MIRType_beq_eq in H; subst returnType; auto 10.
    + intros [[Hin ->] | [-> ->]]; [ | reflexivity ].
      simpl in Hin.
      destruct Hin as [<- | [<- | [<- | [<- | [<- | []]]]]]; reflexivity.
Qed.

(** Atomics.compareExchange on an Int8 array is declined where a double is
    expected and specialised where an int32 is expected. *)
Lemma inlineAtomics_allow_list_witness :
  let callInfo := callOf (operand 0 MIRType_Object)
                    [sharedArray 1 Scalar.Int8; operand 2 MIRType_Int32;
                     operand 3 MIRType_Int32; operand 4 MIRType_Int32] in
  inlineAtomicsCompareExchange callInfo (builderAt (siteReturning MIRType_Double false))
    = (InliningStatus_NotInlined, builderAt (siteReturning MIRType_Double false)) /\
  fst (inlineAtomicsCompareExchange callInfo
         (builderAt (siteReturning MIRType_Int32 false))) = InliningStatus_Inlined.
Proof.
  cbv zeta. split; [ | reflexivity ].
  apply (proj2 (proj1 (proj2 (proj2
           (inlineAtomics_allow_list
              (callOf (operand 0 MIRType_Object)
                 [sharedArray 1 Scalar.Int8; operand 2 MIRType_Int32;
                  operand 3 MIRType_Int32; operand 4 MIRType_Int32])
              (builderAt (siteReturning MIRType_Double false))
              atomics_add))))).
  reflexivity.
Defined.

(** ** Array.prototype.concat *)

Lemma Type_eqb_eq (a b : types.Type_) : types.Type_eqb a b = true <-> a = b.
Proof.
  destruct a, b; simpl; split; intro H; try discriminate; try reflexivity.
  - apply Nat.eqb_eq in H. now subst.
  - injection H as ->. apply Nat.eqb_refl.
Qed.

Lemma knownSubset_incl (a b : types.HeapTypeSetKey) :
  types.knownSubset a b = true <->
  (forall t, In t (types.maybeTypes a) -> In t (types.maybeTypes b)).
Proof.
  unfold types.knownSubset. rewrite forallb_forall. split.
  - intros H t Hin. specialize (H t Hin). apply existsb_exists in H as [u [Hu E]].
    apply Type_eqb_eq in E. now subst u.
  - intros H t Hin. apply existsb_exists. exists t. split; [now apply H | ].
    now apply Type_eqb_eq.
Qed.

(** The loop over the type objects of the argument, when all of them have
    known properties: it succeeds exactly when their element types are
    element types of the receiver. *)
Lemma inlineArrayConcat_argTypes_iff (thisElemTypes : types.HeapTypeSetKey)
    (objs : list (option types.TypeObjectKey)) :
  (forall k, In (Some k) objs -> types.unknownProperties k = false) ->
  inlineArrayConcat_argTypes thisElemTypes objs = true <->
  (forall k t, In (Some k) objs ->
               In t (types.maybeTypes (types.property_JSID_VOID k)) ->
               In t (types.maybeTypes thisElemTypes)).
Proof.
  induction objs as [ | [argType | ] rest IH]; intros Hknown.
  - simpl. split; [intros _ k t [] | reflexivity].
  - cbn [inlineArrayConcat_argTypes].
    rewrite (Hknown argType (or_introl eq_refl)).
    assert (Hrest : forall k, In (Some k) rest -> types.unknownProperties k = false)
      by (intros k Hk; apply Hknown; now right).
    specialize (IH Hrest).
    destruct (types.knownSubset (types.property_JSID_VOID argType) thisElemTypes) eqn:E;
      cbn [negb].
    + rewrite IH. split.
      * intros H k t [Hk | Hk] Ht.
        -- injection Hk as <-. now apply (proj1 (knownSubset_incl _ _) E).
        -- now apply (H k t).
      * intros H k t Hk. apply H. now right.
    + split; [discriminate | ].
      intros H. exfalso.
      assert (E' : types.knownSubset (types.property_JSID_VOID argType) thisElemTypes = true)
        by (apply knownSubset_incl; intros t Ht; apply (H argType t); auto; now left).
      congruence.
  - cbn [inlineArrayConcat_argTypes].
    assert (Hrest : forall k, In (Some k) rest -> types.unknownProperties k = false)
      by (intros k Hk; apply Hknown; now right).
    rewrite (IH Hrest). split.
    + intros H k t [Hk | Hk]; [discriminate | now apply H].
    + intros H k t Hk. apply H. now right.
Qed.

(** [inlineArrayConcat] once the shape of the call is accepted: the answer
    rests on the element types of the argument alone. *)
Lemma inlineArrayConcat_eq (callInfo : CallInfo) (b : IonBuilder)
    (thisTypes argTypes : types.TemporaryTypeSet) (thisType : types.TypeObjectKey)
    (templateObj : NativeObject) :
  concatPreconditions callInfo b thisTypes argTypes thisType templateObj ->
  inlineArrayConcat callInfo b =
  if inlineArrayConcat_argTypes (types.property_JSID_VOID thisType)
       (types.objects argTypes)
  then
    let ins := MArrayConcat (thisArg callInfo) (getArg callInfo 0) templateObj
                 (initialHeap templateObj) in
    (InliningStatus_Inlined,
     snd (resumeAfter ins
            (snd (push ins (added [ins] (snd (setImplicitlyUsedUnchecked callInfo b)))))))
  else (InliningStatus_NotInlined, b).
Proof.
  intros [H1 H2 H3 H4 H5 H6 H7 H8 H9 H10 H11 H12 H13 H14 H15 H16 H17 H18 H19 H20 H21].
  unfold inlineArrayConcat.
  rewrite H1, H2. cbn [Z.eqb Pos.eqb negb orb].
  unfold bind at 1. unfold ask at 1.
  rewrite H3, H4, H5, H6, H7. cbn [MIRType_beq negb].
  rewrite H8, H9, H10, H11. cbn [clasp_eqb Class_beq negb].
  unfold bind at 1. unfold ask at 1. rewrite H12.
  rewrite H13, H14, H15, H16. cbn [Nat.eqb negb].
  unfold bind at 1. unfold ask at 1. rewrite H17. cbn [negb].
  destruct (inlineArrayConcat_argTypes (types.property_JSID_VOID thisType)
              (types.objects argTypes)); cbn [negb]; [ | reflexivity ].
  unfold bind at 1. unfold ask at 1. rewrite H19.
  rewrite H20, Nat.eqb_refl. cbn [negb].
  unfold_build. cbn. rewrite H21. reflexivity.
Qed.

(** C8.  A concat call whose shape is accepted (both operands known dense
    arrays, one receiver type with known properties that the result type set
    holds, a template object of that type, a resume point at hand): when
    every element type of the argument is an element type of the receiver,
    the call is specialised, the concat instruction is added and pushed;
    when some element type of the argument is missing from the receiver, the
    answer is NotInlined and the builder is unchanged. *)
Theorem inlineArrayConcat_element_types (callInfo : CallInfo) (b : IonBuilder)
    (thisTypes argTypes : types.TemporaryTypeSet) (thisType : types.TypeObjectKey)
    (templateObj : NativeObject) :
  concatPreconditions callInfo b thisTypes argTypes thisType templateObj ->
  let r := inlineArrayConcat callInfo b in
  let ins := MArrayConcat (thisArg callInfo) (getArg callInfo 0) templateObj
               (initialHeap templateObj) in
  (argElementTypesContained argTypes thisType ->
     fst r = InliningStatus_Inlined /\
     instructions (current (snd r)) = instructions (current b) ++ [ins] /\
     stack (current (snd r)) = ins :: stack (current b)) /\
  (~ argElementTypesContained argTypes thisType ->
     r = (InliningStatus_NotInlined, b)).
Proof.
  intros Hpre. cbv zeta.
  rewrite (inlineArrayConcat_eq callInfo b thisTypes argTypes thisType templateObj Hpre).
  pose proof (inlineArrayConcat_argTypes_iff (types.property_JSID_VOID thisType)
                (types.objects argTypes)
                (concat_arg_properties _ _ _ _ _ _ Hpre)) as Hiff.
  fold (argElementTypesContained argTypes thisType) in Hiff.
  destruct (inlineArrayConcat_argTypes (types.property_JSID_VOID thisType)
              (types.objects argTypes)).
  - split.
    + intros _. unfold resumeAfter. cbn.
      rewrite (concat_resume_point _ _ _ _ _ _ Hpre). cbn. auto.
    + intros Hn. exfalso. apply Hn. now apply Hiff.
  - split.
    + intros Hc. apply Hiff in Hc. discriminate.
    + reflexivity.
Qed.

Lemma concatPreconditions_example (thisElems argElems : list types.Type_) :
  let thisType := arrayType 7 thisElems in
  let argType := arrayType 8 argElems in
  concatPreconditions
    (callOf (arrayOfType 1 thisType) [arrayOfType 2 argType])
    (builderAt (concatSite thisType))
    {| types.getKnownMIRType := MIRType_Object;
       types.getKnownClass := Some ArrayObject_class;
       types.objectFlags := [];
       types.objects := [Some thisType];
       types.getSharedTypedArrayType := Scalar.TypeMax;
       types.convertDoubleElements := types.DontConvertToDoubles |}
    {| types.getKnownMIRType := MIRType_Object;
       types.getKnownClass := Some ArrayObject_class;
       types.objectFlags := [];
       types.objects := [Some argType];
       types.getSharedTypedArrayType := Scalar.TypeMax;
       types.convertDoubleElements := types.DontConvertToDoubles |}
    thisType
    {| type_ := 7; initialHeap := DefaultHeap |}.
Proof.
  cbv zeta. constructor; try reflexivity.
  intros k [H | []]. injection H as <-. reflexivity.
Defined.

(** A receiver with elements {int, string} takes an argument with elements
    {int}; a receiver with elements {int} declines an argument with elements
    {int, string}. *)
Lemma inlineArrayConcat_element_types_witness :
  let intString := [types.Int32Type; types.StringType] in
  let int := [types.Int32Type] in
  fst (inlineArrayConcat
         (callOf (arrayOfType 1 (arrayType 7 intString)) [arrayOfType 2 (arrayType 8 int)])
         (builderAt (concatSite (arrayType 7 intString))))
    = InliningStatus_Inlined /\
  inlineArrayConcat
    (callOf (arrayOfType 1 (arrayType 7 int)) [arrayOfType 2 (arrayType 8 intString)])
    (builderAt (concatSite (arrayType 7 int)))
    = (InliningStatus_NotInlined, builderAt (concatSite (arrayType 7 int))).
Proof.
  cbv zeta. split.
  - apply (proj1 (inlineArrayConcat_element_types _ _ _ _ _ _
                    (concatPreconditions_example
                       [types.Int32Type; types.StringType] [types.Int32Type]))).
    intros k t [H | []] Ht. injection H as <-. simpl in *. tauto.
  - apply (proj2 (inlineArrayConcat_element_types _ _ _ _ _ _
                    (concatPreconditions_example
                       [types.Int32Type] [types.Int32Type; types.StringType]))).
    intros H.
    specialize (H (arrayType 8 [types.Int32Type; types.StringType]) types.StringType
                  (or_introl eq_refl) (or_intror (or_introl eq_refl))).
    simpl in H. destruct H as [H | []]. discriminate H.
Defined.

(** ** UnsafePutElements *)

Section UnsafePutElementsProperties.

Variable ElementAccessIsDenseNative : MDefinition -> MDefinition -> bool.
Variable PropertyWriteNeedsTypeBarrier : MDefinition -> MDefinition -> bool.
Variable ElementAccessIsAnyTypedArray :
  MDefinition -> MDefinition -> option Scalar.Type_.
Variable typedObjectPrediction : MDefinition -> TypedObjectPrediction.
Variable jsop_setelem_dense :
  types.DoubleConversion -> MDefinition -> MDefinition -> MDefinition -> Build bool.
Variable jsop_setelem_typed :
  Scalar.Type_ -> MDefinition -> MDefinition -> MDefinition -> Build bool.
Variable jsop_setelem_typed_object :
  Scalar.Type_ -> MDefinition -> MDefinition -> MDefinition -> Build bool.

(** The emitters add to the block; they take nothing back. *)
Hypothesis jsop_setelem_dense_extends : forall conversion obj id elem b,
  exists events,
    trace (current (snd (jsop_setelem_dense conversion obj id elem b)))
    = trace (current b) ++ events.
Hypothesis jsop_setelem_typed_extends : forall arrayType obj id elem b,
  exists events,
    trace (current (snd (jsop_setelem_typed arrayType obj id elem b)))
    = trace (current b) ++ events.
Hypothesis jsop_setelem_typed_object_extends : forall arrayType obj id elem b,
  exists events,
    trace (current (snd (jsop_setelem_typed_object arrayType obj id elem b)))
    = trace (current b) ++ events.

Local Abbreviation check :=
  (inlineUnsafePutElements_check ElementAccessIsDenseNative
     PropertyWriteNeedsTypeBarrier ElementAccessIsAnyTypedArray
     typedObjectPrediction).
Local Abbreviation valid :=
  (validWrite ElementAccessIsDenseNative PropertyWriteNeedsTypeBarrier
     ElementAccessIsAnyTypedArray typedObjectPrediction).
Local Abbreviation stores :=
  (inlineUnsafePutElements_stores ElementAccessIsDenseNative
     ElementAccessIsAnyTypedArray typedObjectPrediction
     jsop_setelem_dense jsop_setelem_typed jsop_setelem_typed_object).
Local Abbreviation inline :=
  (inlineUnsafePutElements ElementAccessIsDenseNative
     PropertyWriteNeedsTypeBarrier ElementAccessIsAnyTypedArray
     typedObjectPrediction
     jsop_setelem_dense jsop_setelem_typed jsop_setelem_typed_object).

Lemma inlineUnsafePutElements_check_valid (callInfo : CallInfo) (base : nat) :
  check callInfo base = true <-> valid callInfo base.
Proof.
  unfold inlineUnsafePutElements_check, validWrite. cbv zeta.
  destruct (ElementAccessIsDenseNative _ _);
    destruct (PropertyWriteNeedsTypeBarrier _ _);
    destruct (ElementAccessIsAnyTypedArray _ _);
    destruct (elementAccessIsTypedObjectArrayOfScalarType _ _ _);
    cbn; split; intros H; try reflexivity; try discriminate;
    try (left; split; reflexivity);
    try (right; left; discriminate);
    try (right; right; discriminate);
    destruct H as [[H1 H2] | [H | H]]; congruence.
Qed.

Lemma inlineUnsafePutElements_bases_In (callInfo : CallInfo) (base : nat) :
  In base (inlineUnsafePutElements_bases callInfo) <->
  exists k, (k < List.length (argv callInfo) / 3)%nat /\ base = (3 * k)%nat.
Proof.
  unfold inlineUnsafePutElements_bases. rewrite in_map_iff. split.
  - intros [k [E Hk]]. apply in_seq in Hk. exists k. split; [lia | now symmetry].
  - intros [k [Hk E]]. exists k. split; [now symmetry | apply in_seq; lia].
Qed.

Lemma extendsTrace_ret {A : Type} (a : A) : extendsTrace (ret a).
Proof. intros b. exists []. simpl. now rewrite app_nil_r. Qed.

Lemma extendsTrace_bind {A B : Type} (m : Build A) (k : A -> Build B) :
  extendsTrace m -> (forall a, extendsTrace (k a)) -> extendsTrace (bind m k).
Proof.
  intros Hm Hk b. unfold bind.
  destruct (Hm b) as [e1 H1]. destruct (m b) as [a b1]. cbn [snd] in H1.
  destruct (Hk a b1) as [e2 H2]. exists (e1 ++ e2).
  now rewrite H2, H1, app_assoc.
Qed.

Lemma inlineUnsafePutElements_stores_extends (callInfo : CallInfo)
    (bases : list nat) :
  extendsTrace (stores callInfo bases).
Proof.
  induction bases as [ | base rest IH].
  - apply extendsTrace_ret.
  - cbn [inlineUnsafePutElements_stores].
    assert (Hk : forall ok : bool,
               extendsTrace (if negb ok then ret (Some InliningStatus_Error)
                             else stores callInfo rest))
      by (intros [ | ]; [exact IH | apply extendsTrace_ret]).
    assert (Hb : forall ok : bool, extendsTrace (if negb ok then ret false else ret true))
      by (intros [ | ]; apply extendsTrace_ret).
    destruct (ElementAccessIsDenseNative _ _).
    + apply extendsTrace_bind;
        [ | intros [ok | ]; [apply Hk | apply extendsTrace_ret] ].
      unfold inlineUnsafeSetDenseArrayElement. cbv zeta.
      destruct (resultTypeSet _) as [objTypes | ]; [ | apply extendsTrace_ret ].
      apply extendsTrace_bind; [ | intros [ | ]; apply extendsTrace_ret ].
      intros b. apply jsop_setelem_dense_extends.
    + destruct (ElementAccessIsAnyTypedArray _ _) as [arrayType | ].
      * apply extendsTrace_bind; [ | exact Hk ].
        unfold inlineUnsafeSetTypedArrayElement.
        apply extendsTrace_bind; [ | exact Hb ].
        intros b. apply jsop_setelem_typed_extends.
      * destruct (elementAccessIsTypedObjectArrayOfScalarType _ _ _) as [arrayType | ].
        -- apply extendsTrace_bind; [ | exact Hk ].
           unfold inlineUnsafeSetTypedObjectArrayElement.
           apply extendsTrace_bind; [ | exact Hb ].
           intros b. apply jsop_setelem_typed_object_extends.
        -- apply extendsTrace_ret.
Qed.

(** The second loop never answers NotInlined. *)
Lemma inlineUnsafePutElements_stores_status (callInfo : CallInfo) (bases : list nat) :
  forall b, fst (stores callInfo bases b) <> Some InliningStatus_NotInlined.
Proof.
  induction bases as [ | base rest IH]; intros b.
  - discriminate.
  - cbn [inlineUnsafePutElements_stores].
    destruct (ElementAccessIsDenseNative _ _).
    + unfold bind at 1.
      destruct (inlineUnsafeSetDenseArrayElement _ _ _ _) as [[[ | ] | ] b1];
        cbn [negb]; [apply IH | discriminate | discriminate].
    + destruct (ElementAccessIsAnyTypedArray _ _) as [arrayType | ].
      * unfold bind at 1.
        destruct (inlineUnsafeSetTypedArrayElement _ _ _ _ _) as [[ | ] b1];
          cbn [negb]; [apply IH | discriminate].
      * destruct (elementAccessIsTypedObjectArrayOfScalarType _ _ _) as [arrayType | ].
        -- unfold bind at 1.
           destruct (inlineUnsafeSetTypedObjectArrayElement _ _ _ _ _) as [[ | ] b1];
             cbn [negb]; [apply IH | discriminate].
        -- discriminate.
Qed.

(** [inlineUnsafePutElements]: its two early answers, and the store loop run
    on the builder that holds the pushed result already. *)
Lemma inlineUnsafePutElements_eq (callInfo : CallInfo) (b : IonBuilder) :
  inline callInfo b =
  if (argc callInfo <? 3) || negb (argc callInfo mod 3 =? 0) || constructing callInfo
  then (Some InliningStatus_NotInlined, b)
  else if negb (forallb (check callInfo) (inlineUnsafePutElements_bases callInfo))
  then (Some InliningStatus_NotInlined, b)
  else stores callInfo (inlineUnsafePutElements_bases callInfo)
         (snd (push (MConstant UndefinedValue)
                 (added [MConstant UndefinedValue]
                    (snd (setImplicitlyUsedUnchecked callInfo b))))).
Proof.
  unfold inlineUnsafePutElements. cbv zeta.
  destruct ((argc callInfo <? 3) || negb (argc callInfo mod 3 =? 0) ||
            constructing callInfo); [reflexivity | ].
  destruct (forallb (check callInfo) (inlineUnsafePutElements_bases callInfo));
    reflexivity.
Qed.

(** C3.  UnsafePutElements.  (1) With no argument, or a number of arguments
    that is no multiple of 3, the answer is NotInlined and the builder is
    unchanged.  (2) So it is when some group of three arguments is no write
    to a dense array, a typed array or a typed-object array.  (3) Whenever
    the answer is NotInlined, the builder is unchanged.  (4) On the commit
    path every group has been validated, and the trace of the block is
    extended by: the constant undefined added, the same constant pushed, and
    only then the events of the stores.  (The commit path is every run that
    does not answer NotInlined, the one included that stops at a dense array
    without a type set.) *)
Theorem inlineUnsafePutElements_validates_then_pushes (callInfo : CallInfo)
    (b : IonBuilder) :
  let r := inline callInfo b in
  let udef := MConstant UndefinedValue in
  (argc callInfo = 0 \/ argc callInfo mod 3 <> 0 ->
     r = (Some InliningStatus_NotInlined, b)) /\
  ((exists k, (k < List.length (argv callInfo) / 3)%nat /\
              ~ valid callInfo (3 * k)%nat) ->
     r = (Some InliningStatus_NotInlined, b)) /\
  (fst r = Some InliningStatus_NotInlined -> snd r = b) /\
  (fst r <> Some InliningStatus_NotInlined ->
     argc callInfo <> 0 /\ argc callInfo mod 3 = 0 /\
     (forall k, (k < List.length (argv callInfo) / 3)%nat ->
                valid callInfo (3 * k)%nat) /\
     exists events,
       trace (current (snd r))
       = trace (current b) ++ Added udef :: Pushed udef :: events).
Proof.
  cbv zeta. rewrite inlineUnsafePutElements_eq.
  destruct ((argc callInfo <? 3) || negb (argc callInfo mod 3 =? 0) ||
            constructing callInfo) eqn:E1.
  { split; [ | split; [ | split ] ]; auto.
    intros Hn. now contradiction Hn. }
  apply orb_false_elim in E1 as [E1 Ec].
  apply orb_false_elim in E1 as [Elt Emod].
  apply Z.ltb_ge in Elt. apply negb_false_iff, Z.eqb_eq in Emod.
  destruct (forallb (check callInfo) (inlineUnsafePutElements_bases callInfo)) eqn:E2;
    cbn [negb].
  - rewrite forallb_forall in E2.
    assert (Hvalid : forall k, (k < List.length (argv callInfo) / 3)%nat ->
                               valid callInfo (3 * k)%nat).
    { intros k Hk. apply inlineUnsafePutElements_check_valid. apply E2.
      apply inlineUnsafePutElements_bases_In. now exists k. }
    split; [ | split; [ | split ] ].
    + intros [H | H]; [lia | congruence].
    + intros [k [Hk Hn]]. exfalso. apply Hn. now apply Hvalid.
    + intros H. exfalso.
      eapply inlineUnsafePutElements_stores_status. exact H.
    + intros _. repeat split; [lia | assumption | assumption | ].
      match goal with
      | |- context [stores callInfo ?bs ?b1] =>
          destruct (inlineUnsafePutElements_stores_extends callInfo bs b1) as [events H]
      end.
      exists events. rewrite H. cbn [current trace snd push withCurrent added map].
      rewrite <- !app_assoc. reflexivity.
  - split; [ | split; [ | split ] ]; auto.
    intros Hn. now contradiction Hn.
Qed.

End UnsafePutElementsProperties.

(** UnsafePutElements(arr, idx, elem) over a dense array: the constant
    undefined is added and pushed, then comes the store. *)
Lemma inlineUnsafePutElements_validates_then_pushes_witness :
  let arr := objectOfClass 1 ArrayObject_class in
  let idx := operand 2 MIRType_Int32 in
  let elem := operand 3 MIRType_Int32 in
  let r := exampleUnsafePutElements (callOf (operand 0 MIRType_Object) [arr; idx; elem])
             (builderAt (siteReturning MIRType_Undefined false)) in
  trace (current (snd r))
    = [Added (MConstant UndefinedValue); Pushed (MConstant UndefinedValue);
       Added (MStoreElement arr idx elem)] /\
  exists events,
    trace (current (snd r))
    = [] ++ Added (MConstant UndefinedValue) :: Pushed (MConstant UndefinedValue)
         :: events.
Proof.
  cbv zeta. split; [reflexivity | ].
  assert (Hdense : forall conversion obj id elem b, exists events,
             trace (current (snd (exampleStoreDense conversion obj id elem b)))
             = trace (current b) ++ events)
    by (intros conversion obj id elem b; eexists; reflexivity).
  assert (Htyped : forall arrayType obj id elem b, exists events,
             trace (current (snd (exampleStoreTyped arrayType obj id elem b)))
             = trace (current b) ++ events)
    by (intros arrayType obj id elem b; exists []; simpl; now rewrite app_nil_r).
  destruct (inlineUnsafePutElements_validates_then_pushes
              (fun _ _ => true) (fun _ _ => false) (fun _ _ => None)
              exampleUselessPrediction exampleStoreDense exampleStoreTyped
              exampleStoreTyped Hdense Htyped Htyped
              (callOf (operand 0 MIRType_Object)
                 [objectOfClass 1 ArrayObject_class; operand 2 MIRType_Int32;
                  operand 3 MIRType_Int32])
              (builderAt (siteReturning MIRType_Undefined false)))
    as [_ [_ [_ Hcommit]]].
  destruct Hcommit as [_ [_ [_ Hevents]]]; [discriminate | exact Hevents].
Defined.

(** ** Declining leaves the block alone *)

Lemma bind_status {A : Type} (m : Build A) (k : A -> Build InliningStatus)
    (s : InliningStatus) (b : IonBuilder) :
  (forall a b1, fst (k a b1) = s) -> fst (bind m k b) = s.
Proof.
  intros H. unfold bind. destruct (m b) as [a b1]. apply H.
Qed.

(** Closes the case of a test that makes the specialiser decline: the
    answer [r] is NotInlined with the builder as it was. *)
Ltac declined r := left; subst r; reflexivity.

(** A specialiser declines cleanly at a call when it either answers
    NotInlined with the builder as it was, or answers Inlined. *)
Lemma inlineMathPow_declines_cleanly (callInfo : CallInfo) (b : IonBuilder) :
  inlineMathPow callInfo b = (InliningStatus_NotInlined, b) \/
  fst (inlineMathPow callInfo b) = InliningStatus_Inlined.
Proof.
  remember (inlineMathPow callInfo b) as r eqn:Er. unfold inlineMathPow in Er.
  destruct (constructing callInfo); [declined r | ].
  destruct (negb (argc callInfo =? 2)); [declined r | ].
  unfold bind at 1 in Er. unfold ask at 1 in Er.
  destruct (negb (MIRType_beq (getInlineReturnType b) MIRType_Int32) &&
            negb (MIRType_beq (getInlineReturnType b) MIRType_Double)); [declined r | ].
  destruct (negb (IsNumberType (type (getArg callInfo 0)))); [declined r | ].
  destruct (negb (IsNumberType (type (getArg callInfo 1)))); [declined r | ].
  right. subst r. repeat (apply bind_status; intros). reflexivity.
Qed.

(** [inlineMathMinMax] declines, or fails because the vector of the int32
    arguments could not grow, with the builder as it was; or it answers
    Inlined. *)
Lemma inlineMathMinMax_declines_cleanly (callInfo : CallInfo) (max : bool)
    (b : IonBuilder) :
  inlineMathMinMax callInfo max b = (InliningStatus_NotInlined, b) \/
  (inlineMathMinMax callInfo max b = (InliningStatus_Error, b) /\
   exists n, appendAvailable (pc b) n = false) \/
  fst (inlineMathMinMax callInfo max b) = InliningStatus_Inlined.
Proof.
  remember (inlineMathMinMax callInfo max b) as r eqn:Er. unfold inlineMathMinMax in Er.
  destruct ((argc callInfo <? 1) || constructing callInfo); [declined r | ].
  unfold bind at 1 in Er. unfold ask at 1 in Er.
  destruct (negb (IsNumberType (getInlineReturnType b))); [declined r | ].
  unfold bind at 1 in Er. unfold ask at 1 in Er.
  destruct (inlineMathMinMax_partition (appendAvailable (pc b)) max (argv callInfo) []
              (getInlineReturnType b))
    as [status | [ic rt]] eqn:E.
  { apply inlineMathMinMax_partition_returns in E as [-> | [-> Happend]];
      [declined r | right; left; subst r; split; [reflexivity | exact Happend]]. }
  right. right. subst r. apply bind_status. intros _ b1.
  match goal with |- context [if Nat.eqb ?n 1 then _ else _] => destruct (Nat.eqb n 1) end;
    repeat (apply bind_status; intros); reflexivity.
Qed.

Lemma inlineConstantCharCodeAt_declines_cleanly (callInfo : CallInfo) (b : IonBuilder) :
  inlineConstantCharCodeAt callInfo b = (InliningStatus_NotInlined, b) \/
  fst (inlineConstantCharCodeAt callInfo b) = InliningStatus_Inlined.
Proof.
  remember (inlineConstantCharCodeAt callInfo b) as r eqn:Er.
  unfold inlineConstantCharCodeAt in Er.
  destruct (negb (isConstant (thisArg callInfo))); [declined r | ].
  destruct (negb (isConstant (getArg callInfo 0))); [declined r | ].
  destruct (constantValue (thisArg callInfo)) as [ | | | | | str | ]; try (declined r).
  destruct (constantValue (getArg callInfo 0)) as [ | | | i | | | ]; try (declined r).
  destruct (negb (isLinear str)); [declined r | ].
  cbv zeta in Er.
  destruct ((int32 i <? 0) || (length_ str <=? to_uint32 (int32 i))); [declined r | ].
  right. subst r. reflexivity.
Qed.

Lemma inlineStrCharCodeAt_declines_cleanly (callInfo : CallInfo) (b : IonBuilder) :
  inlineStrCharCodeAt callInfo b = (InliningStatus_NotInlined, b) \/
  fst (inlineStrCharCodeAt callInfo b) = InliningStatus_Inlined.
Proof.
  remember (inlineStrCharCodeAt callInfo b) as r eqn:Er.
  unfold inlineStrCharCodeAt in Er.
  destruct (negb (argc callInfo =? 1) || constructing callInfo); [declined r | ].
  unfold bind at 1 in Er. unfold ask at 1 in Er.
  destruct (negb (MIRType_beq (getInlineReturnType b) MIRType_Int32)); [declined r | ].
  destruct (negb (MIRType_beq (type (thisArg callInfo)) MIRType_String) &&
            negb (MIRType_beq (type (thisArg callInfo)) MIRType_Value)); [declined r | ].
  destruct (negb (MIRType_beq (type (getArg callInfo 0)) MIRType_Int32) &&
            negb (MIRType_beq (type (getArg callInfo 0)) MIRType_Double)); [declined r | ].
  right. subst r. unfold bind at 1.
  destruct (inlineConstantCharCodeAt_declines_cleanly callInfo b) as [-> | H].
  - cbn [InliningStatus_beq negb]. repeat (apply bind_status; intros). reflexivity.
  - destruct (inlineConstantCharCodeAt callInfo b) as [st b1]. cbn [fst] in H.
    subst st. reflexivity.
Qed.

Lemma inlineHasClass_declines_cleanly (callInfo : CallInfo)
    (clasp1 clasp2 clasp3 clasp4 : option Class) (b : IonBuilder) :
  inlineHasClass callInfo clasp1 clasp2 clasp3 clasp4 b = (InliningStatus_NotInlined, b) \/
  fst (inlineHasClass callInfo clasp1 clasp2 clasp3 clasp4 b) = InliningStatus_Inlined.
Proof.
  remember (inlineHasClass callInfo clasp1 clasp2 clasp3 clasp4 b) as r eqn:Er.
  unfold inlineHasClass in Er.
  destruct (constructing callInfo || negb (argc callInfo =? 1)); [declined r | ].
  destruct (negb (MIRType_beq (type (getArg callInfo 0)) MIRType_Object)); [declined r | ].
  unfold bind at 1 in Er. unfold ask at 1 in Er.
  destruct (negb (MIRType_beq (getInlineReturnType b) MIRType_Boolean)); [declined r | ].
  right. subst r. repeat (apply bind_status; intros). reflexivity.
Qed.

(** Decides the tests of an Atomics specialiser, whose answer is [r], up to
    its commit. *)
Ltac atomics_declines_cleanly r Er :=
  match type of Er with
  | context [negb (argc ?c =? ?n) || constructing ?c] =>
      destruct (negb (argc c =? n) || constructing c); [declined r | ]
  end;
  unfold bind at 1 in Er; unfold ask at 1 in Er;
  match type of Er with
  | context [atomicsMeetsPreconditions ?c ?b] =>
      destruct (atomicsMeetsPreconditions c b); [ | declined r ]
  end;
  repeat match type of Er with
         | context [negb (isInt32OrDouble ?v)] =>
             destruct (negb (isInt32OrDouble v)); [declined r | ]
         end;
  right; subst r; apply bind_status; intros; apply bind_status; intros [elements index] ?;
  repeat (apply bind_status; intros); reflexivity.

Lemma inlineAtomics_decline_cleanly (callInfo : CallInfo) (native : AtomicsBinopNative)
    (b : IonBuilder) :
  (inlineAtomicsLoad callInfo b = (InliningStatus_NotInlined, b) \/
   fst (inlineAtomicsLoad callInfo b) = InliningStatus_Inlined) /\
  (inlineAtomicsStore callInfo b = (InliningStatus_NotInlined, b) \/
   fst (inlineAtomicsStore callInfo b) = InliningStatus_Inlined) /\
  (inlineAtomicsCompareExchange callInfo b = (InliningStatus_NotInlined, b) \/
   fst (inlineAtomicsCompareExchange callInfo b) = InliningStatus_Inlined) /\
  (inlineAtomicsBinop callInfo native b = (InliningStatus_NotInlined, b) \/
   fst (inlineAtomicsBinop callInfo native b) = InliningStatus_Inlined).
Proof.
  split; [ | split; [ | split ] ].
  - remember (inlineAtomicsLoad callInfo b) as r eqn:Er.
    unfold inlineAtomicsLoad in Er. atomics_declines_cleanly r Er.
  - remember (inlineAtomicsStore callInfo b) as r eqn:Er.
    unfold inlineAtomicsStore in Er. atomics_declines_cleanly r Er.
  - remember (inlineAtomicsCompareExchange callInfo b) as r eqn:Er.
    unfold inlineAtomicsCompareExchange in Er. atomics_declines_cleanly r Er.
  - remember (inlineAtomicsBinop callInfo native b) as r eqn:Er.
    unfold inlineAtomicsBinop in Er. atomics_declines_cleanly r Er.
Qed.

Lemma app_cons_neq {A : Type} (l l' : list A) (x : A) : l ++ x :: l' <> l.
Proof.
  intros H. apply (f_equal (@List.length A)) in H.
  rewrite length_app in H. simpl in H. lia.
Qed.

Lemma declinesBeforeEmitting_clean (inline : Build InliningStatus) (b : IonBuilder) :
  inline b = (InliningStatus_NotInlined, b) \/ fst (inline b) = InliningStatus_Inlined ->
  declinesBeforeEmitting inline b.
Proof.
  unfold declinesBeforeEmitting. intros [-> | ->]; split; intros H;
    try reflexivity; discriminate.
Qed.

Lemma inlineArraySplice_declinesBeforeEmitting (callInfo : CallInfo) (b : IonBuilder) :
  declinesBeforeEmitting (inlineArraySplice callInfo) b.
Proof.
  unfold declinesBeforeEmitting.
  remember (inlineArraySplice callInfo b) as r eqn:Er. unfold inlineArraySplice in Er.
  destruct (negb (argc callInfo =? 2) || constructing callInfo);
    [subst r; split; [reflexivity | discriminate] | ].
  unfold bind at 1 in Er. unfold ask at 1 in Er.
  destruct (negb (MIRType_beq (getInlineReturnType b) MIRType_Object));
    [subst r; split; [reflexivity | discriminate] | ].
  destruct (negb (MIRType_beq (type (thisArg callInfo)) MIRType_Object));
    [subst r; split; [reflexivity | discriminate] | ].
  destruct (negb (MIRType_beq (type (getArg callInfo 0)) MIRType_Int32));
    [subst r; split; [reflexivity | discriminate] | ].
  destruct (negb (MIRType_beq (type (getArg callInfo 1)) MIRType_Int32));
    [subst r; split; [reflexivity | discriminate] | ].
  unfold_build. cbn in Er.
  destruct (BytecodeIsPopped (pc b)); cbn in Er;
    [ | subst r; split; [reflexivity | discriminate] ].
  destruct (resumePointAvailable (pc b)); subst r; cbn; split; try discriminate.
  intros _. rewrite <- app_assoc. apply app_cons_neq.
Qed.

Lemma inlineArrayConcat_declinesBeforeEmitting (callInfo : CallInfo) (b : IonBuilder) :
  declinesBeforeEmitting (inlineArrayConcat callInfo) b.
Proof.
  unfold declinesBeforeEmitting.
  remember (inlineArrayConcat callInfo b) as r eqn:Er. unfold inlineArrayConcat in Er.
  unfold_build.
  repeat match type of Er with
         | context [match ?c with _ => _ end] =>
             lazymatch c with
             | context [match _ with _ => _ end] => fail
             | resumePointAvailable _ => fail
             | _ => destruct c; try (subst r; split; [reflexivity | discriminate])
             end
         end.
  cbn in Er.
  destruct (resumePointAvailable (pc b)); subst r; cbn; split; try discriminate.
  intros _. apply app_cons_neq.
Qed.

(** X1.  The specialisers of splice, concat, Math.pow, charCodeAt, the class
    predicates and the Atomics natives answer NotInlined only with the
    current block as it was, and Error only after an instruction was added.
    Math.min/max declines with the builder as it was too, but its one
    failure comes before anything is emitted: it answers Error only when the
    vector of its int32 arguments could not grow, with the builder as it
    was. *)
Theorem specialisers_decline_before_emitting (callInfo : CallInfo) (max : bool)
    (clasp1 clasp2 clasp3 clasp4 : option Class) (native : AtomicsBinopNative)
    (b : IonBuilder) :
  declinesBeforeEmitting (inlineArraySplice callInfo) b /\
  declinesBeforeEmitting (inlineArrayConcat callInfo) b /\
  declinesBeforeEmitting (inlineMathPow callInfo) b /\
  declinesBeforeEmitting (inlineStrCharCodeAt callInfo) b /\
  declinesBeforeEmitting (inlineHasClass callInfo clasp1 clasp2 clasp3 clasp4) b /\
  declinesBeforeEmitting (inlineAtomicsLoad callInfo) b /\
  declinesBeforeEmitting (inlineAtomicsStore callInfo) b /\
  declinesBeforeEmitting (inlineAtomicsCompareExchange callInfo) b /\
  declinesBeforeEmitting (inlineAtomicsBinop callInfo native) b /\
  (fst (inlineMathMinMax callInfo max b) = InliningStatus_NotInlined ->
     snd (inlineMathMinMax callInfo max b) = b) /\
  (fst (inlineMathMinMax callInfo max b) = InliningStatus_Error ->
     snd (inlineMathMinMax callInfo max b) = b /\
     exists n, appendAvailable (pc b) n = false).
Proof.
  destruct (inlineAtomics_decline_cleanly callInfo native b) as [Hl [Hs [Hc Hb]]].
  repeat match goal with |- _ /\ _ => split end.
  - apply inlineArraySplice_declinesBeforeEmitting.
  - apply inlineArrayConcat_declinesBeforeEmitting.
  - apply declinesBeforeEmitting_clean, inlineMathPow_declines_cleanly.
  - apply declinesBeforeEmitting_clean, inlineStrCharCodeAt_declines_cleanly.
  - apply declinesBeforeEmitting_clean, inlineHasClass_declines_cleanly.
  - now apply declinesBeforeEmitting_clean.
  - now apply declinesBeforeEmitting_clean.
  - now apply declinesBeforeEmitting_clean.
  - now apply declinesBeforeEmitting_clean.
  - destruct (inlineMathMinMax_declines_cleanly callInfo max b) as [E | [[E _] | E]];
      rewrite E; [reflexivity | discriminate | discriminate].
  - destruct (inlineMathMinMax_declines_cleanly callInfo max b)
      as [E | [[E Happend] | E]]; rewrite E; try discriminate.
    intros _. split; [reflexivity | exact Happend].
Qed.

(** ** More of Math.pow *)

Lemma inlineMathPow_constant_4 (base : MDefinition) (outputType : MIRType)
    (b : IonBuilder) :
  inlineMathPow_constant base outputType 4%float b
  = (Some (MMul (MMul base base outputType) (MMul base base outputType) outputType),
     added [MMul base base outputType;
            MMul (MMul base base outputType) (MMul base base outputType) outputType] b).
Proof. run_constant_power. Qed.

Lemma inlineMathPow_constant_1 (base : MDefinition) (outputType : MIRType)
    (b : IonBuilder) :
  inlineMathPow_constant base outputType 1%float b = (Some base, added [] b).
Proof. run_constant_power. Qed.

Lemma inlineMathPow_constant_minus_half (base : MDefinition) (outputType : MIRType)
    (b : IonBuilder) :
  inlineMathPow_constant base outputType (-0.5)%float b
  = (Some (MDiv (MConstant (DoubleValue 1%float)) (MPowHalf base) MIRType_Double),
     added [MPowHalf base; MConstant (DoubleValue 1%float);
            MDiv (MConstant (DoubleValue 1%float)) (MPowHalf base) MIRType_Double] b).
Proof. run_constant_power. Qed.

(** A specialised Math.pow call with a constant exponent 4, 1 or -0.5: the
    square of the square; no instruction but the cast of the base; the
    reciprocal of PowHalf. *)
Theorem inlineMathPow_other_constant_exponents (callInfo : CallInfo) (b : IonBuilder) :
  fst (inlineMathPow callInfo b) = InliningStatus_Inlined ->
  isConstant (getArg callInfo 1) = true ->
  isNumber (constantValue (getArg callInfo 1)) = true ->
  let base := getArg callInfo 0 in
  let pow := toNumber (constantValue (getArg callInfo 1)) in
  let outputType := getInlineReturnType b in
  let before := instructions (current b) in
  let after := instructions (current (snd (inlineMathPow callInfo b))) in
  (pow = 4%float ->
     let y := MMul base base outputType in
     after = before ++ [y; MMul y y outputType]) /\
  (pow = 1%float -> after = before ++ castToOutputType outputType base) /\
  (pow = (-0.5)%float ->
     let half := MPowHalf base in
     let one := MConstant (DoubleValue 1%float) in
     let div := MDiv one half MIRType_Double in
     after = before ++ [half; one; div] ++ castToOutputType outputType div).
Proof.
  intros HI Hk Hn. cbv zeta. split; [ | split ]; intros Hpow.
  - set (y := MMul (getArg callInfo 0) (getArg callInfo 0) (getInlineReturnType b)).
    destruct (inlineMathPow_commit callInfo b
                (Some (MMul y y (getInlineReturnType b)))
                [y; MMul y y (getInlineReturnType b)] HI) as [Hi _].
    { intros b1. rewrite Hk, Hn, Hpow. cbn [andb]. apply inlineMathPow_constant_4. }
    cbv zeta in Hi. rewrite castToOutputType_same in Hi by reflexivity. exact Hi.
  - destruct (inlineMathPow_commit callInfo b (Some (getArg callInfo 0)) [] HI)
      as [Hi _].
    { intros b1. rewrite Hk, Hn, Hpow. cbn [andb]. apply inlineMathPow_constant_1. }
    exact Hi.
  - set (half := MPowHalf (getArg callInfo 0)).
    set (one := MConstant (DoubleValue 1%float)).
    destruct (inlineMathPow_commit callInfo b
                (Some (MDiv one half MIRType_Double))
                [half; one; MDiv one half MIRType_Double] HI) as [Hi _].
    { intros b1. rewrite Hk, Hn, Hpow. cbn [andb].
      apply inlineMathPow_constant_minus_half. }
    exact Hi.
Qed.

Lemma inlineMathPow_other_constant_exponents_witness :
  let x := operand 1 MIRType_Double in
  let y := MMul x x MIRType_Double in
  instructions (current (snd (inlineMathPow
      (callOf (operand 0 MIRType_Object) [x; MConstant (DoubleValue 4%float)])
      (builderAt (siteReturning MIRType_Double false)))))
  = [y; MMul y y MIRType_Double].
Proof.
  cbv zeta.
  apply (proj1 (inlineMathPow_other_constant_exponents
                  (callOf (operand 0 MIRType_Object)
                     [operand 1 MIRType_Double; MConstant (DoubleValue 4%float)])
                  (builderAt (siteReturning MIRType_Double false))
                  eq_refl eq_refl eq_refl)).
  reflexivity.
Defined.

(** ** Class predicates over an object of unknown class *)

(** A class predicate over one object argument whose class is not known, at
    a call site that is not constructing and expects a boolean.  With one
    candidate class the class check itself is the result.  With more, one
    check per candidate slot is or-ed into the previous result, and the
    result is negated twice. *)
Theorem inlineHasClass_unknown_class (callInfo : CallInfo)
    (clasp1 clasp2 clasp3 clasp4 : option Class) (b : IonBuilder) (arg : MDefinition) :
  constructing callInfo = false ->
  argv callInfo = [arg] ->
  type arg = MIRType_Object ->
  getInlineReturnType b = MIRType_Boolean ->
  match resultTypeSet arg with
  | Some ts => types.getKnownClass ts
  | None => None
  end = None ->
  let r := inlineHasClass callInfo clasp1 clasp2 clasp3 clasp4 b in
  let check := MHasClass arg in
  let or2 := MBitOr (check clasp1) (check clasp2) in
  let or3 := MBitOr or2 (check clasp3) in
  let or4 := MBitOr or3 (check clasp4) in
  fst r = InliningStatus_Inlined /\
  (clasp2 = None /\ clasp3 = None /\ clasp4 = None ->
     instructions (current (snd r)) = instructions (current b) ++ [check clasp1] /\
     stack (current (snd r)) = check clasp1 :: stack (current b)) /\
  (~ (clasp2 = None /\ clasp3 = None /\ clasp4 = None) ->
     instructions (current (snd r))
       = instructions (current b) ++
         [check clasp1; check clasp2; or2; check clasp3; or3; check clasp4; or4;
          MNot or4; MNot (MNot or4)] /\
     stack (current (snd r)) = MNot (MNot or4) :: stack (current b)).
Proof.
  intros Hc Hargs Hty Hrt Hk. cbv zeta.
  remember (inlineHasClass callInfo clasp1 clasp2 clasp3 clasp4 b) as r eqn:Er.
  unfold inlineHasClass, getArg, argc in Er. rewrite Hc, Hargs in Er.
  cbn [List.length Z.of_nat Pos.of_succ_nat Z.eqb Pos.eqb negb orb nth] in Er.
  rewrite Hty in Er. cbn [MIRType_beq negb] in Er.
  unfold bind at 1 in Er. unfold ask at 1 in Er. rewrite Hrt in Er.
  cbn [MIRType_beq negb] in Er. rewrite Hk in Er. cbn [isNull negb] in Er.
  destruct clasp2 as [c2 | ], clasp3 as [c3 | ], clasp4 as [c4 | ];
    subst r; unfold_build; cbn; rewrite <- ?app_assoc; cbn [app];
    (split; [reflexivity | ]);
    (split; [ intros [H2 [H3 H4]]; try discriminate; split; reflexivity
            | intros Hn; try (split; reflexivity);
              exfalso; apply Hn; repeat split ]).
Qed.

(** TypeDescrIsSizedArrayType has one candidate class: over an object of
    unknown class it is the class check itself. *)
Lemma inlineHasClass_unknown_class_witness :
  let arg := operand 1 MIRType_Object in
  let r := inlineHasClass (callOf (operand 0 MIRType_Object) [arg])
             (Some SizedArrayTypeDescr_class) None None None
             (builderAt (siteReturning MIRType_Boolean false)) in
  instructions (current (snd r)) = [MHasClass arg (Some SizedArrayTypeDescr_class)] /\
  stack (current (snd r)) = [MHasClass arg (Some SizedArrayTypeDescr_class)].
Proof.
  cbv zeta.
  apply (proj1 (proj2 (inlineHasClass_unknown_class
                         (callOf (operand 0 MIRType_Object) [operand 1 MIRType_Object])
                         (Some SizedArrayTypeDescr_class) None None None
                         (builderAt (siteReturning MIRType_Boolean false))
                         (operand 1 MIRType_Object)
                         eq_refl eq_refl eq_refl eq_refl eq_refl))).
  repeat split.
Defined.

(** ** Math.min and Math.max over two or three int32 operands *)

(** Over two or three int32 operands, at a call site that expects an int32,
    the nodes added are the left-associative chain over the operands in
    argument order, and the last node of the chain is pushed.  (Every
    operand has to enter the vector of the int32 arguments: a failed append
    answers Error.) *)
Theorem inlineMathMinMax_int32_chain_up_to_three (callInfo : CallInfo) (max : bool)
    (b : IonBuilder) :
  constructing callInfo = false ->
  getInlineReturnType b = MIRType_Int32 ->
  Forall (fun arg => type arg = MIRType_Int32) (argv callInfo) ->
  (List.length (argv callInfo) = 2 \/ List.length (argv callInfo) = 3)%nat ->
  (forall n, (n < List.length (argv callInfo))%nat ->
             appendAvailable (pc b) n = true) ->
  let r := inlineMathMinMax callInfo max b in
  let chain := minMaxChain_spec (argv callInfo) MIRType_Int32 max in
  fst r = InliningStatus_Inlined /\
  instructions (current (snd r)) = instructions (current b) ++ chain /\
  List.length chain = (List.length (argv callInfo) - 1)%nat /\
  stack (current (snd r))
    = List.last chain (MConstant UndefinedValue) :: stack (current b).
Proof.
  intros Hc Hrt Hall Hlen Happend. cbv zeta.
  assert (H1 : (argc callInfo <? 1) || constructing callInfo = false).
  { rewrite Hc, orb_false_r. apply Z.ltb_ge. unfold argc. lia. }
  assert (H2 : IsNumberType (getInlineReturnType b) = true) by now rewrite Hrt.
  destruct (argv callInfo) as [ | a [ | a1 [ | a2 [ | a3 rest]]]] eqn:Eargs;
    simpl in Hlen; try lia.
  - inversion Hall as [ | ? ? Ha Hall1]; subst.
    inversion Hall1 as [ | ? ? Ha1 _]; subst.
    assert (H3 : inlineMathMinMax_partition (appendAvailable (pc b)) max
                   (argv callInfo) [] (getInlineReturnType b)
                 = inr ([a; a1], MIRType_Int32)).
    { rewrite Eargs, Hrt. simpl. rewrite Ha, Ha1.
      rewrite !Happend by (simpl; lia). reflexivity. }
    destruct (inlineMathMinMax_commit callInfo max b _ _ H1 H2 H3) as [Hs [Hi Hst]].
    cbv zeta in Hi, Hst. simpl in Hi, Hst. auto.
  - inversion Hall as [ | ? ? Ha Hall1]; subst.
    inversion Hall1 as [ | ? ? Ha1 Hall2]; subst.
    inversion Hall2 as [ | ? ? Ha2 _]; subst.
    assert (H3 : inlineMathMinMax_partition (appendAvailable (pc b)) max
                   (argv callInfo) [] (getInlineReturnType b)
                 = inr ([a; a1; a2], MIRType_Int32)).
    { rewrite Eargs, Hrt. simpl. rewrite Ha, Ha1, Ha2.
      rewrite !Happend by (simpl; lia). reflexivity. }
    destruct (inlineMathMinMax_commit callInfo max b _ _ H1 H2 H3) as [Hs [Hi Hst]].
    cbv zeta in Hi, Hst. simpl in Hi, Hst. auto.
Qed.

Lemma inlineMathMinMax_int32_chain_up_to_three_witness :
  let a := operand 1 MIRType_Int32 in
  let b := operand 2 MIRType_Int32 in
  let c := operand 3 MIRType_Int32 in
  let r := inlineMathMinMax (callOf (operand 0 MIRType_Object) [a; b; c]) false
             (builderAt (siteReturning MIRType_Int32 false)) in
  instructions (current (snd r))
  = [MMinMax a b MIRType_Int32 false;
     MMinMax (MMinMax a b MIRType_Int32 false) c MIRType_Int32 false].
Proof.
  cbv zeta.
  apply (inlineMathMinMax_int32_chain_up_to_three
           (callOf (operand 0 MIRType_Object)
              [operand 1 MIRType_Int32; operand 2 MIRType_Int32; operand 3 MIRType_Int32])
           false (builderAt (siteReturning MIRType_Int32 false))).
  - reflexivity.
  - reflexivity.
  - repeat constructor.
  - right. reflexivity.
  - reflexivity.
Defined.

(** ** Further examples *)

(** For max a constant at or below INT32_MIN is dropped; a NaN constant is
    kept and forces the double domain. *)
Example inlineMathMinMax_max_drops_low_constant :
  let a := operand 1 MIRType_Int32 in
  let site := builderAt (siteReturning MIRType_Int32 false) in
  instructions (current (snd (inlineMathMinMax
      (callOf (operand 0 MIRType_Object) [a; MConstant (DoubleValue (-1e10)%float)])
      true site)))
    = [MLimitedTruncate a NoTruncate] /\
  instructions (current (snd (inlineMathMinMax
      (callOf (operand 0 MIRType_Object) [a; MConstant (DoubleValue PrimFloat.nan)])
      true site)))
    = [MMinMax a (MConstant (DoubleValue PrimFloat.nan)) MIRType_Double true].
Proof. cbv zeta. split; reflexivity. Qed.

(** Math.pow(x, 0.5) where an int32 is expected: PowHalf, then the cast. *)
Example inlineMathPow_half_to_int32 :
  let x := operand 1 MIRType_Double in
  instructions (current (snd (inlineMathPow
      (callOf (operand 0 MIRType_Object) [x; MConstant (DoubleValue 0.5%float)])
      (builderAt (siteReturning MIRType_Int32 false)))))
  = [MPowHalf x; MToInt32 (MPowHalf x)].
Proof. reflexivity. Qed.

(** Math.pow(x, 3) with the exponent an int32 constant. *)
Example inlineMathPow_int32_exponent_3 :
  let x := operand 1 MIRType_Int32 in
  instructions (current (snd (inlineMathPow
      (callOf (operand 0 MIRType_Object) [x; MConstant (Int32Value 3)])
      (builderAt (siteReturning MIRType_Int32 false)))))
  = [MMul x x MIRType_Int32; MMul x (MMul x x MIRType_Int32) MIRType_Int32].
Proof. reflexivity. Qed.

(** A call with two arguments is no UnsafePutElements the specialiser takes. *)
Example inlineUnsafePutElements_two_arguments :
  let b := builderAt (siteReturning MIRType_Undefined false) in
  exampleUnsafePutElements
    (callOf (operand 0 MIRType_Object) [operand 1 MIRType_Object; operand 2 MIRType_Int32])
    b
  = (Some InliningStatus_NotInlined, b).
Proof. reflexivity. Qed.

(** A dense array that has no type set: the constant undefined is added and
    pushed, and the compilation stops at the store, without a status. *)
Example inlineUnsafePutElements_stops_without_a_type_set :
  let r := exampleUnsafePutElements
             (callOf (operand 0 MIRType_Object)
                [operand 1 MIRType_Object; operand 2 MIRType_Int32;
                 operand 3 MIRType_Int32])
             (builderAt (siteReturning MIRType_Undefined false)) in
  fst r = None /\
  trace (current (snd r))
  = [Added (MConstant UndefinedValue); Pushed (MConstant UndefinedValue)].
Proof. split; reflexivity. Qed.

(** * Properties of the other natives *)

(** Unfolds the operations of the builder of [Natives]. *)
Ltac unfold_natives :=
  unfold Natives.bind, Natives.ret, Natives.ask, Natives.pushConstant,
    Natives.constant, Natives.addBoundsCheck, Natives.add, Natives.push,
    Natives.withCurrent, Natives.setImplicitlyUsedUnchecked,
    Natives.flagImplicitlyUsed, Natives.resumeAfter, Natives.freeze,
    Natives.addType, Natives.setShouldConvertDoubleElements in *.

(** Decides, one after the other, the tests a computation makes. *)
Ltac decide_tests :=
  repeat match goal with
         | |- context [match ?c with _ => _ end] =>
             lazymatch c with
             | context [match _ with _ => _ end] => fail
             | _ => destruct c eqn:?; cbn [fst snd]
             end
         end.

(** ** Declining leaves the block alone, for every native *)

(** Proves that a specialiser whose definition is unfolded keeps the block
    when it declines. *)
Ltac keeps_block :=
  intros b; unfold_natives; decide_tests;
  cbn; intros H; try discriminate H; try reflexivity.

(** Once every continuation answers Inlined or Error, so does the whole. *)
Lemma natives_bind_committed {A : Type} (m : Natives.Build A)
    (k : A -> Natives.Build InliningStatus) (b : Natives.IonBuilder) :
  (forall a b1, fst (k a b1) <> InliningStatus_NotInlined) ->
  fst (Natives.bind m k b) <> InliningStatus_NotInlined.
Proof.
  intros H. unfold Natives.bind. destruct (m b) as [a b1]. apply H.
Qed.

Section KeepsBlock.

Variable jit : Natives.Collaborators.
Variable callInfo : CallInfo.

Lemma inlineMathFunction_keepsBlockOnDecline (function : Natives.MMathFunction.Function) :
  keepsBlockOnDecline (Natives.inlineMathFunction jit callInfo function).
Proof. unfold Natives.inlineMathFunction. keeps_block. Qed.

Lemma inlineMathAbs_keepsBlockOnDecline :
  keepsBlockOnDecline (Natives.inlineMathAbs callInfo).
Proof. unfold Natives.inlineMathAbs. keeps_block. Qed.

Lemma inlineMathFloor_keepsBlockOnDecline :
  keepsBlockOnDecline (Natives.inlineMathFloor callInfo).
Proof. unfold Natives.inlineMathFloor. keeps_block. Qed.

Lemma inlineMathCeil_keepsBlockOnDecline :
  keepsBlockOnDecline (Natives.inlineMathCeil callInfo).
Proof. unfold Natives.inlineMathCeil. keeps_block. Qed.

Lemma inlineMathRound_keepsBlockOnDecline :
  keepsBlockOnDecline (Natives.inlineMathRound callInfo).
Proof. unfold Natives.inlineMathRound. keeps_block. Qed.

Lemma inlineMathClz32_keepsBlockOnDecline :
  keepsBlockOnDecline (Natives.inlineMathClz32 callInfo).
Proof. unfold Natives.inlineMathClz32. keeps_block. Qed.

Lemma inlineMathSqrt_keepsBlockOnDecline :
  keepsBlockOnDecline (Natives.inlineMathSqrt callInfo).
Proof. unfold Natives.inlineMathSqrt. keeps_block. Qed.

Lemma inlineMathAtan2_keepsBlockOnDecline :
  keepsBlockOnDecline (Natives.inlineMathAtan2 callInfo).
Proof. unfold Natives.inlineMathAtan2. keeps_block. Qed.

Lemma inlineMathHypot_keepsBlockOnDecline :
  keepsBlockOnDecline (Natives.inlineMathHypot callInfo).
Proof. unfold Natives.inlineMathHypot. keeps_block. Qed.

Lemma inlineMathRandom_keepsBlockOnDecline :
  keepsBlockOnDecline (Natives.inlineMathRandom callInfo).
Proof. unfold Natives.inlineMathRandom. keeps_block. Qed.

Lemma inlineMathImul_keepsBlockOnDecline :
  keepsBlockOnDecline (Natives.inlineMathImul callInfo).
Proof. unfold Natives.inlineMathImul. keeps_block. Qed.

Lemma inlineMathFRound_keepsBlockOnDecline :
  keepsBlockOnDecline (Natives.inlineMathFRound jit callInfo).
Proof. unfold Natives.inlineMathFRound. keeps_block. Qed.

Lemma inlineArray_initLength_current (templateObject : NativeObject)
    (b : Natives.IonBuilder) :
  Natives.current (snd (Natives.inlineArray_initLength jit callInfo templateObject b))
  = Natives.current b.
Proof.
  unfold Natives.inlineArray_initLength. unfold_natives. decide_tests; reflexivity.
Qed.

Lemma inlineArray_keepsBlockOnDecline :
  keepsBlockOnDecline (Natives.inlineArray jit callInfo).
Proof.
  intros b.
  enough (Natives.current (snd (Natives.inlineArray jit callInfo b)) = Natives.current b \/
          fst (Natives.inlineArray jit callInfo b) <> InliningStatus_NotInlined)
    as [H | H]; [intros _; exact H | intros H'; contradiction | ].
  remember (Natives.inlineArray jit callInfo b) as r eqn:Er.
  unfold Natives.inlineArray in Er.
  unfold Natives.bind at 1, Natives.ask at 1 in Er.
  destruct (getTemplateObjectForNative (Natives.pc b)) as [templateObject | ];
    [ | subst r; left; reflexivity].
  unfold Natives.bind at 1 in Er.
  pose proof (inlineArray_initLength_current templateObject b) as Hc.
  destruct (Natives.inlineArray_initLength jit callInfo templateObject b)
    as [[[initLength allocating] | ] b1]; [ | subst r; left; exact Hc].
  right. subst r.
  do 6 (apply natives_bind_committed; intros ? ?).
  destruct (2 <=? argc callInfo); [ | discriminate].
  do 4 (apply natives_bind_committed; intros ? ?).
  match goal with |- context [if negb ?c then _ else _] => destruct c end; discriminate.
Qed.

Lemma inlineArrayPopShift_keepsBlockOnDecline (mode : Natives.MArrayPopShift.Mode) :
  keepsBlockOnDecline (Natives.inlineArrayPopShift jit callInfo mode).
Proof. unfold Natives.inlineArrayPopShift. keeps_block. Qed.

Lemma inlineArrayPush_keepsBlockOnDecline :
  keepsBlockOnDecline (Natives.inlineArrayPush jit callInfo).
Proof. unfold Natives.inlineArrayPush. keeps_block. Qed.

Lemma inlineStringObject_keepsBlockOnDecline :
  keepsBlockOnDecline (Natives.inlineStringObject jit callInfo).
Proof. unfold Natives.inlineStringObject. keeps_block. Qed.

Lemma inlineStringSplit_keepsBlockOnDecline :
  keepsBlockOnDecline (Natives.inlineStringSplit jit callInfo).
Proof. unfold Natives.inlineStringSplit. keeps_block. Qed.

Lemma inlineStrFromCharCode_keepsBlockOnDecline :
  keepsBlockOnDecline (Natives.inlineStrFromCharCode callInfo).
Proof. unfold Natives.inlineStrFromCharCode. keeps_block. Qed.

Lemma inlineStrCharAt_keepsBlockOnDecline :
  keepsBlockOnDecline (Natives.inlineStrCharAt callInfo).
Proof. unfold Natives.inlineStrCharAt. keeps_block. Qed.

Lemma inlineRegExpExec_keepsBlockOnDecline :
  keepsBlockOnDecline (Natives.inlineRegExpExec jit callInfo).
Proof. unfold Natives.inlineRegExpExec. keeps_block. Qed.

Lemma inlineRegExpTest_keepsBlockOnDecline :
  keepsBlockOnDecline (Natives.inlineRegExpTest jit callInfo).
Proof. unfold Natives.inlineRegExpTest. keeps_block. Qed.

Lemma inlineStrReplace_keepsBlockOnDecline :
  keepsBlockOnDecline (Natives.inlineStrReplace jit callInfo).
Proof. unfold Natives.inlineStrReplace. keeps_block. Qed.

Lemma inlineForceSequentialOrInParallelSection_keepsBlockOnDecline :
  keepsBlockOnDecline (Natives.inlineForceSequentialOrInParallelSection jit callInfo).
Proof. unfold Natives.inlineForceSequentialOrInParallelSection. keeps_block. Qed.

Lemma inlineForkJoinGetSlice_keepsBlockOnDecline :
  keepsBlockOnDecline (Natives.inlineForkJoinGetSlice jit callInfo).
Proof. unfold Natives.inlineForkJoinGetSlice. keeps_block. Qed.

Lemma inlineNewDenseArray_keepsBlockOnDecline :
  keepsBlockOnDecline (Natives.inlineNewDenseArray jit callInfo).
Proof.
  unfold Natives.inlineNewDenseArray, Natives.inlineNewDenseArrayForParallelExecution,
    Natives.inlineNewDenseArrayForSequentialExecution.
  keeps_block.
Qed.

Lemma inlineObjectIsTypeDescr_keepsBlockOnDecline :
  keepsBlockOnDecline (Natives.inlineObjectIsTypeDescr jit callInfo).
Proof. unfold Natives.inlineObjectIsTypeDescr. keeps_block. Qed.

Lemma inlineSetTypedObjectOffset_keepsBlockOnDecline :
  keepsBlockOnDecline (Natives.inlineSetTypedObjectOffset jit callInfo).
Proof. unfold Natives.inlineSetTypedObjectOffset. keeps_block. Qed.

Lemma inlineUnsafeSetReservedSlot_keepsBlockOnDecline :
  keepsBlockOnDecline (Natives.inlineUnsafeSetReservedSlot jit callInfo).
Proof. unfold Natives.inlineUnsafeSetReservedSlot. keeps_block. Qed.

Lemma inlineUnsafeGetReservedSlot_keepsBlockOnDecline :
  keepsBlockOnDecline (Natives.inlineUnsafeGetReservedSlot jit callInfo).
Proof. unfold Natives.inlineUnsafeGetReservedSlot. keeps_block. Qed.

Lemma inlineHaveSameClass_keepsBlockOnDecline :
  keepsBlockOnDecline (Natives.inlineHaveSameClass callInfo).
Proof. unfold Natives.inlineHaveSameClass. keeps_block. Qed.

Lemma inlineIsCallable_keepsBlockOnDecline :
  keepsBlockOnDecline (Natives.inlineIsCallable jit callInfo).
Proof. unfold Natives.inlineIsCallable. keeps_block. Qed.

Lemma inlineIsObject_keepsBlockOnDecline :
  keepsBlockOnDecline (Natives.inlineIsObject callInfo).
Proof. unfold Natives.inlineIsObject. keeps_block. Qed.

Lemma inlineToObject_keepsBlockOnDecline :
  keepsBlockOnDecline (Natives.inlineToObject callInfo).
Proof. unfold Natives.inlineToObject. keeps_block. Qed.

Lemma inlineToInteger_keepsBlockOnDecline :
  keepsBlockOnDecline (Natives.inlineToInteger jit callInfo).
Proof. unfold Natives.inlineToInteger. keeps_block. Qed.

Lemma inlineToString_keepsBlockOnDecline :
  keepsBlockOnDecline (Natives.inlineToString callInfo).
Proof. unfold Natives.inlineToString. keeps_block. Qed.

Lemma inlineIsConstructing_keepsBlockOnDecline :
  keepsBlockOnDecline (Natives.inlineIsConstructing jit callInfo).
Proof. unfold Natives.inlineIsConstructing. keeps_block. Qed.

Lemma inlineBailout_keepsBlockOnDecline :
  keepsBlockOnDecline (Natives.inlineBailout callInfo).
Proof. unfold Natives.inlineBailout. keeps_block. Qed.

Lemma inlineAssertFloat32_keepsBlockOnDecline :
  keepsBlockOnDecline (Natives.inlineAssertFloat32 callInfo).
Proof. unfold Natives.inlineAssertFloat32. keeps_block. Qed.

Lemma inlineAtomicsFence_keepsBlockOnDecline :
  keepsBlockOnDecline (Natives.inlineAtomicsFence callInfo).
Proof. unfold Natives.inlineAtomicsFence. keeps_block. Qed.

Lemma inlineBoundFunction_keepsBlockOnDecline (target : Natives.JSFunction) :
  keepsBlockOnDecline (Natives.inlineBoundFunction jit callInfo target).
Proof. unfold Natives.inlineBoundFunction. keeps_block. Qed.

(** A specialiser of the first part that keeps its block when it declines
    keeps the block of this module too. *)
Lemma liftCore_keepsBlockOnDecline (inline : Build InliningStatus) :
  (forall c, fst (inline c) = InliningStatus_NotInlined ->
             current (snd (inline c)) = current c) ->
  keepsBlockOnDecline (Natives.liftCore inline).
Proof.
  intros Hc b. unfold Natives.liftCore.
  specialize (Hc (builderAt (Natives.pc b))).
  destruct (inline (builderAt (Natives.pc b))) as [status c].
  cbn [fst snd] in *. intros ->. specialize (Hc eq_refl).
  unfold Natives.coreInstructions, Natives.coreStack. rewrite Hc.
  cbn. rewrite app_nil_r. now destruct (Natives.current b).
Qed.

Lemma liftCore_clean (inline : Build InliningStatus) :
  (forall c, inline c = (InliningStatus_NotInlined, c) \/
             fst (inline c) = InliningStatus_Inlined) ->
  keepsBlockOnDecline (Natives.liftCore inline).
Proof.
  intros Hc. apply liftCore_keepsBlockOnDecline. intros c H.
  destruct (Hc c) as [E | E].
  - now rewrite E.
  - rewrite E in H. discriminate H.
Qed.

(** The dispatcher answers what the specialiser returns. *)
Lemma returned_keepsBlockOnDecline (inline : Natives.Build InliningStatus) :
  keepsBlockOnDecline inline -> dispatchKeepsBlockOnDecline (Natives.returned inline).
Proof.
  intros Hk b. specialize (Hk b). unfold Natives.returned, Natives.bind, Natives.ret.
  destruct (inline b) as [status b1]. cbn [fst snd] in *.
  intros H. apply Hk. congruence.
Qed.

Lemma inlineUnsafePutElements_keepsBlockOnDecline :
  dispatchKeepsBlockOnDecline
    (Natives.liftCore
       (inlineUnsafePutElements (Natives.ElementAccessIsDenseNative jit)
          (Natives.PropertyWriteNeedsTypeBarrier jit)
          (Natives.ElementAccessIsAnyTypedArray jit)
          (Natives.typedObjectPrediction jit) (Natives.jsop_setelem_dense jit)
          (Natives.jsop_setelem_typed jit) (Natives.jsop_setelem_typed_object jit)
          callInfo)).
Proof.
  intros b. unfold Natives.liftCore.
  match goal with
  | |- context [inlineUnsafePutElements ?d ?w ?t ?p ?sd ?st ?so callInfo ?c] =>
      pose proof (inlineUnsafePutElements_eq d w t p sd st so callInfo c) as E;
      pose proof (fun bases => inlineUnsafePutElements_stores_status
                                 d t p sd st so callInfo bases) as Hstores
  end.
  destruct ((argc callInfo <? 3) || negb (argc callInfo mod 3 =? 0) ||
            constructing callInfo);
    [rewrite E; cbn; intros _; rewrite app_nil_r; now destruct (Natives.current b) | ].
  destruct (negb (forallb _ _));
    [rewrite E; cbn; intros _; rewrite app_nil_r; now destruct (Natives.current b) | ].
  rewrite E. match goal with |- context [inlineUnsafePutElements_stores _ _ _ _ _ _ _ ?bs ?c1] =>
    specialize (Hstores bs c1);
    destruct (inlineUnsafePutElements_stores _ _ _ _ _ _ _ bs c1) as [status c2]
  end.
  cbn [fst snd] in *. intros H. now contradiction Hstores.
Qed.

Lemma inlineAtomicsLoad_keepsBlockOnDecline :
  keepsBlockOnDecline (Natives.liftCore (inlineAtomicsLoad callInfo)).
Proof.
  apply liftCore_clean. intros c.
  now destruct (inlineAtomics_decline_cleanly callInfo atomics_add c) as [H _].
Qed.

Lemma inlineAtomicsStore_keepsBlockOnDecline :
  keepsBlockOnDecline (Natives.liftCore (inlineAtomicsStore callInfo)).
Proof.
  apply liftCore_clean. intros c.
  now destruct (inlineAtomics_decline_cleanly callInfo atomics_add c) as [_ [H _]].
Qed.

Lemma inlineAtomicsCompareExchange_keepsBlockOnDecline :
  keepsBlockOnDecline (Natives.liftCore (inlineAtomicsCompareExchange callInfo)).
Proof.
  apply liftCore_clean. intros c.
  now destruct (inlineAtomics_decline_cleanly callInfo atomics_add c) as [_ [_ [H _]]].
Qed.

Lemma inlineAtomicsBinop_keepsBlockOnDecline (op : AtomicsBinopNative) :
  keepsBlockOnDecline (Natives.liftCore (inlineAtomicsBinop callInfo op)).
Proof.
  apply liftCore_clean. intros c.
  now destruct (inlineAtomics_decline_cleanly callInfo op c) as [_ [_ [_ H]]].
Qed.

Lemma inlineArrayJoin_keepsBlockOnDecline :
  keepsBlockOnDecline (Natives.liftCore (inlineArrayJoin callInfo)).
Proof.
  apply liftCore_keepsBlockOnDecline. intros c H.
  now apply inlineArrayJoin_never_NotInlined in H.
Qed.

Lemma inlineArraySplice_keepsBlockOnDecline :
  keepsBlockOnDecline (Natives.liftCore (inlineArraySplice callInfo)).
Proof.
  apply liftCore_keepsBlockOnDecline. intros c.
  apply inlineArraySplice_declinesBeforeEmitting.
Qed.

Lemma inlineArrayConcat_keepsBlockOnDecline :
  keepsBlockOnDecline (Natives.liftCore (inlineArrayConcat callInfo)).
Proof.
  apply liftCore_keepsBlockOnDecline. intros c.
  apply inlineArrayConcat_declinesBeforeEmitting.
Qed.

Lemma inlineMathMinMax_keepsBlockOnDecline (max : bool) :
  keepsBlockOnDecline (Natives.liftCore (inlineMathMinMax callInfo max)).
Proof.
  apply liftCore_keepsBlockOnDecline. intros c H.
  destruct (inlineMathMinMax_declines_cleanly callInfo max c) as [E | [[E _] | E]];
    rewrite E in *; [reflexivity | discriminate H | discriminate H].
Qed.

Lemma inlineMathPow_keepsBlockOnDecline :
  keepsBlockOnDecline (Natives.liftCore (inlineMathPow callInfo)).
Proof. apply liftCore_clean. intros c. apply inlineMathPow_declines_cleanly. Qed.

Lemma inlineStrCharCodeAt_keepsBlockOnDecline :
  keepsBlockOnDecline (Natives.liftCore (inlineStrCharCodeAt callInfo)).
Proof. apply liftCore_clean. intros c. apply inlineStrCharCodeAt_declines_cleanly. Qed.

Lemma inlineHasClass_keepsBlockOnDecline (clasp1 clasp2 clasp3 clasp4 : option Class) :
  keepsBlockOnDecline
    (Natives.liftCore (inlineHasClass callInfo clasp1 clasp2 clasp3 clasp4)).
Proof. apply liftCore_clean. intros c. apply inlineHasClass_declines_cleanly. Qed.

Lemma ret_keepsBlockOnDecline (status : InliningStatus) :
  keepsBlockOnDecline (Natives.ret status).
Proof. intros b _. reflexivity. Qed.

End KeepsBlock.

Create HintDb keeps_block discriminated.

#[local] Hint Resolve
  inlineMathFunction_keepsBlockOnDecline inlineMathAbs_keepsBlockOnDecline
  inlineMathFloor_keepsBlockOnDecline inlineMathCeil_keepsBlockOnDecline
  inlineMathRound_keepsBlockOnDecline inlineMathClz32_keepsBlockOnDecline
  inlineMathSqrt_keepsBlockOnDecline inlineMathAtan2_keepsBlockOnDecline
  inlineMathHypot_keepsBlockOnDecline inlineMathRandom_keepsBlockOnDecline
  inlineMathImul_keepsBlockOnDecline inlineMathFRound_keepsBlockOnDecline
  inlineArray_keepsBlockOnDecline inlineArrayPopShift_keepsBlockOnDecline
  inlineArrayPush_keepsBlockOnDecline inlineStringObject_keepsBlockOnDecline
  inlineStringSplit_keepsBlockOnDecline inlineStrFromCharCode_keepsBlockOnDecline
  inlineStrCharAt_keepsBlockOnDecline inlineRegExpExec_keepsBlockOnDecline
  inlineRegExpTest_keepsBlockOnDecline inlineStrReplace_keepsBlockOnDecline
  inlineForceSequentialOrInParallelSection_keepsBlockOnDecline
  inlineForkJoinGetSlice_keepsBlockOnDecline inlineNewDenseArray_keepsBlockOnDecline
  inlineObjectIsTypeDescr_keepsBlockOnDecline inlineSetTypedObjectOffset_keepsBlockOnDecline
  inlineUnsafeSetReservedSlot_keepsBlockOnDecline
  inlineUnsafeGetReservedSlot_keepsBlockOnDecline inlineHaveSameClass_keepsBlockOnDecline
  inlineIsCallable_keepsBlockOnDecline inlineIsObject_keepsBlockOnDecline
  inlineToObject_keepsBlockOnDecline inlineToInteger_keepsBlockOnDecline
  inlineToString_keepsBlockOnDecline inlineIsConstructing_keepsBlockOnDecline
  inlineBailout_keepsBlockOnDecline inlineAssertFloat32_keepsBlockOnDecline
  inlineAtomicsFence_keepsBlockOnDecline inlineBoundFunction_keepsBlockOnDecline
  inlineArrayJoin_keepsBlockOnDecline
  inlineArraySplice_keepsBlockOnDecline inlineArrayConcat_keepsBlockOnDecline
  inlineMathMinMax_keepsBlockOnDecline inlineMathPow_keepsBlockOnDecline
  inlineStrCharCodeAt_keepsBlockOnDecline inlineHasClass_keepsBlockOnDecline
  inlineAtomicsLoad_keepsBlockOnDecline inlineAtomicsStore_keepsBlockOnDecline
  inlineAtomicsCompareExchange_keepsBlockOnDecline inlineAtomicsBinop_keepsBlockOnDecline
  ret_keepsBlockOnDecline : keeps_block.

(** X5.  Whatever the native, the call and the answers of the rest of the
    compiler: when [inlineNativeCall] answers NotInlined, the current block
    holds the instructions and the value stack it held before. *)
Theorem inlineNativeCall_keeps_the_block_when_it_declines
    (jit : Natives.Collaborators) (callInfo : CallInfo) (target : Natives.JSFunction) :
  dispatchKeepsBlockOnDecline (Natives.inlineNativeCall jit callInfo target).
Proof.
  unfold Natives.inlineNativeCall.
  destruct (Natives.inlineNative jit); cbn [negb];
    [ | apply returned_keepsBlockOnDecline; auto with keeps_block].
  destruct (Natives.native target) as
    [ | | | |op | | | | | | | | | | | | | | | | | | | | | | | | | | | | | | | | | |
    | | | | | | | | | | | | | | | | | | | | | | | | | | | | | | | | | | | | | | | |
    | | | |id];
    try (apply returned_keepsBlockOnDecline; auto with keeps_block).
  - destruct (Natives.CallResultEscapes jit);
      apply returned_keepsBlockOnDecline; auto with keeps_block.
  - apply inlineUnsafePutElements_keepsBlockOnDecline.
Qed.

(** ** Math.floor, Math.ceil and Math.round *)

(** X6.  The three rounding specialisers decide alike: at any call and
    builder they give the same answer, which is Inlined exactly for a call
    that is not constructing, has one argument, and either an int32 argument
    where an int32 is expected, or a floating-point argument where an int32
    or a double is expected.  An int32 argument is never rounded: the three
    then behave identically, adding only the truncation-preserving identity
    of the argument, which they push. *)
Theorem rounding_specialisers_decide_alike (callInfo : CallInfo)
    (b : Natives.IonBuilder) :
  let floor := Natives.inlineMathFloor callInfo b in
  let ceil := Natives.inlineMathCeil callInfo b in
  let round := Natives.inlineMathRound callInfo b in
  let arg := getArg callInfo 0 in
  let returnType := Natives.getInlineReturnType b in
  fst floor = fst ceil /\ fst ceil = fst round /\
  (fst floor = InliningStatus_Inlined <->
     constructing callInfo = false /\ argc callInfo = 1 /\
     ((type arg = MIRType_Int32 /\ returnType = MIRType_Int32) \/
      (IsFloatingPointType (type arg) = true /\
       (returnType = MIRType_Int32 \/ returnType = MIRType_Double)))) /\
  (type arg = MIRType_Int32 ->
     floor = ceil /\ ceil = round /\
     (fst floor = InliningStatus_Inlined ->
        Natives.current (snd floor)
        = {| Natives.instructions :=
               Natives.instructions (Natives.current b) ++
                 [Natives.MDef (MLimitedTruncate arg IndirectTruncate)];
             Natives.stack :=
               Natives.MDef (MLimitedTruncate arg IndirectTruncate)
                 :: Natives.stack (Natives.current b) |})).
Proof.
  cbv zeta.
  unfold Natives.inlineMathFloor, Natives.inlineMathCeil, Natives.inlineMathRound.
  unfold_natives. cbv beta iota.
  destruct (constructing callInfo).
  { cbn. repeat split; try discriminate; try reflexivity. intros [H _]. discriminate H. }
  destruct (argc callInfo =? 1) eqn:Eargc.
  2: { apply Z.eqb_neq in Eargc. cbn. repeat split; try discriminate; try reflexivity.
       intros [_ [H _]]. contradiction. }
  apply Z.eqb_eq in Eargc. cbn [negb]. cbv beta iota.
  destruct (type (getArg callInfo 0)) eqn:Earg;
    destruct (Natives.getInlineReturnType b) eqn:Eret; cbn;
    (split; [reflexivity | split; [reflexivity | split; [split | ] ] ]);
    try discriminate; try (intros _; repeat split; reflexivity);
    try (intros [_ [_ [[H1 H2] | [H1 [H2 | H2]]]]]; discriminate);
    try (intros _; repeat split; try reflexivity; discriminate).
  all: intros _; repeat split; auto.
Qed.

(** ** HaveSameClass *)

(** X7.  For HaveSameClass(x, y) over two objects whose classes are both
    statically known, the specialiser answers Inlined and all it does is add
    and push one boolean constant, true exactly when the two classes are the
    same class; no run-time comparison is added and no operand is flagged as
    implicitly used.  The answer does not depend on the order of the two
    arguments. *)
Theorem inlineHaveSameClass_known_classes (callee this x y : MDefinition)
    (xTypes yTypes : types.TemporaryTypeSet) (xClass yClass : Class)
    (b : Natives.IonBuilder) :
  type x = MIRType_Object -> type y = MIRType_Object ->
  resultTypeSet x = Some xTypes -> types.getKnownClass xTypes = Some xClass ->
  resultTypeSet y = Some yTypes -> types.getKnownClass yTypes = Some yClass ->
  let call := fun args => {| fun_ := callee; thisArg := this; argv := args;
                             constructing := false |} in
  let same := Natives.MDef (MConstant (BooleanValue (Class_beq xClass yClass))) in
  Natives.inlineHaveSameClass (call [x; y]) b
    = (InliningStatus_Inlined, addedAndPushed [same] same b) /\
  Natives.inlineHaveSameClass (call [y; x]) b
    = Natives.inlineHaveSameClass (call [x; y]) b /\
  (Class_beq xClass yClass = true <-> xClass = yClass).
Proof.
  intros Hx Hy Hxt Hxc Hyt Hyc call same.
  assert (Hsym : Class_beq yClass xClass = Class_beq xClass yClass)
    by (destruct xClass, yClass; reflexivity).
  unfold Natives.inlineHaveSameClass, call, getArg. cbn [argv argc nth List.length constructing].
  rewrite Hx, Hy, Hxt, Hyt, Hxc, Hyc. cbn. rewrite Hsym.
  repeat split.
  - apply internal_Class_dec_bl.
  - apply internal_Class_dec_lb.
Qed.

Lemma inlineHaveSameClass_known_classes_witness :
  Natives.inlineHaveSameClass
    (callOf (operand 0 MIRType_Object)
       [objectOfClass 1 ArrayObject_class; objectOfClass 2 RegExpObject_class])
    (nativesBuilderAt (siteReturning MIRType_Boolean false))
  = (InliningStatus_Inlined,
     addedAndPushed [Natives.MDef (MConstant (BooleanValue false))]
       (Natives.MDef (MConstant (BooleanValue false)))
       (nativesBuilderAt (siteReturning MIRType_Boolean false))).
Proof.
  exact (proj1 (inlineHaveSameClass_known_classes (operand 0 MIRType_Object)
                  (operand 0 MIRType_Object)
                  (objectOfClass 1 ArrayObject_class) (objectOfClass 2 RegExpObject_class)
                  (typeSetOfClass ArrayObject_class) (typeSetOfClass RegExpObject_class)
                  ArrayObject_class RegExpObject_class
                  (nativesBuilderAt (siteReturning MIRType_Boolean false))
                  eq_refl eq_refl eq_refl eq_refl eq_refl eq_refl)).
Defined.

(** ** Intrinsics of parallel execution *)

(** X8.  Outside parallel execution the three intrinsics of parallel
    sections (ShouldForceSequential / InParallelSection, ForkJoinGetSlice and
    NewDenseArray) all decline and leave the builder untouched.  In
    particular ForkJoinGetSlice never acts as the identity on its argument:
    whenever it answers Inlined, the mode is parallel execution and all it
    adds is the slice instruction, which it pushes. *)
Theorem parallel_intrinsics_need_parallel_execution (jit : Natives.Collaborators)
    (callInfo : CallInfo) (b : Natives.IonBuilder) :
  (Natives.executionMode jit <> Natives.ParallelExecution ->
     Natives.inlineForceSequentialOrInParallelSection jit callInfo b
       = (InliningStatus_NotInlined, b) /\
     Natives.inlineForkJoinGetSlice jit callInfo b = (InliningStatus_NotInlined, b) /\
     Natives.inlineNewDenseArray jit callInfo b = (InliningStatus_NotInlined, b)) /\
  (fst (Natives.inlineForkJoinGetSlice jit callInfo b) = InliningStatus_Inlined ->
     Natives.executionMode jit = Natives.ParallelExecution /\
     snd (Natives.inlineForkJoinGetSlice jit callInfo b)
     = addedAndPushed [Natives.MForkJoinGetSlice Natives.MForkJoinContext]
         (Natives.MForkJoinGetSlice Natives.MForkJoinContext) (flagged callInfo b)).
Proof.
  unfold Natives.inlineForceSequentialOrInParallelSection, Natives.inlineForkJoinGetSlice,
    Natives.inlineNewDenseArray, Natives.inlineNewDenseArrayForSequentialExecution.
  unfold_natives. split.
  - intros Hmode.
    destruct (Natives.executionMode jit); try contradiction;
      destruct (constructing callInfo); destruct (negb (argc callInfo =? 1));
      repeat split; reflexivity.
  - destruct (Natives.executionMode jit); cbn; try discriminate.
    destruct (negb (MIRType_beq (Natives.getInlineReturnType b) MIRType_Int32));
      cbn; try discriminate.
    destruct (Natives.allowInlineForkJoinGetSlice jit); cbn; try discriminate.
    intros _. split; reflexivity.
Qed.

(** ** Math.fround *)

(** X9.  Math.fround at a call site whose observed return type set is still
    empty: the specialiser adds the double type to that set before it looks
    at the argument, so the set is extended even when the call is then
    declined because the argument is no number; the expected return type is
    not consulted.  With a numeric argument the answer is Inlined and the
    conversion to float32 is the one instruction added and pushed. *)
Theorem inlineMathFRound_on_an_empty_return_type_set (jit : Natives.Collaborators)
    (callInfo : CallInfo) (b : Natives.IonBuilder) :
  argc callInfo = 1 -> constructing callInfo = false ->
  Natives.empty jit (Natives.getInlineReturnTypeSet b) = true ->
  let r := Natives.inlineMathFRound jit callInfo b in
  let arg := getArg callInfo 0 in
  Natives.returnedTypes (snd r) = Natives.returnedTypes b ++ [types.DoubleType] /\
  (IsNumberType (type arg) = false ->
     fst r = InliningStatus_NotInlined /\ Natives.current (snd r) = Natives.current b) /\
  (IsNumberType (type arg) = true ->
     fst r = InliningStatus_Inlined /\
     Natives.current (snd r)
     = Natives.current (addedAndPushed [Natives.MToFloat32 (Natives.MDef arg)]
                          (Natives.MToFloat32 (Natives.MDef arg)) b)).
Proof.
  intros Hargc Hc Hempty. cbv zeta.
  unfold Natives.inlineMathFRound. unfold_natives.
  rewrite Hargc, Hc. change (1 =? 1) with true. cbn [negb orb]. cbv beta iota.
  rewrite Hempty. cbn.
  destruct (IsNumberType (type (getArg callInfo 0))); cbn;
    repeat split; try discriminate; reflexivity.
Qed.

Lemma inlineMathFRound_on_an_empty_return_type_set_witness :
  let jit := exampleCollaborators Natives.SequentialExecution true (fun _ => false) in
  let callInfo := callOf (operand 0 MIRType_Object) [operand 1 MIRType_String] in
  let b := nativesBuilderAt (siteReturning MIRType_Value false) in
  let r := Natives.inlineMathFRound jit callInfo b in
  Natives.returnedTypes (snd r) = [types.DoubleType] /\
  fst r = InliningStatus_NotInlined /\
  Natives.current (snd r) = Natives.current b.
Proof.
  intros jit callInfo b r.
  destruct (inlineMathFRound_on_an_empty_return_type_set jit callInfo b
              eq_refl eq_refl eq_refl) as [Ht [Hn _]].
  split; [exact Ht | exact (Hn eq_refl)].
Defined.

(** ** The Array constructor *)

Lemma to_uint32_negative (n : Z) :
  -2147483648 <= n < 0 -> 2147483648 <= to_uint32 n.
Proof.
  intros H. unfold to_uint32.
  rewrite <- (Z.mod_unique n 4294967296 (-1) (n + 4294967296)); lia.
Qed.

Lemma to_uint32_nonnegative (n : Z) :
  0 <= n <= 2147483647 -> to_uint32 n = n.
Proof. intros H. unfold to_uint32. apply Z.mod_small. lia. Qed.

(** An int32 constant is the only constant of type int32. *)
Lemma constant_of_type_Int32 (arg : MDefinition) :
  type arg = MIRType_Int32 -> isConstant arg = true ->
  exists n, arg = MConstant (Int32Value n).
Proof.
  destruct arg; try discriminate. intros Ht _.
  destruct v; try discriminate. now eexists.
Qed.

(** X10.  Array(n), or new Array(n), with one argument and a template
    object: the call is specialised only when the argument is an int32
    constant whose value n is not negative, is below NELEMENTS_LIMIT, is the
    length of the template object and is at most EagerAllocationMaxLength;
    all it adds is the constant of the template object and the fully
    allocating MNewArray of length n, which is pushed.  A negative constant
    always declines with the builder untouched, and the answer is never
    Error.  (NELEMENTS_LIMIT is assumed to be at most 2^31, as a length read
    as an unsigned 32-bit number requires.) *)
Theorem inlineArray_single_argument (jit : Natives.Collaborators)
    (callee this arg : MDefinition) (constructs : bool)
    (templateObject : NativeObject) (b : Natives.IonBuilder) :
  Natives.NELEMENTS_LIMIT jit <= 2147483648 ->
  getTemplateObjectForNative (Natives.pc b) = Some templateObject ->
  let callInfo := {| fun_ := callee; thisArg := this; argv := [arg];
                     constructing := constructs |} in
  let r := Natives.inlineArray jit callInfo b in
  let templateConst := Natives.MObjectConstant templateObject true in
  fst r <> InliningStatus_Error /\
  (fst r = InliningStatus_Inlined ->
     exists n,
       arg = MConstant (Int32Value n) /\
       0 <= int32 n < Natives.NELEMENTS_LIMIT jit /\
       int32 n = Natives.ArrayObject_length jit templateObject /\
       int32 n <= Natives.EagerAllocationMaxLength jit /\
       let ins := Natives.MNewArray (int32 n) templateConst (initialHeap templateObject)
                    Natives.NewArray_FullyAllocating in
       Natives.current (snd r)
       = Natives.current (addedAndPushed [templateConst; ins] ins b)) /\
  (forall n, arg = MConstant (Int32Value n) -> int32 n < 0 ->
             r = (InliningStatus_NotInlined, b)).
Proof.
  intros Hlimit Ht callInfo r templateConst.
  assert (Er : r = Natives.inlineArray jit callInfo b) by reflexivity. clearbody r.
  unfold Natives.inlineArray in Er.
  unfold Natives.bind at 1, Natives.ask at 1 in Er. rewrite Ht in Er.
  unfold Natives.bind at 1 in Er.
  unfold Natives.inlineArray_initLength, callInfo, getArg, argc in Er.
  cbn [argv nth List.length Z.of_nat Pos.of_succ_nat Z.leb Z.eqb Z.compare Pos.compare
       Pos.compare_cont] in Er.
  destruct (negb (MIRType_beq (type arg) MIRType_Int32)) eqn:Etype.
  { subst r. cbn. split; [discriminate | split; [discriminate | ] ].
    intros n -> _. discriminate Etype. }
  apply negb_MIRType_beq_false in Etype.
  destruct (negb (isConstant arg)) eqn:Econst.
  { subst r. cbn. split; [discriminate | split; [discriminate | ] ].
    intros n -> _. discriminate Econst. }
  apply negb_false_iff in Econst.
  destruct (constant_of_type_Int32 arg Etype Econst) as [n ->].
  cbn [constantValue Natives.toInt32] in Er.
  pose proof (int32_range n) as Hrange. unfold INT32_MIN, INT32_MAX in Hrange.
  destruct (Natives.NELEMENTS_LIMIT jit <=? to_uint32 (int32 n)) eqn:Elimit.
  { subst r. cbn. split; [discriminate | split; [discriminate | reflexivity] ]. }
  apply Z.leb_gt in Elimit.
  assert (Hpos : 0 <= int32 n).
  { destruct (Z.lt_ge_cases (int32 n) 0) as [Hneg | Hge]; [ | exact Hge].
    pose proof (to_uint32_negative (int32 n) ltac:(lia)). lia. }
  rewrite (to_uint32_nonnegative (int32 n)) in * by lia.
  destruct (negb (int32 n =? Natives.ArrayObject_length jit templateObject)) eqn:Elength.
  { subst r. cbn. split; [discriminate | split; [discriminate | reflexivity] ]. }
  apply negb_false_iff, Z.eqb_eq in Elength.
  destruct (Natives.EagerAllocationMaxLength jit <? int32 n) eqn:Eeager.
  { subst r. cbn. split; [discriminate | split; [discriminate | reflexivity] ]. }
  apply Z.ltb_ge in Eeager.
  unfold_natives. cbn in Er. subst r. cbn. split; [discriminate | split].
  - intros _. exists n. cbv zeta. repeat split; try assumption; try lia.
    now rewrite <- app_assoc.
  - intros n' H Hn'. injection H as <-. lia.
Qed.

Lemma inlineArray_single_argument_witness :
  let jit := exampleCollaborators Natives.SequentialExecution false (fun _ => false) in
  let templateObject := {| type_ := 5; initialHeap := DefaultHeap |} in
  let site := {| bytecodeTypes := typeSetOf MIRType_Object;
                 BytecodeIsPopped := false;
                 ArrayPrototypeHasIndexedProperty := false;
                 getTemplateObjectForNative := Some templateObject;
                 resumePointAvailable := true;
                 appendAvailable := fun _ => true |} in
  let b := nativesBuilderAt site in
  Natives.inlineArray jit (callOf (operand 0 MIRType_Object) [MConstant (Int32Value (-1))]) b
  = (InliningStatus_NotInlined, b).
Proof.
  intros jit templateObject site b.
  refine (proj2 (proj2 (inlineArray_single_argument jit (operand 0 MIRType_Object)
                          (operand 0 MIRType_Object) (MConstant (Int32Value (-1))) false
                          templateObject b _ eq_refl)) (-1) eq_refl _).
  - vm_compute. discriminate.
  - reflexivity.
Defined.

(** Reduces the projections of the builders of [Natives]. *)
Ltac natives_projections H :=
  cbn [fst snd Natives.pc Natives.current Natives.implicitlyUsed Natives.resumePoints
       Natives.constraints Natives.returnedTypes Natives.shouldConvertDoubleElements
       Natives.instructions Natives.stack] in H.

Ltac natives_projections_goal :=
  cbn [fst snd Natives.pc Natives.current Natives.implicitlyUsed Natives.resumePoints
       Natives.constraints Natives.returnedTypes Natives.shouldConvertDoubleElements
       Natives.instructions Natives.stack].

Lemma addedNodes_nil (b : Natives.IonBuilder) : addedNodes [] b = b.
Proof.
  unfold addedNodes. rewrite app_nil_r.
  destruct b as [site [ins stk] used resumed frozen returned flag]. reflexivity.
Qed.

Lemma addedNodes_app (xs ys : list Natives.MNode) (b : Natives.IonBuilder) :
  addedNodes ys (addedNodes xs b) = addedNodes (xs ++ ys) b.
Proof. unfold addedNodes. cbn. now rewrite app_assoc. Qed.

Lemma add_addedNodes (ins : Natives.MNode) (b : Natives.IonBuilder) :
  Natives.add ins b = (tt, addedNodes [ins] b).
Proof. reflexivity. Qed.

(** One round of the loop of [inlineArray]: the instructions it adds for
    the argument [value] at the index [i]. *)
Lemma inlineArray_stores_step (ins elements : Natives.MNode)
    (conversion : types.DoubleConversion) (value : MDefinition)
    (rest : list MDefinition) (i : Z) (id : option Natives.MNode)
    (b : Natives.IonBuilder) :
  let stored := if Natives.isAlwaysConvertToDoubles conversion
                then Natives.MDef (MToDouble value) else Natives.MDef value in
  let index := Natives.MDef (MConstant (Int32Value i)) in
  Natives.inlineArray_stores ins elements conversion (value :: rest) i id b
  = Natives.inlineArray_stores ins elements conversion rest (i + 1) (Some index)
      (addedNodes ([index] ++
         (if Natives.isAlwaysConvertToDoubles conversion then [stored] else []) ++
         (if Natives.isTenuredHeap (Natives.MNewArray_initialHeap ins)
          then [Natives.MPostWriteBarrier ins stored] else []) ++
         [Natives.MStoreElement elements index stored false]) b).
Proof.
  cbv zeta. cbn [Natives.inlineArray_stores].
  destruct (Natives.isAlwaysConvertToDoubles conversion);
    destruct (Natives.isTenuredHeap (Natives.MNewArray_initialHeap ins));
    unfold Natives.bind, Natives.ret; rewrite ?add_addedNodes, ?addedNodes_app;
    reflexivity.
Qed.

(** The loop of [inlineArray] over the arguments [values], the first of
    which has the index [k]: it only adds instructions; the stores it adds
    are one per argument, in order, each at the index of its argument; and it
    answers the constant of the last index. *)
Lemma inlineArray_stores_spec (ins elements : Natives.MNode)
    (conversion : types.DoubleConversion) (values : list MDefinition) :
  forall (k : nat) (id : option Natives.MNode) (b : Natives.IonBuilder),
  let stored := fun v : MDefinition =>
    if Natives.isAlwaysConvertToDoubles conversion
    then Natives.MDef (MToDouble v) else Natives.MDef v in
  let index := fun i : nat => Natives.MDef (MConstant (Int32Value (Z.of_nat i))) in
  exists nodes,
    Natives.inlineArray_stores ins elements conversion values (Z.of_nat k) id b
    = (match values with
       | [] => id
       | _ :: _ => Some (index (k + List.length values - 1)%nat)
       end, addedNodes nodes b) /\
    storesOf nodes
    = map (fun iv => (elements, index (fst iv), stored (snd iv)))
        (combine (seq k (List.length values)) values).
Proof.
  induction values as [ | value rest IH]; intros k id b stored index.
  - exists []. cbn. now rewrite addedNodes_nil.
  - rewrite inlineArray_stores_step.
    replace (Z.of_nat k + 1) with (Z.of_nat (S k)) by lia.
    match goal with
    | |- context [addedNodes ?step b] =>
        destruct (IH (S k) (Some (index k)) (addedNodes step b)) as [nodes [Hrun Hstores]];
        exists (step ++ nodes)
    end.
    subst stored index. cbv beta in *. split.
    + rewrite Hrun, addedNodes_app. f_equal.
      destruct rest as [ | value' rest'].
      * cbn [List.length]. do 4 f_equal. lia.
      * cbn [List.length]. do 4 f_equal. lia.
    + unfold storesOf in *. rewrite flat_map_app, Hstores.
      cbn [List.length seq combine map fst snd].
      destruct (Natives.isAlwaysConvertToDoubles conversion) eqn:Ec;
        destruct (Natives.isTenuredHeap (Natives.MNewArray_initialHeap ins));
        cbn; reflexivity.
Qed.

Lemma inlineArray_stores_nonempty (ins elements : Natives.MNode)
    (conversion : types.DoubleConversion) (values : list MDefinition)
    (k : nat) (id : option Natives.MNode) (b : Natives.IonBuilder) :
  values <> [] ->
  exists nodes,
    Natives.inlineArray_stores ins elements conversion values (Z.of_nat k) id b
    = (Some (Natives.MDef (MConstant (Int32Value
                 (Z.of_nat (k + List.length values - 1))))),
       addedNodes nodes b) /\
    storesOf nodes
    = map (fun iv => (elements,
                      Natives.MDef (MConstant (Int32Value (Z.of_nat (fst iv)))),
                      if Natives.isAlwaysConvertToDoubles conversion
                      then Natives.MDef (MToDouble (snd iv)) else Natives.MDef (snd iv)))
        (combine (seq k (List.length values)) values).
Proof.
  intros Hvalues.
  destruct (inlineArray_stores_spec ins elements conversion values k id b)
    as [nodes [Hrun Hstores]].
  exists nodes. split; [ | exact Hstores].
  rewrite Hrun. destruct values; [contradiction | reflexivity].
Qed.

(** X11.  Array(a0, ..., an-1), or new Array(...), with two or more
    arguments and a template object.  When the element types of the
    template do not include the type of some argument, the specialiser
    freezes those element types and declines with the block untouched.
    Otherwise it adds the constant of the template object, the fully
    allocating MNewArray of length n (which it pushes) and the elements
    vector; then one store per argument, in argument order, argument i at
    index i (converted to double first where the return types always convert
    to doubles); and last the initialized length, set from the index n-1.
    The answer is Inlined, or Error when no resume point can be attached. *)
Theorem inlineArray_several_arguments (jit : Natives.Collaborators)
    (callee this : MDefinition) (args : list MDefinition) (constructs : bool)
    (templateObject : NativeObject) (b : Natives.IonBuilder) :
  (2 <= List.length args)%nat ->
  getTemplateObjectForNative (Natives.pc b) = Some templateObject ->
  let callInfo := {| fun_ := callee; thisArg := this; argv := args;
                     constructing := constructs |} in
  let r := Natives.inlineArray jit callInfo b in
  let key := Natives.TypeObjectKey_get jit templateObject in
  let elemTypes := types.property_JSID_VOID key in
  let included :=
    types.unknownProperties key ||
    forallb (fun value => Natives.TypeSetIncludes jit elemTypes (type value)
                            (resultTypeSet value)) args in
  let conversion := types.convertDoubleElements (Natives.getInlineReturnTypeSet b) in
  let stored := fun v : MDefinition =>
    if Natives.isAlwaysConvertToDoubles conversion
    then Natives.MDef (MToDouble v) else Natives.MDef v in
  let index := fun i : nat => Natives.MDef (MConstant (Int32Value (Z.of_nat i))) in
  let templateConst := Natives.MObjectConstant templateObject true in
  let ins := Natives.MNewArray (Z.of_nat (List.length args)) templateConst
               (initialHeap templateObject) Natives.NewArray_FullyAllocating in
  let elements := Natives.MElements ins in
  (included = false ->
     fst r = InliningStatus_NotInlined /\
     Natives.current (snd r) = Natives.current b /\
     Natives.constraints (snd r) = Natives.constraints b ++ [elemTypes]) /\
  (included = true ->
     fst r = (if resumePointAvailable (Natives.pc b)
              then InliningStatus_Inlined else InliningStatus_Error) /\
     exists nodes,
       Natives.instructions (Natives.current (snd r))
       = Natives.instructions (Natives.current b) ++
         [templateConst; ins; elements] ++ nodes ++
         [Natives.MSetInitializedLength elements
            (Some (index (List.length args - 1)%nat))] /\
       storesOf nodes
       = map (fun iv => (elements, index (fst iv), stored (snd iv)))
           (combine (seq 0 (List.length args)) args) /\
       Natives.stack (Natives.current (snd r)) = ins :: Natives.stack (Natives.current b)).
Proof.
  intros Hargs Ht callInfo r key elemTypes included conversion stored index
    templateConst ins elements.
  assert (Hargc : (2 <=? argc callInfo) = true).
  { apply Z.leb_le. unfold argc, callInfo. cbn [argv]. lia. }
  assert (Er : r = Natives.inlineArray jit callInfo b) by reflexivity. clearbody r.
  unfold Natives.inlineArray in Er.
  unfold Natives.bind at 1, Natives.ask at 1 in Er. rewrite Ht in Er.
  unfold Natives.bind at 1 in Er.
  unfold Natives.inlineArray_initLength in Er. rewrite Hargc in Er.
  fold key in Er. fold elemTypes in Er. change (argv callInfo) with args in Er.
  subst included.
  destruct (types.unknownProperties key) eqn:Eunknown; cbn [negb orb] in *.
  2: destruct (forallb _ args) eqn:Eincluded.
  3: { split; [intros _ | discriminate]. subst r. cbn. auto. }
  all: split; [discriminate | intros _].
  all: unfold Natives.ret at 1 in Er.
  all: unfold Natives.bind at 1 in Er;
    unfold Natives.setImplicitlyUsedUnchecked, Natives.flagImplicitlyUsed in Er;
    unfold Natives.bind at 1, Natives.ask at 1 in Er;
    unfold Natives.bind at 1, Natives.setShouldConvertDoubleElements at 1 in Er;
    natives_projections Er;
    unfold Natives.bind at 1, Natives.add at 1, Natives.withCurrent at 1 in Er;
    natives_projections Er;
    unfold Natives.bind at 1, Natives.add at 1, Natives.withCurrent at 1 in Er;
    natives_projections Er;
    unfold Natives.bind at 1, Natives.push at 1, Natives.withCurrent at 1 in Er;
    natives_projections Er;
    unfold Natives.bind at 1, Natives.add at 1, Natives.withCurrent at 1 in Er;
    natives_projections Er;
    unfold Natives.bind at 1 in Er.
  all: match type of Er with
       | context [Natives.inlineArray_stores ?i ?e ?c ?vs 0 ?id ?b0] =>
           destruct (inlineArray_stores_nonempty i e c vs 0%nat id b0)
             as [nodes [Hrun Hstores]];
           [intros ->; cbn in Hargs; lia | ];
           change (Z.of_nat 0) with 0 in Hrun; rewrite Hrun in Er
       end.
  all: unfold addedNodes in Er; natives_projections Er.
  all: unfold Natives.bind at 1, Natives.add at 1, Natives.withCurrent at 1 in Er;
    natives_projections Er;
    unfold Natives.bind at 1, Natives.resumeAfter at 1 in Er;
    natives_projections Er.
  all: destruct (resumePointAvailable (Natives.pc b)); subst r;
    cbn [negb]; natives_projections_goal;
    (split; [reflexivity | exists nodes; split; [ | split; [exact Hstores | reflexivity] ] ]).
  all: rewrite <- !app_assoc; reflexivity.
Qed.

Lemma inlineArray_several_arguments_witness :
  let jit := exampleCollaborators Natives.SequentialExecution false (fun _ => false) in
  let templateObject := {| type_ := 5; initialHeap := DefaultHeap |} in
  let site := {| bytecodeTypes := typeSetOf MIRType_Object;
                 BytecodeIsPopped := false;
                 ArrayPrototypeHasIndexedProperty := false;
                 getTemplateObjectForNative := Some templateObject;
                 resumePointAvailable := true;
                 appendAvailable := fun _ => true |} in
  let args := [operand 1 MIRType_Int32; operand 2 MIRType_Int32] in
  let r := Natives.inlineArray jit (callOf (operand 0 MIRType_Object) args)
             (nativesBuilderAt site) in
  fst r = InliningStatus_Inlined /\
  storesOf (Natives.instructions (Natives.current (snd r)))
  = [(Natives.MElements
        (Natives.MNewArray 2 (Natives.MObjectConstant templateObject true) DefaultHeap
           Natives.NewArray_FullyAllocating),
      Natives.MDef (MConstant (Int32Value 0)), Natives.MDef (operand 1 MIRType_Int32));
     (Natives.MElements
        (Natives.MNewArray 2 (Natives.MObjectConstant templateObject true) DefaultHeap
           Natives.NewArray_FullyAllocating),
      Natives.MDef (MConstant (Int32Value 1)), Natives.MDef (operand 2 MIRType_Int32))].
Proof.
  intros jit templateObject site args r.
  destruct (proj2 (inlineArray_several_arguments jit (operand 0 MIRType_Object)
                     (operand 0 MIRType_Object) args false templateObject
                     (nativesBuilderAt site) (le_n 2) eq_refl) eq_refl)
    as [Hstatus [nodes [Hnodes [Hstores _]]]].
  split; [exact Hstatus | ].
  unfold r, callOf. rewrite Hnodes. unfold storesOf in *.
  rewrite !flat_map_app, Hstores. reflexivity.
Defined.

(** ** Bound functions *)

(** X12.  [inlineBoundFunction] declines exactly when the bound target is no
    function, when the call constructs and the target is no constructor,
    when the target, a bound argument or the bound [this] is an object inside
    the nursery, or when the bound and the actual arguments together exceed
    ARGS_LENGTH_MAX; and then the builder is untouched.  An object in the
    nursery therefore never makes the compilation fail. *)
Theorem inlineBoundFunction_declines (jit : Natives.Collaborators)
    (nativeCallInfo : CallInfo) (target : Natives.JSFunction) (b : Natives.IonBuilder) :
  let boundTarget := Natives.getBoundFunctionTarget target in
  let inNursery :=
    Natives.IsInsideNursery jit (Natives.object_id boundTarget) ||
    existsb (Natives.isNurseryObject jit) (Natives.boundFunctionArguments target) ||
    Natives.isNurseryObject jit (Natives.getBoundFunctionThis target) in
  let r := Natives.inlineBoundFunction jit nativeCallInfo target b in
  (fst r = InliningStatus_NotInlined <->
     Natives.is_JSFunction boundTarget = false \/
     (constructing nativeCallInfo = true /\
      Natives.isInterpretedConstructor boundTarget = false /\
      Natives.isNativeConstructor boundTarget = false) \/
     inNursery = true \/
     Natives.ARGS_LENGTH_MAX jit
       < Natives.getBoundFunctionArgumentCount target + argc nativeCallInfo) /\
  (fst r = InliningStatus_NotInlined -> snd r = b) /\
  (inNursery = true -> r = (InliningStatus_NotInlined, b)).
Proof.
  intros boundTarget inNursery r.
  assert (Er : r = Natives.inlineBoundFunction jit nativeCallInfo target b) by reflexivity.
  clearbody r. unfold Natives.inlineBoundFunction in Er. fold boundTarget in Er.
  subst inNursery.
  destruct (Natives.is_JSFunction boundTarget) eqn:Efun; cbn [negb] in Er.
  2: { subst r. cbn. repeat split; auto. }
  destruct (constructing nativeCallInfo && negb (Natives.isInterpretedConstructor boundTarget)
            && negb (Natives.isNativeConstructor boundTarget)) eqn:Econstr.
  { subst r. cbn. repeat split; auto. intros _. right. left.
    apply andb_true_iff in Econstr as [Econstr E3].
    apply andb_true_iff in Econstr as [E1 E2].
    apply negb_true_iff in E2, E3. auto. }
  destruct (Natives.IsInsideNursery jit (Natives.object_id boundTarget)) eqn:En1.
  { subst r. cbn. repeat split; auto. }
  destruct (existsb (Natives.isNurseryObject jit) (Natives.boundFunctionArguments target))
    eqn:En2.
  { subst r. cbn. repeat split; auto. }
  destruct (Natives.isNurseryObject jit (Natives.getBoundFunctionThis target)) eqn:En3.
  { subst r. cbn. repeat split; auto. }
  destruct (Natives.ARGS_LENGTH_MAX jit
            <? Natives.getBoundFunctionArgumentCount target + argc nativeCallInfo) eqn:Emax.
  { subst r. cbn. repeat split; auto. intros _. do 3 right. now apply Z.ltb_lt. }
  apply Z.ltb_ge in Emax.
  assert (Hcommitted : fst r <> InliningStatus_NotInlined).
  { subst r. do 3 (apply natives_bind_committed; intros ? ?).
    destruct (negb (Natives.reserve jit _)); [discriminate | ].
    do 2 (apply natives_bind_committed; intros ? ?).
    match goal with |- context [if negb ?c then _ else _] => destruct c end; discriminate. }
  cbn [orb]. split; [split | split].
  - intros H. contradiction.
  - intros [H | [[H1 [H2 H3]] | [H | H]]]; try discriminate; try lia.
    rewrite H1, H2, H3 in Econstr. discriminate.
  - intros H. contradiction.
  - discriminate.
Qed.

Lemma inlineBoundFunction_declines_witness :
  let jit := exampleCollaborators Natives.SequentialExecution false (Nat.eqb 7) in
  let boundTarget := {| Natives.object_id := 1;
                        Natives.is_JSFunction := true;
                        Natives.isInterpretedConstructor := false;
                        Natives.isNativeConstructor := false;
                        Natives.constructHook_is_constructSized := false;
                        Natives.as_SizedTypeDescr :=
                          {| Natives.descr_id := 0; Natives.size := 0;
                             Natives.getClass := PlainObject_class |} |} in
  let target := {| Natives.native := Natives.CallOrConstructBoundFunction;
                   Natives.getBoundFunctionTarget := boundTarget;
                   Natives.getBoundFunctionThis := UndefinedValue;
                   Natives.boundFunctionArguments := [Int32Value 1; ObjectValue 7] |} in
  let b := nativesBuilderAt (siteReturning MIRType_Value false) in
  Natives.inlineBoundFunction jit (callOf (operand 0 MIRType_Object) []) target b
  = (InliningStatus_NotInlined, b).
Proof.
  intros jit boundTarget target b.
  exact (proj2 (proj2 (inlineBoundFunction_declines jit
                         (callOf (operand 0 MIRType_Object) []) target b)) eq_refl).
Defined.

Lemma constant_addedNodes (v : Value) (b : Natives.IonBuilder) :
  Natives.constant v b = (MConstant v, addedNodes [Natives.MDef (MConstant v)] b).
Proof. reflexivity. Qed.

(** The loop over the bound arguments adds one constant per argument, in
    order, and answers those constants. *)
Lemma inlineBoundFunction_boundArguments_spec (vals : list Value) :
  forall b,
    Natives.inlineBoundFunction_boundArguments vals b
    = (map MConstant vals,
       addedNodes (map (fun val => Natives.MDef (MConstant val)) vals) b).
Proof.
  induction vals as [ | val rest IH]; intros b.
  - cbn. now rewrite addedNodes_nil.
  - cbn [Natives.inlineBoundFunction_boundArguments map].
    unfold Natives.bind at 1. rewrite constant_addedNodes.
    unfold Natives.bind at 1. rewrite IH. unfold Natives.ret.
    now rewrite addedNodes_app.
Qed.

(** X13.  A call of a bound function that [inlineBoundFunction] does not
    decline is turned into a call of the bound target: the receiver of the
    native call is flagged as implicitly used; the constants of the target,
    of the bound [this] and of the bound arguments are added in this order;
    and [makeCall] is given the target with, as arguments, the bound
    arguments followed by the arguments of the native call, the count of
    which is within ARGS_LENGTH_MAX.  The answer is Inlined when [makeCall]
    succeeds and Error when it fails.  (The vector of the arguments is
    assumed to be reserved successfully.) *)
Theorem inlineBoundFunction_calls_the_target (jit : Natives.Collaborators)
    (nativeCallInfo : CallInfo) (target : Natives.JSFunction) (b : Natives.IonBuilder) :
  let boundTarget := Natives.getBoundFunctionTarget target in
  let callee := MConstant (ObjectValue (Natives.object_id boundTarget)) in
  let this := MConstant (Natives.getBoundFunctionThis target) in
  let boundArgs := map MConstant (Natives.boundFunctionArguments target) in
  let callInfo := {| fun_ := callee; thisArg := this;
                     argv := boundArgs ++ argv nativeCallInfo;
                     constructing := constructing nativeCallInfo |} in
  let b1 := addedNodes (map Natives.MDef (callee :: this :: boundArgs))
              (snd (Natives.flagImplicitlyUsed [thisArg nativeCallInfo] b)) in
  let called := Natives.makeCall jit boundTarget callInfo false b1 in
  fst (Natives.inlineBoundFunction jit nativeCallInfo target b)
    <> InliningStatus_NotInlined ->
  Natives.reserve jit (argc callInfo) = true ->
  argc callInfo <= Natives.ARGS_LENGTH_MAX jit /\
  Natives.inlineBoundFunction jit nativeCallInfo target b
  = (if fst called then InliningStatus_Inlined else InliningStatus_Error, snd called).
Proof.
  intros boundTarget callee this boundArgs callInfo b1 called Hcommitted Hreserve.
  assert (Hargc : argc callInfo
                  = Natives.getBoundFunctionArgumentCount target + argc nativeCallInfo).
  { unfold argc, callInfo, boundArgs, Natives.getBoundFunctionArgumentCount.
    cbn [argv]. rewrite length_app, length_map. lia. }
  rewrite Hargc in *.
  remember (Natives.inlineBoundFunction jit nativeCallInfo target b) as r eqn:Er.
  unfold Natives.inlineBoundFunction in Er. fold boundTarget in Er.
  destruct (Natives.is_JSFunction boundTarget); cbn [negb] in Er;
    [ | subst r; now contradiction Hcommitted].
  destruct (constructing nativeCallInfo && _ && _);
    [subst r; now contradiction Hcommitted | ].
  destruct (Natives.IsInsideNursery jit _); [subst r; now contradiction Hcommitted | ].
  destruct (existsb _ _); [subst r; now contradiction Hcommitted | ].
  destruct (Natives.isNurseryObject jit _); [subst r; now contradiction Hcommitted | ].
  destruct (Natives.ARGS_LENGTH_MAX jit <? _) eqn:Emax;
    [subst r; now contradiction Hcommitted | ].
  apply Z.ltb_ge in Emax. split; [exact Emax | ].
  rewrite Hreserve in Er. cbn [negb] in Er.
  unfold Natives.bind at 1 in Er.
  change (Natives.flagImplicitlyUsed [thisArg nativeCallInfo] b)
    with (tt, snd (Natives.flagImplicitlyUsed [thisArg nativeCallInfo] b)) in Er.
  cbv iota in Er.
  unfold Natives.bind at 1 in Er. rewrite constant_addedNodes in Er.
  unfold Natives.bind at 1 in Er. rewrite constant_addedNodes in Er.
  unfold Natives.bind at 1 in Er.
  rewrite inlineBoundFunction_boundArguments_spec in Er.
  rewrite !addedNodes_app in Er. unfold Natives.bind at 1 in Er.
  subst called b1 callInfo callee this boundArgs. cbn [map app] in *.
  rewrite map_map.
  match type of Er with
  | context [Natives.makeCall jit ?t ?c false ?b0] =>
      destruct (Natives.makeCall jit t c false b0) as [[ | ] b2]
  end; subst r; reflexivity.
Qed.

Lemma inlineBoundFunction_calls_the_target_witness :
  let jit := exampleCollaborators Natives.SequentialExecution false (fun _ => false) in
  let boundTarget := {| Natives.object_id := 1;
                        Natives.is_JSFunction := true;
                        Natives.isInterpretedConstructor := false;
                        Natives.isNativeConstructor := false;
                        Natives.constructHook_is_constructSized := false;
                        Natives.as_SizedTypeDescr :=
                          {| Natives.descr_id := 0; Natives.size := 0;
                             Natives.getClass := PlainObject_class |} |} in
  let target := {| Natives.native := Natives.CallOrConstructBoundFunction;
                   Natives.getBoundFunctionTarget := boundTarget;
                   Natives.getBoundFunctionThis := UndefinedValue;
                   Natives.boundFunctionArguments := [Int32Value 1; ObjectValue 7] |} in
  let b := nativesBuilderAt (siteReturning MIRType_Value false) in
  let r := Natives.inlineBoundFunction jit
             (callOf (operand 0 MIRType_Object) [operand 5 MIRType_String]) target b in
  fst r = InliningStatus_Inlined /\
  Natives.instructions (Natives.current (snd r))
  = map Natives.MDef [MConstant (ObjectValue 1); MConstant UndefinedValue;
                      MConstant (Int32Value 1); MConstant (ObjectValue 7)].
Proof.
  intros jit boundTarget target b r.
  destruct (inlineBoundFunction_calls_the_target jit
              (callOf (operand 0 MIRType_Object) [operand 5 MIRType_String]) target b)
    as [_ H].
  - discriminate.
  - reflexivity.
  - unfold r. rewrite H. split; reflexivity.
Defined.

(** ** String.prototype.charAt *)

(** X14.  String.charAt(x) = String.fromCharCode(String.charCodeAt(x)): a
    specialised charAt call adds the index conversion, the string length,
    the bounds check and the character access at the checked index, and
    then the conversion of the character code to a string, which it pushes.
    Unlike charCodeAt it never folds a constant receiver and index.  At a
    call that charCodeAt does not fold, the instructions of charAt are those
    charCodeAt adds where an int32 is expected, followed by MFromCharCode of
    the value charCodeAt pushes. *)
Theorem inlineStrCharAt_is_fromCharCode_of_charCodeAt (callInfo : CallInfo)
    (b : Natives.IonBuilder) (c : IonBuilder) :
  fst (Natives.inlineStrCharAt callInfo b) = InliningStatus_Inlined ->
  let index := MToInt32 (getArg callInfo 0) in
  let length := MStringLength (thisArg callInfo) in
  let check := MBoundsCheck index length in
  let charCode := MCharCodeAt (thisArg callInfo) check in
  let string := Natives.MFromCharCode (Natives.MDef charCode) in
  snd (Natives.inlineStrCharAt callInfo b)
  = addedAndPushed (map Natives.MDef [index; length; check; charCode] ++ [string])
      string (flagged callInfo b) /\
  (getInlineReturnType c = MIRType_Int32 -> constantCharCodeAt callInfo = None ->
   exists nodes pushed,
     fst (inlineStrCharCodeAt callInfo c) = InliningStatus_Inlined /\
     instructions (current (snd (inlineStrCharCodeAt callInfo c)))
     = instructions (current c) ++ nodes /\
     stack (current (snd (inlineStrCharCodeAt callInfo c))) = pushed :: stack (current c) /\
     snd (Natives.inlineStrCharAt callInfo b)
     = addedAndPushed (map Natives.MDef nodes ++
                         [Natives.MFromCharCode (Natives.MDef pushed)])
         (Natives.MFromCharCode (Natives.MDef pushed)) (flagged callInfo b)).
Proof.
  intros HI index length check charCode string.
  remember (Natives.inlineStrCharAt callInfo b) as r eqn:Er.
  unfold Natives.inlineStrCharAt in Er.
  destruct (negb (argc callInfo =? 1) || constructing callInfo) eqn:E1;
    [subst r; discriminate | ].
  unfold Natives.bind at 1, Natives.ask at 1 in Er.
  destruct (negb (MIRType_beq (Natives.getInlineReturnType b) MIRType_String));
    [subst r; discriminate | ].
  destruct (negb (MIRType_beq (type (thisArg callInfo)) MIRType_String)) eqn:E2;
    [subst r; discriminate | ].
  destruct (negb (MIRType_beq (type (getArg callInfo 0)) MIRType_Int32) &&
            negb (MIRType_beq (type (getArg callInfo 0)) MIRType_Double)) eqn:E3;
    [subst r; discriminate | ].
  assert (Hr : snd r = addedAndPushed
                         (map Natives.MDef [index; length; check; charCode] ++ [string])
                         string (flagged callInfo b)).
  { subst r. unfold addedAndPushed, flagged. unfold_natives. cbn.
    now rewrite <- !app_assoc. }
  split; [exact Hr | ].
  intros Hret Hfold. exists [index; length; check; charCode], charCode.
  assert (Hc : inlineStrCharCodeAt callInfo c
               = (InliningStatus_Inlined,
                  snd (push charCode
                         (added [index; length; check; charCode]
                            (snd (setImplicitlyUsedUnchecked callInfo c)))))).
  { unfold inlineStrCharCodeAt. rewrite E1.
    unfold bind at 1, ask at 1. rewrite Hret. cbn [MIRType_beq negb].
    rewrite E2. cbn [andb]. rewrite E3.
    unfold bind at 1. rewrite inlineConstantCharCodeAt_eq, Hfold.
    cbn [InliningStatus_beq negb]. unfold_build. cbn.
    now rewrite <- !app_assoc. }
  rewrite Hc. cbn [fst snd]. repeat split; try reflexivity. exact Hr.
Qed.

Lemma inlineStrCharAt_is_fromCharCode_of_charCodeAt_witness :
  let s := MConstant (StringValue (linearString "AB")) in
  let i := MConstant (Int32Value 1) in
  let r := Natives.inlineStrCharAt (callOf s [i])
             (nativesBuilderAt (siteReturning MIRType_String false)) in
  Natives.instructions (Natives.current (snd r))
  = [Natives.MDef (MToInt32 i);
     Natives.MDef (MStringLength s);
     Natives.MDef (MBoundsCheck (MToInt32 i) (MStringLength s));
     Natives.MDef (MCharCodeAt s (MBoundsCheck (MToInt32 i) (MStringLength s)));
     Natives.MFromCharCode
       (Natives.MDef (MCharCodeAt s (MBoundsCheck (MToInt32 i) (MStringLength s))))].
Proof.
  intros s i r.
  destruct (inlineStrCharAt_is_fromCharCode_of_charCodeAt (callOf s [i])
              (nativesBuilderAt (siteReturning MIRType_String false))
              (builderAt (siteReturning MIRType_Int32 false)) eq_refl) as [H _].
  unfold r. rewrite H. reflexivity.
Defined.

(** ** One result is pushed *)

Lemma keepsStack_ret {A : Type} (a : A) : keepsStack (ret a).
Proof. intros b. reflexivity. Qed.

Lemma keepsStack_bind {A B : Type} (m : Build A) (k : A -> Build B) :
  keepsStack m -> (forall a, keepsStack (k a)) -> keepsStack (bind m k).
Proof.
  intros Hm Hk b. unfold bind. specialize (Hm b).
  destruct (m b) as [a b1]. cbn [snd] in Hm. now rewrite Hk.
Qed.

Lemma keepsStack_ask {A : Type} (f : IonBuilder -> A) : keepsStack (ask f).
Proof. intros b. reflexivity. Qed.

Lemma keepsStack_add (ins : MDefinition) : keepsStack (add ins).
Proof. intros b. reflexivity. Qed.

Lemma keepsStack_setImplicitlyUsedUnchecked (callInfo : CallInfo) :
  keepsStack (setImplicitlyUsedUnchecked callInfo).
Proof. intros b. reflexivity. Qed.

Lemma keepsStack_resumeAfter (ins : MDefinition) : keepsStack (resumeAfter ins).
Proof. intros b. unfold resumeAfter. now destruct (resumePointAvailable (pc b)). Qed.

Lemma keepsStack_addBoundsCheck (index length : MDefinition) :
  keepsStack (addBoundsCheck index length).
Proof. intros b. reflexivity. Qed.

Lemma pushesOneCoreResult_ret (status : InliningStatus) :
  status <> InliningStatus_Inlined -> pushesOneCoreResult (ret status).
Proof. intros H b E. now contradiction H. Qed.

Lemma pushesOneCoreResult_bind {A : Type} (m : Build A) (k : A -> Build InliningStatus) :
  keepsStack m -> (forall a, pushesOneCoreResult (k a)) ->
  pushesOneCoreResult (bind m k).
Proof.
  intros Hm Hk b. unfold bind. specialize (Hm b).
  destruct (m b) as [a b1]. cbn [snd] in Hm. rewrite <- Hm. apply Hk.
Qed.

Lemma pushesOneCoreResult_push (def : MDefinition) (k : Build InliningStatus) :
  keepsStack k -> pushesOneCoreResult (bind (push def) (fun _ => k)).
Proof.
  intros Hk b _. exists def. unfold bind. cbn [push withCurrent]. now rewrite Hk.
Qed.

Lemma pushesOneCoreResult_pushConstant (v : Value) (k : bool -> Build InliningStatus) :
  (forall a, keepsStack (k a)) -> pushesOneCoreResult (bind (pushConstant v) k).
Proof.
  intros Hk b _. exists (MConstant v). unfold bind, pushConstant.
  cbn [add push withCurrent bind ret]. now rewrite Hk.
Qed.

Lemma bind_eq {A B : Type} (m : Build A) (k : A -> Build B) (b : IonBuilder) :
  bind m k b = k (fst (m b)) (snd (m b)).
Proof. unfold bind. now destruct (m b). Qed.

Create HintDb keeps_stack discriminated.
Create HintDb pushes_one discriminated.
Create HintDb pushes_one_core discriminated.

#[local] Hint Resolve keepsStack_ret keepsStack_ask keepsStack_add
  keepsStack_setImplicitlyUsedUnchecked keepsStack_resumeAfter
  keepsStack_addBoundsCheck : keeps_stack.

(** Proves that a computation keeps the stack, or that a specialiser pushes
    one result, along the structure of its definition. *)
Ltac keeps_stack :=
  repeat first
    [ apply keepsStack_bind; [ | intros ? ]
    | solve [auto with keeps_stack]
    | match goal with
      | |- keepsStack (match ?c with _ => _ end) => destruct c
      | |- keepsStack (let (_, _) := ?c in _) => destruct c
      end ].

Ltac pushes_one_core :=
  repeat first
    [ apply pushesOneCoreResult_ret; discriminate
    | apply pushesOneCoreResult_push; keeps_stack
    | apply pushesOneCoreResult_pushConstant; intros ?; keeps_stack
    | apply pushesOneCoreResult_bind; [solve [keeps_stack] | intros ? ]
    | match goal with
      | |- pushesOneCoreResult (match ?c with _ => _ end) => destruct c
      | |- pushesOneCoreResult (let (_, _) := ?c in _) => destruct c
      end ].

Section PushesOneCoreResult.

Variable callInfo : CallInfo.

Lemma inlineArraySplice_pushesOne : pushesOneCoreResult (inlineArraySplice callInfo).
Proof. unfold inlineArraySplice. pushes_one_core. Qed.

Lemma inlineArrayJoin_pushesOne : pushesOneCoreResult (inlineArrayJoin callInfo).
Proof. unfold inlineArrayJoin. pushes_one_core. Qed.

Lemma inlineArrayConcat_pushesOne : pushesOneCoreResult (inlineArrayConcat callInfo).
Proof. unfold inlineArrayConcat. pushes_one_core. Qed.

Lemma keepsStack_inlineMathPow_constant (base : MDefinition) (outputType : MIRType)
    (pow : float) :
  keepsStack (inlineMathPow_constant base outputType pow).
Proof. unfold inlineMathPow_constant. keeps_stack. Qed.

Lemma inlineMathPow_pushesOne : pushesOneCoreResult (inlineMathPow callInfo).
Proof.
  pose proof keepsStack_inlineMathPow_constant as Hconstant.
  unfold inlineMathPow. pushes_one_core.
Qed.

Lemma keepsStack_inlineMathMinMax_chain (cases : list MDefinition) (returnType : MIRType)
    (max : bool) (indices : list nat) :
  forall last, keepsStack (inlineMathMinMax_chain cases returnType max indices last).
Proof.
  induction indices as [ | i rest IH]; intros last; cbn [inlineMathMinMax_chain].
  - apply keepsStack_ret.
  - apply keepsStack_bind; [apply keepsStack_add | intros _; apply IH].
Qed.

Lemma inlineMathMinMax_pushesOne (max : bool) :
  pushesOneCoreResult (inlineMathMinMax callInfo max).
Proof.
  intros b HI.
  destruct (inlineMathMinMax_Inlined callInfo max b HI) as [H1 [H2 [ic [rt H3]]]].
  destruct (inlineMathMinMax_commit callInfo max b ic rt H1 H2 H3) as [_ [_ Hstack]].
  eexists. exact Hstack.
Qed.

Lemma keepsStack_inlineHasClass_remaining (object : MDefinition)
    (remaining : list (option Class)) :
  forall last, keepsStack (inlineHasClass_remaining object remaining last).
Proof.
  induction remaining as [ | clasp rest IH]; intros last;
    cbn [inlineHasClass_remaining].
  - apply keepsStack_ret.
  - apply keepsStack_bind; [apply keepsStack_add | intros _].
    apply keepsStack_bind; [apply keepsStack_add | intros _; apply IH].
Qed.

Lemma inlineHasClass_pushesOne (clasp1 clasp2 clasp3 clasp4 : option Class) :
  pushesOneCoreResult (inlineHasClass callInfo clasp1 clasp2 clasp3 clasp4).
Proof.
  pose proof keepsStack_inlineHasClass_remaining as Hremaining.
  unfold inlineHasClass. pushes_one_core.
  intros b _. unfold bind at 1.
  match goal with |- context [if negb (isNull ?k) then _ else _] => destruct (negb (isNull k)) end.
  - eexists. reflexivity.
  - unfold bind at 1. cbn [add withCurrent].
    destruct (isNull clasp2 && isNull clasp3 && isNull clasp4).
    + eexists. reflexivity.
    + unfold bind at 1.
      match goal with
      | |- context [inlineHasClass_remaining ?o ?r ?l ?b0] =>
          pose proof (Hremaining o r l b0) as Hstack;
          destruct (inlineHasClass_remaining o r l b0) as [last b1]
      end.
      cbn [snd] in Hstack. eexists. cbn. rewrite Hstack. reflexivity.
Qed.

Lemma keepsStack_addTypedArrayLengthAndData (obj index : MDefinition) :
  keepsStack (addTypedArrayLengthAndData obj index).
Proof. unfold addTypedArrayLengthAndData. keeps_stack. Qed.

Lemma keepsStack_atomicsCheckBounds : keepsStack (atomicsCheckBounds callInfo).
Proof. apply keepsStack_addTypedArrayLengthAndData. Qed.

Lemma keepsStack_truncatedToWrite (value : MDefinition) :
  keepsStack (truncatedToWrite value).
Proof. unfold truncatedToWrite. keeps_stack. Qed.

Lemma inlineAtomicsLoad_pushesOne : pushesOneCoreResult (inlineAtomicsLoad callInfo).
Proof.
  pose proof keepsStack_atomicsCheckBounds. pose proof keepsStack_truncatedToWrite.
  unfold inlineAtomicsLoad. pushes_one_core.
Qed.

Lemma inlineAtomicsStore_pushesOne : pushesOneCoreResult (inlineAtomicsStore callInfo).
Proof.
  pose proof keepsStack_atomicsCheckBounds. pose proof keepsStack_truncatedToWrite.
  unfold inlineAtomicsStore. pushes_one_core.
Qed.

Lemma inlineAtomicsCompareExchange_pushesOne :
  pushesOneCoreResult (inlineAtomicsCompareExchange callInfo).
Proof.
  pose proof keepsStack_atomicsCheckBounds. pose proof keepsStack_truncatedToWrite.
  unfold inlineAtomicsCompareExchange. pushes_one_core.
Qed.

Lemma inlineAtomicsBinop_pushesOne (op : AtomicsBinopNative) :
  pushesOneCoreResult (inlineAtomicsBinop callInfo op).
Proof.
  pose proof keepsStack_atomicsCheckBounds. pose proof keepsStack_truncatedToWrite.
  unfold inlineAtomicsBinop. pushes_one_core.
Qed.

Lemma inlineStrCharCodeAt_pushesOne : pushesOneCoreResult (inlineStrCharCodeAt callInfo).
Proof.
  unfold inlineStrCharCodeAt. pushes_one_core.
  intros b. rewrite bind_eq, inlineConstantCharCodeAt_eq.
  destruct (constantCharCodeAt callInfo) as [ch | ]; cbn [fst snd].
  - intros _. eexists. reflexivity.
  - cbn [InliningStatus_beq negb]. revert b. pushes_one_core.
Qed.

End PushesOneCoreResult.

Lemma keepsStackOfNatives_ret {A : Type} (a : A) : keepsStackOfNatives (Natives.ret a).
Proof. intros b. reflexivity. Qed.

Lemma keepsStackOfNatives_bind {A B : Type} (m : Natives.Build A)
    (k : A -> Natives.Build B) :
  keepsStackOfNatives m -> (forall a, keepsStackOfNatives (k a)) ->
  keepsStackOfNatives (Natives.bind m k).
Proof.
  intros Hm Hk b. unfold Natives.bind. specialize (Hm b).
  destruct (m b) as [a b1]. cbn [snd] in Hm. now rewrite Hk.
Qed.

Lemma keepsStackOfNatives_ask {A : Type} (f : Natives.IonBuilder -> A) :
  keepsStackOfNatives (Natives.ask f).
Proof. intros b. reflexivity. Qed.

Lemma keepsStackOfNatives_add (ins : Natives.MNode) : keepsStackOfNatives (Natives.add ins).
Proof. intros b. reflexivity. Qed.

Lemma keepsStackOfNatives_flagImplicitlyUsed (defs : list MDefinition) :
  keepsStackOfNatives (Natives.flagImplicitlyUsed defs).
Proof. intros b. reflexivity. Qed.

Lemma keepsStackOfNatives_setImplicitlyUsedUnchecked (callInfo : CallInfo) :
  keepsStackOfNatives (Natives.setImplicitlyUsedUnchecked callInfo).
Proof. intros b. reflexivity. Qed.

Lemma keepsStackOfNatives_resumeAfter (ins : Natives.MNode) :
  keepsStackOfNatives (Natives.resumeAfter ins).
Proof.
  intros b. unfold Natives.resumeAfter.
  now destruct (resumePointAvailable (Natives.pc b)).
Qed.

Lemma keepsStackOfNatives_addBoundsCheck (index length : MDefinition) :
  keepsStackOfNatives (Natives.addBoundsCheck index length).
Proof. intros b. reflexivity. Qed.

Lemma keepsStackOfNatives_freeze (key : types.HeapTypeSetKey) :
  keepsStackOfNatives (Natives.freeze key).
Proof. intros b. reflexivity. Qed.

Lemma keepsStackOfNatives_addType (t : types.Type_) :
  keepsStackOfNatives (Natives.addType t).
Proof. intros b. reflexivity. Qed.

Lemma keepsStackOfNatives_setShouldConvertDoubleElements (flag : bool) :
  keepsStackOfNatives (Natives.setShouldConvertDoubleElements flag).
Proof. intros b. reflexivity. Qed.

Lemma pushesOneResult_ret (status : InliningStatus) :
  status <> InliningStatus_Inlined -> pushesOneResult (Natives.ret status).
Proof. intros H b E. now contradiction H. Qed.

Lemma pushesOneResult_bind {A : Type} (m : Natives.Build A)
    (k : A -> Natives.Build InliningStatus) :
  keepsStackOfNatives m -> (forall a, pushesOneResult (k a)) ->
  pushesOneResult (Natives.bind m k).
Proof.
  intros Hm Hk b. unfold Natives.bind. specialize (Hm b).
  destruct (m b) as [a b1]. cbn [snd] in Hm. rewrite <- Hm. apply Hk.
Qed.

Lemma pushesOneResult_push (def : Natives.MNode) (k : Natives.Build InliningStatus) :
  keepsStackOfNatives k -> pushesOneResult (Natives.bind (Natives.push def) (fun _ => k)).
Proof.
  intros Hk b _. exists def. unfold Natives.bind.
  cbn [Natives.push Natives.withCurrent]. now rewrite Hk.
Qed.

Lemma pushesOneResult_pushConstant (v : Value) (k : bool -> Natives.Build InliningStatus) :
  (forall a, keepsStackOfNatives (k a)) ->
  pushesOneResult (Natives.bind (Natives.pushConstant v) k).
Proof.
  intros Hk b _. exists (Natives.MDef (MConstant v)).
  unfold Natives.bind, Natives.pushConstant.
  cbn [Natives.add Natives.push Natives.withCurrent Natives.bind Natives.ret].
  now rewrite Hk.
Qed.

#[local] Hint Resolve keepsStackOfNatives_ret keepsStackOfNatives_ask
  keepsStackOfNatives_add keepsStackOfNatives_flagImplicitlyUsed
  keepsStackOfNatives_setImplicitlyUsedUnchecked keepsStackOfNatives_resumeAfter
  keepsStackOfNatives_addBoundsCheck keepsStackOfNatives_freeze
  keepsStackOfNatives_addType keepsStackOfNatives_setShouldConvertDoubleElements
  : keeps_stack.

Ltac keeps_stack_of_natives :=
  repeat first
    [ apply keepsStackOfNatives_bind; [ | intros ? ]
    | solve [auto with keeps_stack]
    | match goal with
      | |- keepsStackOfNatives (match ?c with _ => _ end) => destruct c
      | |- keepsStackOfNatives (let (_, _) := ?c in _) => destruct c
      end ].

Ltac pushes_one :=
  repeat first
    [ apply pushesOneResult_ret; discriminate
    | apply pushesOneResult_push; keeps_stack_of_natives
    | apply pushesOneResult_pushConstant; intros ?; keeps_stack_of_natives
    | apply pushesOneResult_bind; [solve [keeps_stack_of_natives] | intros ? ]
    | match goal with
      | |- pushesOneResult (match ?c with _ => _ end) => destruct c
      | |- pushesOneResult (let (_, _) := ?c in _) => destruct c
      end ].

Section PushesOneResult.

Variable jit : Natives.Collaborators.
Variable callInfo : CallInfo.

Lemma inlineMathFunction_pushesOne (function : Natives.MMathFunction.Function) :
  pushesOneResult (Natives.inlineMathFunction jit callInfo function).
Proof. unfold Natives.inlineMathFunction. pushes_one. Qed.

Lemma inlineMathAbs_pushesOne : pushesOneResult (Natives.inlineMathAbs callInfo).
Proof. unfold Natives.inlineMathAbs. pushes_one. Qed.

Lemma inlineMathFloor_pushesOne : pushesOneResult (Natives.inlineMathFloor callInfo).
Proof. unfold Natives.inlineMathFloor. pushes_one. Qed.

Lemma inlineMathCeil_pushesOne : pushesOneResult (Natives.inlineMathCeil callInfo).
Proof. unfold Natives.inlineMathCeil. pushes_one. Qed.

Lemma inlineMathRound_pushesOne : pushesOneResult (Natives.inlineMathRound callInfo).
Proof. unfold Natives.inlineMathRound. pushes_one. Qed.

Lemma inlineMathClz32_pushesOne : pushesOneResult (Natives.inlineMathClz32 callInfo).
Proof. unfold Natives.inlineMathClz32. pushes_one. Qed.

Lemma inlineMathSqrt_pushesOne : pushesOneResult (Natives.inlineMathSqrt callInfo).
Proof. unfold Natives.inlineMathSqrt. pushes_one. Qed.

Lemma inlineMathAtan2_pushesOne : pushesOneResult (Natives.inlineMathAtan2 callInfo).
Proof. unfold Natives.inlineMathAtan2. pushes_one. Qed.

Lemma inlineMathHypot_pushesOne : pushesOneResult (Natives.inlineMathHypot callInfo).
Proof. unfold Natives.inlineMathHypot. pushes_one. Qed.

Lemma inlineMathRandom_pushesOne : pushesOneResult (Natives.inlineMathRandom callInfo).
Proof. unfold Natives.inlineMathRandom. pushes_one. Qed.

Lemma inlineMathImul_pushesOne : pushesOneResult (Natives.inlineMathImul callInfo).
Proof. unfold Natives.inlineMathImul. pushes_one. Qed.

Lemma inlineMathFRound_pushesOne : pushesOneResult (Natives.inlineMathFRound jit callInfo).
Proof. unfold Natives.inlineMathFRound. pushes_one. Qed.

Lemma inlineStringObject_pushesOne :
  pushesOneResult (Natives.inlineStringObject jit callInfo).
Proof. unfold Natives.inlineStringObject. pushes_one. Qed.

Lemma inlineStringSplit_pushesOne :
  pushesOneResult (Natives.inlineStringSplit jit callInfo).
Proof. unfold Natives.inlineStringSplit. pushes_one. Qed.

Lemma inlineStrFromCharCode_pushesOne :
  pushesOneResult (Natives.inlineStrFromCharCode callInfo).
Proof. unfold Natives.inlineStrFromCharCode. pushes_one. Qed.

Lemma inlineStrCharAt_pushesOne : pushesOneResult (Natives.inlineStrCharAt callInfo).
Proof. unfold Natives.inlineStrCharAt. pushes_one. Qed.

Lemma inlineRegExpTest_pushesOne :
  pushesOneResult (Natives.inlineRegExpTest jit callInfo).
Proof. unfold Natives.inlineRegExpTest. pushes_one. Qed.

Lemma inlineStrReplace_pushesOne :
  pushesOneResult (Natives.inlineStrReplace jit callInfo).
Proof. unfold Natives.inlineStrReplace. pushes_one. Qed.

Lemma inlineForceSequentialOrInParallelSection_pushesOne :
  pushesOneResult (Natives.inlineForceSequentialOrInParallelSection jit callInfo).
Proof. unfold Natives.inlineForceSequentialOrInParallelSection. pushes_one. Qed.

Lemma inlineForkJoinGetSlice_pushesOne :
  pushesOneResult (Natives.inlineForkJoinGetSlice jit callInfo).
Proof. unfold Natives.inlineForkJoinGetSlice. pushes_one. Qed.

Lemma inlineNewDenseArray_pushesOne :
  pushesOneResult (Natives.inlineNewDenseArray jit callInfo).
Proof.
  unfold Natives.inlineNewDenseArray, Natives.inlineNewDenseArrayForParallelExecution,
    Natives.inlineNewDenseArrayForSequentialExecution.
  pushes_one.
Qed.

Lemma inlineObjectIsTypeDescr_pushesOne :
  pushesOneResult (Natives.inlineObjectIsTypeDescr jit callInfo).
Proof. unfold Natives.inlineObjectIsTypeDescr. pushes_one. Qed.

Lemma inlineSetTypedObjectOffset_pushesOne :
  pushesOneResult (Natives.inlineSetTypedObjectOffset jit callInfo).
Proof. unfold Natives.inlineSetTypedObjectOffset. pushes_one. Qed.

Lemma inlineUnsafeSetReservedSlot_pushesOne :
  pushesOneResult (Natives.inlineUnsafeSetReservedSlot jit callInfo).
Proof. unfold Natives.inlineUnsafeSetReservedSlot. pushes_one. Qed.

Lemma inlineHaveSameClass_pushesOne :
  pushesOneResult (Natives.inlineHaveSameClass callInfo).
Proof. unfold Natives.inlineHaveSameClass. pushes_one. Qed.

Lemma inlineIsCallable_pushesOne :
  pushesOneResult (Natives.inlineIsCallable jit callInfo).
Proof. unfold Natives.inlineIsCallable. pushes_one. Qed.

Lemma inlineIsObject_pushesOne : pushesOneResult (Natives.inlineIsObject callInfo).
Proof. unfold Natives.inlineIsObject. pushes_one. Qed.

Lemma inlineToObject_pushesOne : pushesOneResult (Natives.inlineToObject callInfo).
Proof. unfold Natives.inlineToObject. pushes_one. Qed.

Lemma inlineToInteger_pushesOne :
  pushesOneResult (Natives.inlineToInteger jit callInfo).
Proof. unfold Natives.inlineToInteger. pushes_one. Qed.

Lemma inlineToString_pushesOne : pushesOneResult (Natives.inlineToString callInfo).
Proof. unfold Natives.inlineToString. pushes_one. Qed.

Lemma inlineIsConstructing_pushesOne :
  pushesOneResult (Natives.inlineIsConstructing jit callInfo).
Proof. unfold Natives.inlineIsConstructing. pushes_one. Qed.

Lemma inlineBailout_pushesOne : pushesOneResult (Natives.inlineBailout callInfo).
Proof. unfold Natives.inlineBailout. pushes_one. Qed.

Lemma inlineAssertFloat32_pushesOne :
  pushesOneResult (Natives.inlineAssertFloat32 callInfo).
Proof. unfold Natives.inlineAssertFloat32. pushes_one. Qed.

Lemma inlineAtomicsFence_pushesOne : pushesOneResult (Natives.inlineAtomicsFence callInfo).
Proof. unfold Natives.inlineAtomicsFence. pushes_one. Qed.

Lemma keepsStackOfNatives_inlineArray_initLength (templateObject : NativeObject) :
  keepsStackOfNatives (Natives.inlineArray_initLength jit callInfo templateObject).
Proof. unfold Natives.inlineArray_initLength. keeps_stack_of_natives. Qed.

Lemma keepsStackOfNatives_inlineArray_stores (ins elements : Natives.MNode)
    (conversion : types.DoubleConversion) (values : list MDefinition) :
  forall i id,
    keepsStackOfNatives (Natives.inlineArray_stores ins elements conversion values i id).
Proof.
  induction values as [ | value rest IH]; intros i id;
    cbn [Natives.inlineArray_stores].
  - apply keepsStackOfNatives_ret.
  - pose proof IH. keeps_stack_of_natives.
Qed.

Lemma inlineArray_pushesOne : pushesOneResult (Natives.inlineArray jit callInfo).
Proof.
  pose proof keepsStackOfNatives_inlineArray_initLength.
  pose proof keepsStackOfNatives_inlineArray_stores.
  unfold Natives.inlineArray. pushes_one.
Qed.

Lemma inlineConstructTypedObject_pushesOne (descr : Natives.SizedTypeDescr) :
  pushesOneResult (Natives.inlineConstructTypedObject jit callInfo descr).
Proof. unfold Natives.inlineConstructTypedObject. pushes_one. Qed.

Lemma inlineNonFunctionCall_pushesOne (target : Natives.JSObject) :
  pushesOneResult (Natives.inlineNonFunctionCall jit callInfo target).
Proof.
  unfold Natives.inlineNonFunctionCall.
  destruct (constructing callInfo && _).
  - apply inlineConstructTypedObject_pushesOne.
  - apply pushesOneResult_ret. discriminate.
Qed.

(** A specialiser of the first part that pushes one result pushes one
    result on the stack of this module too. *)
Lemma liftCore_pushesOne (inline : Build InliningStatus) :
  pushesOneCoreResult inline -> pushesOneResult (Natives.liftCore inline).
Proof.
  intros Hc b. unfold Natives.liftCore.
  specialize (Hc (builderAt (Natives.pc b))).
  destruct (inline (builderAt (Natives.pc b))) as [status c].
  cbn [fst snd] in *. intros ->. destruct (Hc eq_refl) as [result Hresult].
  exists (Natives.MDef result). unfold Natives.coreStack. now rewrite Hresult.
Qed.

End PushesOneResult.

#[local] Hint Resolve inlineArraySplice_pushesOne inlineArrayJoin_pushesOne
  inlineArrayConcat_pushesOne inlineMathPow_pushesOne inlineMathMinMax_pushesOne
  inlineHasClass_pushesOne inlineAtomicsLoad_pushesOne inlineAtomicsStore_pushesOne
  inlineAtomicsCompareExchange_pushesOne inlineAtomicsBinop_pushesOne
  inlineStrCharCodeAt_pushesOne : pushes_one_core.

#[local] Hint Resolve inlineMathFunction_pushesOne inlineMathAbs_pushesOne
  inlineMathFloor_pushesOne inlineMathCeil_pushesOne inlineMathRound_pushesOne
  inlineMathClz32_pushesOne inlineMathSqrt_pushesOne inlineMathAtan2_pushesOne
  inlineMathHypot_pushesOne inlineMathRandom_pushesOne inlineMathImul_pushesOne
  inlineMathFRound_pushesOne inlineStringObject_pushesOne inlineStringSplit_pushesOne
  inlineStrFromCharCode_pushesOne inlineStrCharAt_pushesOne inlineRegExpTest_pushesOne
  inlineStrReplace_pushesOne inlineForceSequentialOrInParallelSection_pushesOne
  inlineForkJoinGetSlice_pushesOne inlineNewDenseArray_pushesOne
  inlineObjectIsTypeDescr_pushesOne inlineSetTypedObjectOffset_pushesOne
  inlineUnsafeSetReservedSlot_pushesOne inlineHaveSameClass_pushesOne
  inlineIsCallable_pushesOne inlineIsObject_pushesOne inlineToObject_pushesOne
  inlineToInteger_pushesOne inlineToString_pushesOne inlineIsConstructing_pushesOne
  inlineBailout_pushesOne inlineAssertFloat32_pushesOne inlineAtomicsFence_pushesOne
  inlineArray_pushesOne inlineNonFunctionCall_pushesOne : pushes_one.

Lemma returned_pushesOneResult (inline : Natives.Build InliningStatus) :
  pushesOneResult inline -> dispatchPushesOneResult (Natives.returned inline).
Proof.
  intros Hp b. specialize (Hp b). unfold Natives.returned, Natives.bind, Natives.ret.
  destruct (inline b) as [status b1]. cbn [fst snd] in *.
  intros H. apply Hp. congruence.
Qed.

(** X15.  Whenever [inlineNativeCall] answers Inlined for a native whose
    specialiser emits everything itself, exactly one value has been pushed
    on the stack of the current block: the value the call evaluates to.  The
    same holds of the construct hook of typed objects
    ([inlineNonFunctionCall]).  (Left out are the natives that emit through
    [pushTypeBarrier], [addMaybeCopyElementsForWrite], [makeCall] or the
    emitters of element stores, none of which is in MCallOptimize.cpp.) *)
Theorem inlineNativeCall_pushes_one_result (jit : Natives.Collaborators)
    (callInfo : CallInfo) (target : Natives.JSFunction) (object : Natives.JSObject) :
  (emitsThroughCollaborators (Natives.native target) = false ->
   dispatchPushesOneResult (Natives.inlineNativeCall jit callInfo target)) /\
  pushesOneResult (Natives.inlineNonFunctionCall jit callInfo object).
Proof.
  split; [ | auto with pushes_one].
  unfold Natives.inlineNativeCall.
  destruct (Natives.inlineNative jit); cbn [negb];
    [ | intros _; apply returned_pushesOneResult, pushesOneResult_ret; discriminate].
  destruct (Natives.native target); cbn [emitsThroughCollaborators];
    intros Hself; try discriminate Hself; apply returned_pushesOneResult;
    try (apply liftCore_pushesOne; auto with pushes_one_core);
    auto with pushes_one.
  apply pushesOneResult_ret. discriminate.
Qed.

(** ** The class predicates of typed objects *)

(** A class predicate over an object of known class pushes the constant of
    the membership. *)
Lemma inlineHasClass_known_class_result (callInfo : CallInfo)
    (clasp1 clasp2 clasp3 clasp4 : option Class) (argTypes : types.TemporaryTypeSet)
    (k : Class) (b : Natives.IonBuilder) :
  constructing callInfo = false -> argc callInfo = 1 ->
  type (getArg callInfo 0) = MIRType_Object ->
  resultTypeSet (getArg callInfo 0) = Some argTypes ->
  types.getKnownClass argTypes = Some k ->
  Natives.getInlineReturnType b = MIRType_Boolean ->
  resultOf (Natives.liftCore (inlineHasClass callInfo clasp1 clasp2 clasp3 clasp4) b)
  = Some (Natives.MDef (MConstant (BooleanValue
            (clasp_eqb (Some k) clasp1 || clasp_eqb (Some k) clasp2 ||
             clasp_eqb (Some k) clasp3 || clasp_eqb (Some k) clasp4)))).
Proof.
  intros Hc Hargc Htype Hts Hk Hret.
  unfold resultOf, Natives.liftCore, inlineHasClass.
  rewrite Hc, Hargc, Htype, Hts, Hk. cbn [orb negb Z.eqb Pos.eqb MIRType_beq].
  unfold bind at 1, ask at 1.
  change (getInlineReturnType (builderAt (Natives.pc b)))
    with (Natives.getInlineReturnType b).
  rewrite Hret. reflexivity.
Qed.

Lemma resultOf_returned (inline : Natives.Build InliningStatus)
    (b : Natives.IonBuilder) :
  resultOf (Natives.returned inline b) = resultOf (inline b).
Proof.
  unfold resultOf, Natives.returned, Natives.bind, Natives.ret.
  now destruct (inline b).
Qed.

(** X16.  The class predicates of typed objects that [inlineNativeCall]
    folds for an object of statically known class agree with each other: an
    object is a typed object exactly when it is a transparent or an opaque
    one, and never both; a type descriptor is an array type exactly when it
    is a sized or an unsized array type, and never both. *)
Theorem typed_object_predicates_agree (jit : Natives.Collaborators)
    (callInfo : CallInfo) (target : Natives.JSFunction)
    (argTypes : types.TemporaryTypeSet) (k : Class) (b : Natives.IonBuilder) :
  Natives.inlineNative jit = true ->
  constructing callInfo = false -> argc callInfo = 1 ->
  type (getArg callInfo 0) = MIRType_Object ->
  resultTypeSet (getArg callInfo 0) = Some argTypes ->
  types.getKnownClass argTypes = Some k ->
  Natives.getInlineReturnType b = MIRType_Boolean ->
  let answer := fun native =>
    resultOf (Natives.inlineNativeCall jit callInfo (withNative target native) b) in
  let constant := fun t : bool => Some (Natives.MDef (MConstant (BooleanValue t))) in
  exists isTyped isTransparent isOpaque isArray isSized isUnsized,
    answer Natives.intrinsic_ObjectIsTypedObject = constant isTyped /\
    answer Natives.intrinsic_ObjectIsTransparentTypedObject = constant isTransparent /\
    answer Natives.intrinsic_ObjectIsOpaqueTypedObject = constant isOpaque /\
    answer Natives.intrinsic_TypeDescrIsArrayType = constant isArray /\
    answer Natives.intrinsic_TypeDescrIsSizedArrayType = constant isSized /\
    answer Natives.intrinsic_TypeDescrIsUnsizedArrayType = constant isUnsized /\
    isTyped = isTransparent || isOpaque /\ isTransparent && isOpaque = false /\
    isArray = isSized || isUnsized /\ isSized && isUnsized = false.
Proof.
  intros Hnative Hc Hargc Htype Hts Hk Hret answer constant.
  subst answer constant. unfold Natives.inlineNativeCall, withNative.
  cbn [Natives.native]. rewrite Hnative. cbn [negb].
  rewrite !resultOf_returned.
  rewrite !(inlineHasClass_known_class_result callInfo _ _ _ _ argTypes k b
              Hc Hargc Htype Hts Hk Hret).
  do 6 eexists. repeat (split; [reflexivity | ]).
  destruct k; repeat split; reflexivity.
Qed.

Lemma typed_object_predicates_agree_witness :
  let jit := exampleCollaborators Natives.SequentialExecution false (fun _ => false) in
  let callInfo := callOf (operand 0 MIRType_Object)
                    [objectOfClass 1 InlineOpaqueTypedObject_class] in
  let target := {| Natives.native := Natives.intrinsic_ObjectIsTypedObject;
                   Natives.getBoundFunctionTarget :=
                     {| Natives.object_id := 0; Natives.is_JSFunction := false;
                        Natives.isInterpretedConstructor := false;
                        Natives.isNativeConstructor := false;
                        Natives.constructHook_is_constructSized := false;
                        Natives.as_SizedTypeDescr :=
                          {| Natives.descr_id := 0; Natives.size := 0;
                             Natives.getClass := PlainObject_class |} |};
                   Natives.getBoundFunctionThis := UndefinedValue;
                   Natives.boundFunctionArguments := [] |} in
  let b := nativesBuilderAt (siteReturning MIRType_Boolean false) in
  exists isTransparent isOpaque,
    resultOf (Natives.inlineNativeCall jit callInfo
                (withNative target Natives.intrinsic_ObjectIsTransparentTypedObject) b)
    = Some (Natives.MDef (MConstant (BooleanValue isTransparent))) /\
    resultOf (Natives.inlineNativeCall jit callInfo
                (withNative target Natives.intrinsic_ObjectIsOpaqueTypedObject) b)
    = Some (Natives.MDef (MConstant (BooleanValue isOpaque))) /\
    isTransparent && isOpaque = false.
Proof.
  intros jit callInfo target b.
  destruct (typed_object_predicates_agree jit callInfo target
              (typeSetOfClass InlineOpaqueTypedObject_class)
              InlineOpaqueTypedObject_class b
              eq_refl eq_refl eq_refl eq_refl eq_refl eq_refl eq_refl)
    as [isTyped [isTransparent [isOpaque [isArray [isSized [isUnsized
         [_ [Ht [Ho [_ [_ [_ [_ [Hdisjoint _]]]]]]]]]]]]]].
  exists isTransparent, isOpaque. repeat split; assumption.
Defined.

(** ** Failing comes after emitting *)

Lemma keepsInstructions_ret {A : Type} (a : A) : keepsInstructions (Natives.ret a).
Proof. intros b. reflexivity. Qed.

Lemma keepsInstructions_bind {A B : Type} (m : Natives.Build A)
    (k : A -> Natives.Build B) :
  keepsInstructions m -> (forall a, keepsInstructions (k a)) ->
  keepsInstructions (Natives.bind m k).
Proof.
  intros Hm Hk b. unfold Natives.bind. specialize (Hm b).
  destruct (m b) as [a b1]. cbn [snd] in Hm. now rewrite Hk.
Qed.

Lemma keepsInstructions_ask {A : Type} (f : Natives.IonBuilder -> A) :
  keepsInstructions (Natives.ask f).
Proof. intros b. reflexivity. Qed.

Lemma keepsInstructions_push (def : Natives.MNode) : keepsInstructions (Natives.push def).
Proof. intros b. reflexivity. Qed.

Lemma keepsInstructions_flagImplicitlyUsed (defs : list MDefinition) :
  keepsInstructions (Natives.flagImplicitlyUsed defs).
Proof. intros b. reflexivity. Qed.

Lemma keepsInstructions_setImplicitlyUsedUnchecked (callInfo : CallInfo) :
  keepsInstructions (Natives.setImplicitlyUsedUnchecked callInfo).
Proof. intros b. reflexivity. Qed.

Lemma keepsInstructions_resumeAfter (ins : Natives.MNode) :
  keepsInstructions (Natives.resumeAfter ins).
Proof.
  intros b. unfold Natives.resumeAfter.
  now destruct (resumePointAvailable (Natives.pc b)).
Qed.

Lemma keepsInstructions_freeze (key : types.HeapTypeSetKey) :
  keepsInstructions (Natives.freeze key).
Proof. intros b. reflexivity. Qed.

Lemma keepsInstructions_addType (t : types.Type_) : keepsInstructions (Natives.addType t).
Proof. intros b. reflexivity. Qed.

Lemma keepsInstructions_setShouldConvertDoubleElements (flag : bool) :
  keepsInstructions (Natives.setShouldConvertDoubleElements flag).
Proof. intros b. reflexivity. Qed.

Lemma extendsInstructions_keeps {A : Type} (m : Natives.Build A) :
  keepsInstructions m -> extendsInstructions m.
Proof. intros Hm b. exists []. now rewrite app_nil_r. Qed.

Lemma extendsInstructions_add (ins : Natives.MNode) : extendsInstructions (Natives.add ins).
Proof. intros b. now exists [ins]. Qed.

Lemma extendsInstructions_bind {A B : Type} (m : Natives.Build A)
    (k : A -> Natives.Build B) :
  extendsInstructions m -> (forall a, extendsInstructions (k a)) ->
  extendsInstructions (Natives.bind m k).
Proof.
  intros Hm Hk b. unfold Natives.bind. destruct (Hm b) as [xs Hxs].
  destruct (m b) as [a b1]. cbn [snd] in Hxs.
  destruct (Hk a b1) as [ys Hys]. exists (xs ++ ys).
  now rewrite Hys, Hxs, app_assoc.
Qed.

Lemma failsOnlyAfterEmitting_ret (status : InliningStatus) :
  status <> InliningStatus_Error -> failsOnlyAfterEmitting (Natives.ret status).
Proof. intros H b E. now contradiction H. Qed.

Lemma failsOnlyAfterEmitting_bind {A : Type} (m : Natives.Build A)
    (k : A -> Natives.Build InliningStatus) :
  keepsInstructions m -> (forall a, failsOnlyAfterEmitting (k a)) ->
  failsOnlyAfterEmitting (Natives.bind m k).
Proof.
  intros Hm Hk b. unfold Natives.bind. specialize (Hm b).
  destruct (m b) as [a b1]. cbn [snd] in Hm. rewrite <- Hm. apply Hk.
Qed.

Lemma failsOnlyAfterEmitting_add (ins : Natives.MNode)
    (k : Natives.Build InliningStatus) :
  extendsInstructions k ->
  failsOnlyAfterEmitting (Natives.bind (Natives.add ins) (fun _ => k)).
Proof.
  intros Hk b _. unfold Natives.bind. cbn [Natives.add Natives.withCurrent].
  match goal with |- context [k ?b1] => destruct (Hk b1) as [nodes Hnodes] end.
  rewrite Hnodes. cbn. rewrite <- app_assoc. apply app_cons_neq.
Qed.

Lemma extendsInstructions_pushConstant (v : Value) :
  extendsInstructions (Natives.pushConstant v).
Proof. intros b. now exists [Natives.MDef (MConstant v)]. Qed.

Lemma extendsInstructions_addBoundsCheck (index length : MDefinition) :
  extendsInstructions (Natives.addBoundsCheck index length).
Proof. intros b. now exists [Natives.MDef (MBoundsCheck index length)]. Qed.

Lemma failsOnlyAfterEmitting_pushConstant (v : Value)
    (k : bool -> Natives.Build InliningStatus) :
  (forall a, extendsInstructions (k a)) ->
  failsOnlyAfterEmitting (Natives.bind (Natives.pushConstant v) k).
Proof.
  intros Hk b _. unfold Natives.bind, Natives.pushConstant.
  cbn [Natives.add Natives.push Natives.withCurrent Natives.bind Natives.ret].
  match goal with |- context [k ?a ?b1] => destruct (Hk a b1) as [nodes Hnodes] end.
  rewrite Hnodes. cbn. rewrite <- app_assoc. apply app_cons_neq.
Qed.

Create HintDb instructions discriminated.

#[local] Hint Resolve keepsInstructions_ret keepsInstructions_ask keepsInstructions_push
  keepsInstructions_flagImplicitlyUsed keepsInstructions_setImplicitlyUsedUnchecked
  keepsInstructions_resumeAfter keepsInstructions_freeze keepsInstructions_addType
  keepsInstructions_setShouldConvertDoubleElements extendsInstructions_add
  extendsInstructions_pushConstant extendsInstructions_addBoundsCheck
  : instructions.

Ltac keeps_instructions :=
  repeat first
    [ apply keepsInstructions_bind; [ | intros ? ]
    | solve [auto with instructions]
    | match goal with
      | |- keepsInstructions (match ?c with _ => _ end) => destruct c
      | |- keepsInstructions (let (_, _) := ?c in _) => destruct c
      end ].

Ltac extends_instructions :=
  repeat first
    [ solve [auto with instructions]
    | solve [apply extendsInstructions_keeps; keeps_instructions]
    | apply extendsInstructions_bind; [ | intros ? ]
    | match goal with
      | |- extendsInstructions (match ?c with _ => _ end) => destruct c
      | |- extendsInstructions (let (_, _) := ?c in _) => destruct c
      end ].

Ltac fails_late :=
  repeat first
    [ apply failsOnlyAfterEmitting_ret; discriminate
    | apply failsOnlyAfterEmitting_add; extends_instructions
    | apply failsOnlyAfterEmitting_pushConstant; intros ?; extends_instructions
    | apply failsOnlyAfterEmitting_bind; [solve [keeps_instructions] | intros ? ]
    | match goal with
      | |- failsOnlyAfterEmitting (match ?c with _ => _ end) => destruct c
      | |- failsOnlyAfterEmitting (let (_, _) := ?c in _) => destruct c
      end ].

Section FailsOnlyAfterEmitting.

Variable jit : Natives.Collaborators.
Variable callInfo : CallInfo.

Lemma inlineMathFunction_failsLate (function : Natives.MMathFunction.Function) :
  failsOnlyAfterEmitting (Natives.inlineMathFunction jit callInfo function).
Proof. unfold Natives.inlineMathFunction. fails_late. Qed.

Lemma inlineStringObject_failsLate :
  failsOnlyAfterEmitting (Natives.inlineStringObject jit callInfo).
Proof. unfold Natives.inlineStringObject. fails_late. Qed.

Lemma inlineMathFRound_failsLate :
  failsOnlyAfterEmitting (Natives.inlineMathFRound jit callInfo).
Proof. unfold Natives.inlineMathFRound. fails_late. Qed.

Lemma inlineStringSplit_failsLate :
  failsOnlyAfterEmitting (Natives.inlineStringSplit jit callInfo).
Proof. unfold Natives.inlineStringSplit. fails_late. Qed.

Lemma inlineStrReplace_failsLate :
  failsOnlyAfterEmitting (Natives.inlineStrReplace jit callInfo).
Proof. unfold Natives.inlineStrReplace. fails_late. Qed.

Lemma inlineForceSequentialOrInParallelSection_failsLate :
  failsOnlyAfterEmitting (Natives.inlineForceSequentialOrInParallelSection jit callInfo).
Proof. unfold Natives.inlineForceSequentialOrInParallelSection. fails_late. Qed.

Lemma inlineForkJoinGetSlice_failsLate :
  failsOnlyAfterEmitting (Natives.inlineForkJoinGetSlice jit callInfo).
Proof. unfold Natives.inlineForkJoinGetSlice. fails_late. Qed.

Lemma inlineObjectIsTypeDescr_failsLate :
  failsOnlyAfterEmitting (Natives.inlineObjectIsTypeDescr jit callInfo).
Proof. unfold Natives.inlineObjectIsTypeDescr. fails_late. Qed.

Lemma inlineSetTypedObjectOffset_failsLate :
  failsOnlyAfterEmitting (Natives.inlineSetTypedObjectOffset jit callInfo).
Proof. unfold Natives.inlineSetTypedObjectOffset. fails_late. Qed.

Lemma inlineUnsafeSetReservedSlot_failsLate :
  failsOnlyAfterEmitting (Natives.inlineUnsafeSetReservedSlot jit callInfo).
Proof. unfold Natives.inlineUnsafeSetReservedSlot. fails_late. Qed.

Lemma inlineIsCallable_failsLate :
  failsOnlyAfterEmitting (Natives.inlineIsCallable jit callInfo).
Proof. unfold Natives.inlineIsCallable. fails_late. Qed.

Lemma inlineToInteger_failsLate :
  failsOnlyAfterEmitting (Natives.inlineToInteger jit callInfo).
Proof. unfold Natives.inlineToInteger. fails_late. Qed.

Lemma inlineIsConstructing_failsLate :
  failsOnlyAfterEmitting (Natives.inlineIsConstructing jit callInfo).
Proof. unfold Natives.inlineIsConstructing. fails_late. Qed.

Lemma inlineMathAbs_failsLate :
  failsOnlyAfterEmitting (Natives.inlineMathAbs callInfo).
Proof. unfold Natives.inlineMathAbs. fails_late. Qed.

Lemma inlineMathFloor_failsLate :
  failsOnlyAfterEmitting (Natives.inlineMathFloor callInfo).
Proof. unfold Natives.inlineMathFloor. fails_late. Qed.

Lemma inlineMathCeil_failsLate :
  failsOnlyAfterEmitting (Natives.inlineMathCeil callInfo).
Proof. unfold Natives.inlineMathCeil. fails_late. Qed.

Lemma inlineMathRound_failsLate :
  failsOnlyAfterEmitting (Natives.inlineMathRound callInfo).
Proof. unfold Natives.inlineMathRound. fails_late. Qed.

Lemma inlineMathClz32_failsLate :
  failsOnlyAfterEmitting (Natives.inlineMathClz32 callInfo).
Proof. unfold Natives.inlineMathClz32. fails_late. Qed.

Lemma inlineMathSqrt_failsLate :
  failsOnlyAfterEmitting (Natives.inlineMathSqrt callInfo).
Proof. unfold Natives.inlineMathSqrt. fails_late. Qed.

Lemma inlineMathAtan2_failsLate :
  failsOnlyAfterEmitting (Natives.inlineMathAtan2 callInfo).
Proof. unfold Natives.inlineMathAtan2. fails_late. Qed.

Lemma inlineMathHypot_failsLate :
  failsOnlyAfterEmitting (Natives.inlineMathHypot callInfo).
Proof. unfold Natives.inlineMathHypot. fails_late. Qed.

Lemma inlineMathRandom_failsLate :
  failsOnlyAfterEmitting (Natives.inlineMathRandom callInfo).
Proof. unfold Natives.inlineMathRandom. fails_late. Qed.

Lemma inlineMathImul_failsLate :
  failsOnlyAfterEmitting (Natives.inlineMathImul callInfo).
Proof. unfold Natives.inlineMathImul. fails_late. Qed.

Lemma inlineStrFromCharCode_failsLate :
  failsOnlyAfterEmitting (Natives.inlineStrFromCharCode callInfo).
Proof. unfold Natives.inlineStrFromCharCode. fails_late. Qed.

Lemma inlineStrCharAt_failsLate :
  failsOnlyAfterEmitting (Natives.inlineStrCharAt callInfo).
Proof. unfold Natives.inlineStrCharAt. fails_late. Qed.

Lemma inlineHaveSameClass_failsLate :
  failsOnlyAfterEmitting (Natives.inlineHaveSameClass callInfo).
Proof. unfold Natives.inlineHaveSameClass. fails_late. Qed.

Lemma inlineIsObject_failsLate :
  failsOnlyAfterEmitting (Natives.inlineIsObject callInfo).
Proof. unfold Natives.inlineIsObject. fails_late. Qed.

Lemma inlineToObject_failsLate :
  failsOnlyAfterEmitting (Natives.inlineToObject callInfo).
Proof. unfold Natives.inlineToObject. fails_late. Qed.

Lemma inlineToString_failsLate :
  failsOnlyAfterEmitting (Natives.inlineToString callInfo).
Proof. unfold Natives.inlineToString. fails_late. Qed.

Lemma inlineBailout_failsLate :
  failsOnlyAfterEmitting (Natives.inlineBailout callInfo).
Proof. unfold Natives.inlineBailout. fails_late. Qed.

Lemma inlineAssertFloat32_failsLate :
  failsOnlyAfterEmitting (Natives.inlineAssertFloat32 callInfo).
Proof. unfold Natives.inlineAssertFloat32. fails_late. Qed.

Lemma inlineAtomicsFence_failsLate :
  failsOnlyAfterEmitting (Natives.inlineAtomicsFence callInfo).
Proof. unfold Natives.inlineAtomicsFence. fails_late. Qed.

Lemma inlineNewDenseArray_failsLate :
  failsOnlyAfterEmitting (Natives.inlineNewDenseArray jit callInfo).
Proof.
  unfold Natives.inlineNewDenseArray, Natives.inlineNewDenseArrayForParallelExecution,
    Natives.inlineNewDenseArrayForSequentialExecution.
  fails_late.
Qed.

Lemma keepsInstructions_inlineArray_initLength (templateObject : NativeObject) :
  keepsInstructions (Natives.inlineArray_initLength jit callInfo templateObject).
Proof. unfold Natives.inlineArray_initLength. keeps_instructions. Qed.

Lemma extendsInstructions_inlineArray_stores (ins elements : Natives.MNode)
    (conversion : types.DoubleConversion) (values : list MDefinition) :
  forall i id,
    extendsInstructions (Natives.inlineArray_stores ins elements conversion values i id).
Proof.
  induction values as [ | value rest IH]; intros i id;
    cbn [Natives.inlineArray_stores].
  - apply extendsInstructions_keeps, keepsInstructions_ret.
  - pose proof IH. extends_instructions.
Qed.

Lemma inlineArray_failsLate : failsOnlyAfterEmitting (Natives.inlineArray jit callInfo).
Proof.
  pose proof keepsInstructions_inlineArray_initLength.
  pose proof extendsInstructions_inlineArray_stores.
  unfold Natives.inlineArray. fails_late.
Qed.

(** A specialiser of the first part that fails only after emitting does so
    in this module too. *)
Lemma liftCore_failsLate (inline : Build InliningStatus) :
  (forall c, fst (inline c) = InliningStatus_Error ->
             instructions (current (snd (inline c))) <> instructions (current c)) ->
  failsOnlyAfterEmitting (Natives.liftCore inline).
Proof.
  intros Hc b. unfold Natives.liftCore.
  specialize (Hc (builderAt (Natives.pc b))).
  destruct (inline (builderAt (Natives.pc b))) as [status c].
  cbn [fst snd] in *. intros ->. specialize (Hc eq_refl).
  unfold Natives.coreInstructions.
  destruct (instructions (current c)) as [ | node nodes]; [now contradiction Hc | ].
  cbn [map]. apply app_cons_neq.
Qed.

Lemma liftCore_neverFails (inline : Build InliningStatus) :
  (forall c, inline c = (InliningStatus_NotInlined, c) \/
             fst (inline c) = InliningStatus_Inlined) ->
  failsOnlyAfterEmitting (Natives.liftCore inline).
Proof.
  intros Hc. apply liftCore_failsLate. intros c H.
  destruct (Hc c) as [E | E]; rewrite E in H; discriminate H.
Qed.

End FailsOnlyAfterEmitting.

Create HintDb fails_late discriminated.

#[local] Hint Resolve inlineMathFunction_failsLate inlineStringObject_failsLate
  inlineMathFRound_failsLate inlineStringSplit_failsLate inlineStrReplace_failsLate
  inlineForceSequentialOrInParallelSection_failsLate inlineForkJoinGetSlice_failsLate
  inlineObjectIsTypeDescr_failsLate inlineSetTypedObjectOffset_failsLate
  inlineUnsafeSetReservedSlot_failsLate inlineIsCallable_failsLate
  inlineToInteger_failsLate inlineIsConstructing_failsLate inlineMathAbs_failsLate
  inlineMathFloor_failsLate inlineMathCeil_failsLate inlineMathRound_failsLate
  inlineMathClz32_failsLate inlineMathSqrt_failsLate inlineMathAtan2_failsLate
  inlineMathHypot_failsLate inlineMathRandom_failsLate inlineMathImul_failsLate
  inlineStrFromCharCode_failsLate inlineStrCharAt_failsLate inlineHaveSameClass_failsLate
  inlineIsObject_failsLate inlineToObject_failsLate inlineToString_failsLate
  inlineBailout_failsLate inlineAssertFloat32_failsLate inlineAtomicsFence_failsLate
  inlineNewDenseArray_failsLate inlineArray_failsLate : fails_late.

Lemma returned_failsOnlyAfterEmitting (inline : Natives.Build InliningStatus) :
  failsOnlyAfterEmitting inline ->
  dispatchFailsOnlyAfterEmitting (Natives.returned inline).
Proof.
  intros Hf b. specialize (Hf b). unfold Natives.returned, Natives.bind, Natives.ret.
  destruct (inline b) as [status b1]. cbn [fst snd] in *.
  intros H. apply Hf. congruence.
Qed.

(** X17.  Whenever [inlineNativeCall] answers Error for a native whose
    specialiser emits everything itself, instructions have been added to the
    current block: the failure comes after the commit.  The exceptions are
    Array.prototype.join, whose failed checks answer Error, Math.max and
    Math.min, and the RegExp natives.  The exceptions are real: when the
    stub of RegExp.prototype.test cannot be created, a call that passed
    every check fails with the builder untouched; and so does a call of
    Math.max or Math.min with an int32 first argument when the vector of
    the int32 arguments cannot take its first element. *)
Theorem inlineNativeCall_fails_only_after_emitting (jit : Natives.Collaborators)
    (callInfo : CallInfo) (target : Natives.JSFunction) :
  (emitsThroughCollaborators (Natives.native target) = false ->
   mayFailBeforeEmitting (Natives.native target) = false ->
   dispatchFailsOnlyAfterEmitting (Natives.inlineNativeCall jit callInfo target)) /\
  (forall b,
     Natives.ensureRegExpTestStubExists jit = false ->
     fst (Natives.inlineRegExpTest jit callInfo b) <> InliningStatus_NotInlined ->
     Natives.inlineRegExpTest jit callInfo b = (InliningStatus_Error, b)) /\
  (forall (max : bool) (c : IonBuilder),
     constructing callInfo = false -> 1 <= argc callInfo ->
     IsNumberType (getInlineReturnType c) = true ->
     type (getArg callInfo 0) = MIRType_Int32 ->
     appendAvailable (pc c) 0 = false ->
     inlineMathMinMax callInfo max c = (InliningStatus_Error, c)).
Proof.
  split; [ | split].
  - unfold Natives.inlineNativeCall.
    destruct (Natives.inlineNative jit); cbn [negb];
      [ | intros _ _; apply returned_failsOnlyAfterEmitting,
                        failsOnlyAfterEmitting_ret; discriminate].
    destruct (Natives.native target);
      cbn [emitsThroughCollaborators mayFailBeforeEmitting];
      intros Hself Hlate; try discriminate Hself; try discriminate Hlate;
      apply returned_failsOnlyAfterEmitting;
      auto with fails_late.
    all: try (apply failsOnlyAfterEmitting_ret; discriminate).
    all: try (apply liftCore_neverFails; intros c;
              first [ apply inlineMathPow_declines_cleanly
                    | apply inlineStrCharCodeAt_declines_cleanly
                    | apply inlineHasClass_declines_cleanly ]).
    all: try (apply liftCore_failsLate; intros c;
              first [ apply inlineArraySplice_declinesBeforeEmitting
                    | apply inlineArrayConcat_declinesBeforeEmitting ]).
    + apply liftCore_neverFails. intros c.
      now destruct (inlineAtomics_decline_cleanly callInfo atomics_add c) as [_ [_ [H _]]].
    + apply liftCore_neverFails. intros c.
      now destruct (inlineAtomics_decline_cleanly callInfo atomics_add c) as [H _].
    + apply liftCore_neverFails. intros c.
      now destruct (inlineAtomics_decline_cleanly callInfo atomics_add c) as [_ [H _]].
    + apply liftCore_neverFails. intros c.
      now destruct (inlineAtomics_decline_cleanly callInfo op c) as [_ [_ [_ H]]].
  - intros b Hstub. unfold Natives.inlineRegExpTest. rewrite Hstub.
    unfold_natives. decide_tests; cbn; intros H; try reflexivity; now contradiction H.
  - intros max c Hc Hargc Hrt Htype Happend.
    unfold inlineMathMinMax.
    replace (argc callInfo <? 1) with false by (symmetry; apply Z.ltb_ge; exact Hargc).
    rewrite Hc. cbn [orb].
    unfold bind at 1, ask at 1. rewrite Hrt. cbn [negb].
    unfold bind at 1, ask at 1.
    unfold getArg in Htype. unfold argc in Hargc.
    destruct (argv callInfo) as [ | arg rest]; [cbn in Hargc; lia | ].
    cbn [nth] in Htype. cbn [inlineMathMinMax_partition List.length].
    rewrite Htype, Happend. reflexivity.
Qed.

(** ** Failing needs a missing resume point *)

Lemma keepsCallSite_ret {A : Type} (a : A) : keepsCallSite (Natives.ret a).
Proof. intros b. reflexivity. Qed.

Lemma keepsCallSite_bind {A B : Type} (m : Natives.Build A) (k : A -> Natives.Build B) :
  keepsCallSite m -> (forall a, keepsCallSite (k a)) -> keepsCallSite (Natives.bind m k).
Proof.
  intros Hm Hk b. unfold Natives.bind. specialize (Hm b).
  destruct (m b) as [a b1]. cbn [snd] in Hm. now rewrite Hk.
Qed.

Lemma keepsCallSite_ask {A : Type} (f : Natives.IonBuilder -> A) :
  keepsCallSite (Natives.ask f).
Proof. intros b. reflexivity. Qed.

Lemma keepsCallSite_add (ins : Natives.MNode) : keepsCallSite (Natives.add ins).
Proof. intros b. reflexivity. Qed.

Lemma keepsCallSite_push (def : Natives.MNode) : keepsCallSite (Natives.push def).
Proof. intros b. reflexivity. Qed.

Lemma keepsCallSite_flagImplicitlyUsed (defs : list MDefinition) :
  keepsCallSite (Natives.flagImplicitlyUsed defs).
Proof. intros b. reflexivity. Qed.

Lemma keepsCallSite_setImplicitlyUsedUnchecked (callInfo : CallInfo) :
  keepsCallSite (Natives.setImplicitlyUsedUnchecked callInfo).
Proof. intros b. reflexivity. Qed.

Lemma keepsCallSite_resumeAfter (ins : Natives.MNode) :
  keepsCallSite (Natives.resumeAfter ins).
Proof.
  intros b. unfold Natives.resumeAfter.
  now destruct (resumePointAvailable (Natives.pc b)).
Qed.

Lemma keepsCallSite_freeze (key : types.HeapTypeSetKey) :
  keepsCallSite (Natives.freeze key).
Proof. intros b. reflexivity. Qed.

Lemma keepsCallSite_addType (t : types.Type_) : keepsCallSite (Natives.addType t).
Proof. intros b. reflexivity. Qed.

Lemma keepsCallSite_setShouldConvertDoubleElements (flag : bool) :
  keepsCallSite (Natives.setShouldConvertDoubleElements flag).
Proof. intros b. reflexivity. Qed.

Lemma keepsCallSite_pushConstant (v : Value) : keepsCallSite (Natives.pushConstant v).
Proof. intros b. reflexivity. Qed.

Lemma keepsCallSite_constant (v : Value) : keepsCallSite (Natives.constant v).
Proof. intros b. reflexivity. Qed.

Lemma keepsCallSite_addBoundsCheck (index length : MDefinition) :
  keepsCallSite (Natives.addBoundsCheck index length).
Proof. intros b. reflexivity. Qed.

Lemma failsOnlyWithoutResumePoint_ret (status : InliningStatus) :
  status <> InliningStatus_Error -> failsOnlyWithoutResumePoint (Natives.ret status).
Proof. intros H b _. exact H. Qed.

Lemma failsOnlyWithoutResumePoint_bind {A : Type} (m : Natives.Build A)
    (k : A -> Natives.Build InliningStatus) :
  keepsCallSite m -> (forall a, failsOnlyWithoutResumePoint (k a)) ->
  failsOnlyWithoutResumePoint (Natives.bind m k).
Proof.
  intros Hm Hk b Hr. unfold Natives.bind. specialize (Hm b).
  destruct (m b) as [a b1]. cbn [snd] in Hm. apply Hk. now rewrite Hm.
Qed.

(** Where a resume point can be attached, [resumeAfter] answers true. *)
Lemma failsOnlyWithoutResumePoint_resumeAfter (ins : Natives.MNode)
    (k : bool -> Natives.Build InliningStatus) :
  failsOnlyWithoutResumePoint (k true) ->
  failsOnlyWithoutResumePoint (Natives.bind (Natives.resumeAfter ins) k).
Proof.
  intros Hk b Hr. unfold Natives.bind, Natives.resumeAfter. rewrite Hr.
  apply Hk. exact Hr.
Qed.

Create HintDb call_site discriminated.

#[local] Hint Resolve keepsCallSite_ret keepsCallSite_ask keepsCallSite_add
  keepsCallSite_push keepsCallSite_flagImplicitlyUsed
  keepsCallSite_setImplicitlyUsedUnchecked keepsCallSite_resumeAfter
  keepsCallSite_freeze keepsCallSite_addType
  keepsCallSite_setShouldConvertDoubleElements keepsCallSite_pushConstant
  keepsCallSite_constant keepsCallSite_addBoundsCheck : call_site.

Ltac keeps_call_site :=
  repeat first
    [ apply keepsCallSite_bind; [ | intros ? ]
    | solve [auto with call_site]
    | match goal with
      | |- keepsCallSite (match ?c with _ => _ end) => destruct c
      | |- keepsCallSite (let (_, _) := ?c in _) => destruct c
      end ].

Ltac fails_without_resume_point :=
  repeat first
    [ apply failsOnlyWithoutResumePoint_ret; discriminate
    | apply failsOnlyWithoutResumePoint_resumeAfter; cbn [negb]
    | apply failsOnlyWithoutResumePoint_bind; [solve [keeps_call_site] | intros ? ]
    | match goal with
      | |- failsOnlyWithoutResumePoint (match ?c with _ => _ end) => destruct c
      | |- failsOnlyWithoutResumePoint (let (_, _) := ?c in _) => destruct c
      end ].

Section FailsOnlyWithoutResumePoint.

Variable jit : Natives.Collaborators.
Variable callInfo : CallInfo.

Lemma inlineMathFunction_failsWithoutResumePoint (function : Natives.MMathFunction.Function) :
  failsOnlyWithoutResumePoint (Natives.inlineMathFunction jit callInfo function).
Proof. unfold Natives.inlineMathFunction. fails_without_resume_point. Qed.

Lemma inlineStringObject_failsWithoutResumePoint :
  failsOnlyWithoutResumePoint (Natives.inlineStringObject jit callInfo).
Proof. unfold Natives.inlineStringObject. fails_without_resume_point. Qed.

Lemma inlineStrReplace_failsWithoutResumePoint :
  failsOnlyWithoutResumePoint (Natives.inlineStrReplace jit callInfo).
Proof. unfold Natives.inlineStrReplace. fails_without_resume_point. Qed.

Lemma inlineMathFRound_failsWithoutResumePoint :
  failsOnlyWithoutResumePoint (Natives.inlineMathFRound jit callInfo).
Proof. unfold Natives.inlineMathFRound. fails_without_resume_point. Qed.

Lemma inlineStringSplit_failsWithoutResumePoint :
  failsOnlyWithoutResumePoint (Natives.inlineStringSplit jit callInfo).
Proof. unfold Natives.inlineStringSplit. fails_without_resume_point. Qed.

Lemma inlineForceSequentialOrInParallelSection_failsWithoutResumePoint :
  failsOnlyWithoutResumePoint (Natives.inlineForceSequentialOrInParallelSection jit callInfo).
Proof. unfold Natives.inlineForceSequentialOrInParallelSection. fails_without_resume_point. Qed.

Lemma inlineForkJoinGetSlice_failsWithoutResumePoint :
  failsOnlyWithoutResumePoint (Natives.inlineForkJoinGetSlice jit callInfo).
Proof. unfold Natives.inlineForkJoinGetSlice. fails_without_resume_point. Qed.

Lemma inlineObjectIsTypeDescr_failsWithoutResumePoint :
  failsOnlyWithoutResumePoint (Natives.inlineObjectIsTypeDescr jit callInfo).
Proof. unfold Natives.inlineObjectIsTypeDescr. fails_without_resume_point. Qed.

Lemma inlineSetTypedObjectOffset_failsWithoutResumePoint :
  failsOnlyWithoutResumePoint (Natives.inlineSetTypedObjectOffset jit callInfo).
Proof. unfold Natives.inlineSetTypedObjectOffset. fails_without_resume_point. Qed.

Lemma inlineUnsafeSetReservedSlot_failsWithoutResumePoint :
  failsOnlyWithoutResumePoint (Natives.inlineUnsafeSetReservedSlot jit callInfo).
Proof. unfold Natives.inlineUnsafeSetReservedSlot. fails_without_resume_point. Qed.

Lemma inlineIsCallable_failsWithoutResumePoint :
  failsOnlyWithoutResumePoint (Natives.inlineIsCallable jit callInfo).
Proof. unfold Natives.inlineIsCallable. fails_without_resume_point. Qed.

Lemma inlineToInteger_failsWithoutResumePoint :
  failsOnlyWithoutResumePoint (Natives.inlineToInteger jit callInfo).
Proof. unfold Natives.inlineToInteger. fails_without_resume_point. Qed.

Lemma inlineIsConstructing_failsWithoutResumePoint :
  failsOnlyWithoutResumePoint (Natives.inlineIsConstructing jit callInfo).
Proof. unfold Natives.inlineIsConstructing. fails_without_resume_point. Qed.

Lemma inlineMathAbs_failsWithoutResumePoint :
  failsOnlyWithoutResumePoint (Natives.inlineMathAbs callInfo).
Proof. unfold Natives.inlineMathAbs. fails_without_resume_point. Qed.

Lemma inlineMathFloor_failsWithoutResumePoint :
  failsOnlyWithoutResumePoint (Natives.inlineMathFloor callInfo).
Proof. unfold Natives.inlineMathFloor. fails_without_resume_point. Qed.

Lemma inlineMathCeil_failsWithoutResumePoint :
  failsOnlyWithoutResumePoint (Natives.inlineMathCeil callInfo).
Proof. unfold Natives.inlineMathCeil. fails_without_resume_point. Qed.

Lemma inlineMathRound_failsWithoutResumePoint :
  failsOnlyWithoutResumePoint (Natives.inlineMathRound callInfo).
Proof. unfold Natives.inlineMathRound. fails_without_resume_point. Qed.

Lemma inlineMathClz32_failsWithoutResumePoint :
  failsOnlyWithoutResumePoint (Natives.inlineMathClz32 callInfo).
Proof. unfold Natives.inlineMathClz32. fails_without_resume_point. Qed.

Lemma inlineMathSqrt_failsWithoutResumePoint :
  failsOnlyWithoutResumePoint (Natives.inlineMathSqrt callInfo).
Proof. unfold Natives.inlineMathSqrt. fails_without_resume_point. Qed.

Lemma inlineMathAtan2_failsWithoutResumePoint :
  failsOnlyWithoutResumePoint (Natives.inlineMathAtan2 callInfo).
Proof. unfold Natives.inlineMathAtan2. fails_without_resume_point. Qed.

Lemma inlineMathHypot_failsWithoutResumePoint :
  failsOnlyWithoutResumePoint (Natives.inlineMathHypot callInfo).
Proof. unfold Natives.inlineMathHypot. fails_without_resume_point. Qed.

Lemma inlineMathRandom_failsWithoutResumePoint :
  failsOnlyWithoutResumePoint (Natives.inlineMathRandom callInfo).
Proof. unfold Natives.inlineMathRandom. fails_without_resume_point. Qed.

Lemma inlineMathImul_failsWithoutResumePoint :
  failsOnlyWithoutResumePoint (Natives.inlineMathImul callInfo).
Proof. unfold Natives.inlineMathImul. fails_without_resume_point. Qed.

Lemma inlineStrFromCharCode_failsWithoutResumePoint :
  failsOnlyWithoutResumePoint (Natives.inlineStrFromCharCode callInfo).
Proof. unfold Natives.inlineStrFromCharCode. fails_without_resume_point. Qed.

Lemma inlineStrCharAt_failsWithoutResumePoint :
  failsOnlyWithoutResumePoint (Natives.inlineStrCharAt callInfo).
Proof. unfold Natives.inlineStrCharAt. fails_without_resume_point. Qed.

Lemma inlineHaveSameClass_failsWithoutResumePoint :
  failsOnlyWithoutResumePoint (Natives.inlineHaveSameClass callInfo).
Proof. unfold Natives.inlineHaveSameClass. fails_without_resume_point. Qed.

Lemma inlineIsObject_failsWithoutResumePoint :
  failsOnlyWithoutResumePoint (Natives.inlineIsObject callInfo).
Proof. unfold Natives.inlineIsObject. fails_without_resume_point. Qed.

Lemma inlineToObject_failsWithoutResumePoint :
  failsOnlyWithoutResumePoint (Natives.inlineToObject callInfo).
Proof. unfold Natives.inlineToObject. fails_without_resume_point. Qed.

Lemma inlineToString_failsWithoutResumePoint :
  failsOnlyWithoutResumePoint (Natives.inlineToString callInfo).
Proof. unfold Natives.inlineToString. fails_without_resume_point. Qed.

Lemma inlineBailout_failsWithoutResumePoint :
  failsOnlyWithoutResumePoint (Natives.inlineBailout callInfo).
Proof. unfold Natives.inlineBailout. fails_without_resume_point. Qed.

Lemma inlineAssertFloat32_failsWithoutResumePoint :
  failsOnlyWithoutResumePoint (Natives.inlineAssertFloat32 callInfo).
Proof. unfold Natives.inlineAssertFloat32. fails_without_resume_point. Qed.

Lemma inlineAtomicsFence_failsWithoutResumePoint :
  failsOnlyWithoutResumePoint (Natives.inlineAtomicsFence callInfo).
Proof. unfold Natives.inlineAtomicsFence. fails_without_resume_point. Qed.

Lemma inlineNewDenseArray_failsWithoutResumePoint :
  failsOnlyWithoutResumePoint (Natives.inlineNewDenseArray jit callInfo).
Proof.
  unfold Natives.inlineNewDenseArray, Natives.inlineNewDenseArrayForParallelExecution,
    Natives.inlineNewDenseArrayForSequentialExecution.
  fails_without_resume_point.
Qed.

Lemma keepsCallSite_inlineArray_initLength (templateObject : NativeObject) :
  keepsCallSite (Natives.inlineArray_initLength jit callInfo templateObject).
Proof. unfold Natives.inlineArray_initLength. keeps_call_site. Qed.

Lemma keepsCallSite_inlineArray_stores (ins elements : Natives.MNode)
    (conversion : types.DoubleConversion) (values : list MDefinition) :
  forall i id,
    keepsCallSite (Natives.inlineArray_stores ins elements conversion values i id).
Proof.
  induction values as [ | value rest IH]; intros i id;
    cbn [Natives.inlineArray_stores].
  - apply keepsCallSite_ret.
  - pose proof IH. keeps_call_site.
Qed.

Lemma inlineArray_failsWithoutResumePoint :
  failsOnlyWithoutResumePoint (Natives.inlineArray jit callInfo).
Proof.
  pose proof keepsCallSite_inlineArray_initLength.
  pose proof keepsCallSite_inlineArray_stores.
  unfold Natives.inlineArray. fails_without_resume_point.
Qed.

(** The RegExp natives fail as well when their stub cannot be created. *)
Lemma inlineRegExpTest_failsWithoutResumePoint :
  Natives.ensureRegExpTestStubExists jit = true ->
  failsOnlyWithoutResumePoint (Natives.inlineRegExpTest jit callInfo).
Proof.
  intros Hstub. unfold Natives.inlineRegExpTest. rewrite Hstub. cbn [negb].
  fails_without_resume_point.
Qed.

(** A specialiser of the first part runs at the call site of the builder. *)
Lemma liftCore_failsWithoutResumePoint (inline : Build InliningStatus) :
  (forall c, resumePointAvailable (pc c) = true ->
             fst (inline c) <> InliningStatus_Error) ->
  failsOnlyWithoutResumePoint (Natives.liftCore inline).
Proof.
  intros Hc b Hr. unfold Natives.liftCore.
  specialize (Hc (builderAt (Natives.pc b)) Hr).
  now destruct (inline (builderAt (Natives.pc b))) as [status c].
Qed.

Lemma liftCore_neverFailsWithoutResumePoint (inline : Build InliningStatus) :
  (forall c, inline c = (InliningStatus_NotInlined, c) \/
             fst (inline c) = InliningStatus_Inlined) ->
  failsOnlyWithoutResumePoint (Natives.liftCore inline).
Proof.
  intros Hc. apply liftCore_failsWithoutResumePoint. intros c _ H.
  destruct (Hc c) as [E | E]; rewrite E in H; discriminate H.
Qed.

Lemma inlineArraySplice_needs_a_resume_point (c : IonBuilder) :
  resumePointAvailable (pc c) = true ->
  fst (inlineArraySplice callInfo c) <> InliningStatus_Error.
Proof.
  intros Hr.
  remember (inlineArraySplice callInfo c) as r eqn:Er. unfold inlineArraySplice in Er.
  unfold_build. cbn in Er.
  repeat first
    [ rewrite Hr in Er; cbn in Er
    | match type of Er with
      | context [match ?t with _ => _ end] =>
          lazymatch t with
          | context [match _ with _ => _ end] => fail
          | resumePointAvailable _ => fail
          | _ => destruct t; cbn in Er
          end
      end ];
    subst r; cbn; discriminate.
Qed.

Lemma inlineArrayConcat_needs_a_resume_point (c : IonBuilder) :
  resumePointAvailable (pc c) = true ->
  fst (inlineArrayConcat callInfo c) <> InliningStatus_Error.
Proof.
  intros Hr.
  remember (inlineArrayConcat callInfo c) as r eqn:Er. unfold inlineArrayConcat in Er.
  unfold_build. cbn in Er.
  repeat first
    [ rewrite Hr in Er; cbn in Er
    | match type of Er with
      | context [match ?t with _ => _ end] =>
          lazymatch t with
          | context [match _ with _ => _ end] => fail
          | resumePointAvailable _ => fail
          | _ => destruct t; cbn in Er
          end
      end ];
    subst r; cbn; discriminate.
Qed.

End FailsOnlyWithoutResumePoint.

Create HintDb fails_without_resume_point discriminated.

#[local] Hint Resolve inlineMathFunction_failsWithoutResumePoint
  inlineStringObject_failsWithoutResumePoint inlineMathFRound_failsWithoutResumePoint
  inlineStringSplit_failsWithoutResumePoint inlineStrReplace_failsWithoutResumePoint
  inlineForceSequentialOrInParallelSection_failsWithoutResumePoint
  inlineForkJoinGetSlice_failsWithoutResumePoint
  inlineObjectIsTypeDescr_failsWithoutResumePoint
  inlineSetTypedObjectOffset_failsWithoutResumePoint
  inlineUnsafeSetReservedSlot_failsWithoutResumePoint
  inlineIsCallable_failsWithoutResumePoint inlineToInteger_failsWithoutResumePoint
  inlineIsConstructing_failsWithoutResumePoint inlineMathAbs_failsWithoutResumePoint
  inlineMathFloor_failsWithoutResumePoint inlineMathCeil_failsWithoutResumePoint
  inlineMathRound_failsWithoutResumePoint inlineMathClz32_failsWithoutResumePoint
  inlineMathSqrt_failsWithoutResumePoint inlineMathAtan2_failsWithoutResumePoint
  inlineMathHypot_failsWithoutResumePoint inlineMathRandom_failsWithoutResumePoint
  inlineMathImul_failsWithoutResumePoint inlineStrFromCharCode_failsWithoutResumePoint
  inlineStrCharAt_failsWithoutResumePoint inlineHaveSameClass_failsWithoutResumePoint
  inlineIsObject_failsWithoutResumePoint inlineToObject_failsWithoutResumePoint
  inlineToString_failsWithoutResumePoint inlineBailout_failsWithoutResumePoint
  inlineAssertFloat32_failsWithoutResumePoint inlineAtomicsFence_failsWithoutResumePoint
  inlineNewDenseArray_failsWithoutResumePoint inlineArray_failsWithoutResumePoint :
  fails_without_resume_point.

(** The dispatcher answers NotInlined or Inlined where the specialiser does
    not fail. *)
Lemma returned_without_failure (inline : Natives.Build InliningStatus)
    (b : Natives.IonBuilder) :
  fst (inline b) <> InliningStatus_Error ->
  fst (Natives.returned inline b) = Some InliningStatus_NotInlined \/
  fst (Natives.returned inline b) = Some InliningStatus_Inlined.
Proof.
  unfold Natives.returned, Natives.bind, Natives.ret.
  destruct (inline b) as [[ | | ] b1]; cbn [fst]; intros H;
    [now contradiction H | now left | now right].
Qed.

(** Math.max and Math.min need the vector of their int32 arguments. *)
Lemma inlineMathMinMax_needs_the_vector (callInfo : CallInfo) (max : bool)
    (b : Natives.IonBuilder) :
  (forall n, appendAvailable (Natives.pc b) n = true) ->
  fst (Natives.liftCore (inlineMathMinMax callInfo max) b) <> InliningStatus_Error.
Proof.
  intros Happend. unfold Natives.liftCore.
  destruct (inlineMathMinMax_declines_cleanly callInfo max (builderAt (Natives.pc b)))
    as [E | [[_ [n Hn]] | E]].
  - rewrite E. discriminate.
  - cbn [pc builderAt] in Hn. rewrite Happend in Hn. discriminate Hn.
  - destruct (inlineMathMinMax callInfo max (builderAt (Natives.pc b))) as [status c].
    cbn [fst] in *. rewrite E. discriminate.
Qed.

(** X18.  A native whose specialiser emits everything itself makes the
    compilation fail only when an allocation fails: at a call site where a
    resume point can be attached and vectors can grow (and with the stub of
    RegExp.prototype.test in place) [inlineNativeCall] answers NotInlined or
    Inlined, never Error, Array.prototype.join apart.  The resume point is
    needed: without one, a call of the String constructor that passes every
    check answers Error. *)
Theorem inlineNativeCall_fails_only_when_allocation_fails
    (jit : Natives.Collaborators) (callInfo : CallInfo) (target : Natives.JSFunction) :
  (forall b,
     emitsThroughCollaborators (Natives.native target) = false ->
     Natives.native target <> Natives.array_join ->
     Natives.ensureRegExpTestStubExists jit = true ->
     resumePointAvailable (Natives.pc b) = true ->
     (forall n, appendAvailable (Natives.pc b) n = true) ->
     fst (Natives.inlineNativeCall jit callInfo target b)
       = Some InliningStatus_NotInlined \/
     fst (Natives.inlineNativeCall jit callInfo target b)
       = Some InliningStatus_Inlined) /\
  (forall b,
     resumePointAvailable (Natives.pc b) = false ->
     fst (Natives.inlineStringObject jit callInfo b) <> InliningStatus_NotInlined ->
     fst (Natives.inlineStringObject jit callInfo b) = InliningStatus_Error).
Proof.
  split.
  - intros b Hself Hjoin Hstub Hr Happend.
    assert (Hsite : forall inline, failsOnlyWithoutResumePoint inline ->
                      fst (Natives.returned inline b) = Some InliningStatus_NotInlined \/
                      fst (Natives.returned inline b) = Some InliningStatus_Inlined)
      by (intros inline Hinline; apply returned_without_failure, Hinline, Hr).
    unfold Natives.inlineNativeCall.
    destruct (Natives.inlineNative jit); cbn [negb];
      [ | apply Hsite, failsOnlyWithoutResumePoint_ret; discriminate].
    destruct (Natives.native target);
      cbn [emitsThroughCollaborators] in Hself;
      try discriminate Hself; try (now contradiction Hjoin);
      try (apply returned_without_failure, inlineMathMinMax_needs_the_vector;
           exact Happend);
      apply Hsite; auto with fails_without_resume_point.
    all: try (apply failsOnlyWithoutResumePoint_ret; discriminate).
    all: try (apply inlineRegExpTest_failsWithoutResumePoint; exact Hstub).
    all: try (apply liftCore_neverFailsWithoutResumePoint; intros c;
              first [ apply inlineMathPow_declines_cleanly
                    | apply inlineStrCharCodeAt_declines_cleanly
                    | apply inlineHasClass_declines_cleanly ]).
    all: try (apply liftCore_failsWithoutResumePoint; intros c;
              first [ apply inlineArraySplice_needs_a_resume_point
                    | apply inlineArrayConcat_needs_a_resume_point ]).
    + apply liftCore_neverFailsWithoutResumePoint. intros c.
      now destruct (inlineAtomics_decline_cleanly callInfo atomics_add c) as [_ [_ [H _]]].
    + apply liftCore_neverFailsWithoutResumePoint. intros c.
      now destruct (inlineAtomics_decline_cleanly callInfo atomics_add c) as [H _].
    + apply liftCore_neverFailsWithoutResumePoint. intros c.
      now destruct (inlineAtomics_decline_cleanly callInfo atomics_add c) as [_ [H _]].
    + match goal with
      | |- context [inlineAtomicsBinop _ ?op] =>
          apply liftCore_neverFailsWithoutResumePoint; intros c;
          now destruct (inlineAtomics_decline_cleanly callInfo op c) as [_ [_ [_ H]]]
      end.
  - intros b Hr. unfold Natives.inlineStringObject. unfold_natives.
    decide_tests; cbn in *; intros H; try reflexivity; try (now contradiction H);
      congruence.
Qed.

(** Array.prototype.splice with a popped result, at a call site with a
    resume point: the call is specialised. *)
Lemma inlineNativeCall_fails_only_when_allocation_fails_witness :
  let jit := exampleCollaborators Natives.SequentialExecution false (fun _ => false) in
  let callInfo := callOf (operand 0 MIRType_Object)
                    [operand 1 MIRType_Int32; operand 2 MIRType_Int32] in
  let target := {| Natives.native := Natives.array_splice;
                   Natives.getBoundFunctionTarget :=
                     {| Natives.object_id := 0; Natives.is_JSFunction := false;
                        Natives.isInterpretedConstructor := false;
                        Natives.isNativeConstructor := false;
                        Natives.constructHook_is_constructSized := false;
                        Natives.as_SizedTypeDescr :=
                          {| Natives.descr_id := 0; Natives.size := 0;
                             Natives.getClass := PlainObject_class |} |};
                   Natives.getBoundFunctionThis := UndefinedValue;
                   Natives.boundFunctionArguments := [] |} in
  let b := nativesBuilderAt (siteReturning MIRType_Object true) in
  fst (Natives.inlineNativeCall jit callInfo target b) = Some InliningStatus_NotInlined \/
  fst (Natives.inlineNativeCall jit callInfo target b) = Some InliningStatus_Inlined.
Proof.
  intros jit callInfo target b.
  apply (proj1 (inlineNativeCall_fails_only_when_allocation_fails jit callInfo target) b);
    [reflexivity | discriminate | reflexivity | reflexivity | reflexivity].
Defined.
